(* ===== verification/_CoqProject ===== *)
-Q . S2P
Prelude.v
CLib.v
Float.v
Picotime.v
Slist.v
Packet.v
Utils.v
Address.v
Filter.v
FilterPack.v
CreateFilter.v
Protocols.v
ConnectionId.v
ConnectionReopen.v
Stream.v
StreamFile.v
StreamBuffer.v
Interface.v
StreamEthernet.v
StreamUdp.v
StreamPfring.v
Text.v
Log.v
Overview.v
StreamApi.v
Marc.v
Marker.v
Dns.v
Format.v
Dump.v
Tools.v
Capmerge.v
CapmergeMain.v
Capfilter.v
Pcap.v
Capinfo.v
Pipelines.v
Capdump.v
Capreport.v
Capmarker.v
Capshow.v
Capwalk.v
