(* ===== verification/Prelude.v ===== *)
(** * libcap_utils: a verification development

    libcap_utils is a C library that captures, stores, filters and dissects
    network traffic.  A measurement point sends or stores _captured packets_: a
    capture header ([struct cap_header]: interface, measurement point, time with
    picoseconds, original and captured length) and the captured bytes.  The
    library reads packets from streams (capture files, measurement frames over
    Ethernet or UDP), matches them against filters, and walks their protocol
    headers.

    ** The parts of the program and the files that model them

    The files form one library; each requires only files listed before it.

    - [Prelude]: results of C code ([res]: a value, an invalid memory access
      [Fault], a call of abort [Abort], and exhausted fuel [OutOfFuel]), record
      update, machine integers as [Z] with explicit wrap-around ([u8] .. [u64],
      [i32], [ntohs], [ntohl]), memory as lists of bytes with checked loads and
      stores, and the lemmas, tactics ([inv_ok], [total_tac], [ilia], [lens]) and
      the hint database [cap] that the other files share.
    - [CLib]: what the code uses of the C library on strings and numbers: [strchr],
      [strncmp], [strncpy], [strtol], [sscanf] conversions, decimal output,
      [inet_aton] and [inet_ntoa], with print/parse round trips.
    - [Float]: [double] and [float] as the rationals they denote, with rounding to
      nearest even ([round]) and bounds on its error.
    - [Picotime] (src/picotime.c): timestamps.  The code computes with doubles; the
      results are proved exact for normalised values.
    - [Slist] (src/slist.c): growing arrays.  [realloc] gives a block a new number,
      and a pointer into an older block cannot be used any more.
    - [Packet] (src/packet.c, first half; caputils/capture.h): the capture header,
      payload sizes per layer, the search for the IPv4 header behind VLAN tags.
    - [Utils] (src/utils.c, src/error.c): the version, Ethernet addresses as text, the
      table of Ethernet types, error strings.
    - [Address] (src/address.c): stream addresses.  The functions that edit a
      character buffer in place ([strtok2], [homogenize_eth_addr]) work on byte
      lists with offsets, in arrays of the declared sizes.
    - [Filter] (src/filter.c): the criteria, [filter_core] and [filter_match] with
      the state a filter keeps between packets.
    - [FilterPack] (src/filter.c, second half): the network format of filters.
    - [CreateFilter] (src/createfilter.c): filters from command lines and setters.
    - [Protocols] (src/packet.c, second half; src/protocol.c, src/protocols/): the
      table of protocols, every [next_payload] function, [header_walk].
    - [ConnectionId] (src/packet/connection_id.c): identifiers for connections, on
      top of [Slist], with the aliasing of entries and sibling pointers;
      [ConnectionReopen]: the invariant of the database over any sequence of calls.
    - [Stream] (src/stream.c): the read buffer, [stream_read], [stream_peek], over
      the interface [Source] (the callback [fill_buffer]) and its laws.
    - [StreamFile] (src/stream_file.c, writing in src/stream.c): capture files in
      the current and the two legacy formats; an instance of [Source].
    - [StreamBuffer] (src/stream_buffer.c, parts of src/stream.c): the ring of
      measurement frames over the interface [FrameSource] (the callback
      [read_frame]) and its laws; size check and sequence numbers.
    - [Interface] (src/interface.c), [StreamEthernet] (src/stream_ethernet.c),
      [StreamUdp] (src/stream_udp.c): sockets and interfaces as answers of system
      calls and lists of arrivals; instances of [FrameSource].
    - [StreamPfring] (src/stream_pfring.c): measurement frames that stay in a ring of
      the PF_RING library, over the interface [PfRing].
    - [Text] (src/log.c, src/format/): hexadecimal dumps, printable text, tables of
      names, HTTP, measurement frames and the Adler checksum.
    - [Log] (src/log.c): messages, and threads that write them under a mutex as a step
      relation.
    - [Overview] (tools/capinfo.c): durations, amounts and rates as text.
    - [StreamApi] (src/stream.c): streams of any kind behind one address:
      [stream_open], [stream_create], [stream_add], [stream_from_getopt].
    - [Marc] (src/marc.c, src/marc_dstat.c): the exchange of measurement points with
      a control server, with translation between protocol versions.
    - [Marker] (src/marker.c, fallback/be64toh.c): marker packets.
    - [Dns] (src/protocols/dns.c), [Format] (src/format.c, the format functions of
      src/protocols/), [Dump] (their dump functions, [filter_print]): packets as
      text.
    - [Tools]: what the programs share: the interfaces [Input] (peek and read) and
      [Counted] with their laws, opened files as instances, decisions of filters,
      and the relation [extends]: a computation that succeeds on captured bytes
      gives the same result whatever follows them in memory.
    - [Capmerge], [CapmergeMain] (tools/capmerge.c), [Capfilter]
      (tools/capfilter.c), [Pcap] (tools/pcap2cap.c, tools/cap2pcap.c), [Capinfo]
      (tools/capinfo.c), [Capdump], [Capreport] (tools/capdump.c), [Capmarker]
      (tools/capmarker.c), [Capshow] (tools/capshow.c), [Capwalk]
      (tools/capwalk.c, tools/ifstat.c): the programs; [Pipelines]: capfilter or
      capmerge and capinfo used together.

    ** How the code is translated

    A definition has the name of the C function it models and follows its
    statements, early returns included; a [main] is split where its parts are
    used on their own.  A pointer into a packet or a buffer is a byte offset, a null
    pointer is [None]; output parameters are results; static and shared data is
    passed along.  Loads and stores outside an object are [Fault], so a theorem with
    [Ok] also says that the memory accesses are valid.  What a program prints or
    sends is part of its result.  Code outside the repository is a parameter:
    [strptime], [mktime], [strftime], [getservbyname], [getprotobyname], [fopen],
    [strdup], the socket calls, libpcap's compiler, interpreter and files.  Signals,
    alarms and connections are events between the rounds of a loop.

    Loops that are not structural take fuel.  [walk_packet] is given two more steps
    than the packet has captured bytes, since every header but the last starts
    behind the one before it; [skip_extensions] one more than the file has bytes,
    since an extension has at least four; [option_loop] one more than there are
    arguments, since each step consumes one; [ipv4_retry] one more than the packet
    has bytes, since each tag has four; [read_frame_loop] one more than there are
    arrivals; [unused_name] one more than there are files; [expand] one more than
    the format has characters; the options of a TCP header 41 steps, since there are
    at most forty bytes of them.  [stream_read], [stream_peek] and
    [stream_frame_buffer_read] take the fuel as an argument and the theorems say
    how much is enough, because without a time-out they may wait for ever; the loops
    of the programs need one round more than there are packets ([capmerge]: and
    inputs, [capshow] and [capwalk]: and time-outs).

    ** What the theorems show

    - Filters: matching is the conjunction or disjunction of the selected criteria
      ([filter_core_refines]); frame ranges and inter-arrival limits over whole
      packet sequences ([frame_num_exact], [frame_dt_latch]); filters survive
      transport ([filter_pack_unpack], [filter_unpack_legacy]); every command line
      gives a well-formed filter ([filter_from_argv_wf]), options and arguments
      are told apart and every option is applied ([filter_from_argv_split]); prefix
      lengths, ranges and masks mean what the documentation says
      ([ip_src_cidr_matches], [parse_frame_range_text], [parsers_mask]).
    - Packets: the walk over the headers of arbitrary bytes is safe, ends, and
      stays inside the captured data ([walk_packet_safe]); ordinary frames are
      taken apart correctly ([walk_packet_tcp], [payload_size_tcp],
      [find_ipv4_header_frame]); both directions of a connection have one
      identifier ([connection_id_directions]), and asking twice changes nothing,
      also for connections that are opened again ([connection_id_again]).
    - Streams: any sequence of packets written to a file is read back
      ([capfile_roundtrip], [capfile_legacy]); the buffered reader delivers exactly
      the packets of its source whatever the sizes of the pieces
      ([stream_read_next]), and the ring of frames is a queue
      ([frame_buffer_queue]); opening any file ends ([stream_file_open_total]);
      from a command line to the packets over Ethernet ([getopt_ethernet],
      [ethernet_open_read], [stream_open_kind]), and when opening succeeds over
      Ethernet and UDP ([ethernet_open_total], [udp_open_total]).
    - Text: the description and the dump of every header the walk delivers are made,
      with a bound for each protocol on what is read behind the captured data
      ([header_format_safe], [header_dump_safe], [dns_name_safe], [dns_format_safe]);
      dumps fit their buffers ([hexdump_str_fits]); log messages of several threads
      are not mixed up ([log_lines_whole]).
    - Control: messages survive the exchange with a server, and nothing that arrives
      makes the receiver abort ([marc_push_poll], [marc_poll_safe]); markers are
      recognised ([is_marker_frame]).
    - Programs: [capmerge_merges], [capmerge_sorts], [capfilter_splits],
      [pcap_roundtrip] (there and back), [capinfo_reports] (exact statistics),
      [capinfo_overview] (what is shown of them, with the errors of the floating-point
      numbers), [capfilter_capinfo] (the statistics of a filtered trace),
      [capdump_splits] and [capdump_terminates] (one file for each marker, and the
      end after a terminating one), [capmarker_received] (what capmarker sends is
      what capdump takes it for), [capshow_selects] (what is printed for a packet
      does not depend on the filter).
    - Times and addresses: exactness and order ([timepico_sub_exact],
      [timepico_add_exact], [timecmp_order]) and round trips
      ([stream_addr_roundtrip], [ether_aton_hexdump]).
    - Behaviour that is not what the code means to do is stated as theorems too, for
      example [frame_num_adjacent], [filter_pack_loses_port], [parse_vlan_unmasked],
      [walk_packet_gtp_abort], [walk_packet_mpls_overread], [header_format_overreads],
      [format_margin_needed], [dump_margin_needed],
      [aton_ethernet_overflow], [aton_guess_long], [connection_id_reopen_stale],
      [stream_peek_diverges], [empty_frame_aborts], [empty_frame_stuck],
      [capmerge_sort_nothing], [capfilter_negative_caplen], [pcap2cap_empty_lost],
      [no_key_no_marker], [short_datagram_blocks], [long_message_overflows],
      [long_key_aborts], [capwalk_ignores_limits], [float_tenths_wrong], [flags_stale].

    Bounds of the theorems: a readable margin behind a captured packet (20 bytes for
    the header walk, 192 for DNS, and [format_margin] and [dump_margin] for each
    protocol), a key and a marker port in [capdump_splits], consecutive sequence
    numbers in [ethernet_open_read], Ethernet addresses written as twelve digits,
    fewer than 2^31 packets in [frame_num_exact], buffers below two gigabytes, files that can be
    repositioned, an Ethernet MTU of at most 2^24, at most 2^28 packets and 204 names
    per file in [capinfo], 429496729 seconds in its overview, names of at most 1000
    bytes in [capdump], at most 10^8 connections in [capshow].

    ** What is not modelled

    src/stream_tcp.c, which is not part of the build (it uses fields that [struct
    stream] does not have); usage texts and most messages on standard error;
    [getopt_long], whose result is the input of the option loops
    (createfilter.c calls it on its own table and is modelled with it);
    races inside a statement of capdump's threads. *)

From stdpp Require Export base list numbers option tactics.
From Stdlib Require Export ZArith Lia.

Declare Scope cap_scope.
Delimit Scope cap_scope with cap.
Global Open Scope Z_scope.

(** ** Results of C functions

    A C function either returns ([Ok]), reads or writes outside the object it
    was given ([Fault]), calls [abort()] ([Abort]); a loop that is modelled
    with fuel may also run out of it ([OutOfFuel]), which the termination
    theorems exclude. *)
Inductive res (A : Type) : Type :=
| Ok (a : A)
| Fault
| Abort
| OutOfFuel.
Arguments Ok {A} a.
Arguments Fault {A}.
Arguments Abort {A}.
Arguments OutOfFuel {A}.

#[export] Instance res_ret : MRet res := fun A a => Ok a.

#[export] Instance res_bind : MBind res := fun A B f m =>
  match m with
  | Ok a => f a
  | Fault => Fault
  | Abort => Abort
  | OutOfFuel => OutOfFuel
  end.

#[export] Instance res_fmap : FMap res := fun A B f m =>
  match m with
  | Ok a => Ok (f a)
  | Fault => Fault
  | Abort => Abort
  | OutOfFuel => OutOfFuel
  end.

Lemma Ok_inj {A} (a b : A) : Ok a = Ok b -> a = b.
Proof. by intros [= ->]. Qed.

Lemma bind_Ok_inv {A B} (m : res A) (f : A -> res B) (b : B) :
  (m ≫= f) = Ok b -> exists a, m = Ok a /\ f a = Ok b.
Proof. destruct m; cbn; intros H; try discriminate; eauto. Qed.

Lemma bind_assoc {A B C} (m : res A) (f : A -> res B) (g : B -> res C) :
  ((m ≫= f) ≫= g) = (m ≫= (fun a => f a ≫= g)).
Proof. by destruct m. Qed.

(** A computation that reads memory and neither aborts nor runs out of fuel. *)
Definition total {A} (r : res A) : Prop :=
  match r with Ok _ | Fault => True | Abort | OutOfFuel => False end.

Lemma total_bind {A B} (m : res A) (f : A -> res B) :
  total m -> (forall a, m = Ok a -> total (f a)) -> total (m ≫= f).
Proof. destruct m; cbn; auto. Qed.
Lemma total_neq {A} (r : res A) : total r <-> r <> Abort /\ r <> OutOfFuel.
Proof. by destruct r; cbn; intuition. Qed.

(** ** Record update

    [r <| field := v |>] is the C assignment [r.field = v].  A record type
    declares how it is rebuilt from its projections; the setter of a field is
    found by replacing that projection in the rebuilding function. *)
Class Rebuild (R : Type) := rebuild : R -> R.
Class FieldSet {R T : Type} (proj : R -> T) := field_set : (T -> T) -> R -> R.
Arguments field_set {R T} proj {_} _ _ /.

Ltac head_of t := match t with ?f _ => head_of f | _ => t end.
Ltac solve_field_set :=
  lazymatch goal with
  | |- @FieldSet ?R ?T ?proj =>
      let k := constr:(_ : Rebuild R) in
      let k := eval cbv beta delta [rebuild] in k in
      let h := head_of k in
      let k := eval unfold h in k in
      let k := eval cbv beta in k in
      lazymatch (eval pattern proj in k) with
      | (fun _ => ?body) _ => fail "not a field of the record"
      | ?put _ => exact (fun (upd : T -> T) => put (fun r => upd (proj r)))
      end
  end.
#[export] Hint Extern 1 (FieldSet _) => solve_field_set : typeclass_instances.

Notation "r <| f := v |>" := (field_set f (fun _ => v) r)
  (at level 1, left associativity, f at next level, v at level 200) : cap_scope.
Notation "r <| f ::= g |>" := (field_set f g r)
  (at level 1, left associativity, f at next level, g at level 200) : cap_scope.
Global Open Scope cap_scope.


(** ** Machine integers

    Values of the C integer types are kept as [Z]; the wrap-around of a
    conversion or of an operation at the type's width is written out. *)
Definition u8 (x : Z) : Z := x mod 256.
Definition u16 (x : Z) : Z := x mod 65536.
Definition u32 (x : Z) : Z := x mod 4294967296.
Definition u64 (x : Z) : Z := x mod 18446744073709551616.
Definition i32 (x : Z) : Z := (x + 2147483648) mod 4294967296 - 2147483648.

Definition is_u8 (x : Z) : Prop := 0 <= x < 256.
Definition is_u16 (x : Z) : Prop := 0 <= x < 65536.
Definition is_u32 (x : Z) : Prop := 0 <= x < 4294967296.
Definition is_u64 (x : Z) : Prop := 0 <= x < 18446744073709551616.

(** [x & f] as a truth value. *)
Definition has_flag (x f : Z) : bool := negb (Z.land x f =? 0).

(** Byte order: the host is little-endian, so [ntohs], [ntohl] and [be64toh]
    swap the bytes of the value they are given. *)
Definition ntohs (x : Z) : Z := 256 * (x mod 256) + (x / 256) mod 256.
Definition ntohl (x : Z) : Z :=
  16777216 * (x mod 256) + 65536 * ((x / 256) mod 256)
  + 256 * ((x / 65536) mod 256) + (x / 16777216) mod 256.
Definition htons : Z -> Z := ntohs.
Definition htonl : Z -> Z := ntohl.
Definition be64toh (x : Z) : Z :=
  4294967296 * ntohl (x mod 4294967296) + ntohl ((x / 4294967296) mod 4294967296).

(** Unfolding the widths; [lia] then decides the arithmetic. *)
Ltac ints :=
  unfold u8, u16, u32, u64, i32, is_u8, is_u16, is_u32, is_u64 in *.
Ltac ilia := ints; Z.div_mod_to_equations; lia.

Create HintDb cap discriminated.
Create Rewrite HintDb cap.

Lemma u8_range x : is_u8 (u8 x).
Proof. ilia. Qed.
Lemma u16_range x : is_u16 (u16 x).
Proof. ilia. Qed.
Lemma u32_range x : is_u32 (u32 x).
Proof. ilia. Qed.
Lemma u64_range x : is_u64 (u64 x).
Proof. ilia. Qed.
Lemma u8_id x : is_u8 x -> u8 x = x.
Proof. intros; apply Z.mod_small; exact H. Qed.
Lemma u16_id x : is_u16 x -> u16 x = x.
Proof. intros; apply Z.mod_small; exact H. Qed.
Lemma u32_id x : is_u32 x -> u32 x = x.
Proof. intros; apply Z.mod_small; exact H. Qed.
Lemma u64_id x : is_u64 x -> u64 x = x.
Proof. intros; apply Z.mod_small; exact H. Qed.
Lemma i32_id x : -2147483648 <= x < 2147483648 -> i32 x = x.
Proof. intros; ilia. Qed.
#[export] Hint Resolve u8_range u16_range u32_range u64_range : cap.
#[export] Hint Rewrite u8_id u16_id u32_id u64_id using (ints; lia) : cap.

Lemma ntohs_range x : is_u16 (ntohs x).
Proof. unfold ntohs; ilia. Qed.
Lemma ntohl_range x : is_u32 (ntohl x).
Proof. unfold ntohl; ilia. Qed.
Lemma ntohs_ntohs x : is_u16 x -> ntohs (ntohs x) = x.
Proof. unfold ntohs; ints; intros. Z.div_mod_to_equations; lia. Qed.

(** A 32-bit value is its four bytes. *)
Lemma u32_bytes x :
  is_u32 x ->
  exists a b c d, is_u8 a /\ is_u8 b /\ is_u8 c /\ is_u8 d /\
    x = a + 256 * b + 65536 * c + 16777216 * d.
Proof.
  intros Hx. exists (x mod 256), (x / 256 mod 256), (x / 65536 mod 256), (x / 16777216).
  assert (x / 65536 = x / 256 / 256) as -> by (rewrite Z.div_div by lia; reflexivity).
  assert (x / 16777216 = x / 256 / 256 / 256) as -> by (rewrite !Z.div_div by lia; reflexivity).
  ints. repeat split; Z.div_mod_to_equations; lia.
Qed.

Lemma ntohl_bytes a b c d :
  is_u8 a -> is_u8 b -> is_u8 c -> is_u8 d ->
  ntohl (a + 256 * b + 65536 * c + 16777216 * d) = d + 256 * c + 65536 * b + 16777216 * a.
Proof.
  ints. intros. unfold ntohl. set (x := a + _ + _ + _).
  assert (x mod 256 = a) as -> by (subst x; Z.div_mod_to_equations; lia).
  assert (x / 256 = b + 256 * c + 65536 * d) as -> by (subst x; Z.div_mod_to_equations; lia).
  assert (x / 65536 = c + 256 * d) as -> by (subst x; Z.div_mod_to_equations; lia).
  assert (x / 16777216 = d) as -> by (subst x; Z.div_mod_to_equations; lia).
  assert ((b + 256 * c + 65536 * d) mod 256 = b) as -> by (Z.div_mod_to_equations; lia).
  assert ((c + 256 * d) mod 256 = c) as -> by (Z.div_mod_to_equations; lia).
  rewrite Z.mod_small by lia. lia.
Qed.

Lemma ntohl_ntohl x : is_u32 x -> ntohl (ntohl x) = x.
Proof.
  intros Hx. destruct (u32_bytes x Hx) as (a & b & c & d & Ha & Hb & Hc & Hd & ->).
  rewrite ntohl_bytes, ntohl_bytes by assumption. lia.
Qed.
#[export] Hint Resolve ntohs_range ntohl_range : cap.

Lemma has_flag_testbit x n :
  0 <= n -> has_flag x (Z.shiftl 1 n) = Z.testbit x n.
Proof.
  intros Hn. unfold has_flag. rewrite Z.shiftl_1_l.
  destruct (Z.testbit x n) eqn:E.
  - apply negb_true_iff, Z.eqb_neq. intros H.
    apply (f_equal (fun z => Z.testbit z n)) in H.
    rewrite Z.land_spec, Z.pow2_bits_true, E, Z.bits_0 in H by lia. discriminate.
  - apply negb_false_iff, Z.eqb_eq. apply Z.bits_inj'. intros k Hk.
    rewrite Z.land_spec, Z.bits_0, Z.pow2_bits_eqb by lia.
    destruct (Z.eqb_spec n k); [subst; by rewrite E | by rewrite andb_false_r].
Qed.

(** ** Memory

    An object in memory is the list of its bytes; a load outside it is a
    [Fault].  Loads of more than one byte are little-endian (host order), so
    [ntohs (rd16 m o)] is the big-endian field of a network header. *)
Abbreviation bytes := (list Z).
Definition is_bytes (m : bytes) : Prop := Forall is_u8 m.
Definition blen (m : bytes) : Z := Z.of_nat (length m).

Definition rd8 (m : bytes) (o : Z) : res Z :=
  if o <? 0 then Fault
  else match m !! Z.to_nat o with Some b => Ok b | None => Fault end.
Definition rd16 (m : bytes) (o : Z) : res Z :=
  a ← rd8 m o; b ← rd8 m (o + 1); Ok (a + 256 * b).
Definition rd32 (m : bytes) (o : Z) : res Z :=
  a ← rd16 m o; b ← rd16 m (o + 2); Ok (a + 65536 * b).
Definition rd64 (m : bytes) (o : Z) : res Z :=
  a ← rd32 m o; b ← rd32 m (o + 4); Ok (a + 4294967296 * b).
Definition be16 (m : bytes) (o : Z) : res Z := a ← rd16 m o; Ok (ntohs a).
Definition be32 (m : bytes) (o : Z) : res Z := a ← rd32 m o; Ok (ntohl a).

(** [n] bytes at offset [o] (a struct copy or [memcpy] source). *)
Definition slice (m : bytes) (o n : Z) : res bytes :=
  if (o <? 0) || (n <? 0) || (blen m <? o + n) then Fault
  else Ok (take (Z.to_nat n) (drop (Z.to_nat o) m)).

(** Stores of one byte and of several. *)
Definition wr8 (m : bytes) (o v : Z) : res bytes :=
  if (o <? 0) || (blen m <=? o) then Fault else Ok (<[Z.to_nat o := v]> m).
Fixpoint wr (m : bytes) (o : Z) (bs : bytes) : res bytes :=
  match bs with
  | [] => Ok m
  | b :: bs => m ← wr8 m o b; wr m (o + 1) bs
  end.

(** The byte image of an integer object of 1, 2, 4 and 8 bytes. *)
Definition le8 (x : Z) : bytes := [u8 x].
Definition le16 (x : Z) : bytes := [u8 x; u8 (x / 256)].
Definition le32 (x : Z) : bytes := le16 x ++ le16 (x / 65536).
Definition le64 (x : Z) : bytes := le32 x ++ le32 (x / 4294967296).

(** Big-endian images, as a sender that calls [htons]/[htonl] stores them. *)
Definition wr16be (x : Z) : bytes := le16 (htons x).
Definition wr32be (x : Z) : bytes := le32 (htonl x).

(** *** Loads: success, range, locality *)
Lemma blen_app (m1 m2 : bytes) : blen (m1 ++ m2) = blen m1 + blen m2.
Proof. unfold blen. rewrite length_app. lia. Qed.
Lemma blen_nonneg (m : bytes) : 0 <= blen m.
Proof. unfold blen. lia. Qed.
Lemma blen_cons b (m : bytes) : blen (b :: m) = 1 + blen m.
Proof. unfold blen. cbn [length]. lia. Qed.
Lemma blen_drop n (m : bytes) : 0 <= n <= blen m -> blen (drop (Z.to_nat n) m) = blen m - n.
Proof. unfold blen. rewrite length_drop. lia. Qed.
Lemma blen_take n (m : bytes) : 0 <= n <= blen m -> blen (take (Z.to_nat n) m) = n.
Proof. unfold blen. rewrite length_take. lia. Qed.
#[export] Hint Resolve blen_nonneg : cap.

Lemma rd8_Ok m o b : rd8 m o = Ok b <-> 0 <= o /\ m !! Z.to_nat o = Some b.
Proof.
  unfold rd8. destruct (Z.ltb_spec o 0); [split; [discriminate | lia]|].
  destruct (m !! Z.to_nat o); split; try done.
  - by intros [= ->].
  - by intros [_ [= ->]].
  - by intros [_ ?].
Qed.

Lemma rd8_in m o : 0 <= o < blen m -> exists b, rd8 m o = Ok b.
Proof.
  unfold blen. intros Ho. destruct (lookup_lt_is_Some_2 m (Z.to_nat o)) as [b Hb]; [lia|].
  exists b. apply rd8_Ok. split; [lia | exact Hb].
Qed.

Lemma rd8_range m o b : is_bytes m -> rd8 m o = Ok b -> is_u8 b.
Proof.
  intros Hm [_ Hb]%rd8_Ok. eapply Forall_lookup_1 in Hm; eauto.
Qed.

Lemma rd16_in m o : 0 <= o -> o + 2 <= blen m -> exists v, rd16 m o = Ok v.
Proof.
  intros. unfold rd16. destruct (rd8_in m o) as [a ->]; [lia|].
  destruct (rd8_in m (o + 1)) as [b ->]; [lia|]. cbn. eauto.
Qed.

Lemma rd16_range m o v : is_bytes m -> rd16 m o = Ok v -> is_u16 v.
Proof.
  intros Hm (a & Ha & (b & Hb & [= <-])%bind_Ok_inv)%bind_Ok_inv.
  apply rd8_range in Ha, Hb; trivial. ints; lia.
Qed.

Lemma rd32_in m o : 0 <= o -> o + 4 <= blen m -> exists v, rd32 m o = Ok v.
Proof.
  intros. unfold rd32. destruct (rd16_in m o) as [a ->]; [lia..|].
  destruct (rd16_in m (o + 2)) as [b ->]; [lia..|]. cbn. eauto.
Qed.

Lemma rd32_range m o v : is_bytes m -> rd32 m o = Ok v -> is_u32 v.
Proof.
  intros Hm (a & Ha & (b & Hb & [= <-])%bind_Ok_inv)%bind_Ok_inv.
  apply rd16_range in Ha, Hb; trivial. ints; lia.
Qed.

Lemma rd64_in m o : 0 <= o -> o + 8 <= blen m -> exists v, rd64 m o = Ok v.
Proof.
  intros. unfold rd64. destruct (rd32_in m o) as [a ->]; [lia..|].
  destruct (rd32_in m (o + 4)) as [b ->]; [lia..|]. cbn. eauto.
Qed.

Lemma be16_in m o : 0 <= o -> o + 2 <= blen m -> exists v, be16 m o = Ok v.
Proof. intros. unfold be16. destruct (rd16_in m o) as [a ->]; trivial. cbn. eauto. Qed.
Lemma be32_in m o : 0 <= o -> o + 4 <= blen m -> exists v, be32 m o = Ok v.
Proof. intros. unfold be32. destruct (rd32_in m o) as [a ->]; trivial. cbn. eauto. Qed.
Lemma be16_range m o v : be16 m o = Ok v -> is_u16 v.
Proof. intros (a & _ & [= <-])%bind_Ok_inv. auto with cap. Qed.
Lemma be32_range m o v : be32 m o = Ok v -> is_u32 v.
Proof. intros (a & _ & [= <-])%bind_Ok_inv. auto with cap. Qed.

Lemma rd8_total m o : total (rd8 m o).
Proof. unfold rd8. repeat case_match; done. Qed.
Lemma rd16_total m o : total (rd16 m o).
Proof. repeat (apply total_bind; [apply rd8_total|intros]). done. Qed.
Lemma rd32_total m o : total (rd32 m o).
Proof. repeat (apply total_bind; [apply rd16_total|intros]). done. Qed.
Lemma rd64_total m o : total (rd64 m o).
Proof. repeat (apply total_bind; [apply rd32_total|intros]). done. Qed.
Lemma be16_total m o : total (be16 m o).
Proof. apply total_bind; [apply rd16_total|done]. Qed.
Lemma be32_total m o : total (be32 m o).
Proof. apply total_bind; [apply rd32_total|done]. Qed.
#[export] Hint Resolve rd8_total rd16_total rd32_total rd64_total be16_total be32_total : cap.

(** A load that succeeded was inside the object. *)
Lemma rd8_inv m o v : rd8 m o = Ok v -> 0 <= o < blen m.
Proof. intros [? ?%lookup_lt_Some]%rd8_Ok. unfold blen. lia. Qed.
Lemma rd16_inv m o v : rd16 m o = Ok v -> 0 <= o /\ o + 2 <= blen m.
Proof.
  intros (a & ?%rd8_inv & (b & ?%rd8_inv & _)%bind_Ok_inv)%bind_Ok_inv. lia.
Qed.
Lemma be16_inv m o v : be16 m o = Ok v -> 0 <= o /\ o + 2 <= blen m.
Proof. intros (a & ?%rd16_inv & _)%bind_Ok_inv. done. Qed.
Lemma rd32_inv m o v : rd32 m o = Ok v -> 0 <= o /\ o + 4 <= blen m.
Proof.
  intros (a & ?%rd16_inv & (b & ?%rd16_inv & _)%bind_Ok_inv)%bind_Ok_inv. lia.
Qed.
Lemma be32_inv m o v : be32 m o = Ok v -> 0 <= o /\ o + 4 <= blen m.
Proof. intros (a & ?%rd32_inv & _)%bind_Ok_inv. done. Qed.

(** A load inside a prefix does not see what follows it. *)
Lemma rd8_app_l m m' o : o < blen m -> rd8 (m ++ m') o = rd8 m o.
Proof.
  unfold rd8, blen. intros. destruct (Z.ltb_spec o 0); [done|].
  by rewrite lookup_app_l by lia.
Qed.
Lemma rd8_app_r m m' o : blen m <= o -> rd8 (m ++ m') o = rd8 m' (o - blen m).
Proof.
  intros H. pose proof (blen_nonneg m). unfold rd8.
  destruct (Z.ltb_spec o 0), (Z.ltb_spec (o - blen m) 0); try lia.
  unfold blen in *. rewrite lookup_app_r by lia.
  by replace (Z.to_nat (o - Z.of_nat (length m))) with (Z.to_nat o - length m)%nat by lia.
Qed.
Lemma rd16_app_l m m' o : o + 2 <= blen m -> rd16 (m ++ m') o = rd16 m o.
Proof. intros. unfold rd16. by rewrite !rd8_app_l by lia. Qed.
Lemma rd16_app_r m m' o : blen m <= o -> rd16 (m ++ m') o = rd16 m' (o - blen m).
Proof.
  intros. unfold rd16. rewrite !rd8_app_r by lia.
  by replace (o + 1 - blen m) with (o - blen m + 1) by lia.
Qed.
Lemma rd32_app_l m m' o : o + 4 <= blen m -> rd32 (m ++ m') o = rd32 m o.
Proof. intros. unfold rd32. by rewrite !rd16_app_l by lia. Qed.
Lemma rd32_app_r m m' o : blen m <= o -> rd32 (m ++ m') o = rd32 m' (o - blen m).
Proof.
  intros. unfold rd32. rewrite !rd16_app_r by lia.
  by replace (o + 2 - blen m) with (o - blen m + 2) by lia.
Qed.
Lemma rd64_app_l m m' o : o + 8 <= blen m -> rd64 (m ++ m') o = rd64 m o.
Proof. intros. unfold rd64. by rewrite !rd32_app_l by lia. Qed.
Lemma rd64_app_r m m' o : blen m <= o -> rd64 (m ++ m') o = rd64 m' (o - blen m).
Proof.
  intros. unfold rd64. rewrite !rd32_app_r by lia.
  by replace (o + 4 - blen m) with (o - blen m + 4) by lia.
Qed.

(** A load of a stored integer gives the integer back (at its width). *)
Lemma rd8_le8 x m : rd8 (le8 x ++ m) 0 = Ok (u8 x).
Proof. reflexivity. Qed.
Lemma rd16_le16 x m : rd16 (le16 x ++ m) 0 = Ok (u16 x).
Proof. change (Ok (u8 x + 256 * u8 (x / 256)) = Ok (u16 x)). f_equal. ilia. Qed.
Lemma rd32_le32 x m : rd32 (le32 x ++ m) 0 = Ok (u32 x).
Proof.
  unfold rd32, le32. rewrite <- app_assoc, rd16_le16. cbn [mbind res_bind].
  rewrite rd16_app_r by (change (blen (le16 x)) with 2; lia). change (0 + 2 - blen (le16 x)) with 0.
  rewrite rd16_le16. cbn [mbind res_bind]. f_equal. ilia.
Qed.
Lemma rd64_le64 x m : rd64 (le64 x ++ m) 0 = Ok (u64 x).
Proof.
  unfold rd64, le64. rewrite <- app_assoc, rd32_le32. cbn [mbind res_bind].
  rewrite rd32_app_r by (change (blen (le32 x)) with 4; lia). change (0 + 4 - blen (le32 x)) with 0.
  rewrite rd32_le32. cbn [mbind res_bind]. f_equal. ilia.
Qed.

Lemma slice_app m1 m m2 o n :
  o = blen m1 -> n = blen m -> slice (m1 ++ m ++ m2) o n = Ok m.
Proof.
  intros -> ->. unfold slice. rewrite !blen_app.
  pose proof (blen_nonneg m). pose proof (blen_nonneg m1). pose proof (blen_nonneg m2).
  rewrite !(proj2 (Z.ltb_ge _ _)) by lia. cbn. unfold blen. rewrite !Nat2Z.id.
  by rewrite drop_app_length, take_app_length.
Qed.

Lemma drop_blen (m m' : bytes) : drop (Z.to_nat (blen m)) (m ++ m') = m'.
Proof. unfold blen. by rewrite Nat2Z.id, drop_app_length. Qed.

Lemma wr8_mid m1 x m2 o v : o = blen m1 -> wr8 (m1 ++ x :: m2) o v = Ok (m1 ++ v :: m2).
Proof.
  intros ->. unfold wr8. pose proof (blen_nonneg m1). pose proof (blen_nonneg m2).
  rewrite blen_app, blen_cons. rewrite (proj2 (Z.ltb_ge _ _)), (proj2 (Z.leb_gt _ _)) by lia. cbn.
  unfold blen. rewrite Nat2Z.id. f_equal.
  replace (length m1) with (length m1 + 0)%nat at 1 by lia. by rewrite insert_app_r.
Qed.
Lemma wr_mid m1 m m2 o bs : o = blen m1 -> length m = length bs -> wr (m1 ++ m ++ m2) o bs = Ok (m1 ++ bs ++ m2).
Proof.
  revert m1 m o. induction bs as [|b bs IH]; intros m1 [|x m] o Ho Hl; try discriminate Hl; [done|].
  cbn [wr app]. rewrite (wr8_mid m1 x) by done. cbn [mbind res_bind].
  replace (m1 ++ b :: m ++ m2) with ((m1 ++ [b]) ++ m ++ m2) by (by rewrite <- (assoc_L (++))).
  rewrite IH; [by rewrite <- (assoc_L (++))|rewrite blen_app; change (blen [b]) with 1; lia|by injection Hl].
Qed.

Lemma drop_at (a b : bytes) o : o = blen a -> drop (Z.to_nat o) (a ++ b) = b.
Proof. intros ->. apply drop_blen. Qed.

Lemma slice_in m o n : 0 <= o -> 0 <= n -> o + n <= blen m -> exists b, slice m o n = Ok b.
Proof. intros. unfold slice. rewrite !(proj2 (Z.ltb_ge _ _)) by lia. eauto. Qed.

Lemma slice_len m o n b : slice m o n = Ok b -> blen b = n.
Proof.
  unfold slice. repeat case_match; try discriminate. intros [= <-]. repeat rewrite ?orb_false_iff, ?Z.ltb_ge in *.
  unfold blen in *. rewrite length_take, length_drop. lia.
Qed.

(** A field in the middle of an image. *)
Lemma blen_le16 x : blen (le16 x) = 2.
Proof. done. Qed.
Lemma blen_le32 x : blen (le32 x) = 4.
Proof. done. Qed.
Lemma blen_le64 x : blen (le64 x) = 8.
Proof. done. Qed.
Ltac lens := rewrite ?blen_app, ?blen_le16, ?blen_le32, ?blen_le64; lia.
Lemma rd16_at a x m o : o = blen a -> is_u16 x -> rd16 (a ++ le16 x ++ m) o = Ok x.
Proof. intros -> Hx. rewrite rd16_app_r, Z.sub_diag, rd16_le16, u16_id by (done || lia). done. Qed.
Lemma rd32_at a x m o : o = blen a -> is_u32 x -> rd32 (a ++ le32 x ++ m) o = Ok x.
Proof. intros -> Hx. rewrite rd32_app_r, Z.sub_diag, rd32_le32, u32_id by (done || lia). done. Qed.
Lemma rd64_at a x m o : o = blen a -> is_u64 x -> rd64 (a ++ le64 x ++ m) o = Ok x.
Proof. intros -> Hx. rewrite rd64_app_r, Z.sub_diag, rd64_le64, u64_id by (done || lia). done. Qed.

(** *** Stores: success, and what a load sees afterwards *)
Lemma wr8_Ok m o v : 0 <= o < blen m ->
  exists m', wr8 m o v = Ok m' /\ blen m' = blen m /\ rd8 m' o = Ok v /\
    forall i, i <> o -> rd8 m' i = rd8 m i.
Proof.
  intros Ho. unfold wr8. rewrite (proj2 (Z.ltb_ge _ _)), (proj2 (Z.leb_gt _ _)) by lia. cbn.
  eexists. split; [done|]. unfold blen in *. rewrite length_insert. split; [done|]. split.
  - apply rd8_Ok. split; [lia|]. apply list_lookup_insert_eq. lia.
  - intros i Hi. unfold rd8. destruct (Z.ltb_spec i 0); [done|]. by rewrite list_lookup_insert_ne by lia.
Qed.
Lemma wr_Ok m o bs : 0 <= o -> o + blen bs <= blen m ->
  exists m', wr m o bs = Ok m' /\ blen m' = blen m /\
    (forall i, i < o \/ o + blen bs <= i -> rd8 m' i = rd8 m i) /\
    (forall i, o <= i < o + blen bs -> rd8 m' i = rd8 bs (i - o)).
Proof.
  revert m o. induction bs as [|b bs IH]; intros m o Ho Hl; cbn [wr].
  - exists m. repeat split; try done. change (blen []) with 0. lia.
  - rewrite blen_cons in *. pose proof (blen_nonneg bs).
    destruct (wr8_Ok m o b) as (m1 & -> & Hl1 & Hb & Hf); [lia|]. cbn [mbind res_bind].
    destruct (IH m1 (o + 1)) as (m' & -> & Hl' & Hout & Hin); [lia..|].
    exists m'. split; [done|]. split; [lia|]. split.
    + intros i Hi. rewrite Hout, Hf by lia. done.
    + intros i Hi. destruct (decide (i = o)) as [->|Hne].
      * rewrite Hout, Hb, Z.sub_diag by lia. done.
      * rewrite Hin by lia. change (b :: bs) with ([b] ++ bs). rewrite rd8_app_r by (change (blen [b]) with 1; lia).
        change (blen [b]) with 1. f_equal. lia.
Qed.

(** Loads that see the same bytes give the same value. *)
Lemma rd16_ext m m' o o' :
  (forall i, 0 <= i < 2 -> rd8 m' (o' + i) = rd8 m (o + i)) -> rd16 m' o' = rd16 m o.
Proof.
  intros H. unfold rd16. pose proof (H 0 ltac:(lia)) as H0. rewrite !Z.add_0_r in H0.
  by rewrite H0, (H 1) by lia.
Qed.
Lemma rd32_ext m m' o o' :
  (forall i, 0 <= i < 4 -> rd8 m' (o' + i) = rd8 m (o + i)) -> rd32 m' o' = rd32 m o.
Proof.
  intros H. unfold rd32. rewrite (rd16_ext m m' o o') by (intros; apply H; lia).
  rewrite (rd16_ext m m' (o + 2) (o' + 2)); [done|].
  intros i Hi. rewrite <- !Z.add_assoc. apply H. lia.
Qed.

(** Two objects of the same length with the same bytes are equal. *)
Lemma rd8_list_eq m m' : blen m = blen m' -> (forall i, 0 <= i < blen m -> rd8 m i = rd8 m' i) -> m = m'.
Proof.
  intros Hl H. apply list_eq. intros i. destruct (decide (i < length m)%nat) as [Hi|Hi].
  - specialize (H (Z.of_nat i)). unfold blen, rd8 in *. destruct (Z.ltb_spec (Z.of_nat i) 0); [lia|].
    rewrite Nat2Z.id in H. specialize (H ltac:(lia)).
    destruct (m !! i), (m' !! i); congruence.
  - unfold blen in Hl. rewrite !lookup_ge_None_2 by lia. done.
Qed.

(** *** Parts of an object *)
Lemma blen_replicate n (x : Z) : blen (replicate n x) = Z.of_nat n.
Proof. unfold blen. by rewrite length_replicate. Qed.
Lemma be16_at a x m o : o = blen a -> is_u16 x -> be16 (a ++ wr16be x ++ m) o = Ok x.
Proof.
  intros Ho Hx. unfold be16, wr16be, htons. rewrite rd16_at by (done || apply ntohs_range).
  cbn. by rewrite ntohs_ntohs.
Qed.
Lemma be32_at a x m o : o = blen a -> is_u32 x -> be32 (a ++ wr32be x ++ m) o = Ok x.
Proof.
  intros Ho Hx. unfold be32, wr32be, htonl. rewrite rd32_at by (done || apply ntohl_range).
  cbn. by rewrite ntohl_ntohl.
Qed.
Lemma blen_wr16be x : blen (wr16be x) = 2.
Proof. done. Qed.
Lemma existsb_zero_at (m : bytes) i : rd8 m i = Ok 0 -> existsb (Z.eqb 0) m = true.
Proof.
  intros [_ H%list_elem_of_lookup_2%list_elem_of_In]%rd8_Ok. apply existsb_exists. exists 0. done.
Qed.
Lemma rd8_drop m i o : 0 <= o -> 0 <= i -> rd8 (drop (Z.to_nat o) m) i = rd8 m (o + i).
Proof.
  intros. unfold rd8. destruct (Z.ltb_spec i 0), (Z.ltb_spec (o + i) 0); try lia.
  rewrite lookup_drop. by replace (Z.to_nat o + Z.to_nat i)%nat with (Z.to_nat (o + i)) by lia.
Qed.
Lemma slice_0_app a b n : 0 <= n -> blen a <= n <= blen a + blen b ->
  slice (a ++ b) 0 n = Ok (a ++ take (Z.to_nat (n - blen a)) b).
Proof.
  intros Hn Hl. unfold slice. rewrite blen_app, !(proj2 (Z.ltb_ge _ _)) by lia. cbn [orb].
  change (Z.to_nat 0) with 0%nat. rewrite drop_0. f_equal. unfold blen in *.
  rewrite take_app, take_ge by lia. f_equal. f_equal. lia.
Qed.
Lemma rd32_le32_head t body : is_u32 t -> rd32 (le32 t ++ body) 0 = Ok t.
Proof. intros. by rewrite rd32_le32, u32_id. Qed.
Lemma rd8_take m i n : i < n -> rd8 (take (Z.to_nat n) m) i = rd8 m i.
Proof.
  intros. unfold rd8. destruct (Z.ltb_spec i 0); [done|]. by rewrite lookup_take_lt by lia.
Qed.
(** A field whose bytes are those of a stored integer. *)
Lemma be16_field m o x :
  (forall i, 0 <= i < 2 -> rd8 m (o + i) = rd8 (le16 (htons x)) i) -> be16 m o = Ok (u16 x).
Proof.
  intros H. unfold be16. rewrite (rd16_ext (le16 (htons x) ++ []) m 0 o).
  - rewrite rd16_le16, u16_id by apply ntohs_range. cbn. f_equal. unfold htons, ntohs. ilia.
  - intros i Hi. by rewrite H, app_nil_r by lia.
Qed.
Lemma slice_field m o bs :
  0 <= o -> o + blen bs <= blen m -> (forall i, 0 <= i < blen bs -> rd8 m (o + i) = rd8 bs i) ->
  slice m o (blen bs) = Ok bs.
Proof.
  intros Ho Hl H. pose proof (blen_nonneg bs). unfold slice. rewrite !(proj2 (Z.ltb_ge _ _)) by lia. cbn [orb].
  f_equal. apply rd8_list_eq; [rewrite blen_take; rewrite ?blen_drop; lia|].
  rewrite blen_take by (rewrite blen_drop; lia). intros i Hi. by rewrite rd8_take, rd8_drop, H by lia.
Qed.

(** One store of a chain: it succeeds and changes only its own bytes. *)
Ltac wr_step :=
  match goal with
  | |- context [wr ?m ?o ?bs] =>
      let e := fresh "e" in let El := fresh "El" in let Ho := fresh "Hout" in let Hi := fresh "Hin" in
      destruct (wr_Ok m o bs) as (e & -> & El & Ho & Hi);
      [lia|rewrite ?blen_le16, ?blen_le32; lia|]; rewrite ?blen_le16, ?blen_le32 in Ho;
      rewrite ?blen_le16, ?blen_le32 in Hi; cbn [mbind res_bind]
  end.

(** ** Lists *)
Lemma existsb_map {A B} (f : A -> B) (p : B -> bool) (l : list A) :
  existsb p (map f l) = existsb (fun x => p (f x)) l.
Proof. induction l as [|x l IH]; cbn; [done|]. by rewrite IH. Qed.
Lemma Forall_is_u8_app (m1 m2 : bytes) : is_bytes (m1 ++ m2) <-> is_bytes m1 /\ is_bytes m2.
Proof. apply Forall_app. Qed.
Lemma is_bytes_le16 x : is_bytes (le16 x).
Proof. repeat constructor; apply u8_range. Qed.
Lemma is_bytes_le32 x : is_bytes (le32 x).
Proof. apply Forall_is_u8_app; split; apply is_bytes_le16. Qed.
Lemma is_bytes_le64 x : is_bytes (le64 x).
Proof. apply Forall_is_u8_app; split; apply is_bytes_le32. Qed.
#[export] Hint Resolve is_bytes_le16 is_bytes_le32 is_bytes_le64 : cap.

(** Inversion of a chain of binds that succeeded. *)
Ltac inv_ok :=
  repeat match goal with
  | H : (_ ≫= _) = Ok _ |- _ =>
      let a := fresh "v" in let Ha := fresh "Hv" in
      apply bind_Ok_inv in H; destruct H as (a & Ha & H)
  | H : Ok _ = Ok _ |- _ => apply Ok_inj in H
  | H : Fault = Ok _ |- _ => discriminate H
  | H : Abort = Ok _ |- _ => discriminate H
  | H : OutOfFuel = Ok _ |- _ => discriminate H
  end.

(** Totality of a chain of loads and tests. *)
Ltac total_step :=
  match goal with
  | |- total (_ ≫= _) => apply total_bind; [|intros]
  | |- total (if _ then _ else _) => case_match
  | |- total (match _ with _ => _ end) => case_match
  | |- total (Ok _) => exact I
  | |- total Fault => exact I
  | |- total _ => solve [eauto with cap]
  end.
Ltac total_tac := repeat total_step.
