(* ===== verification/CLib.v ===== *)
(** * The C library functions the sources use on strings and numbers

    A C string is the list of its characters without the terminator; a [char]
    array is the list of all its bytes, and [cstr] is the string it holds. *)

From Stdlib Require Import String Ascii.
From S2P Require Import Prelude.

(** ** Characters and literals *)
Definition chr (a : ascii) : Z := Z.of_N (N_of_ascii a).
Fixpoint B (s : string) : bytes :=
  match s with
  | EmptyString => []
  | String a s' => chr a :: B s'
  end.

Arguments B s%_string_scope.
Export (notations) String.

Definition isdigit (c : Z) : bool := (48 <=? c) && (c <=? 57).
Definition isupper (c : Z) : bool := (65 <=? c) && (c <=? 90).
Definition islower (c : Z) : bool := (97 <=? c) && (c <=? 122).
Definition isspace (c : Z) : bool := (c =? 32) || ((9 <=? c) && (c <=? 13)).
Definition isprint (c : Z) : bool := (32 <=? c) && (c <=? 126).
Definition tolower (c : Z) : Z := if isupper c then c + 32 else c.
Definition toupper (c : Z) : Z := if islower c then c - 32 else c.

(** ** Strings *)
Fixpoint cstr (buf : bytes) : bytes :=
  match buf with
  | [] => []
  | c :: buf' => if c =? 0 then [] else c :: cstr buf'
  end.

(** The string at the start of an array: reading on past an array without a
    terminator is a fault. *)
Definition arr_str (buf : bytes) : res bytes :=
  if existsb (Z.eqb 0) buf then Ok (cstr buf) else Fault.

(** [strncpy(dst, src, n)]: at most [n] characters, padded with zeros to [n]. *)
Definition strncpy (src : bytes) (n : nat) : bytes :=
  take n (src ++ replicate n 0).

Fixpoint strchr (s : bytes) (c : Z) : option nat :=
  match s with
  | [] => None
  | x :: s' => if x =? c then Some O else S <$> strchr s' c
  end.

Fixpoint prefixb (p s : bytes) : bool :=
  match p, s with
  | [], _ => true
  | x :: p', y :: s' => (x =? y) && prefixb p' s'
  | _ :: _, [] => false
  end.

Fixpoint strstr (hay needle : bytes) : option nat :=
  if prefixb needle hay then Some O
  else match hay with
       | [] => None
       | _ :: hay' => S <$> strstr hay' needle
       end.

(** [strncmp]: the difference at the first place the strings differ. *)
Fixpoint strncmp (a b : bytes) (n : nat) : Z :=
  match n with
  | O => 0
  | S n' =>
      match a, b with
      | [], [] => 0
      | [], y :: _ => - y
      | x :: _, [] => x
      | x :: a', y :: b' => if x =? y then strncmp a' b' n' else x - y
      end
  end.
Fixpoint strcmp (a b : bytes) : Z :=
  match a, b with
  | [], [] => 0
  | [], y :: _ => - y
  | x :: _, [] => x
  | x :: a', y :: b' => if x =? y then strcmp a' b' else x - y
  end.
Definition strcasecmp (a b : bytes) : Z := strcmp (map tolower a) (map tolower b).
Definition strncasecmp (a b : bytes) (n : nat) : Z :=
  strncmp (map tolower a) (map tolower b) n.

(** ** Numbers *)
Definition digit_val (c : Z) : Z :=
  if isdigit c then c - 48
  else if islower c then c - 87
  else if isupper c then c - 55
  else 99.

Fixpoint strtol_digits (base acc : Z) (s : bytes) : Z :=
  match s with
  | [] => acc
  | c :: s' => if digit_val c <? base then strtol_digits base (base * acc + digit_val c) s' else acc
  end.

Fixpoint skip_space (s : bytes) : bytes :=
  match s with
  | c :: s' => if isspace c then skip_space s' else s
  | [] => []
  end.

Definition clamp64 (x : Z) : Z :=
  Z.max (-9223372036854775808) (Z.min 9223372036854775807 x).

(** [strtol]/[strtoll] in a given base (10 or 16), result only; values outside
    [long] saturate. *)
Definition strtol (s : bytes) (base : Z) : Z :=
  let s := skip_space s in
  let '(sg, s) := match s with
                  | 45 :: s' => (-1, s')
                  | 43 :: s' => (1, s')
                  | _ => (1, s)
                  end in
  let s := match s with
           | 48 :: x :: d :: _ =>
               if (base =? 16) && (tolower x =? 120) && (digit_val d <? 16) then drop 2 s else s
           | _ => s
           end in
  clamp64 (sg * strtol_digits base 0 s).
Definition atoi (s : bytes) : Z := i32 (strtol s 10).

(** The digits of a number at the head of [s]: its value and what follows. *)
Fixpoint scan_digits (base acc : Z) (s : bytes) : Z * bytes :=
  match s with
  | [] => (acc, [])
  | c :: s' => if digit_val c <? base then scan_digits base (base * acc + digit_val c) s' else (acc, s)
  end.

(** A number without sign whose base is given by its prefix ([strtoul] with
    base 0, the first character being a digit). *)
Definition scan_base0 (s : bytes) : Z * bytes :=
  match s with
  | 48 :: x :: d :: _ =>
      if (tolower x =? 120) && (digit_val d <? 16) then scan_digits 16 0 (drop 2 s)
      else scan_digits 8 0 s
  | 48 :: _ => scan_digits 8 0 s
  | _ => scan_digits 10 0 s
  end.

(** The conversions [%d] (base 10) and [%i] (base 0) of [sscanf]: the value, not
    yet converted to the argument's width, and the rest of the input. *)
Definition scan_int (base0 : bool) (s : bytes) : option (Z * bytes) :=
  let s := skip_space s in
  let '(sg, s) := match s with
                  | 45 :: s' => (-1, s')
                  | 43 :: s' => (1, s')
                  | _ => (1, s)
                  end in
  match s with
  | c :: _ =>
      if isdigit c then
        let '(v, rest) := if base0 then scan_base0 s else scan_digits 10 0 s in
        Some (clamp64 (sg * v), rest)
      else None
  | [] => None
  end.

(** [printf("%d")] *)
Fixpoint dec_aux (fuel : nat) (n : Z) (acc : bytes) : bytes :=
  match fuel with
  | O => acc
  | S fuel =>
      let acc := (48 + n mod 10) :: acc in
      if n <? 10 then acc else dec_aux fuel (n / 10) acc
  end.
Definition dec (n : Z) : bytes :=
  if n <? 0 then 45 :: dec_aux 20 (- n) [] else dec_aux 20 n [].

(** Internet addresses as text.  [in_addr] is the 32-bit object, whose first
    byte in memory is the first number. *)
Definition inet_ntoa (a : Z) : bytes :=
  dec (a mod 256) ++ B "." ++ dec (a / 256 mod 256) ++ B "." ++
  dec (a / 65536 mod 256) ++ B "." ++ dec (a / 16777216 mod 256).

Fixpoint inet_parts (fuel : nat) (s : bytes) (parts : list Z) : option (list Z * Z * bytes) :=
  match fuel, s with
  | S fuel, c :: _ =>
      if isdigit c then
        let '(v, rest) := scan_base0 s in
        match rest with
        | 46 :: rest =>
            if (255 <? v) || (3 <=? length parts)%nat then None
            else inet_parts fuel rest (parts ++ [v])
        | _ => Some (parts, v, rest)
        end
      else None
  | _, _ => None
  end.
Definition inet_aton (s : bytes) : option Z :=
  '(parts, last, rest) ← inet_parts (S (length s)) s [];
  if match rest with [] => false | c :: _ => negb (isspace c) end then None
  else
    let n := Z.of_nat (length parts) in
    if Z.shiftl 1 (8 * (4 - n)) <=? last then None
    else Some (htonl (foldr Z.add last
                 (zip_with (fun p i => p * Z.shiftl 1 (8 * (3 - i))) parts [0; 1; 2]))).
Definition INADDR_NONE : Z := 4294967295.
Definition inet_addr (s : bytes) : Z :=
  match inet_aton s with Some a => a | None => INADDR_NONE end.

(** ** Facts *)
Lemma isdigit_val d : 0 <= d < 10 -> digit_val (48 + d) = d /\ isdigit (48 + d) = true.
Proof.
  intros. unfold digit_val, isdigit. rewrite !(proj2 (Z.leb_le _ _)) by lia. cbn. lia.
Qed.

Fixpoint pow10 (n : nat) : Z := match n with O => 1 | S n => 10 * pow10 n end.

(** The digits of a printed number give the number back. *)
Lemma scan_dec_aux fuel n :
  0 <= n < pow10 fuel ->
  exists k, 0 < k /\ forall acc a,
    scan_digits 10 a (dec_aux fuel n acc) = scan_digits 10 (a * k + n) acc.
Proof.
  revert n. induction fuel as [|fuel IH]; intros n Hn; cbn [pow10] in Hn; [exists 1; split; [lia|]; intros; cbn; f_equal; lia|].
  assert (Hm : 0 <= n mod 10 < 10) by (apply Z.mod_pos_bound; lia).
  destruct (isdigit_val _ Hm) as [Hd _]. cbn [dec_aux]. cbv zeta.
  destruct (Z.ltb_spec n 10) as [Hlt|Hge].
  - exists 10. split; [lia|]. intros acc a. cbn [scan_digits]. rewrite Hd.
    rewrite (proj2 (Z.ltb_lt _ _)) by lia. f_equal. rewrite Z.mod_small by lia. lia.
  - destruct (IH (n / 10)) as (k & Hk & E); [Z.div_mod_to_equations; lia|].
    exists (10 * k). split; [lia|]. intros acc a. rewrite E. cbn [scan_digits]. rewrite Hd.
    rewrite (proj2 (Z.ltb_lt _ _)) by lia. f_equal. Z.div_mod_to_equations; nia.
Qed.

Lemma strtol_digits_scan base acc s : strtol_digits base acc s = fst (scan_digits base acc s).
Proof. revert acc. induction s as [|c s IH]; intros acc; cbn; [done|]. by case_match. Qed.

Lemma dec_aux_head fuel n acc :
  0 < n < pow10 fuel -> exists c s, dec_aux fuel n acc = c :: s /\ c <> 48 /\ isdigit c = true.
Proof.
  revert n acc. induction fuel as [|fuel IH]; intros n acc Hn; cbn [pow10] in Hn; [lia|].
  cbn [dec_aux]. cbv zeta. destruct (Z.ltb_spec n 10).
  - do 2 eexists. split; [done|]. rewrite Z.mod_small by lia. split; [lia|]. apply isdigit_val. lia.
  - apply IH. Z.div_mod_to_equations; lia.
Qed.

Lemma dec_aux_digits fuel n acc :
  0 <= n -> Forall (fun c => isdigit c = true) acc -> Forall (fun c => isdigit c = true) (dec_aux fuel n acc).
Proof.
  revert n acc. induction fuel as [|fuel IH]; intros n acc Hn Ha; [done|]. cbn [dec_aux]. cbv zeta.
  assert (Hm : 0 <= n mod 10 < 10) by (apply Z.mod_pos_bound; lia).
  destruct (isdigit_val _ Hm) as [_ Hd].
  case_match; [by constructor|]. apply IH; [|by constructor]. apply Z.div_pos; lia.
Qed.
Lemma dec_aux_app fuel n acc : dec_aux fuel n acc = dec_aux fuel n [] ++ acc.
Proof.
  revert n acc. induction fuel as [|fuel IH]; intros n acc; [done|]. cbn [dec_aux]. cbv zeta.
  case_match; [done|]. rewrite IH, (IH _ [_]). by rewrite <- (assoc_L (++)).
Qed.
Lemma dec_digits n : 0 <= n -> Forall (fun c => isdigit c = true) (dec n).
Proof.
  intros. unfold dec. rewrite (proj2 (Z.ltb_ge _ _)) by lia. by apply dec_aux_digits.
Qed.
Lemma dec_aux_nonempty fuel n acc : dec_aux (S fuel) n acc <> [].
Proof.
  cbn [dec_aux]. cbv zeta. case_match; [done|]. rewrite dec_aux_app.
  intros E%app_eq_nil. by destruct E.
Qed.
Lemma dec_nonempty n : 0 <= n -> dec n <> [].
Proof. intros. unfold dec. case_match; [done|]. apply dec_aux_nonempty. Qed.

Lemma isdigit_cases c : isdigit c = true ->
  c ∈ [48; 49; 50; 51; 52; 53; 54; 55; 56; 57].
Proof.
  unfold isdigit. rewrite andb_true_iff, !Z.leb_le. intros.
  assert (c = 48 \/ c = 49 \/ c = 50 \/ c = 51 \/ c = 52 \/ c = 53 \/ c = 54 \/ c = 55 \/ c = 56 \/ c = 57)
    by lia. rewrite !elem_of_cons; tauto.
Qed.

Lemma strtol10_digit c s :
  isdigit c = true -> strtol (c :: s) 10 = clamp64 (strtol_digits 10 0 (c :: s)).
Proof.
  intros H%isdigit_cases. unfold strtol.
  repeat (apply elem_of_cons in H as [->|H];
    [cbn -[clamp64 strtol_digits Z.mul];
     repeat match goal with |- context [match ?x with [] => _ | _ :: _ => _ end] => destruct x end;
     cbn -[clamp64 strtol_digits Z.mul]; f_equal; lia|]). by apply elem_of_nil in H.
Qed.

(** A printed number at the head of a string that goes on with another
    character. *)
Lemma scan_base0_dec n rest :
  0 <= n < 2147483648 ->
  match rest with c :: _ => digit_val c = 99 /\ tolower c <> 120 | [] => True end ->
  scan_base0 (dec n ++ rest) = (n, rest).
Proof.
  intros Hn Hr.
  assert (Hstop : forall b a, b <= 16 -> scan_digits b a rest = (a, rest)).
  { intros b a Hb. destruct rest as [|c rest]; [done|]. cbn. destruct Hr as [-> _].
    by rewrite (proj2 (Z.ltb_ge _ _)) by lia. }
  unfold dec. rewrite (proj2 (Z.ltb_ge _ _)) by lia. rewrite <- dec_aux_app.
  destruct (decide (n = 0)) as [->|Hnz].
  - change (dec_aux 20 0 rest) with (48 :: rest).
    assert (E : scan_digits 8 0 (48 :: rest) = (0, rest)).
    { change (scan_digits 8 0 rest = (0, rest)). apply Hstop. lia. }
    unfold scan_base0. destruct rest as [|x [|d rest]]; [done..|]. destruct Hr as [_ Hx].
    destruct (Z.eqb_spec (tolower x) 120); [done|]. exact E.
  - destruct (dec_aux_head 20 n rest) as (c & s & E & Hc & Hd); [cbn; lia|].
    destruct (scan_dec_aux 20 n) as (k & _ & Hk); [cbn; lia|].
    specialize (Hk rest 0). rewrite Hstop in Hk by lia. rewrite E in *.
    assert (Hs : scan_base0 (c :: s) = scan_digits 10 0 (c :: s)).
    { apply isdigit_cases in Hd. repeat (apply elem_of_cons in Hd as [->|Hd]; [done || reflexivity|]).
      by apply elem_of_nil in Hd. }
    rewrite Hs, Hk. f_equal; lia.
Qed.

Lemma atoi_dec n : 0 <= n < 2147483648 -> atoi (dec n) = n.
Proof.
  intros Hn. unfold atoi.
  pose proof (dec_digits n ltac:(lia)) as Hd. pose proof (dec_nonempty n ltac:(lia)) as Hne.
  destruct (dec n) as [|c s] eqn:E; [done|]. rewrite strtol10_digit by (by inversion Hd).
  rewrite <- E, strtol_digits_scan. unfold dec. rewrite (proj2 (Z.ltb_ge _ _)) by lia.
  destruct (scan_dec_aux 20 n) as (k & _ & ->); [cbn; lia|]. cbn [scan_digits fst].
  replace (0 * k + n) with n by lia. unfold clamp64. rewrite i32_id; lia.
Qed.

Lemma cstr_app_nul s t : Forall (fun c => c <> 0) s -> cstr (s ++ 0 :: t) = s.
Proof.
  induction 1 as [|c s Hc _ IH]; cbn; [done|].
  destruct (Z.eqb_spec c 0); [done|]. by rewrite IH.
Qed.

Lemma cstr_id s : Forall (fun c => c <> 0) s -> cstr s = s.
Proof.
  induction 1 as [|c s Hc _ IH]; cbn; [done|].
  destruct (Z.eqb_spec c 0); [done|]. by rewrite IH.
Qed.

Lemma length_strncpy s n : length (strncpy s n) = n.
Proof. unfold strncpy. rewrite length_take, length_app, length_replicate. lia. Qed.

Lemma strncpy_short s n :
  (length s <= n)%nat -> strncpy s n = s ++ replicate (n - length s) 0.
Proof.
  intros. unfold strncpy. rewrite take_app, take_ge by lia. f_equal.
  rewrite take_replicate. f_equal. lia.
Qed.

(** What a [char[n]] field filled by [strncpy] holds, cut at the array's end:
    the first [n] characters of the source. *)
Lemma cstr_strncpy s n : Forall (fun c => c <> 0) s -> cstr (strncpy s n) = take n s.
Proof.
  intros Hs. destruct (decide (length s <= n)%nat) as [Hle|Hgt].
  - rewrite strncpy_short, (take_ge s) by lia.
    destruct (n - length s)%nat; cbn.
    + by rewrite app_nil_r, cstr_id.
    + by apply cstr_app_nul.
  - unfold strncpy. rewrite take_app, (proj2 (Nat.sub_0_le n (length s))) by lia.
    cbn. rewrite app_nil_r. apply cstr_id, Forall_take, Hs.
Qed.

Lemma prefixb_spec p s : prefixb p s = true <-> exists t, s = p ++ t.
Proof.
  revert s. induction p as [|x p IH]; intros [|y s]; cbn.
  - split; eauto.
  - split; eauto.
  - split; [done|]. by intros [t ?].
  - rewrite andb_true_iff, Z.eqb_eq, IH. split.
    + intros [-> [t ->]]. eauto.
    + intros [t [= -> ->]]. eauto.
Qed.

(** [strstr] finds a needle exactly when it occurs. *)
Lemma strstr_Some hay needle :
  (exists i, strstr hay needle = Some i) <-> exists a b, hay = a ++ needle ++ b.
Proof.
  induction hay as [|c hay IH]; cbn [strstr].
  - destruct (prefixb needle []) eqn:E.
    + apply prefixb_spec in E as [t Ht]. split; [|eauto]. intros _. by exists [], t.
    + split; [by intros [? ?]|]. intros (a & b & H).
      destruct a, needle; try discriminate H; discriminate E.
  - destruct (prefixb needle (c :: hay)) eqn:E.
    + apply prefixb_spec in E as [t Ht]. split; [|eauto]. intros _. by exists [], t.
    + split.
      * intros [i Hi]. destruct (strstr hay needle) eqn:E2; [|discriminate].
        destruct (proj1 IH) as (a & b & ->); [eauto|]. by exists (c :: a), b.
      * intros (a & b & H). destruct a as [|c' a].
        -- assert (prefixb needle (c :: hay) = true); [|congruence].
           apply prefixb_spec. exists b. exact H.
        -- injection H as -> H. destruct (proj2 IH) as [i Hi]; [eauto|].
           rewrite Hi. cbn. eauto.
Qed.

(** [strncmp] is zero exactly on equal prefixes. *)
Lemma strncmp_zero a b n :
  Forall (fun c => c <> 0) a -> Forall (fun c => c <> 0) b ->
  strncmp a b n = 0 <-> take n a = take n b.
Proof.
  intros Ha. revert b n. induction Ha as [|x a Hx Ha IH]; intros b n Hb;
    destruct n, Hb as [|y b Hy Hb]; cbn; try (split; done || (intros; lia) || congruence).
  destruct (Z.eqb_spec x y) as [->|Hne].
  - rewrite IH by done. split; [by intros -> | by intros [= ->]].
  - split; [lia | by intros [= -> _]].
Qed.
Lemma cstr_nonzero s : Forall (fun c => c <> 0) (cstr s).
Proof. induction s as [|c s IH]; cbn; [constructor|]. destruct (Z.eqb_spec c 0); by constructor. Qed.
Lemma length_cstr s : (length (cstr s) <= length s)%nat.
Proof. induction s as [|c s IH]; cbn; [lia|]. case_match; cbn; lia. Qed.

(** An address in dotted notation reads back. *)
Lemma length_dec_aux fuel n acc : (length (dec_aux fuel n acc) <= fuel + length acc)%nat.
Proof.
  revert n acc. induction fuel as [|fuel IH]; intros n acc; cbn [dec_aux]; [lia|]. cbv zeta.
  case_match; [cbn; lia|]. specialize (IH (n / 10) ((48 + n mod 10) :: acc)). cbn [length] in IH. lia.
Qed.
Lemma length_dec n : (length (dec n) <= 21)%nat.
Proof.
  unfold dec. case_match; cbn [length]; pose proof (length_dec_aux 20 (- n) []);
    pose proof (length_dec_aux 20 n []); cbn [length] in *; lia.
Qed.

Lemma length_dec_octet n : 0 <= n < 256 -> (1 <= length (dec n) <= 3)%nat.
Proof.
  intros Hn. assert (exists k, n = Z.of_nat k /\ (k < 256)%nat) as (k & -> & Hk)
    by (exists (Z.to_nat n); lia).
  clear Hn. do 256 (destruct k as [|k]; [vm_compute; split; repeat constructor|]). lia.
Qed.
Lemma length_inet_ntoa a : is_u32 a -> (length (inet_ntoa a) <= 15)%nat.
Proof.
  intros Ha. unfold inet_ntoa. rewrite !length_app. change (length (B ".")) with 1%nat.
  assert (H : forall x, (length (dec (x mod 256)) <= 3)%nat)
    by (intros x; apply length_dec_octet, Z.mod_pos_bound; lia).
  pose proof (H a). pose proof (H (a / 256)). pose proof (H (a / 65536)). pose proof (H (a / 16777216)). lia.
Qed.

Lemma inet_parts_dec fuel n rest parts :
  0 <= n < 256 -> (length parts < 3)%nat ->
  inet_parts (S fuel) (dec n ++ 46 :: rest) parts = inet_parts fuel rest (parts ++ [n]).
Proof.
  intros Hn Hp. pose proof (dec_digits n ltac:(lia)) as Hd. pose proof (dec_nonempty n ltac:(lia)) as Hne.
  pose proof (scan_base0_dec n (46 :: rest) ltac:(lia) ltac:(done)) as Hs.
  destruct (dec n) as [|c s]; [done|]. cbn [app inet_parts] in *.
  rewrite (Forall_inv Hd), Hs. rewrite (proj2 (Z.ltb_ge _ _)) by lia.
  destruct (Nat.leb_spec 3 (length parts)); [lia|]. done.
Qed.
Lemma inet_parts_last fuel n parts :
  0 <= n < 256 -> inet_parts (S fuel) (dec n) parts = Some (parts, n, []).
Proof.
  intros Hn. pose proof (dec_digits n ltac:(lia)) as Hd. pose proof (dec_nonempty n ltac:(lia)) as Hne.
  pose proof (scan_base0_dec n [] ltac:(lia) ltac:(done)) as Hs. rewrite app_nil_r in Hs.
  destruct (dec n) as [|c s]; [done|]. cbn [inet_parts] in *. by rewrite (Forall_inv Hd), Hs.
Qed.

Lemma inet_aton_ntoa a : is_u32 a -> inet_aton (inet_ntoa a) = Some a.
Proof.
  intros Ha. destruct (u32_bytes a Ha) as (b0 & b1 & b2 & b3 & H0 & H1 & H2 & H3 & Ea).
  assert (Ht : inet_ntoa a = dec b0 ++ 46 :: dec b1 ++ 46 :: dec b2 ++ 46 :: dec b3).
  { unfold inet_ntoa. ints.
    assert (a mod 256 = b0) as -> by (subst a; Z.div_mod_to_equations; lia).
    assert (a / 256 = b1 + 256 * b2 + 65536 * b3) as -> by (subst a; Z.div_mod_to_equations; lia).
    assert (a / 65536 = b2 + 256 * b3) as -> by (subst a; Z.div_mod_to_equations; lia).
    assert (a / 16777216 = b3) as -> by (subst a; Z.div_mod_to_equations; lia).
    assert ((b1 + 256 * b2 + 65536 * b3) mod 256 = b1) as -> by (Z.div_mod_to_equations; lia).
    assert ((b2 + 256 * b3) mod 256 = b2) as -> by (Z.div_mod_to_equations; lia).
    rewrite Z.mod_small by lia. done. }
  unfold inet_aton. rewrite Ht. ints. pose proof (length_dec_octet b0 H0).
  set (s := dec b0 ++ _). assert (Hl : exists f, S (length s) = S (S (S (S f)))).
  { exists (length s - 3)%nat. unfold s. rewrite length_app. cbn [length].
    rewrite length_app. cbn [length]. lia. }
  destruct Hl as [f ->]. unfold s.
  rewrite !inet_parts_dec, inet_parts_last by (done || cbn; lia).
  cbn [app mbind option_bind length zip_with foldr].
  change (Z.shiftl 1 (8 * (4 - Z.of_nat 3))) with 256.
  rewrite (proj2 (Z.leb_gt _ _)) by lia.
  f_equal. unfold htonl. rewrite <- (ntohl_ntohl a) by (ints; lia). f_equal.
  rewrite Ea, ntohl_bytes by (ints; lia).
  change (Z.shiftl 1 (8 * (3 - 0))) with 16777216. change (Z.shiftl 1 (8 * (3 - 1))) with 65536.
  change (Z.shiftl 1 (8 * (3 - 2))) with 256. lia.
Qed.
