(* ===== verification/Float.v ===== *)
(** * Binary floating-point numbers

    A [float] or [double] is the rational number it denotes; every operation rounds its
    exact result to [p] bits (24 or 53), to nearest and ties to even.  The values that occur
    in the code are far from overflow and from the subnormal range. *)

From Stdlib Require Import QArith Qround Qabs Qpower Lqa.
From S2P Require Import Prelude.
Local Open Scope Z_scope.

(** ** Rounding *)

(** [n/d] scaled by [2^-e]. *)
Definition sc_num (n e : Z) : Z := if e <? 0 then n * 2 ^ (- e) else n.
Definition sc_den (d e : Z) : Z := if e <? 0 then d else d * 2 ^ e.

(** The exponent for which [n/d] has an integer significand of [p] bits. *)
Definition bexp (p n d : Z) : Z :=
  let e := Z.log2 n - Z.log2 d - (p - 1) in
  if sc_num n e <? 2 ^ (p - 1) * sc_den d e then e - 1 else e.

(** Nearest integer to [n/d], ties to even. *)
Definition rne (n d : Z) : Z :=
  let q := n / d in
  let r := n mod d in
  if 2 * r <? d then q
  else if d <? 2 * r then q + 1
  else if Z.even q then q else q + 1.

Definition pow2Q (m e : Z) : Q :=
  if e <? 0 then Qmake m (Z.to_pos (2 ^ (- e))) else inject_Z (m * 2 ^ e).

Definition round (p : Z) (q : Q) : Q :=
  let q := Qred q in
  let n := Qnum q in
  let d := Zpos (Qden q) in
  if n =? 0 then 0%Q
  else let e := bexp p (Z.abs n) d in
       pow2Q (Z.sgn n * rne (sc_num (Z.abs n) e) (sc_den d e)) e.

(** [double], [float]. *)
Abbreviation rnd := (round 53).
Abbreviation rndf := (round 24).

Definition dbl (z : Z) : Q := rnd (inject_Z z).
Definition dadd (a b : Q) : Q := rnd (a + b).
Definition dsub (a b : Q) : Q := rnd (a - b).
Definition dmul (a b : Q) : Q := rnd (a * b).
Definition ddiv (a b : Q) : Q := rnd (a / b).
Definition dgt (a b : Q) : bool := negb (Qle_bool a b).

Definition flt (z : Z) : Q := rndf (inject_Z z).
Definition fdiv (a b : Q) : Q := rndf (a / b).

(** Conversion to an integer truncates; to [uint64_t] it is taken modulo
    [2^64], which is what x86-64 computes for the negative values of
    [timepico_sub] (in C that conversion is undefined). *)
Definition dtrunc (q : Q) : Z := Z.quot (Qnum q) (Zpos (Qden q)).
Definition d_to_u64 (q : Q) : Z := u64 (dtrunc q).
Definition d_to_int (q : Q) : Z := i32 (dtrunc q).

(** ** Facts *)
#[export] Instance round_proper p : Proper (Qeq ==> eq) (round p).
Proof. intros q q' Hq. unfold round. by rewrite (Qred_complete _ _ Hq). Qed.

Lemma rne_bound n d : 0 < d -> 2 * rne n d * d <= 2 * n + d.
Proof.
  intros Hd. unfold rne. pose proof (Z.div_mod n d). pose proof (Z.mod_pos_bound n d Hd).
  destruct (Z.ltb_spec (2 * (n mod d)) d); [nia|].
  destruct (Z.ltb_spec d (2 * (n mod d))); [nia|]. destruct (Z.even _); nia.
Qed.

Lemma rne_bound_below n d : 0 < d -> 2 * n - d <= 2 * rne n d * d.
Proof.
  intros Hd. unfold rne. pose proof (Z.div_mod n d). pose proof (Z.mod_pos_bound n d Hd).
  destruct (Z.ltb_spec (2 * (n mod d)) d); [nia|].
  destruct (Z.ltb_spec d (2 * (n mod d))); [nia|]. destruct (Z.even _); nia.
Qed.

Lemma rne_ge n d : n / d <= rne n d.
Proof.
  unfold rne. destruct (_ <? _); [lia|]. destruct (_ <? _); [lia|]. destruct (Z.even _); lia.
Qed.

Lemma rne_exact n d : 0 < d -> rne (n * d) d = n.
Proof.
  intros Hd. unfold rne. rewrite Z.div_mul, Z.mod_mul by lia.
  by rewrite (proj2 (Z.ltb_lt _ _)) by lia.
Qed.

(** The nearest integer, when one is near enough. *)
Lemma rne_near n d z : 0 < d -> 2 * Z.abs (z * d - n) < d -> rne n d = z.
Proof. intros Hd H. pose proof (rne_bound n d Hd). pose proof (rne_bound_below n d Hd). nia. Qed.

(** ** Errors, in rational numbers *)
Local Open Scope Q_scope.

Lemma two_pos e : 0 < 2 ^ e.
Proof. by apply Qpower_0_lt. Qed.
Lemma two_split a b : 2 ^ (a + b) == 2 ^ a * 2 ^ b.
Proof. by apply Qpower_plus. Qed.
Lemma two_Z e : (0 <= e)%Z -> inject_Z (2 ^ e) == 2 ^ e.
Proof. intros. by rewrite Zpower_Qpower. Qed.
Lemma two_opp e : 2 ^ e * 2 ^ (- e) == 1.
Proof. rewrite <- two_split. by replace (e + - e)%Z with 0%Z by lia. Qed.

Lemma pow2Q_value m e : pow2Q m e == inject_Z m * 2 ^ e.
Proof.
  unfold pow2Q. destruct (Z.ltb_spec e 0).
  - assert (0 < 2 ^ (- e))%Z by (apply Z.pow_pos_nonneg; lia).
    rewrite Qmake_Qdiv, Z2Pos.id by done. rewrite two_Z, Qpower_opp by lia. pose proof (two_pos e). field. lra.
  - rewrite inject_Z_mult, two_Z by lia. reflexivity.
Qed.

Lemma sc_value n d e : (0 < d)%Z -> inject_Z (sc_num n e) == inject_Z n / inject_Z d * 2 ^ (- e) * inject_Z (sc_den d e) /\ (0 < sc_den d e)%Z.
Proof.
  intros Hd. assert (0 < inject_Z d) by (unfold Qlt; cbn; lia). unfold sc_num, sc_den. destruct (Z.ltb_spec e 0).
  - split; [|done]. rewrite inject_Z_mult, two_Z by lia. field. lra.
  - assert (0 < 2 ^ e)%Z by (apply Z.pow_pos_nonneg; lia). split; [|nia]. rewrite inject_Z_mult, two_Z by lia.
    setoid_replace (inject_Z n / inject_Z d * 2 ^ (- e) * (inject_Z d * 2 ^ e)) with (inject_Z n / inject_Z d * inject_Z d * (2 ^ e * 2 ^ (- e))) using relation Qeq by ring.
    rewrite two_opp. field. lra.
Qed.

(** The significand has [p] bits, so the exponent is bounded by that of the number. *)
Lemma bexp_le p n d k : (0 < p)%Z -> (0 < n)%Z -> (0 < d)%Z -> inject_Z n / inject_Z d < 2 ^ k -> (bexp p n d <= k - p)%Z.
Proof.
  intros Hp Hn Hd Hk.
  assert (Hlow : inject_Z (2 ^ (p - 1)) * 2 ^ bexp p n d <= inject_Z n / inject_Z d).
  { unfold bexp. set (e := (Z.log2 n - Z.log2 d - (p - 1))%Z). destruct (sc_value n d e Hd) as [E He]. pose proof (two_pos e).
    destruct (Z.ltb_spec (sc_num n e) (2 ^ (p - 1) * sc_den d e)) as [_|Hge].
    - assert (H1 : inject_Z (2 ^ Z.log2 n) <= inject_Z n) by (rewrite <- Zle_Qle; by apply Z.log2_spec).
      assert (H2 : inject_Z d < inject_Z (2 ^ (Z.log2 d + 1))) by (rewrite <- Zlt_Qlt; by apply Z.log2_spec).
      rewrite two_Z in H1 by apply Z.log2_nonneg. rewrite two_Z in H2 by (pose proof (Z.log2_nonneg d); lia).
      rewrite two_Z, <- two_split by lia. replace (p - 1 + (e - 1))%Z with (Z.log2 n + - (Z.log2 d + 1))%Z by lia.
      assert (0 < inject_Z d) by (unfold Qlt; cbn; lia). apply Qle_shift_div_l; [done|]. rewrite two_split.
      pose proof (two_opp (Z.log2 d + 1)) as Hcb. pose proof (two_pos (Z.log2 n)). pose proof (two_pos (- (Z.log2 d + 1))).
      set (a := 2 ^ Z.log2 n) in *. set (b := 2 ^ (- (Z.log2 d + 1))) in *. set (c := 2 ^ (Z.log2 d + 1)) in *.
      apply (Qle_trans _ (a * (b * c))); [|rewrite (Qmult_comm b), Hcb; lra].
      rewrite <- Qmult_assoc. apply Qmult_le_l; [done|]. apply Qmult_le_l; [done|]. lra.
    - rewrite Zle_Qle, inject_Z_mult, E in Hge. assert (0 < inject_Z (sc_den d e)) by (unfold Qlt; cbn; lia).
      apply Qmult_le_r in Hge; [|done]. apply (Qmult_le_r _ _ (2 ^ (- e))); [apply two_pos|].
      rewrite <- Qmult_assoc, two_opp. lra. }
  rewrite two_Z, <- two_split in Hlow by lia. assert (Hlt : 2 ^ (p - 1 + bexp p n d) < 2 ^ k) by lra.
  apply Qpower_lt_compat_l_inv in Hlt; [lia|done].
Qed.

(** Rounding a number below [2^k] changes it by at most half of its last bit, and an
    integer below it stays below it. *)
Lemma round_error p q k : (0 < p)%Z -> 0 <= q -> q < 2 ^ k -> Qabs (round p q - q) <= 2 ^ (k - p - 1).
Proof.
  intros Hp H0 Hk. assert (Hred : round p q - q == round p q - Qred q) by (by rewrite Qred_correct). rewrite Hred. clear Hred.
  rewrite <- (Qred_correct q) in H0, Hk. unfold round.
  destruct (Qred q) as [n d]. cbn [Qnum Qden]. destruct (Z.eqb_spec n 0) as [->|Hn].
  { setoid_replace (0 - (0 # d)) with 0 using relation Qeq by reflexivity. cbn. pose proof (two_pos (k - p - 1)). lra. }
  assert (Hn' : (0 < n)%Z) by (unfold Qle in H0; cbn in H0; lia). rewrite Z.abs_eq, Z.sgn_pos, Z.mul_1_l by lia.
  rewrite Qmake_Qdiv in *. set (D := Zpos d) in *. assert (HD : (0 < D)%Z) by (subst D; lia). set (e := bexp p n D).
  assert (He : (e <= k - p)%Z) by (by apply bexp_le). destruct (sc_value n D e HD) as [E Hd].
  rewrite pow2Q_value. set (m := rne _ _). set (N := sc_num n e) in *. set (M := sc_den D e) in *.
  assert (Hm : Qabs (inject_Z m - inject_Z n / inject_Z D * 2 ^ (- e)) <= 1 # 2).
  { assert (HM : 0 < inject_Z M) by (unfold Qlt; cbn; lia). pose proof (rne_bound N M Hd) as B1. pose proof (rne_bound_below N M Hd) as B2. fold m in B1, B2.
    rewrite Zle_Qle, ?inject_Z_plus, ?inject_Z_mult in B1. rewrite Zle_Qle in B2. unfold Z.sub in B2. rewrite inject_Z_plus, inject_Z_opp, !inject_Z_mult in B2.
    rewrite E in B1, B2. set (x := inject_Z n / inject_Z D * 2 ^ (- e)) in *. change (inject_Z 2) with 2 in *.
    apply Qabs_Qle_condition. split; apply (Qmult_le_r _ _ (inject_Z M)); try done; lra. }
  setoid_replace (inject_Z m * 2 ^ e - inject_Z n / inject_Z D) with ((inject_Z m - inject_Z n / inject_Z D * 2 ^ (- e)) * 2 ^ e) using relation Qeq.
  2: { rewrite <- (Qmult_1_r (inject_Z n / inject_Z D)) at 1. rewrite <- (two_opp e). ring. }
  rewrite Qabs_Qmult, (Qabs_pos (2 ^ e)) by (pose proof (two_pos e); lra).
  apply (Qle_trans _ ((1 # 2) * 2 ^ e)); [apply Qmult_le_r; [apply two_pos|done]|].
  replace (k - p - 1)%Z with (-1 + (k - p))%Z by lia. rewrite two_split. change (2 ^ (-1)) with (1 # 2). apply Qmult_le_l; [done|].
  by apply Qpower_le_compat_l.
Qed.

(** Integers below a number stay below it. *)
Lemma round_ge p q z : (0 < p)%Z -> (0 <= z)%Z -> inject_Z z <= q -> q < 2 ^ p -> inject_Z z <= round p q.
Proof.
  intros Hp Hz Hq Hk. rewrite <- (Qred_correct q) in Hq, Hk. unfold round. destruct (Qred q) as [n d]. cbn [Qnum Qden].
  destruct (Z.eqb_spec n 0) as [->|Hn]; [unfold Qle in *; cbn in *; lia|].
  assert (Hn' : (0 < n)%Z) by (unfold Qle in Hq; cbn in Hq; lia). rewrite Z.abs_eq, Z.sgn_pos, Z.mul_1_l by lia.
  rewrite Qmake_Qdiv in *. set (D := Zpos d) in *. assert (HD : (0 < D)%Z) by (subst D; lia). set (e := bexp p n D).
  assert (He : (e <= 0)%Z) by (pose proof (bexp_le p n D p Hp Hn' HD Hk); lia). destruct (sc_value n D e HD) as [E Hd].
  rewrite pow2Q_value. set (N := sc_num n e) in *. set (M := sc_den D e) in *.
  assert (Hm : (z * 2 ^ (- e) <= rne N M)%Z).
  { etransitivity; [|apply rne_ge]. apply Z.div_le_lower_bound; [done|]. rewrite Zle_Qle, E, !inject_Z_mult, two_Z by lia.
    rewrite Qmult_comm. assert (0 < inject_Z M) by (unfold Qlt; cbn; lia). apply Qmult_le_r; [done|]. apply Qmult_le_r; [apply two_pos|done]. }
  rewrite Zle_Qle, inject_Z_mult, two_Z in Hm by lia. pose proof (two_opp e) as Ho. pose proof (two_pos e) as Ht.
  rewrite <- (Qmult_1_r (inject_Z z)), <- Ho, (Qmult_comm (2 ^ e)), Qmult_assoc. by apply Qmult_le_r.
Qed.

Lemma Qred_inject_Z z : Qred (inject_Z z) = inject_Z z.
Proof.
  unfold Qred, inject_Z. cbn [Qnum Qden].
  pose proof (Z.ggcd_gcd z 1) as Hg. pose proof (Z.ggcd_correct_divisors z 1) as Hd.
  destruct (Z.ggcd z 1) as (g & a & b). cbn in *. rewrite Z.gcd_1_r in Hg. subst g.
  destruct Hd as [-> Hb]. assert (b = 1%Z) as -> by lia. cbn. f_equal. lia.
Qed.

(** Integers of at most [p] bits are represented exactly. *)
Lemma round_int p q z : (0 < p)%Z -> q == inject_Z z -> (Z.abs z < 2 ^ p)%Z -> round p q == inject_Z z.
Proof.
  intros Hp -> Hz. unfold round. rewrite Qred_inject_Z. cbn [Qnum Qden inject_Z]. destruct (Z.eqb_spec z 0) as [->|Hnz]; [reflexivity|].
  assert (He : (bexp p (Z.abs z) 1 <= 0)%Z).
  { enough (bexp p (Z.abs z) 1 <= p - p)%Z by lia. apply bexp_le; [done|lia|done|]. change (inject_Z 1) with 1. unfold Qdiv. change (/ 1) with 1.
    rewrite Qmult_1_r, <- two_Z, <- Zlt_Qlt by lia. done. }
  set (e := bexp p _ _) in *. rewrite pow2Q_value. unfold sc_num, sc_den.
  assert (Hr : forall x, rne x 1 = x) by (intros x; rewrite <- (Z.mul_1_r x) at 1; by apply rne_exact).
  destruct (Z.ltb_spec e 0); rewrite ?(Z.mul_1_l (2 ^ e)).
  - rewrite Hr, Z.mul_assoc, Z.mul_comm, (Z.mul_comm (Z.sgn z)), Z.abs_sgn, inject_Z_mult, two_Z by lia.
    rewrite Qmult_comm, Qmult_assoc, two_opp. ring.
  - assert (e = 0%Z) as -> by lia. rewrite Hr, (Z.mul_comm (Z.sgn z)), Z.abs_sgn. change (2 ^ 0) with 1. ring.
Qed.

Lemma dtrunc_int q z : q == inject_Z z -> dtrunc q = z.
Proof. unfold Qeq, dtrunc. cbn. rewrite Z.mul_1_r. intros ->. apply Z.quot_mul. lia. Qed.

Lemma dtrunc_floor q : 0 <= q -> inject_Z (dtrunc q) <= q /\ q < inject_Z (dtrunc q + 1).
Proof.
  intros Hq. assert (dtrunc q = Qfloor q) as ->.
  { unfold dtrunc. destruct q as [n d]. unfold Qle in Hq. cbn in *. apply Z.quot_div_nonneg; lia. }
  split; [apply Qfloor_le|apply Qlt_floor].
Qed.

Lemma round_nonneg p q : 0 <= q -> 0 <= round p q.
Proof.
  intros Hq. rewrite <- (Qred_correct q) in Hq. unfold round. destruct (Qred q) as [n d]. unfold Qle in Hq. cbn in Hq. cbn [Qnum Qden].
  destruct (Z.eqb_spec n 0); [done|]. rewrite pow2Q_value, Z.sgn_pos, Z.mul_1_l, Z.abs_eq by lia. apply Qmult_le_0_compat; [|apply Qlt_le_weak, two_pos].
  rewrite <- (Zle_Qle 0). etransitivity; [|apply rne_ge]. set (e := bexp _ _ _). destruct (sc_value n (Zpos d) e) as [_ H]; [done|].
  apply Z.div_pos; [|done]. unfold sc_num. pose proof (Z.pow_nonneg 2 (- e)). destruct (_ <? _)%Z; nia.
Qed.
