(* ===== verification/Picotime.v ===== *)
(** * Picosecond timestamps (src/picotime.c, caputils/picotime.h)

    [PICODIVIDER] is the [double] 1e12, so the carries of [timepico_add] and
    [timepico_sub] are computed in binary64 and converted back (see [Float]). *)

From Stdlib Require Import QArith Qround Qabs Lqa String.
From S2P Require Import Prelude CLib Float.
Local Open Scope Z_scope.

(** ** Data *)
Record timepico := mk_timepico { tv_sec : Z; tv_psec : Z }.
#[export] Instance timepico_rebuild : Rebuild timepico :=
  fun t => mk_timepico (tv_sec t) (tv_psec t).
#[export] Instance timepico_eq_dec : EqDecision timepico.
Proof. solve_decision. Defined.

Definition PICO : Z := 1000000000000.
Definition PICODIVIDER : Q := inject_Z PICO.

(** [struct timespec] and [struct timeval] (both with [long] fields). *)
Record timespec := { ts_sec : Z; ts_nsec : Z }.
Record timeval := { tval_sec : Z; tval_usec : Z }.

(** ** Operations *)
Definition timespec_to_timepico (i : timespec) : timepico :=
  let out := mk_timepico (u32 (ts_sec i)) (u64 (ts_nsec i)) in
  out <| tv_psec := u64 (tv_psec out * 1000) |>.

Definition timeval_to_timepico (i : timeval) : timepico :=
  let out := mk_timepico (u32 (tval_sec i)) (u64 (tval_usec i)) in
  let out := out <| tv_psec := u64 (tv_psec out * 1000) |> in
  out <| tv_psec := u64 (tv_psec out * 1000) |>.

Definition timepico_new (sec psec : Z) : timepico := mk_timepico (u32 sec) (u64 psec).

Definition timecmp (ts1 ts2 : timepico) : Z :=
  if tv_sec ts1 <? tv_sec ts2 then -1
  else if tv_sec ts2 <? tv_sec ts1 then 1
  else if tv_psec ts1 <? tv_psec ts2 then -1
  else if tv_psec ts2 <? tv_psec ts1 then 1
  else 0.

Definition timepico_sub (x y : timepico) : timepico :=
  let y :=
    if tv_psec x <? tv_psec y then
      let psec := d_to_int (dadd (ddiv (dbl (u64 (tv_psec y - tv_psec x))) PICODIVIDER) (dbl 1)) in
      let y := y <| tv_psec := d_to_u64 (dsub (dbl (tv_psec y)) (dmul PICODIVIDER (dbl psec))) |> in
      y <| tv_sec := u32 (tv_sec y + psec) |>
    else y in
  let y :=
    if dgt (dbl (u64 (tv_psec x - tv_psec y))) PICODIVIDER then
      let psec := d_to_int (ddiv (dbl (u64 (tv_psec x - tv_psec y))) PICODIVIDER) in
      let y := y <| tv_psec := d_to_u64 (dadd (dbl (tv_psec y)) (dmul PICODIVIDER (dbl psec))) |> in
      y <| tv_sec := u32 (tv_sec y - psec) |>
    else y in
  mk_timepico (u32 (tv_sec x - tv_sec y)) (u64 (tv_psec x - tv_psec y)).

Fixpoint timepico_add_loop (fuel : nat) (tmp : timepico) : res timepico :=
  if dgt (dbl (tv_psec tmp)) PICODIVIDER then
    match fuel with
    | O => OutOfFuel
    | S fuel' =>
        let tmp := tmp <| tv_sec := u32 (tv_sec tmp + 1) |> in
        let tmp := tmp <| tv_psec := d_to_u64 (dsub (dbl (tv_psec tmp)) PICODIVIDER) |> in
        timepico_add_loop fuel' tmp
    end
  else Ok tmp.

Definition timepico_add (a b : timepico) : res timepico :=
  let tmp := mk_timepico (u32 (tv_sec a + tv_sec b)) (u64 (tv_psec a + tv_psec b)) in
  timepico_add_loop (S (Z.to_nat (tv_psec tmp / PICO))) tmp.

(** Scaling of the fraction ".ddd" of [timepico_from_string]: ten-fold until
    twelve digits are accounted for. *)
Fixpoint scale_fraction (missing : nat) (psec : Z) : Z :=
  match missing with
  | O => psec
  | S n => scale_fraction n (u64 (psec * 10))
  end.

Definition parse_fraction (fraction : bytes) : Z :=
  let digits := length fraction in
  let psec := u64 (strtol fraction 10) in
  scale_fraction (12 - digits) psec.

Section FromString.
(** [strptime(input, fmt, &tm)] and [mktime(&tm)]: calendar parsing belongs to
    the C library and depends on the time zone; it is a parameter. *)
Context {tm : Type}.
Variable strptime : bytes -> string -> option (tm * bytes).
Variable mktime : tm -> Z.

(** Result: the return value and the new [*dst]. *)
Definition timepico_from_string (input : bytes) : Z * timepico :=
  let fraction := strptime input "%F %T" in
  let fraction := match fraction with None => strptime input "%Y%m%d %T" | _ => fraction end in
  let fraction := match fraction with None => strptime input "%y%m%d %T" | _ => fraction end in
  let fraction := match fraction with None => strptime input "%s" | _ => fraction end in
  match fraction with
  | None => (-1, mk_timepico 0 0)
  | Some (t, rest) =>
      let dst := mk_timepico (u32 (mktime t)) 0 in
      match rest with
      | 46 :: frac => (0, dst <| tv_psec := parse_fraction frac |>)
      | _ => (0, dst)
      end
  end.
End FromString.

Definition timepico_to_double (tp : timepico) : Q := dadd (dbl (tv_sec tp)) (ddiv (dbl (tv_psec tp)) PICODIVIDER).

(** [gmtime_r] and [strftime] of the C library as one parameter, the text for a time and a
    format.  A text that does not fit leaves the contents of the array undefined. *)
Section ToString.
Variable strftime : Z -> bytes -> bytes.
Definition timepico_to_string_r (src : timepico) (room : Z) (fmt : bytes) : res bytes :=
  let text := strftime (tv_sec src) fmt in
  if blen text <? room then Ok text else Fault.
Definition timepico_to_string (src : timepico) (fmt : bytes) : res bytes := timepico_to_string_r src 128 fmt.
End ToString.

(** ** Carries in binary64 *)

(** The quotient of a difference of less than one second, plus one, is in
    [1, 2): the carry is one second. *)
Lemma rnd_lt_1 q :
  (0 < q)%Q -> (q <= 1 - (1 # 1099511627776))%Q ->
  (0 <= rnd q)%Q /\ (rnd q <= 1 - (1 # 2199023255552))%Q.
Proof.
  intros H0 H1. rewrite <- (Qred_correct q) in H0, H1. unfold round.
  destruct (Qred q) as [n d]. unfold Qlt, Qle in *. cbn [Qnum Qden Qminus Qplus Qopp] in *.
  rewrite ?Z.mul_1_r, ?Z.mul_1_l in *. set (D := Zpos d) in *. assert (0 < D) as HD by (subst D; lia).
  assert (n < D) as Hlt by lia. rewrite (proj2 (Z.eqb_neq _ _)) by lia.
  rewrite Z.abs_eq, Z.sgn_pos, Z.mul_1_l by lia.
  pose proof (Z.log2_le_mono n D ltac:(lia)) as Hlog.
  assert (bexp 53 n D <= -52) as Hle by (unfold bexp; destruct (_ <? _); lia).
  set (e := bexp 53 n D) in *. unfold pow2Q, sc_num, sc_den.
  rewrite (proj2 (Z.ltb_lt e 0)) by lia. cbn [Qnum Qden].
  set (k := - e) in *. set (P := 2 ^ (k - 41)).
  assert (2 ^ k = 2199023255552 * P) as Hk
    by (subst P; change 2199023255552 with (2 ^ 41); rewrite <- Z.pow_add_r by lia; f_equal; lia).
  assert (0 < P) as HP by (apply Z.pow_pos_nonneg; lia).
  rewrite Hk, Z2Pos.id by lia. pose proof (rne_bound (n * (2199023255552 * P)) D HD) as Hb.
  pose proof (rne_ge (n * (2199023255552 * P)) D) as Hge.
  assert (0 <= n * (2199023255552 * P) / D) by (apply Z.div_pos; nia).
  set (r := rne _ _) in *. split; [lia|].
  assert (2 * r <= 2 * 2199023255552 * P - 4 * P + 1); [|cbn [Z.mul Z.add]; lia].
  apply (Z.mul_le_mono_pos_r _ _ D HD). cbn [Z.mul Pos.mul] in *. nia.
Qed.

Lemma rnd_1_2 q :
  (1 <= q)%Q -> (q <= 2 - (1 # 2199023255552))%Q -> (1 <= rnd q)%Q /\ (rnd q < 2)%Q.
Proof.
  intros H0 H1. rewrite <- (Qred_correct q) in H0, H1. unfold round.
  destruct (Qred q) as [n d]. unfold Qlt, Qle in *. cbn [Qnum Qden Qminus Qplus Qopp] in *.
  rewrite ?Z.mul_1_r, ?Z.mul_1_l in *. set (D := Zpos d) in *. assert (0 < D) as HD by (subst D; lia).
  rewrite (proj2 (Z.eqb_neq _ _)) by lia. rewrite Z.abs_eq, Z.sgn_pos, Z.mul_1_l by lia.
  assert (bexp 53 n D = -52) as ->.
  { pose proof (Z.log2_le_mono D n ltac:(lia)).
    assert (Z.log2 n <= Z.log2 D + 1)
      by (rewrite Z.add_1_r, <- Z.log2_double by lia; apply Z.log2_le_mono; lia).
    unfold bexp. change (53 - 1) with 52. assert (Z.log2 n - Z.log2 D - 52 = -52 \/ Z.log2 n - Z.log2 D - 52 = -51)
      as [-> | ->] by lia; unfold sc_num, sc_den; cbn [Z.ltb Z.compare Z.opp].
    - rewrite (proj2 (Z.ltb_ge _ _)); [done | nia].
    - rewrite (proj2 (Z.ltb_lt _ _)); [done | nia]. }
  unfold pow2Q, sc_num, sc_den. cbn [Z.ltb Z.compare Z.opp Qnum Qden].
  change (Z.to_pos (2 ^ 52)) with 4503599627370496%positive.
  pose proof (rne_bound (n * 2 ^ 52) D HD) as Hb. pose proof (rne_ge (n * 2 ^ 52) D) as Hge.
  assert (2 ^ 52 <= n * 2 ^ 52 / D) by (apply Z.div_le_lower_bound; nia).
  set (r := rne _ _) in *. change (2 ^ 52) with 4503599627370496 in *. split; [lia|].
  assert (2 * r <= 2 * 9007199254740992 - 4096 + 1); [|lia].
  apply (Z.mul_le_mono_pos_r _ _ D HD). nia.
Qed.

Lemma dtrunc_1 q : (1 <= q)%Q -> (q < 2)%Q -> dtrunc q = 1.
Proof.
  unfold Qle, Qlt, dtrunc. cbn. rewrite ?Z.mul_1_r, ?Z.mul_1_l. intros.
  rewrite Z.quot_div_nonneg by lia. symmetry. apply (Z.div_unique _ _ _ (Qnum q - Zpos (Qden q))); lia.
Qed.

Lemma dbl_int z : Z.abs z < 2 ^ 53 -> (dbl z == inject_Z z)%Q.
Proof. intros. by apply round_int. Qed.

Lemma dgt_int a b :
  Z.abs a < 2 ^ 53 -> dgt (dbl a) (inject_Z b) = (b <? a).
Proof.
  intros Ha. unfold dgt. destruct (Z.ltb_spec b a) as [Hlt|Hge].
  - apply negb_true_iff, not_true_is_false. rewrite Qle_bool_iff, (dbl_int a Ha), <- Zle_Qle. lia.
  - apply negb_false_iff. rewrite Qle_bool_iff, (dbl_int a Ha), <- Zle_Qle. lia.
Qed.

(** The number of seconds borrowed for a difference of less than a second. *)
Lemma carry_1 a : 0 < a < PICO -> d_to_int (dadd (ddiv (dbl a) PICODIVIDER) (dbl 1)) = 1.
Proof.
  unfold PICO. intros Ha. unfold d_to_int. rewrite dtrunc_1; [reflexivity| |].
  all: unfold dadd, ddiv; rewrite (dbl_int a), (dbl_int 1) by lia;
    destruct (rnd_lt_1 (inject_Z a / PICODIVIDER)) as [Hlo Hhi];
    [unfold Qlt, Qdiv, Qmult; cbn; lia | unfold Qle, Qdiv, Qmult; cbn; lia |].
  all: destruct (rnd_1_2 (rnd (inject_Z a / PICODIVIDER) + inject_Z 1)) as [? ?]; trivial.
  all: change (inject_Z 1) with 1%Q.
  all: try (rewrite <- (Qplus_0_l 1) at 1; apply Qplus_le_compat; [assumption | apply Qle_refl]).
  all: apply (Qle_trans _ ((1 - (1 # 2199023255552)) + 1));
    [apply Qplus_le_compat; [assumption | apply Qle_refl] | unfold Qle; cbn; lia].
Qed.

(** ** Specification: a timestamp is a number of picoseconds *)
Definition val (t : timepico) : Z := tv_sec t * PICO + tv_psec t.

(** Normalised: a [uint32_t] of seconds and less than a second of picoseconds. *)
Definition norm (t : timepico) : Prop := is_u32 (tv_sec t) /\ 0 <= tv_psec t < PICO.

Ltac tp := unfold val, norm, PICO in *; cbn [tv_sec tv_psec] in *.

Lemma timecmp_compare a b :
  norm a -> norm b ->
  timecmp a b = match val a ?= val b with Lt => -1 | Eq => 0 | Gt => 1 end.
Proof.
  intros [Ha1 Ha2] [Hb1 Hb2]. unfold timecmp. tp.
  destruct (Z.compare_spec (tv_sec a * 1000000000000 + tv_psec a)
              (tv_sec b * 1000000000000 + tv_psec b)) as [E|E|E];
  destruct (Z.ltb_spec (tv_sec a) (tv_sec b)); try lia;
  destruct (Z.ltb_spec (tv_sec b) (tv_sec a)); try lia;
  destruct (Z.ltb_spec (tv_psec a) (tv_psec b)); try lia;
  destruct (Z.ltb_spec (tv_psec b) (tv_psec a)); lia.
Qed.

Lemma timepico_add_loop_done fuel t :
  0 <= tv_psec t <= PICO -> timepico_add_loop fuel t = Ok t.
Proof.
  intros Ht. tp. destruct fuel; cbn [timepico_add_loop];
  unfold PICODIVIDER, PICO; rewrite dgt_int by lia;
  by rewrite (proj2 (Z.ltb_ge _ _)) by lia.
Qed.

Lemma d_to_u64_sub a q b :
  (q == inject_Z b)%Q ->
  Z.abs a < 2 ^ 53 -> Z.abs (a - b) < 2 ^ 53 -> d_to_u64 (dsub (dbl a) q) = u64 (a - b).
Proof.
  intros Hq Ha Hab. unfold d_to_u64, dsub. f_equal. apply dtrunc_int, round_int; [done| |done].
  rewrite Hq, (dbl_int a Ha). unfold Qminus. by rewrite <- inject_Z_opp, <- inject_Z_plus.
Qed.

Lemma dmul_PICO_1 : (dmul PICODIVIDER (dbl 1) == inject_Z PICO)%Q.
Proof. reflexivity. Qed.

Lemma timepico_sub_noborrow x y :
  tv_psec y <= tv_psec x -> 0 <= tv_psec y -> tv_psec x <= PICO ->
  timepico_sub x y = mk_timepico (u32 (tv_sec x - tv_sec y)) (tv_psec x - tv_psec y).
Proof.
  intros. tp. unfold timepico_sub. rewrite (proj2 (Z.ltb_ge _ _)) by lia.
  rewrite u64_id by (ints; lia). unfold PICODIVIDER, PICO. rewrite dgt_int by lia.
  rewrite (proj2 (Z.ltb_ge _ _)) by lia. rewrite u64_id by (ints; lia). done.
Qed.

Lemma timepico_sub_borrow x y :
  tv_psec x < tv_psec y -> 0 <= tv_psec x -> tv_psec y < PICO ->
  timepico_sub x y =
    mk_timepico (u32 (tv_sec x - tv_sec y - 1)) (tv_psec x - tv_psec y + PICO).
Proof.
  intros. tp. unfold timepico_sub. rewrite (proj2 (Z.ltb_lt _ _)) by lia.
  rewrite (u64_id (tv_psec y - tv_psec x)) by (ints; lia). rewrite carry_1 by (unfold PICO; lia).
  cbn [field_set tv_psec tv_sec]. rewrite (d_to_u64_sub _ _ _ dmul_PICO_1) by (unfold PICO; lia).
  assert (u64 (tv_psec x - u64 (tv_psec y - PICO)) = tv_psec x - tv_psec y + 1000000000000) as ->.
  { unfold PICO, u64. rewrite Zminus_mod_idemp_r. rewrite Z.mod_small; lia. }
  unfold PICODIVIDER, PICO. rewrite dgt_int by lia. rewrite (proj2 (Z.ltb_ge _ _)) by lia.
  f_equal; cbn [tv_sec tv_psec]; unfold u32, u64; rewrite Zminus_mod_idemp_r; [f_equal; lia|].
  rewrite Z.mod_small; lia.
Qed.

(** [timepico_sub] is subtraction of picoseconds modulo the range of the type,
    and its result is normalised. *)
Lemma timepico_sub_spec x y :
  norm x -> norm y ->
  norm (timepico_sub x y) /\ val (timepico_sub x y) = (val x - val y) mod (4294967296 * PICO).
Proof.
  intros [Hx1 Hx2] [Hy1 Hy2]. destruct (Z.lt_ge_cases (tv_psec x) (tv_psec y)).
  - rewrite timepico_sub_borrow by lia. tp. split.
    + split; [apply u32_range | lia].
    + apply Z.mod_unique_pos with (q := (tv_sec x - tv_sec y - 1) / 4294967296); ilia.
  - rewrite timepico_sub_noborrow by (unfold PICO in *; lia). tp. split.
    + split; [apply u32_range | lia].
    + apply Z.mod_unique_pos with (q := (tv_sec x - tv_sec y) / 4294967296); ilia.
Qed.

(** [timepico_add] terminates with the sum when the sum is representable.  The
    loop runs while [tv_psec > PICODIVIDER], so a fraction of exactly one
    second is left in [tv_psec]. *)
Lemma timepico_add_spec a b :
  norm a -> norm b -> val a + val b < 4294967296 * PICO ->
  exists r, timepico_add a b = Ok r /\ val r = val a + val b /\
    0 <= tv_psec r <= PICO /\ (tv_psec r = PICO <-> tv_psec a + tv_psec b = PICO).
Proof.
  intros [Ha1 Ha2] [Hb1 Hb2] Hs. unfold timepico_add. tp.
  rewrite u32_id, u64_id by (ints; lia). cbn [timepico_add_loop tv_psec].
  unfold PICODIVIDER, PICO. rewrite dgt_int by lia.
  destruct (Z.ltb_spec 1000000000000 (tv_psec a + tv_psec b)).
  - cbn [field_set tv_sec tv_psec]. rewrite (d_to_u64_sub _ _ _ (Qeq_refl _)) by lia. rewrite u32_id, u64_id by (ints; lia).
    rewrite timepico_add_loop_done by (tp; lia). eexists. split; [done|]. tp. lia.
  - eexists. split; [done|]. tp. lia.
Qed.

(** ** Fractions *)
(** A [double] holds a timestamp to a microsecond. *)
Lemma to_double_error t : norm t -> (Qabs (timepico_to_double t - inject_Z (val t) / PICODIVIDER) <= 1 # 1048576)%Q.
Proof.
  intros [Hs Hp]. unfold timepico_to_double, dadd, ddiv. unfold PICO in Hp. rewrite (dbl_int (tv_sec t)), (dbl_int (tv_psec t)) by (ints; lia).
  assert (Ev : (inject_Z (val t) / PICODIVIDER == inject_Z (tv_sec t) + inject_Z (tv_psec t) / PICODIVIDER)%Q).
  { unfold val. rewrite inject_Z_plus, inject_Z_mult. unfold PICODIVIDER. field. done. }
  rewrite Ev. assert (Hps : (0 <= inject_Z (tv_psec t))%Q /\ (inject_Z (tv_psec t) < 1000000000000)%Q) by (rewrite <- (Zle_Qle 0), <- (Zlt_Qlt _ 1000000000000); lia).
  assert (Hsq : (0 <= inject_Z (tv_sec t))%Q /\ (inject_Z (tv_sec t) <= 4294967295)%Q) by (rewrite <- (Zle_Qle 0), <- (Zle_Qle _ 4294967295); ints; lia).
  set (x := (inject_Z (tv_psec t) / PICODIVIDER)%Q). assert (Ex : (x == inject_Z (tv_psec t) * (1 # 1000000000000))%Q) by (unfold x, PICODIVIDER, PICO; change (inject_Z 1000000000000) with 1000000000000%Q; field).
  assert (Hx : (0 <= x)%Q) by lra. assert (Hx1 : (x < 1)%Q) by lra.
  pose proof (round_error 53 x 0 eq_refl Hx Hx1) as H1. change (2 ^ (0 - 53 - 1))%Q with (1 # 18014398509481984)%Q in H1. pose proof (round_nonneg 53 x Hx) as Hy.
  set (y := rnd x) in *. set (a := inject_Z (tv_sec t)) in *. apply Qabs_Qle_condition in H1 as [H1a H1b].
  assert (Hsum : (0 <= a + y)%Q) by lra. assert (Hlt : (a + y < 8589934592)%Q) by lra.
  pose proof (round_error 53 (a + y) 33 eq_refl Hsum Hlt) as H2. change (2 ^ (33 - 53 - 1))%Q with (1 # 2097152)%Q in H2.
  apply Qabs_Qle_condition in H2 as [H2a H2b]. apply Qabs_Qle_condition. split; lra.
Qed.

Lemma scale_fraction_val n p :
  0 <= p -> p * 10 ^ Z.of_nat n < 18446744073709551616 ->
  scale_fraction n p = p * 10 ^ Z.of_nat n.
Proof.
  revert p. induction n as [|n IH]; intros p Hp Hb; cbn [scale_fraction]; [lia|].
  rewrite Nat2Z.inj_succ, Z.pow_succ_r in * by lia.
  assert (0 < 10 ^ Z.of_nat n) by (apply Z.pow_pos_nonneg; lia).
  rewrite u64_id by (ints; nia). rewrite IH by nia. nia.
Qed.

Definition dec_val (s : bytes) : Z := strtol_digits 10 0 s.

Lemma digit_val_isdigit c : isdigit c = true -> 0 <= digit_val c < 10.
Proof. unfold digit_val, isdigit. intros H. rewrite H. apply andb_true_iff in H. lia. Qed.

Lemma strtol_digits_bound s acc :
  Forall (fun c => isdigit c = true) s -> 0 <= acc ->
  acc * 10 ^ Z.of_nat (length s) <= strtol_digits 10 acc s < (acc + 1) * 10 ^ Z.of_nat (length s).
Proof.
  intros Hs. revert acc. induction Hs as [|c s Hc _ IH]; intros acc Hacc.
  - cbn. lia.
  - cbn [strtol_digits length]. pose proof (digit_val_isdigit c Hc).
    rewrite (proj2 (Z.ltb_lt _ _)) by lia. rewrite Nat2Z.inj_succ, Z.pow_succ_r by lia.
    specialize (IH (10 * acc + digit_val c) ltac:(lia)).
    assert (0 < 10 ^ Z.of_nat (length s)) by (apply Z.pow_pos_nonneg; lia). nia.
Qed.

Lemma strtol_dec s :
  Forall (fun c => isdigit c = true) s -> (0 < length s <= 18)%nat -> strtol s 10 = dec_val s.
Proof.
  intros Hs Hl. destruct Hs as [|c s Hc Hs]; [cbn in Hl; lia|]. unfold strtol, dec_val.
  pose proof (strtol_digits_bound (c :: s) 0 ltac:(by constructor) ltac:(lia)) as Hb.
  assert (10 ^ Z.of_nat (length (c :: s)) <= 10 ^ 18) by (apply Z.pow_le_mono_r; lia).
  assert (isspace c = false) as Hsp by (unfold isspace, isdigit in *; lia).
  cbn [skip_space]. rewrite Hsp.
  assert (c <> 45 /\ c <> 43) as [H45 H43] by (unfold isdigit in Hc; lia).
  replace (match c :: s with | 45 :: s' => (-1, s') | 43 :: s' => (1, s') | _ => (1, c :: s) end)
    with (1, c :: s) by (repeat (case_match; try done); congruence).
  assert (match c :: s with
           | 48 :: x :: d :: _ =>
               if (10 =? 16) && (tolower x =? 120) && (digit_val d <? 16) then drop 2 (c :: s) else c :: s
           | _ => c :: s
           end = c :: s) as -> by (repeat (case_match; try done)).
  unfold clamp64. rewrite Z.mul_1_l. lia.
Qed.

(** A fraction of one to twelve digits is that fraction of a second. *)
Lemma parse_fraction_spec s :
  Forall (fun c => isdigit c = true) s -> (0 < length s <= 12)%nat ->
  parse_fraction s = dec_val s * 10 ^ (12 - Z.of_nat (length s)) /\
  0 <= parse_fraction s < PICO.
Proof.
  intros Hs Hl. unfold parse_fraction. rewrite strtol_dec by (trivial; lia).
  pose proof (strtol_digits_bound s 0 Hs ltac:(lia)) as Hb. fold (dec_val s) in Hb.
  assert (10 ^ Z.of_nat (length s) * 10 ^ (12 - Z.of_nat (length s)) = PICO) as HP
    by (rewrite <- Z.pow_add_r by lia; replace (_ + _) with 12 by lia; reflexivity).
  assert (10 ^ Z.of_nat (length s) <= 10 ^ 12) by (apply Z.pow_le_mono_r; lia).
  assert (0 < 10 ^ (12 - Z.of_nat (length s))) by (apply Z.pow_pos_nonneg; lia).
  rewrite u64_id by (ints; lia). unfold PICO in *.
  rewrite scale_fraction_val; rewrite ?Nat2Z.inj_sub by lia; change (Z.of_nat 12) with 12; nia.
Qed.

(** ** Claims *)

(** [timecmp] orders normalised timestamps by the instant they denote. *)
Theorem timecmp_order (a b : timepico) :
  norm a -> norm b ->
  (timecmp a b < 0 <-> val a < val b) /\ (timecmp a b = 0 <-> a = b) /\ (timecmp a b > 0 <-> val a > val b).
Proof.
  intros Ha Hb. rewrite timecmp_compare by done.
  destruct (Z.compare_spec (val a) (val b)) as [E|E|E]; split_and!; try lia; split; try lia; try done.
  - intros _. destruct a as [s p], b as [s' p'], Ha as [? ?], Hb as [? ?]. tp. ints. f_equal; nia.
  - intros ->. lia.
  - intros ->. lia.
Qed.

Lemma timecmp_order_witness :
  timecmp (mk_timepico 5 999999999999) (mk_timepico 6 0) < 0.
Proof.
  apply (timecmp_order (mk_timepico 5 999999999999) (mk_timepico 6 0)); vm_compute; repeat split; discriminate.
Defined.

(** C39: The difference of two normalised timestamps is computed exactly, although
    the borrow goes through double-precision arithmetic: the result is
    normalised, and adding the subtrahend again gives the minuend's instant. *)
Theorem timepico_sub_exact (x y : timepico) :
  norm x -> norm y -> val y <= val x ->
  norm (timepico_sub x y) /\ val (timepico_sub x y) = val x - val y /\
  exists r, timepico_add (timepico_sub x y) y = Ok r /\ val r = val x.
Proof.
  intros Hx Hy Hle. destruct (timepico_sub_spec x y Hx Hy) as [Hn Hv].
  assert (Hb : 0 <= val x < 4294967296 * PICO /\ 0 <= val y)
    by (destruct Hx, Hy; tp; ints; nia).
  rewrite Z.mod_small in Hv by lia. split_and!; [done..|].
  destruct (timepico_add_spec _ y Hn Hy) as (r & -> & Hr & _); [lia|]. exists r. split; [done|lia].
Qed.

Lemma timepico_sub_exact_witness :
  val (timepico_sub (mk_timepico 10 5) (mk_timepico 8 7)) = 2 * PICO - 2.
Proof.
  apply (timepico_sub_exact (mk_timepico 10 5) (mk_timepico 8 7)); vm_compute; repeat split; discriminate.
Defined.

(** The sum of two normalised timestamps that fits in 32 bits of seconds is
    computed, and is exact; it is left unnormalised, with a full second of
    picoseconds, exactly when the fractions add up to one second. *)
Theorem timepico_add_exact (a b : timepico) :
  norm a -> norm b -> val a + val b < 4294967296 * PICO ->
  exists r, timepico_add a b = Ok r /\ val r = val a + val b /\
    (norm r <-> tv_psec a + tv_psec b <> PICO).
Proof.
  intros Ha Hb Hs. destruct (timepico_add_spec a b Ha Hb Hs) as (r & Hr & Hv & Hp & He).
  exists r. split_and!; [done..|]. destruct Ha, Hb. tp. ints. split; [lia|]. intros. split; nia.
Qed.

Lemma timepico_add_exact_witness :
  exists r, timepico_add (mk_timepico 1 500000000000) (mk_timepico 1 500000000000) = Ok r /\ ~ norm r.
Proof.
  destruct (timepico_add_exact (mk_timepico 1 500000000000) (mk_timepico 1 500000000000)) as (r & H1 & _ & H3);
    [vm_compute; repeat split; discriminate..|reflexivity|].
  exists r. split; [exact H1|]. intros Hn. apply (proj1 H3 Hn). reflexivity.
Defined.

(** The fraction of a textual timestamp, one to twelve digits, is scaled to
    picoseconds. *)
Theorem parse_fraction_scaled (s : bytes) :
  Forall (fun c => isdigit c = true) s -> (0 < length s <= 12)%nat ->
  parse_fraction s = dec_val s * 10 ^ (12 - Z.of_nat (length s)) /\ 0 <= parse_fraction s < PICO.
Proof. apply parse_fraction_spec. Qed.

Lemma parse_fraction_scaled_witness : parse_fraction (B "25") = 250000000000.
Proof. apply (parse_fraction_scaled (B "25")); [repeat constructor|cbn; lia]. Defined.
