(* ===== verification/Slist.v ===== *)
(** * Array-backed key/value storage (src/slist.c, src/slist.h)

    [key] and [value] are two arrays that grow together.  An allocation of the
    value array is numbered: [realloc] makes every pointer into the old block
    indeterminate, so a pointer is a block number and a byte offset and only
    the current block can be read or written. *)

From S2P Require Import Prelude CLib.

(** Space kept between elements for valgrind's memory pools. *)
Definition gutter : Z := 4.

Record sptr := { p_blk : nat; p_off : Z }.
#[export] Instance sptr_eq_dec : EqDecision sptr.
Proof. solve_decision. Defined.

Section Slist.
Context {K V : Type}.

(** [struct simple_list]; the slots in use are the lists' elements, a value
    slot that was never written is [None]. *)
Record slist := {
  key : list K;
  value : list (option V);
  vblk : nat;
  size : Z;
  capacity : Z;
  key_size : Z;
  element_size : Z;
}.
#[export] Instance slist_rebuild : Rebuild slist := fun l =>
  {| key := key l; value := value l; vblk := vblk l; size := size l;
     capacity := capacity l; key_size := key_size l; element_size := element_size l |}.

Definition delta (l : slist) : Z := element_size l + gutter.

Definition slist_alloc (l : slist) (growth : Z) : slist :=
  let l := l <| capacity := capacity l + growth |> in
  l <| vblk := S (vblk l) |>.

Definition slist_init (key_size element_size initial_size : Z) : slist :=
  slist_alloc {| key := []; value := []; vblk := O; size := 0; capacity := 0;
                 key_size := key_size; element_size := element_size |} initial_size.

(** The keys are passed to [free] one by one; then no slot is in use. *)
Definition slist_clear (l : slist) : slist :=
  let l := l <| key := [] |> in
  let l := l <| value := [] |> in
  l <| size := 0 |>.

Definition slist_free (l : slist) : slist :=
  let l := slist_clear l in
  let l := l <| capacity := 0 |> in
  l <| vblk := S (vblk l) |>.

Definition slist_get (l : slist) (index : Z) : sptr :=
  let offset := delta l * index in
  {| p_blk := vblk l; p_off := offset |}.

(** Access through a pointer that [slist_get] returned. *)
Definition slot (l : slist) (p : sptr) : res nat :=
  if bool_decide (p_blk p = vblk l) && (p_off p mod delta l =? 0) && (0 <=? p_off p)
     && (p_off p / delta l <? size l)
  then Ok (Z.to_nat (p_off p / delta l)) else Fault.
Definition deref (l : slist) (p : sptr) : res V :=
  i ← slot l p; match value l !! i with Some (Some v) => Ok v | _ => Fault end.
Definition store (l : slist) (p : sptr) (v : V) : res slist :=
  i ← slot l p; Ok (l <| value := <[i := Some v]> (value l) |>).

Section Find.
Context {K' : Type}.
Variable cmp : K -> K' -> Z.

(** The scan of [slist_find] from slot [i] on. *)
Fixpoint find_from (keys : list K) (k : K') (i : Z) : option Z :=
  match keys with
  | [] => None
  | cur :: rest => if cmp cur k =? 0 then Some i else find_from rest k (i + 1)
  end.

Definition slist_find (l : slist) (k : K') : option sptr :=
  slist_get l <$> find_from (key l) k 0.
End Find.

(** [slist->key[index] = key] with [index] past the array is a fault. *)
Definition slist_put (l : slist) (k : K) : res (slist * sptr) :=
  let l := if size l =? capacity l then slist_alloc l (capacity l) else l in
  let index := u32 (size l) in
  if index <? capacity l then
    let l := l <| key := key l ++ [k] |> in
    let l := l <| value := value l ++ [None] |> in
    let l := l <| size := size l + 1 |> in
    Ok (l, slist_get l index)
  else Fault.

(** ** Well-formedness *)
Record slist_wf (l : slist) : Prop := {
  wf_key : size l = Z.of_nat (length (key l));
  wf_value : size l = Z.of_nat (length (value l));
  wf_cap : size l <= capacity l;
  wf_pos : 0 < capacity l;
  wf_u32 : capacity l < 2147483648;
  wf_elem : 0 <= element_size l;
}.

Lemma slist_init_wf ks es n : 0 <= es -> 0 < n < 2147483648 -> slist_wf (slist_init ks es n).
Proof. intros. constructor; cbn; lia. Qed.

Lemma slist_clear_wf l : slist_wf l -> slist_wf (slist_clear l).
Proof. intros []. constructor; cbn; lia. Qed.

(** Insertion: a new slot at the end; the arrays are reallocated exactly when
    they are full, which keeps every older pointer usable otherwise. *)
Lemma slist_put_spec l k :
  slist_wf l -> 2 * capacity l < 2147483648 ->
  exists l', slist_put l k = Ok (l', slist_get l' (size l)) /\ slist_wf l' /\
    key l' = key l ++ [k] /\ value l' = value l ++ [None] /\ size l' = size l + 1 /\
    element_size l' = element_size l /\
    ((size l < capacity l /\ capacity l' = capacity l /\ vblk l' = vblk l) \/
     (size l = capacity l /\ capacity l' = 2 * capacity l /\ vblk l' = S (vblk l))).
Proof.
  intros [H1 H2 H3 H4 H5 H6] Hc. unfold slist_put.
  destruct (Z.eqb_spec (size l) (capacity l)) as [E|E]; cbn.
  - rewrite u32_id by (ints; lia). rewrite (proj2 (Z.ltb_lt _ _)) by lia.
    eexists. split; [reflexivity|]. cbn. split; [constructor; cbn; rewrite ?length_app; cbn; lia|].
    repeat split; try done; lia.
  - rewrite u32_id by (ints; lia). rewrite (proj2 (Z.ltb_lt _ _)) by lia.
    eexists. split; [reflexivity|]. cbn. split; [constructor; cbn; rewrite ?length_app; cbn; lia|].
    repeat split; try done; lia.
Qed.

Lemma slot_get l i : 0 <= element_size l -> 0 <= i < size l -> slot l (slist_get l i) = Ok (Z.to_nat i).
Proof.
  intros He Hi. unfold slot, slist_get. cbn [p_blk p_off].
  assert (0 < delta l) by (unfold delta, gutter; lia).
  rewrite bool_decide_eq_true_2 by done. rewrite (Z.mul_comm (delta l)), Z.mod_mul, Z.div_mul by lia.
  rewrite (proj2 (Z.leb_le _ _)), (proj2 (Z.ltb_lt _ _)) by nia. done.
Qed.

(** A pointer into a block that was reallocated cannot be used. *)
Lemma slot_stale l p : p_blk p <> vblk l -> slot l p = Fault.
Proof. intros. unfold slot. by rewrite bool_decide_eq_false_2. Qed.

Section FindSpec.
Context {K' : Type}.
Variable cmp : K -> K' -> Z.

Lemma find_from_Some keys k i j :
  find_from cmp keys k i = Some j ->
  exists n x, j = i + Z.of_nat n /\ keys !! n = Some x /\ cmp x k = 0 /\
    forall m y, (m < n)%nat -> keys !! m = Some y -> cmp y k <> 0.
Proof.
  revert i. induction keys as [|x keys IH]; intros i; cbn; [done|].
  destruct (Z.eqb_spec (cmp x k) 0) as [E|E].
  - intros [= <-]. exists O, x. repeat split; [lia | done | lia].
  - intros (n & y & -> & Hn & Hy & Hmin)%IH. exists (S n), y. repeat split; [lia | done | done |].
    intros [|m] z Hm; cbn; [by intros [= <-]|]. apply Hmin. lia.
Qed.

Lemma find_from_None keys k i :
  find_from cmp keys k i = None <-> Forall (fun x => cmp x k <> 0) keys.
Proof.
  revert i. induction keys as [|x keys IH]; intros i; cbn; [split; auto|].
  destruct (Z.eqb_spec (cmp x k) 0) as [E|E].
  - split; [done|]. intros H%Forall_cons_1. by destruct H.
  - destruct (IH (i + 1)) as [H1 H2]. split.
    + intros H. apply Forall_cons_2; auto.
    + intros H%Forall_cons_1. apply H2, H.
Qed.

Lemma find_from_app keys keys' k i :
  find_from cmp (keys ++ keys') k i =
    match find_from cmp keys k i with
    | Some j => Some j
    | None => find_from cmp keys' k (i + Z.of_nat (length keys))
    end.
Proof.
  revert i. induction keys as [|x keys IH]; intros i; cbn [find_from app length].
  - by rewrite Z.add_0_r.
  - destruct (_ =? 0); [done|]. rewrite IH. destruct (find_from _ keys _ _); [done|].
    f_equal. lia.
Qed.
End FindSpec.
End Slist.
Arguments slist : clear implicits.
