(* ===== verification/Packet.v ===== *)
(** * Packets (src/packet.c, caputils/packet.h, caputils/capture.h)

    A captured packet and the functions that measure it and locate its IPv4
    header.  A pointer into a packet is its byte offset from the start of the
    captured data and a null pointer is [None]. *)

From S2P Require Import Prelude CLib Picotime.

(** ** Capture header *)
Definition CAPHEAD_NICLEN : Z := 8.

(** [struct cap_header]; [payload] is the memory that follows the header. *)
Record cap_header := {
  nic : bytes;
  head_mampid : bytes;
  ts : timepico;
  len : Z;
  caplen : Z;
  payload : bytes;
}.
#[export] Instance cap_header_rebuild : Rebuild cap_header := fun h =>
  {| nic := nic h; head_mampid := head_mampid h; ts := ts h; len := len h;
     caplen := caplen h; payload := payload h |}.

(** ** Layout of the headers the library reads *)
Definition sizeof_ethhdr : Z := 14.
Definition sizeof_ether_vlan_header : Z := 18.
Definition sizeof_udphdr : Z := 8.

Definition ETHERTYPE_IP : Z := 0x0800.
Definition ETHERTYPE_ARP : Z := 0x0806.
Definition ETHERTYPE_VLAN : Z := 0x8100.
Definition ETHERTYPE_IPV6 : Z := 0x86dd.
Definition STPBRIDGES : Z := 0x0026.
Definition CDPVTP : Z := 0x016e.

Definition IPPROTO_TCP : Z := 6.
Definition IPPROTO_UDP : Z := 17.

Definition h_proto (m : bytes) (ether : Z) : res Z := be16 m (ether + 12).
Definition ip_hl (m : bytes) (ip : Z) : res Z := b ← rd8 m ip; Ok (b mod 16).
Definition ip_len (m : bytes) (ip : Z) : res Z := be16 m (ip + 2).
Definition ip_p (m : bytes) (ip : Z) : res Z := rd8 m (ip + 9).
Definition ip_src_addr (m : bytes) (ip : Z) : res Z := rd32 m (ip + 12).
Definition ip_dst_addr (m : bytes) (ip : Z) : res Z := rd32 m (ip + 16).
Definition tcp_doff (m : bytes) (tcp : Z) : res Z := b ← rd8 m (tcp + 12); Ok (b / 16).
Definition udp_len (m : bytes) (udp : Z) : res Z := be16 m (udp + 4).

(** ** Levels *)
Inductive Level :=
| LEVEL_INVALID
| LEVEL_PHYSICAL
| LEVEL_LINK
| LEVEL_NETWORK
| LEVEL_TRANSPORT
| LEVEL_APPLICATION.
#[export] Instance Level_eq_dec : EqDecision Level.
Proof. solve_decision. Defined.

Definition level_lut : list (bytes * Level) :=
  [(B "physical", LEVEL_PHYSICAL); (B "link", LEVEL_LINK); (B "network", LEVEL_NETWORK);
   (B "transport", LEVEL_TRANSPORT); (B "application", LEVEL_APPLICATION)].

Fixpoint level_scan (lut : list (bytes * Level)) (str : bytes) : Level :=
  match lut with
  | [] => LEVEL_INVALID
  | (name, level) :: cur => if strcasecmp name str =? 0 then level else level_scan cur str
  end.
Definition level_from_string (str : bytes) : Level := level_scan level_lut str.

(** [(enum Level)((int)level - 1)] *)
Definition level_pred (l : Level) : Level :=
  match l with
  | LEVEL_INVALID | LEVEL_PHYSICAL => LEVEL_INVALID
  | LEVEL_LINK => LEVEL_PHYSICAL
  | LEVEL_NETWORK => LEVEL_LINK
  | LEVEL_TRANSPORT => LEVEL_NETWORK
  | LEVEL_APPLICATION => LEVEL_TRANSPORT
  end.

(** ** Payload and layer sizes; the results are [size_t] *)
Section Sizes.
Variable m : bytes.

Definition payload_tcp (level : Level) (ip tcp : Z) : res Z :=
  if decide (level = LEVEL_TRANSPORT) then
    l ← ip_len m ip; doff ← tcp_doff m tcp; hl ← ip_hl m ip;
    Ok (u64 (l - 4 * doff - 4 * hl))
  else Ok 0.

Definition payload_udp (level : Level) (udp : Z) : res Z :=
  if decide (level = LEVEL_TRANSPORT) then
    l ← udp_len m udp; Ok (u64 (l - sizeof_udphdr))
  else Ok 0.

Definition payload_ip (level : Level) (ip : Z) : res Z :=
  v ← ip_hl m ip;
  let hl := 4 * v in
  let payload := ip + hl in
  if decide (level = LEVEL_NETWORK) then
    l ← ip_len m ip; Ok (u64 (l - hl))
  else
    p ← ip_p m ip;
    if p =? IPPROTO_TCP then payload_tcp level ip payload
    else if p =? IPPROTO_UDP then payload_udp level payload
    else Ok 0.

Definition payload_network (level : Level) (ether : Z) : res Z :=
  t ← h_proto m ether;
  if t =? ETHERTYPE_IP then payload_ip level (ether + sizeof_ethhdr)
  else if t =? ETHERTYPE_VLAN then payload_ip level (ether + sizeof_ether_vlan_header)
  else Ok 0.
End Sizes.

Definition payload_size (level : Level) (caphead : cap_header) : res Z :=
  match level with
  | LEVEL_INVALID => Ok 0
  | LEVEL_PHYSICAL => Ok (len caphead)
  | LEVEL_LINK => Ok (u64 (len caphead - sizeof_ethhdr))
  | _ => payload_network (payload caphead) level 0
  end.

Definition layer_size (level : Level) (caphead : cap_header) : res Z :=
  match level with
  | LEVEL_INVALID | LEVEL_PHYSICAL => Ok 0
  | _ => payload_size (level_pred level) caphead
  end.

(** ** Locating the IPv4 header *)

(** The [retry] loop: [cur] and [proto] are the C variables.  Every round reads
    two bytes past the previous ones, so the length of the packet bounds it. *)
Fixpoint ipv4_retry (fuel : nat) (m : bytes) (cur proto : Z) : res (option Z) :=
  match fuel with
  | O => OutOfFuel
  | S fuel =>
      if proto =? ETHERTYPE_IP then Ok (Some cur)
      else if proto =? ETHERTYPE_VLAN then
        proto ← be16 m (cur + 2);
        ipv4_retry fuel m (cur + 4) proto
      else Ok None
  end.

(** [find_ipv4_header_int(ether, ptr)] with a non-null [ptr], as both callers
    pass: the offsets of the header and of what follows it, or [None] for -1. *)
Definition find_ipv4_header_int (m : bytes) (ether : Z) : res (option (Z * Z)) :=
  proto ← h_proto m ether;
  found ← ipv4_retry (S (length m)) m (ether + sizeof_ethhdr) proto;
  match found with
  | None => Ok None
  | Some cur =>
      let offset := cur - ether in
      hl ← ip_hl m cur;
      Ok (Some (offset, offset + 4 * hl))
  end.

Definition find_ipv4_header (m : bytes) (ether : Z) : res (option (Z * Z)) :=
  r ← find_ipv4_header_int m ether;
  Ok (match r with
      | None => None
      | Some (offset, payload) => Some (ether + offset, ether + payload)
      end).
Definition find_ipv4_headerRW : bytes -> Z -> res (option (Z * Z)) := find_ipv4_header.

(** [limited_caplen] (src/format.c) *)
Definition limited_caplen (cp : cap_header) (ptr : option Z) (n : Z) : bool :=
  match ptr with
  | None => true
  | Some p => (p <? 0) || (caplen cp <? p + n)
  end.

(** ** The tag loop *)

(** It ends on every packet: each round consumes four more bytes. *)
Lemma ipv4_retry_total fuel m cur proto :
  0 <= cur -> (Z.to_nat (blen m - cur) < fuel)%nat -> total (ipv4_retry fuel m cur proto).
Proof.
  revert cur proto. induction fuel as [|fuel IH]; intros cur proto Hc Hf; [lia|]. cbn.
  total_tac. match goal with H : be16 _ _ = Ok _ |- _ => apply be16_inv in H end.
  apply IH; lia.
Qed.

Lemma ipv4_retry_offset fuel m cur proto r :
  ipv4_retry fuel m cur proto = Ok (Some r) -> exists k, r = cur + 4 * Z.of_nat k.
Proof.
  revert cur proto. induction fuel as [|fuel IH]; intros cur proto; [done|]. cbn.
  case_match; [intros [= <-]; exists O; lia|]. case_match; [|done].
  intros (p & _ & [k ->]%IH)%bind_Ok_inv. exists (S k). lia.
Qed.

Lemma ip_hl_total m ip : total (ip_hl m ip).
Proof. unfold ip_hl. total_tac. Qed.
Lemma h_proto_total m o : total (h_proto m o).
Proof. apply be16_total. Qed.
Lemma ip_p_total m o : total (ip_p m o).
Proof. apply rd8_total. Qed.
#[export] Hint Resolve ip_hl_total h_proto_total ip_p_total : cap.

Lemma find_ipv4_header_total m : total (find_ipv4_header m 0).
Proof.
  unfold find_ipv4_header, find_ipv4_header_int. total_tac.
  apply ipv4_retry_total; unfold sizeof_ethhdr, blen; lia.
Qed.
#[export] Hint Resolve find_ipv4_header_total : cap.

Lemma find_ipv4_header_inv m ip pl :
  find_ipv4_header m 0 = Ok (Some (ip, pl)) ->
  (exists k, ip = 14 + 4 * Z.of_nat k) /\ ip < blen m /\ ip <= pl <= ip + 60.
Proof.
  unfold find_ipv4_header, find_ipv4_header_int. intros H. inv_ok.
  destruct v as [[o p]|]; [|done]. injection H as <- <-. case_match; [|done]. inv_ok. injection Hv as <- <-.
  apply ipv4_retry_offset in Hv1 as [k ->]. unfold ip_hl, sizeof_ethhdr in *. inv_ok. match goal with H : rd8 _ _ = Ok _ |- _ => apply rd8_inv in H end.
  subst. split; [exists k; lia|]. Z.div_mod_to_equations; lia.
Qed.

(** A frame with any number of VLAN tags in front of its IPv4 header. *)
Fixpoint tags (tcis : list Z) (proto : Z) : bytes :=
  match tcis with
  | [] => wr16be proto
  | tci :: rest => wr16be ETHERTYPE_VLAN ++ wr16be tci ++ tags rest proto
  end.

Lemma be16_wr16be x m : is_u16 x -> be16 (wr16be x ++ m) 0 = Ok x.
Proof.
  intros Hx. unfold be16, wr16be, htons. rewrite rd16_le16. cbn.
  rewrite u16_id by auto with cap. by rewrite ntohs_ntohs.
Qed.
Lemma be16_app_r m m' o : blen m <= o -> be16 (m ++ m') o = be16 m' (o - blen m).
Proof. intros. unfold be16. by rewrite rd16_app_r. Qed.

Lemma blen_tags tcis proto : blen (tags tcis proto) = 2 + 4 * Z.of_nat (length tcis).
Proof. induction tcis; cbn [tags length]; rewrite ?blen_app, ?blen_wr16be; lia. Qed.

Lemma ipv4_retry_tags fuel pre tcis tail :
  (length tcis < fuel)%nat -> forall m o t,
  m = pre ++ tags tcis ETHERTYPE_IP ++ tail -> o = blen pre + 2 ->
  be16 m (blen pre) = Ok t ->
  ipv4_retry fuel m o t = Ok (Some (o + 4 * Z.of_nat (length tcis))).
Proof.
  revert pre fuel. induction tcis as [|tci tcis IH]; intros pre fuel Hf m o t Hm Ho Ht;
    destruct fuel as [|fuel]; try (cbn in Hf; lia); subst m; cbn [tags] in *.
  - rewrite be16_at in Ht by (done || (ints; unfold ETHERTYPE_IP; lia)).
    injection Ht as <-. cbn. f_equal. f_equal. lia.
  - rewrite <- !(assoc_L (++)) in *.
    rewrite be16_at in Ht by (done || (ints; unfold ETHERTYPE_VLAN; lia)).
    injection Ht as <-. cbn [ipv4_retry]. rewrite Z.eqb_refl. cbn [Z.eqb ETHERTYPE_IP ETHERTYPE_VLAN].
    change (ETHERTYPE_VLAN =? ETHERTYPE_IP) with false. cbv iota.
    set (pre' := pre ++ wr16be ETHERTYPE_VLAN ++ wr16be tci).
    assert (Hl : blen pre' = blen pre + 4)
      by (unfold pre'; rewrite !blen_app, !blen_wr16be; lia).
    assert (Hm : pre ++ wr16be ETHERTYPE_VLAN ++ wr16be tci ++ tags tcis ETHERTYPE_IP ++ tail
                 = pre' ++ tags tcis ETHERTYPE_IP ++ tail)
      by (unfold pre'; by rewrite <- !(assoc_L (++))).
    rewrite Hm. replace (o + 2) with (blen pre') by lia.
    destruct (be16_in (pre' ++ tags tcis ETHERTYPE_IP ++ tail) (blen pre')) as [t Ht].
    { apply blen_nonneg. }
    { rewrite !blen_app, blen_tags. pose proof (blen_nonneg tail). lia. }
    rewrite Ht. cbn [mbind res_bind].
    rewrite (IH pre' fuel) by (auto with lia || (cbn in Hf; lia)).
    f_equal. f_equal. cbn [length]. lia.
Qed.

(** A frame: addresses, tags, the IPv4 ethertype and the datagram. *)
Definition ipv4_frame (macs : bytes) (tcis : list Z) (dgram : bytes) : bytes :=
  macs ++ tags tcis ETHERTYPE_IP ++ dgram.

Lemma find_ipv4_frame macs tcis dgram b rest :
  blen macs = 12 -> dgram = b :: rest ->
  find_ipv4_header (ipv4_frame macs tcis dgram) 0 =
    let ip := 14 + 4 * Z.of_nat (length tcis) in
    Ok (Some (ip, ip + 4 * (b mod 16))).
Proof.
  intros Hmac ->. unfold find_ipv4_header, find_ipv4_header_int, h_proto, ipv4_frame.
  set (m := macs ++ _). pose proof (blen_tags tcis ETHERTYPE_IP) as Ht.
  assert (Hlen : blen m = 14 + 4 * Z.of_nat (length tcis) + (1 + blen rest)).
  { unfold m. rewrite !blen_app, Ht, blen_cons. lia. }
  pose proof (blen_nonneg rest).
  destruct (be16_in m (0 + 12)) as [t Hp]; [lia..|]. rewrite Hp. cbn [mbind res_bind].
  rewrite (ipv4_retry_tags _ macs tcis (b :: rest)) with (m := m);
    [|unfold blen in *; lia|done|unfold sizeof_ethhdr; lia|by rewrite Hmac].
  cbn [mbind res_bind]. unfold ip_hl, m. rewrite (assoc_L (++)).
  rewrite rd8_app_r; rewrite blen_app, Ht, Hmac; unfold sizeof_ethhdr; [|lia].
  match goal with |- context [rd8 _ ?o] => replace o with 0 by lia end.
  change (rd8 (b :: rest) 0) with (Ok b). cbn [mbind res_bind].
  unfold sizeof_ethhdr. cbv zeta. f_equal. f_equal. f_equal; lia.

Qed.

(** ** Well-formed datagrams *)

(** An IPv4 header (options included) announcing protocol [p] and a datagram of
    [total] bytes, and a TCP header (options included). *)
Definition ipv4_hdr (hdr : bytes) (p total : Z) : Prop :=
  20 <= blen hdr /\
  (b ← rd8 hdr 0; Ok (4 * (b mod 16))) = Ok (blen hdr) /\
  be16 hdr 2 = Ok total /\ rd8 hdr 9 = Ok p.
Definition tcp_hdr (tcp : bytes) : Prop :=
  20 <= blen tcp /\ (b ← rd8 tcp 12; Ok (4 * (b / 16))) = Ok (blen tcp).
Definition udp_hdr (udp : bytes) (total : Z) : Prop :=
  blen udp = 8 /\ be16 udp 4 = Ok total.

(** Loads at an offset into the middle part of a buffer. *)
Lemma rd8_mid m1 m m2 o k :
  0 <= k -> k + 1 <= blen m -> o = blen m1 + k -> rd8 (m1 ++ m ++ m2) o = rd8 m k.
Proof.
  intros ? ? ->. rewrite rd8_app_r by lia.
  replace (blen m1 + k - blen m1) with k by lia. by rewrite rd8_app_l by lia.
Qed.
Lemma be16_mid m1 m m2 o k :
  0 <= k -> k + 2 <= blen m -> o = blen m1 + k -> be16 (m1 ++ m ++ m2) o = be16 m k.
Proof.
  intros ? ? ->. unfold be16. rewrite rd16_app_r by lia.
  replace (blen m1 + k - blen m1) with k by lia. by rewrite rd16_app_l by lia.
Qed.

(** The reads of [payload_ip] on a well-formed header found at [ip]. *)
Lemma ip_fields pre hdr rest ip p total :
  ipv4_hdr hdr p total -> ip = blen pre ->
  let m := pre ++ hdr ++ rest in
  (exists hl, ip_hl m ip = Ok hl /\ 4 * hl = blen hdr) /\
  ip_len m ip = Ok total /\ ip_p m ip = Ok p.
Proof.
  intros (H20 & Hhl & Hlen & Hp) -> m. unfold ip_hl, ip_len, ip_p, m.
  rewrite (rd8_mid _ _ _ _ 0), (be16_mid _ _ _ _ 2), (rd8_mid _ _ _ _ 9) by lia.
  inv_ok. rewrite Hv. cbn. eauto.
Qed.

Lemma payload_ip_tcp pre hdr tcp data pad ip :
  ipv4_hdr hdr IPPROTO_TCP (blen hdr + blen tcp + blen data) -> tcp_hdr tcp -> ip = blen pre ->
  blen hdr + blen tcp + blen data < 65536 ->
  let m := pre ++ hdr ++ tcp ++ data ++ pad in
  payload_ip m LEVEL_NETWORK ip = Ok (blen tcp + blen data) /\
  payload_ip m LEVEL_TRANSPORT ip = Ok (blen data).
Proof.
  intros Hip (H20 & Hd) -> Hsz m.
  destruct (ip_fields pre hdr (tcp ++ data ++ pad) _ _ _ Hip eq_refl) as ((hl & Hhl & Eh) & Hl & Hp).
  pose proof (blen_nonneg data). destruct Hip as (? & _).
  unfold payload_ip. fold m in Hhl, Hl, Hp. rewrite Hhl. cbn [mbind res_bind].
  rewrite Hl, Hp. cbn. rewrite u64_id by (ints; lia). split; [f_equal; lia|].
  unfold payload_tcp. cbn. rewrite Hl, Hhl. unfold tcp_doff, m.
  rewrite (assoc_L (++)), (rd8_mid _ _ _ _ 12); rewrite ?blen_app; try lia.
  inv_ok. rewrite Hv. cbn. rewrite u64_id by (ints; lia). f_equal; lia.
Qed.

Lemma payload_ip_udp pre hdr udp data pad ip :
  ipv4_hdr hdr IPPROTO_UDP (blen hdr + blen udp + blen data) -> udp_hdr udp (blen udp + blen data) ->
  ip = blen pre -> blen hdr + blen udp + blen data < 65536 ->
  let m := pre ++ hdr ++ udp ++ data ++ pad in
  payload_ip m LEVEL_NETWORK ip = Ok (blen udp + blen data) /\
  payload_ip m LEVEL_TRANSPORT ip = Ok (blen data).
Proof.
  intros Hip (H8 & Hd) -> Hsz m.
  destruct (ip_fields pre hdr (udp ++ data ++ pad) _ _ _ Hip eq_refl) as ((hl & Hhl & Eh) & Hl & Hp).
  pose proof (blen_nonneg data). destruct Hip as (? & _).
  unfold payload_ip. fold m in Hhl, Hl, Hp. rewrite Hhl. cbn [mbind res_bind].
  rewrite Hl, Hp. cbn. rewrite u64_id by (ints; lia). split; [f_equal; lia|].
  unfold payload_udp. cbn. unfold udp_len, m, sizeof_udphdr.
  rewrite (assoc_L (++)), (be16_mid _ _ _ _ 4); rewrite ?blen_app; try lia.
  rewrite Hd. cbn. rewrite u64_id by (ints; lia). f_equal; lia.
Qed.

(** One optional tag: what [payload_network] handles. *)
Lemma payload_network_frame level macs tcis dgram :
  blen macs = 12 -> (length tcis <= 1)%nat ->
  payload_network (ipv4_frame macs tcis dgram) level 0 =
  payload_ip (ipv4_frame macs tcis dgram) level (14 + 4 * Z.of_nat (length tcis)).
Proof.
  intros Hm Ht. unfold payload_network, h_proto, ipv4_frame.
  destruct tcis as [|tci [|? ?]]; cbn [length] in Ht; [| |lia]; cbn [tags].
  - rewrite be16_at by (done || (ints; unfold ETHERTYPE_IP; lia)). done.
  - rewrite <- (assoc_L (++)), be16_at by (done || (ints; unfold ETHERTYPE_VLAN; lia)). done.
Qed.

(** ** Claims *)

(** Whatever bytes follow the Ethernet header, the search for the IPv4
    header ends; it never calls [abort], and a header it reports lies behind a
    whole number of four-byte VLAN tags, inside the packet. *)
Theorem find_ipv4_header_safe (m : bytes) :
  find_ipv4_header m 0 <> OutOfFuel /\ find_ipv4_header m 0 <> Abort /\
  forall ip pl, find_ipv4_header m 0 = Ok (Some (ip, pl)) ->
    (exists k, ip = 14 + 4 * Z.of_nat k) /\ ip < blen m /\ ip <= pl <= ip + 60.
Proof.
  destruct (proj1 (total_neq _) (find_ipv4_header_total m)). split_and!; [done..|].
  apply find_ipv4_header_inv.
Qed.

(** On an IPv4 frame the header is found behind all the VLAN tags, however
    many there are, and the payload pointer skips the header's options. *)
Theorem find_ipv4_header_frame (macs : bytes) (tcis : list Z) (hdr rest : bytes) (p total : Z) :
  blen macs = 12 -> ipv4_hdr hdr p total ->
  find_ipv4_header (ipv4_frame macs tcis (hdr ++ rest)) 0 =
    Ok (Some (14 + 4 * Z.of_nat (length tcis),
              14 + 4 * Z.of_nat (length tcis) + blen hdr)).
Proof.
  intros Hm (H20 & Hhl & _). destruct hdr as [|b hdr]; [by cbn in H20|].
  rewrite (find_ipv4_frame _ _ _ b (hdr ++ rest)) by done. cbv zeta. cbn in Hhl. by injection Hhl as ->.
Qed.

(** For a TCP/IPv4 frame, tagged or not and padded or not, the payload sizes
    are those of the segment and of its data, and the layer size of a level is
    its payload size plus its header. *)
Theorem payload_size_tcp (cp : cap_header) (macs : bytes) (tcis : list Z) (hdr tcp data pad : bytes) :
  payload cp = ipv4_frame macs tcis (hdr ++ tcp ++ data ++ pad) -> blen macs = 12 ->
  (length tcis <= 1)%nat ->
  ipv4_hdr hdr IPPROTO_TCP (blen hdr + blen tcp + blen data) -> tcp_hdr tcp ->
  blen hdr + blen tcp + blen data < 65536 ->
  payload_size LEVEL_NETWORK cp = Ok (blen tcp + blen data) /\
  payload_size LEVEL_TRANSPORT cp = Ok (blen data) /\
  layer_size LEVEL_TRANSPORT cp = Ok (blen tcp + blen data) /\
  layer_size LEVEL_APPLICATION cp = Ok (blen data).
Proof.
  intros Hp Hm Ht Hip Htcp Hsz. unfold layer_size. cbn [level_pred payload_size]. rewrite Hp.
  rewrite !payload_network_frame by done. unfold ipv4_frame. rewrite (assoc_L (++)).
  edestruct payload_ip_tcp as [-> ->]; eauto.
  rewrite blen_app, blen_tags. lia.
Qed.

(** ** Examples *)
Definition ex_macs : bytes := [1; 2; 3; 4; 5; 6; 7; 8; 9; 10; 11; 12].
Definition ex_ip : bytes := [69; 0; 0; 43; 0; 0; 0; 0; 64; 6; 0; 0; 10; 0; 0; 1; 10; 0; 0; 2].
Definition ex_tcp : bytes := [4; 0; 0; 80; 0; 0; 0; 7; 0; 0; 0; 0; 80; 2; 0; 0; 0; 0; 0; 0].
Definition ex_data : bytes := [97; 98; 99].
Definition ex_cap (m : bytes) : cap_header :=
  {| nic := B "d00" ++ replicate 5 0; head_mampid := B "mp01" ++ replicate 4 0;
     ts := mk_timepico 1000 500; len := blen m; caplen := blen m; payload := m |}.

Lemma find_ipv4_header_safe_witness :
  exists k, 22 = 14 + 4 * Z.of_nat k.
Proof.
  destruct (find_ipv4_header_safe (ipv4_frame ex_macs [1; 2] (ex_ip ++ ex_tcp))) as (_ & _ & H).
  destruct (H 22 42) as [Hk _]; [vm_compute; reflexivity|]. exact Hk.
Defined.

Lemma find_ipv4_header_frame_witness :
  find_ipv4_header (ipv4_frame ex_macs [1; 2] (ex_ip ++ ex_tcp)) 0 = Ok (Some (22, 42)).
Proof.
  apply (find_ipv4_header_frame ex_macs [1; 2] ex_ip ex_tcp 6 43);
    vm_compute; repeat split; discriminate.
Defined.

Lemma payload_size_tcp_witness :
  let cp := ex_cap (ipv4_frame ex_macs [5] (ex_ip ++ ex_tcp ++ ex_data ++ [0; 0])) in
  payload_size LEVEL_TRANSPORT cp = Ok 3 /\ layer_size LEVEL_TRANSPORT cp = Ok 23.
Proof.
  destruct (payload_size_tcp
    (ex_cap (ipv4_frame ex_macs [5] (ex_ip ++ ex_tcp ++ ex_data ++ [0; 0])))
    ex_macs [5] ex_ip ex_tcp ex_data [0; 0]) as (_ & H1 & H2 & _);
    [reflexivity|reflexivity|auto|vm_compute; repeat split; discriminate
    |vm_compute; repeat split; discriminate|reflexivity|].
  split; [exact H1 | exact H2].
Defined.
