(* ===== verification/Utils.v ===== *)
(** * Helpers (src/utils.c, src/error.c)

    The version, Ethernet addresses as text, the table of Ethernet types, error strings. *)

From S2P Require Import Prelude CLib.

Definition ETH_ALEN : Z := 6.
Abbreviation ether_addr := bytes (only parsing).

(** ** The version

    The constants come from files that the build generates. *)
Record build := {
  VERSION : bytes; VERSION_NUMBER : Z * Z * Z;
  VCS : option (bytes * bytes);         (** revision and branch *)
  CAPUTILS_PFRING : option Z;           (** its flag, when PF_RING is compiled in *)
}.
Record caputils_version_t := { v_major : Z; v_minor : Z; v_micro : Z; v_features : Z }.
(** The text, and what is stored when a pointer is given. *)
Definition caputils_version (b : build) : bytes * caputils_version_t :=
  let '(mj, mn, mi) := VERSION_NUMBER b in
  (VERSION b ++ match VCS b with Some (rev, branch) => B "[" ++ rev ++ B "/" ++ branch ++ B "]" | None => [] end ++
     match CAPUTILS_PFRING b with Some _ => B " (PF_RING enabled)" | None => [] end,
   {| v_major := mj; v_minor := mn; v_micro := mi; v_features := default 0 (CAPUTILS_PFRING b) |}).

(** ** Ethernet addresses *)
Definition hexval (c : Z) : option Z :=
  let ch := tolower c in
  if isdigit ch then Some (ch - 48)
  else if (97 <=? ch) && (ch <=? 102) then Some (ch - 97 + 10)
  else None.

(** The character at the head of a string, the terminator at its end. *)
Definition hd0 (s : bytes) : Z := match s with [] => 0 | c :: _ => c end.

(** [ether_aton] of the C library: one or two hexadecimal digits per octet,
    separated by colons; what follows the second digit of the last octet is
    not looked at. [cnt] octets are still to come after this one. *)
Fixpoint ether_octets (cnt : nat) (s : bytes) : option bytes :=
  match s with
  | [] => None
  | c :: s =>
      n ← hexval c;
      let ch := tolower (hd0 s) in
      '(n, s) ←
        (if match cnt with
            | O => negb (ch =? 0) && negb (isspace ch)
            | S _ => negb (ch =? 58)
            end
         then d ← hexval ch;
              let s := drop 1 s in
              if match cnt with O => false | S _ => negb (hd0 s =? 58) end
              then None else Some (16 * n + d, s)
         else Some (n, s));
      match cnt with
      | O => Some [n]
      | S cnt => l ← ether_octets cnt (drop 1 s); Some (n :: l)
      end
  end.
Definition ether_aton (asc : bytes) : option bytes := ether_octets 5 asc.

(** Returns the new [*dst] and the result; [*dst] is kept on failure. *)
Definition eth_aton (dst : ether_addr) (addr : bytes) : ether_addr * bool :=
  match ether_aton addr with
  | None => (dst, false)
  | Some tmp => (tmp, true)
  end.

(** [sprintf("%2.2X", b)] *)
Definition hexdigit (d : Z) : Z := if d <? 10 then 48 + d else 55 + d.
Definition hex2 (b : Z) : bytes := [hexdigit (b / 16); hexdigit (b mod 16)].

Fixpoint hexdump_octets (address : bytes) : bytes :=
  match address with
  | [] => []
  | [b] => hex2 b
  | b :: rest => hex2 b ++ [58] ++ hexdump_octets rest
  end.
Definition hexdump_address_r (address : ether_addr) : bytes := hexdump_octets address.
Definition hexdump_address : ether_addr -> bytes := hexdump_address_r.

(** ** Ethernet types *)
Definition ethertype : list (bytes * Z) :=
  [ (B "LOOP",      0x0060); (B "STP",       0x0026); (B "CDPVTP",    0x016e)
  ; (B "PUP",       0x0200); (B "PUPAT",     0x0201); (B "SPRITE",    0x0500)
  ; (B "IPv4",      0x0800); (B "IP",        0x0800); (B "X25",       0x0805)
  ; (B "ARP",       0x0806); (B "BPQ",       0x08FF); (B "IEEEPUP",   0x0a00)
  ; (B "IEEEPUPAT", 0x0a01); (B "DEC",       0x6000); (B "DNA_DL",    0x6001)
  ; (B "DNA_RC",    0x6002); (B "DNA_RT",    0x6003); (B "LAT",       0x6004)
  ; (B "DIAG",      0x6005); (B "CUST",      0x6006); (B "SCA",       0x6007)
  ; (B "TEB",       0x6558); (B "MP",        0x8010); (B "RARP",      0x8035)
  ; (B "ATALK",     0x809B); (B "AARP",      0x80F3); (B "VLAN",      0x8100)
  ; (B "8021Q",     0x8100); (B "IPX",       0x8137); (B "IPv6",      0x86DD)
  ; (B "PAUSE",     0x8808); (B "SLOW",      0x8809); (B "WCCP",      0x883E)
  ; (B "PPP_DISC",  0x8863); (B "PPP_SES",   0x8864); (B "MPLS_UC",   0x8847)
  ; (B "MPLS_MC",   0x8848); (B "ATMMPOA",   0x884c); (B "LINK_CTL",  0x886c)
  ; (B "ATMFATE",   0x8884); (B "PAE",       0x888E); (B "AOE",       0x88A2)
  ; (B "TIPC",      0x88CA); (B "1588",      0x88F7); (B "FCOE",      0x8906)
  ; (B "FIP",       0x8914); (B "LOOPBACK",  0x9000); (B "EDSA",      0xDADA) ].

Fixpoint by_name_from (cur : list (bytes * Z)) (name : bytes) : option (bytes * Z) :=
  match cur with
  | [] => None
  | e :: cur => if strcasecmp name (fst e) =? 0 then Some e else by_name_from cur name
  end.
Definition ethertype_by_name (name : bytes) : option (bytes * Z) := by_name_from ethertype name.

Fixpoint by_number_from (cur : list (bytes * Z)) (number : Z) : option (bytes * Z) :=
  match cur with
  | [] => None
  | e :: cur => if number =? snd e then Some e else by_number_from cur number
  end.
Definition ethertype_by_number (number : Z) : option (bytes * Z) := by_number_from ethertype number.

(** ** Errors *)
Definition ERROR_FIRST : Z := 32768.
Definition ERROR_CAPFILE_INVALID : Z := 32769.
Definition ERROR_CAPFILE_TRUNCATED : Z := 32770.
Definition ERROR_CAPFILE_FIFO_EXIST : Z := 32771.
Definition ERROR_INVALID_PROTOCOL : Z := 32772.
Definition ERROR_INVALID_HWADDR : Z := 32773.
Definition ERROR_INVALID_MULTICAST : Z := 32774.
Definition ERROR_INVALID_IFACE : Z := 32775.
Definition ERROR_BUFFER_LENGTH : Z := 32776.
Definition ERROR_BUFFER_MULTIPLE : Z := 32777.
Definition ERROR_NOT_IMPLEMENTED : Z := 32778.
Definition ERROR_LAST : Z := 32779.

Definition errstr : list (option bytes) :=
  [ None
  ; Some (B "not a valid capfile.")
  ; Some (B "file is truncated.")
  ; Some (B "filename already exists, ensure no other process is using this FIFO already")
  ; Some (B "unsupported protocol")
  ; Some (B "failed to parse hwaddr")
  ; Some (B "invalid address, expected multicast")
  ; Some (B "invalid interface")
  ; Some (B "read buffer must be greater than MTU")
  ; Some (B "buffer size must be a multiple of MTU")
  ; Some (B "feature not implemented.") ].

(** [strerror] is the C library's; its text is a parameter. *)
Definition caputils_error_string (strerror : Z -> bytes) (code : Z) : res (option bytes) :=
  if code =? -1 then Ok (Some (B "stream eof" ++ [10]))
  else if has_flag code ERROR_FIRST then
    let i := Z.lxor code ERROR_FIRST in
    if i <? 0 then Fault
    else match errstr !! Z.to_nat i with Some s => Ok s | None => Fault end
  else Ok (Some (strerror code)).

(** ** Facts *)
Lemma hexval_hexdigit d : 0 <= d < 16 -> hexval (hexdigit d) = Some d.
Proof.
  intros Hd. assert (exists n, d = Z.of_nat n /\ (n < 16)%nat) as (n & -> & Hn)
    by (exists (Z.to_nat d); lia).
  do 16 (destruct n as [|n]; [reflexivity|]). lia.
Qed.
Lemma hexdigit_tolower d : 0 <= d < 16 -> hexval (tolower (hexdigit d)) = Some d /\
  tolower (hexdigit d) <> 0 /\ isspace (tolower (hexdigit d)) = false /\ tolower (hexdigit d) <> 58.
Proof.
  intros Hd. assert (exists n, d = Z.of_nat n /\ (n < 16)%nat) as (n & -> & Hn)
    by (exists (Z.to_nat d); lia).
  do 16 (destruct n as [|n]; [repeat split; discriminate|]). lia.
Qed.

(** Reading back a printed address. *)
Lemma ether_octets_hexdump a :
  is_bytes a -> a <> [] -> ether_octets (length a - 1) (hexdump_octets a) = Some a.
Proof.
  induction 1 as [|b a Hb Ha IH]; [done|]. intros _. ints.
  assert (H1 : 0 <= b / 16 < 16) by (Z.div_mod_to_equations; lia).
  assert (H2 : 0 <= b mod 16 < 16) by (Z.div_mod_to_equations; lia).
  destruct (hexdigit_tolower _ H2) as (E1 & E2 & E3 & E4).
  destruct a as [|c a].
  - cbn -[hexval hexdigit Z.div Z.modulo tolower].
    rewrite hexval_hexdigit by done. cbn -[hexval hexdigit Z.div Z.modulo tolower].
    destruct (Z.eqb_spec (tolower (hexdigit (b mod 16))) 0); [done|]. rewrite E3, E1. cbn.
    do 2 f_equal. Z.div_mod_to_equations; lia.
  - change (hexdump_octets (b :: c :: a)) with (hex2 b ++ [58] ++ hexdump_octets (c :: a)).
    replace (length (b :: c :: a) - 1)%nat with (S (length (c :: a) - 1)) by (cbn; lia).
    revert IH. generalize (length (c :: a) - 1)%nat as k. generalize (hexdump_octets (c :: a)). intros s k IH.
    cbn -[hexval hexdigit Z.div Z.modulo tolower length].
    rewrite hexval_hexdigit by done. cbn -[hexval hexdigit Z.div Z.modulo tolower length].
    destruct (Z.eqb_spec (tolower (hexdigit (b mod 16))) 58); [done|]. rewrite E1.
    cbn -[hexval hexdigit Z.div Z.modulo tolower length].
    rewrite drop_0, IH by done. cbn. do 2 f_equal. Z.div_mod_to_equations; lia.
Qed.

(** ** Claims *)

(** An Ethernet address survives printing and parsing. *)
Theorem ether_aton_hexdump (dst a : ether_addr) :
  is_bytes a -> length a = 6%nat -> eth_aton dst (hexdump_address a) = (a, true).
Proof.
  intros Ha Hl. unfold eth_aton, ether_aton, hexdump_address, hexdump_address_r.
  pose proof (ether_octets_hexdump a Ha) as H. rewrite Hl in H. cbn [Nat.sub] in H.
  by rewrite H by (intros ->; done).
Qed.

Lemma ether_aton_hexdump_witness :
  eth_aton [] (hexdump_address [1; 0; 94; 255; 160; 10]) = ([1; 0; 94; 255; 160; 10], true).
Proof.
  apply (ether_aton_hexdump [] [1; 0; 94; 255; 160; 10]); [|reflexivity].
  repeat constructor; discriminate.
Defined.

(** Every name of the table of Ethernet types is found, in any case, with
    its own number, and the number of every entry is found. *)
Theorem ethertype_lookup (name : bytes) (v : Z) :
  (name, v) ∈ ethertype ->
  ethertype_by_name name = Some (name, v) /\
  ethertype_by_name (map tolower name) = Some (name, v) /\
  exists name', ethertype_by_number v = Some (name', v).
Proof.
  intros H. pattern name, v.
  apply (proj1 (list.Forall_forall (fun e : bytes * Z => (fun name v =>
    ethertype_by_name name = Some (name, v) /\
    ethertype_by_name (map tolower name) = Some (name, v) /\
    exists name', ethertype_by_number v = Some (name', v)) (fst e) (snd e)) ethertype)) in H; [exact H|].
  repeat (constructor; [split_and!; [reflexivity..|eexists; reflexivity]|]). constructor.
Qed.

Lemma ethertype_lookup_witness :
  ethertype_by_name (B "vlan") = Some (B "VLAN", 0x8100).
Proof. apply (ethertype_lookup (B "VLAN") 0x8100). vm_compute. repeat constructor. Defined.
