(* ===== verification/Address.v ===== *)
(** * Stream addresses (src/address.c, caputils/address.h)

    Parsing and printing of the address of a stream: an Ethernet group, a UDP or
    TCP endpoint, a file, a FIFO. *)

From S2P Require Import Prelude CLib Utils.

(** ** Data *)

(** A [char*] to a string: its address and the string found there. *)
Record cptr := { p_at : Z; p_str : bytes }.

(** The union of [struct stream_addr]: raw bytes (26 of them) or a pointer. *)
Inductive addr_union :=
| UBuffer (buffer : bytes)
| ULocal (local_filename : cptr)
| UFile (fd : Z).

(** [_type] and [_flags] are kept in network order. *)
Record stream_addr := {
  addr : addr_union;
  _type : Z;
  _flags : Z;
}.
#[export] Instance stream_addr_rebuild : Rebuild stream_addr := fun a =>
  {| addr := addr a; _type := _type a; _flags := _flags a |}.

Definition zero_addr : stream_addr :=
  {| addr := UBuffer (replicate 26 0); _type := 0; _flags := 0 |}.

Definition STREAM_ADDR_GUESS : Z := -1.
Definition STREAM_ADDR_CAPFILE : Z := 0.
Definition STREAM_ADDR_ETHERNET : Z := 1.
Definition STREAM_ADDR_UDP : Z := 2.
Definition STREAM_ADDR_TCP : Z := 3.
Definition STREAM_ADDR_FP : Z := 4.
Definition STREAM_ADDR_FIFO : Z := 5.

Definition STREAM_ADDR_LOCAL : Z := 1.
Definition STREAM_ADDR_FLUSH : Z := 2.
Definition STREAM_ADDR_UNLINK : Z := 4.
Definition STREAM_ADDR_FCLOSE : Z := 8.
Definition STREAM_ADDR_DUPLICATE : Z := 16.

Definition AF_INET : Z := 2.
Definition EINVAL : Z := 22.

(** [struct sockaddr_in] and [struct ether_addr] inside the buffer. *)
Definition ipv4_image (sin_port s_addr : Z) : bytes :=
  le16 AF_INET ++ le16 sin_port ++ le32 s_addr ++ replicate 18 0.
Definition ether_image (a : bytes) : bytes := a ++ replicate 20 0.

(** ** Accessors *)
Definition stream_addr_type (a : stream_addr) : Z := ntohs (_type a).
Definition stream_addr_flags (a : stream_addr) : Z := ntohs (_flags a).
Definition stream_addr_have_flag (a : stream_addr) (flag : Z) : bool := has_flag (ntohs (_flags a)) flag.

(** Memory of a duplicated name is released; the result is all zero. *)
Definition stream_addr_reset (a : stream_addr) : stream_addr := zero_addr.

(** [filename[0]]: the first byte of the union, of the pointer if it holds one. *)
Definition union_byte0 (u : addr_union) : Z :=
  match u with
  | UBuffer b => hd0 b
  | ULocal p => p_at p mod 256
  | UFile fd => 1
  end.
Definition stream_addr_is_set (a : stream_addr) : bool :=
  negb (_type a =? 0) || negb (union_byte0 (addr a) =? 0).

(** ** Ethernet addresses in the forms users write them *)

(** [strtok2(str, ":")] on the buffer: [str] is an offset or null, the second
    state component is the static [next]. *)
Definition strtok2 (buf : bytes) (next : option Z) (str : option Z) : res (bytes * option Z * option Z) :=
  match (match str with Some _ => str | None => next end) with
  | None => Ok (buf, next, None)
  | Some s =>
      text ← arr_str (drop (Z.to_nat s) buf);
      match strchr text 58 with
      | None => Ok (buf, None, Some s)
      | Some i =>
          let tmp := s + Z.of_nat i in
          buf ← wr8 buf tmp 0;
          Ok (buf, Some (tmp + 1), Some s)
      end
  end.

(** The loop that writes the colons into an address given without them. *)
Fixpoint insert_colons (i : nat) (buf : bytes) (ptr : Z) : res bytes :=
  match i with
  | O => Ok buf
  | S i' =>
      let k := Z.of_nat i in
      c ← rd8 buf (1 + k * 2); buf ← wr8 buf ptr c;
      c ← rd8 buf (k * 2); buf ← wr8 buf (ptr - 1) c;
      buf ← wr8 buf (ptr - 2) 58;
      insert_colons i' buf (ptr - 3)
  end.

(** How the token loop is left: at its end or by a [return]. *)
Inductive tokens_exit := TokensDone (buf tmp : bytes) | TokensReturn (buf : bytes).

(** The loop over the tokens; [cur] is the write position in [tmp]. *)
Fixpoint homogenize_tokens (fuel : nat) (buf tmp : bytes) (next tok : option Z) (cur : Z)
  : res tokens_exit :=
  match fuel, tok with
  | _, None => Ok (TokensDone buf tmp)
  | O, _ => OutOfFuel
  | S fuel, Some p =>
      '(buf, next, nxt) ← strtok2 buf next None;
      text ← arr_str (drop (Z.to_nat p) buf);
      let n := blen text in
      if n =? 12 then
        buf ← wr8 buf 17 0;
        buf ← insert_colons 5 buf 16;
        Ok (TokensReturn buf)
      else if (n =? 2) || (n =? 1) || (n =? 0) then
        let out := if n =? 2 then text else if n =? 1 then 48 :: text else [] in
        tmp ← (if n =? 0 then Ok tmp else wr tmp cur (out ++ [0]));
        let cur := cur + blen out in
        '(tmp, cur) ← match nxt with
                      | Some _ => tmp ← wr8 tmp cur 58; Ok (tmp, cur + 1)
                      | None => Ok (tmp, cur)
                      end;
        homogenize_tokens fuel buf tmp next nxt cur
      else Ok (TokensReturn buf)
  end.

(** [for ( ; buf[p2] != 0; p2++ )] *)
Definition find_nul (buf : bytes) (p : Z) : res Z :=
  text ← arr_str (drop (Z.to_nat p) buf); Ok (p + blen text).

Fixpoint fill_blanks (fuel : nat) (buf : bytes) (j p3 : Z) : res bytes :=
  if j <? p3 then
    match fuel with
    | O => OutOfFuel
    | S fuel => buf ← wr buf j [48; 48; 58]; fill_blanks fuel buf (j + 3) p3
    end
  else Ok buf.

(** The search for [::]; [len] is the length the input had.  [memcpy] of the
    right part is a copy of the bytes as they were. *)
Fixpoint expand_colons (fuel : nat) (buf : bytes) (len i : Z) : res bytes :=
  if i <? u64 (len - 1) then
    match fuel with
    | O => OutOfFuel
    | S fuel =>
        c ← rd8 buf i;
        if negb (c =? 58) then expand_colons fuel buf len (i + 1)
        else
          d ← rd8 buf (i + 1);
          if negb (d =? 58) then expand_colons fuel buf len (i + 1)
          else
            let p1 := i + 1 in
            p2 ← find_nul buf p1;
            let digits := p2 - p1 in
            let p3 := u32 (17 - digits) in
            part ← slice buf p1 digits;
            buf ← wr buf p3 part;
            buf ← fill_blanks 48 buf p1 p3;
            expand_colons fuel buf len (i + 1)
    end
  else Ok buf.

Section Aton.
(** [strdup]: a fresh copy of a string. *)
Variable strdup : bytes -> cptr.

Definition homogenize_eth_addr (buf : bytes) : res bytes :=
  s ← arr_str buf;
  let len := blen s in
  let buf := map (fun c => if c =? 45 then 58 else c) (take 17 buf) ++ drop 17 buf in
  let tmp := replicate 17 0 in
  '(buf, next, tok) ← strtok2 buf None (Some 0);
  r ← homogenize_tokens 49 buf tmp next tok 0;
  match r with
  | TokensReturn buf => Ok buf
  | TokensDone buf tmp =>
      head ← slice tmp 0 17;
      buf ← wr buf 0 head;
      expand_colons 49 buf len 0
  end.

(** [stream_addr_aton] for the types other than [STREAM_ADDR_GUESS]; the new
    [*dst] and the return value. *)
Definition aton_inet (dst : stream_addr) (src : bytes) : res (stream_addr * Z) :=
  buf ← arr_str (strncpy src 48);
  let '(ip, port) := match strchr buf 58 with
                     | Some i => (take i buf, htons (u16 (atoi (drop (S i) buf))))
                     | None => (buf, htons 0x0810)
                     end in
  let s_addr := inet_addr ip in
  let dst := dst <| addr := UBuffer (ipv4_image port s_addr) |> in
  if s_addr =? INADDR_NONE then Ok (dst, EINVAL) else Ok (dst, 0).

Definition aton_ethernet (dst : stream_addr) (src : bytes) : res (stream_addr * Z) :=
  buf ← homogenize_eth_addr (strncpy src 48);
  text ← arr_str buf;
  match ether_aton text with
  | None => Ok (dst, EINVAL)
  | Some a => Ok (dst <| addr := UBuffer (ether_image a) |>, 0)
  end.

Definition aton_file (dst : stream_addr) (src : cptr) (flags : Z) : stream_addr :=
  if has_flag flags STREAM_ADDR_LOCAL then
    let dst := dst <| addr := ULocal src |> in
    if has_flag flags STREAM_ADDR_DUPLICATE then dst <| addr := ULocal (strdup (p_str src)) |> else dst
  else dst <| addr := UBuffer (<[21%nat := 0]> (strncpy (p_str src) 22) ++ replicate 4 0) |>.

Definition aton_fixed (dst : stream_addr) (src : cptr) (type flags : Z) : res (stream_addr * Z) :=
  let dst := stream_addr_reset dst in
  let dst := dst <| _type := htons (u16 type) |> in
  let dst := dst <| _flags := htons (u16 flags) |> in
  if (type =? STREAM_ADDR_TCP) || (type =? STREAM_ADDR_UDP) then aton_inet dst (p_str src)
  else if type =? STREAM_ADDR_ETHERNET then aton_ethernet dst (p_str src)
  else if (type =? STREAM_ADDR_CAPFILE) || (type =? STREAM_ADDR_FIFO) then Ok (aton_file dst src flags, 0)
  else if type =? STREAM_ADDR_FP then Ok (dst, EINVAL)
  else Ok (dst, 0).

(** [src+7] *)
Definition skip7 (src : cptr) : cptr := {| p_at := p_at src + 7; p_str := drop 7 (p_str src) |}.

(** The address behind the prefix is the tail of the local copy [buf]; where
    that array lives is not observable, since only its text is used. *)
Definition stream_addr_aton (dst : stream_addr) (src : cptr) (type flags : Z) : res (stream_addr * Z) :=
  if negb (type =? STREAM_ADDR_GUESS) then aton_fixed dst src type flags
  else
    let dst := stream_addr_reset dst in
    let dst := dst <| _type := htons (u16 type) |> in
    let dst := dst <| _flags := htons (u16 flags) |> in
    buf ← arr_str (strncpy (p_str src) 48);
    match strstr buf (B "://") with
    | Some delim =>
        let prefix := take delim buf in
        let rest := {| p_at := 0; p_str := drop (delim + 3) buf |} in
        if strcasecmp (B "tcp") prefix =? 0 then aton_fixed dst rest STREAM_ADDR_TCP flags
        else if strcasecmp (B "udp") prefix =? 0 then aton_fixed dst rest STREAM_ADDR_UDP flags
        else if strcasecmp (B "eth") prefix =? 0 then aton_fixed dst rest STREAM_ADDR_ETHERNET flags
        else if strcasecmp (B "file") prefix =? 0 then
          aton_fixed dst (skip7 src) STREAM_ADDR_CAPFILE (Z.lor flags STREAM_ADDR_LOCAL)
        else if strcasecmp (B "fifo") prefix =? 0 then
          aton_fixed dst (skip7 src) STREAM_ADDR_FIFO
            (Z.lor (Z.lor flags STREAM_ADDR_LOCAL) STREAM_ADDR_UNLINK)
        else Ok (dst, EINVAL)
    | None =>
        '(dst, ret) ← aton_fixed dst src STREAM_ADDR_ETHERNET flags;
        if ret =? 0 then Ok (dst, 0)
        else aton_fixed dst src STREAM_ADDR_CAPFILE (Z.lor flags STREAM_ADDR_LOCAL)
    end.

Definition stream_addr_str (dst : stream_addr) (src : cptr) (flags : Z) : stream_addr * Z :=
  let dst := stream_addr_reset dst in
  let dst := dst <| _type := htons STREAM_ADDR_CAPFILE |> in
  let dst := dst <| _flags := htons (u16 (Z.lor STREAM_ADDR_LOCAL flags)) |> in
  let dst := dst <| addr := ULocal src |> in
  let dst := if has_flag flags STREAM_ADDR_DUPLICATE
             then dst <| addr := ULocal (strdup (p_str src)) |> else dst in
  (dst, 0).

Definition stream_addr_fp (dst : stream_addr) (fd flags : Z) : stream_addr * Z :=
  let dst := dst <| _type := htons STREAM_ADDR_FP |> in
  let dst := dst <| _flags := htons (u16 (Z.lor STREAM_ADDR_LOCAL flags)) |> in
  (dst <| addr := UFile fd |>, 0).
End Aton.

(** ** Printing *)

(** [snprintf(buf, bytes, ...)] followed by [assert(written < bytes)]. *)
Definition snprintf_all (text : bytes) (n : Z) : res bytes :=
  if blen text <? n then Ok text else Abort.

(** What [buf] holds after the call. *)
Definition stream_addr_ntoa_r (src : stream_addr) (n : Z) : res bytes :=
  let t := stream_addr_type src in
  if (t =? STREAM_ADDR_TCP) || (t =? STREAM_ADDR_UDP) then
    match addr src with
    | UBuffer b =>
        port ← rd16 b 2; a ← rd32 b 4;
        snprintf_all ((if t =? STREAM_ADDR_UDP then B "udp" else B "tcp") ++ B "://" ++
                      inet_ntoa a ++ B ":" ++ dec (ntohs port)) n
    | _ => Fault
    end
  else if t =? STREAM_ADDR_ETHERNET then
    match addr src with
    | UBuffer b => a ← slice b 0 6; snprintf_all (B "eth://" ++ hexdump_address a) n
    | _ => Fault
    end
  else if t =? STREAM_ADDR_FIFO then
    match addr src with
    | ULocal p => snprintf_all (B "fifo://" ++ p_str p) n
    | _ => Fault
    end
  else if t =? STREAM_ADDR_CAPFILE then
    text ← (if stream_addr_have_flag src STREAM_ADDR_LOCAL then
              match addr src with ULocal p => Ok (p_str p) | _ => Fault end
            else match addr src with UBuffer b => arr_str (take 22 b) | _ => Fault end);
    Ok (take (Z.to_nat (n - 1)) text)
  else if t =? STREAM_ADDR_FP then
    match addr src with
    | UFile fd => Ok (take (Z.to_nat (n - 1)) (B "/dev/fd/" ++ dec fd))
    | _ => Fault
    end
  else Ok [].
Definition stream_addr_ntoa (src : stream_addr) : res bytes := stream_addr_ntoa_r src 1024.

(** ** Facts *)

(** Characters of an address token: not a delimiter, not the terminator. *)
Definition plain (c : Z) : Prop := c <> 0 /\ c <> 45 /\ c <> 58.

Lemma arr_str_nul s t : Forall (fun c => c <> 0) s -> arr_str (s ++ 0 :: t) = Ok s.
Proof.
  intros Hs. unfold arr_str. rewrite existsb_app. cbn. rewrite orb_true_r.
  by rewrite cstr_app_nul.
Qed.
Lemma plain_nz s : Forall plain s -> Forall (fun c => c <> 0) s.
Proof. apply Forall_impl. by intros c (? & _). Qed.

Lemma strchr_none s c : Forall (fun x => x <> c) s -> strchr s c = None.
Proof.
  induction 1 as [|x s Hx _ IH]; cbn; [done|]. destruct (Z.eqb_spec x c); [done|]. by rewrite IH.
Qed.
Lemma strchr_first s c t : Forall (fun x => x <> c) s -> strchr (s ++ c :: t) c = Some (length s).
Proof.
  induction 1 as [|x s Hx _ IH]; cbn; [by rewrite Z.eqb_refl|].
  destruct (Z.eqb_spec x c); [done|]. by rewrite IH.
Qed.
Lemma plain_nc s : Forall plain s -> Forall (fun c => c <> 58) s.
Proof. apply Forall_impl. by intros c (_ & _ & ?). Qed.

(** Cutting off a token that a colon follows, and the last token. *)
Lemma strtok2_more pre t post next str :
  Forall plain t -> existsb (Z.eqb 0) post = true ->
  (match str with Some _ => str | None => next end) = Some (blen pre) ->
  strtok2 (pre ++ t ++ 58 :: post) next str =
    Ok (pre ++ t ++ 0 :: post, Some (blen pre + blen t + 1), Some (blen pre)).
Proof.
  intros Ht Hp Hs. unfold strtok2. rewrite Hs, drop_blen. unfold arr_str.
  rewrite existsb_app. cbn [existsb]. rewrite Hp, !orb_true_r. cbn [mbind res_bind].
  assert (E : cstr (t ++ 58 :: post) = t ++ 58 :: cstr post).
  { induction (plain_nz _ Ht) as [|c t' Hc _ IH]; [done|]. cbn. destruct (Z.eqb_spec c 0); [done|].
    rewrite IH; [done|]. by inversion Ht. }
  rewrite E, strchr_first by (by apply plain_nc).
  rewrite (assoc_L (++)), (wr8_mid (pre ++ t)) by (rewrite blen_app; done).
  cbn [mbind res_bind]. by rewrite <- (assoc_L (++)).
Qed.
Lemma strtok2_last pre t post next str :
  Forall plain t -> (match str with Some _ => str | None => next end) = Some (blen pre) ->
  strtok2 (pre ++ t ++ 0 :: post) next str = Ok (pre ++ t ++ 0 :: post, None, Some (blen pre)).
Proof.
  intros Ht Hs. unfold strtok2. rewrite Hs, drop_blen, arr_str_nul by (by apply plain_nz).
  cbn [mbind res_bind]. by rewrite strchr_none by (by apply plain_nc).
Qed.

(** An octet as the user may write it, and the two digits it is copied as. *)
Definition octet_text (t : bytes) : Prop := Forall plain t /\ (length t = 1%nat \/ length t = 2%nat).
Definition pad2 (t : bytes) : bytes := match t with [_] => 48 :: t | _ => t end.
Fixpoint colons (ts : list bytes) : bytes :=
  match ts with
  | [] => []
  | [t] => t
  | t :: ts => t ++ 58 :: colons ts
  end.

Lemma length_pad2 t : octet_text t -> length (pad2 t) = 2%nat.
Proof. intros [_ [H|H]]; destruct t as [|a [|b [|]]]; done. Qed.
Lemma colons_cons t ts : colons (t :: ts) = t ++ match ts with [] => [] | _ => 58 :: colons ts end.
Proof. destruct ts; cbn; by rewrite ?app_nil_r. Qed.
Lemma existsb0_end m z : existsb (Z.eqb 0) (m ++ 0 :: z) = true.
Proof. rewrite existsb_app. cbn. by rewrite orb_true_r. Qed.

(** What the switch on the length of the token does with an octet. *)
Lemma octet_cases t : octet_text t ->
  (if blen t =? 2 then t else if blen t =? 1 then 48 :: t else []) = pad2 t /\
  (blen t =? 12) = false /\ ((blen t =? 2) || (blen t =? 1) || (blen t =? 0)) = true /\ (blen t =? 0) = false.
Proof. intros [_ [H|H]]; destruct t as [|? [|? [|]]]; done. Qed.

(** One token of the loop: [r] is what strtok2 leaves behind it. *)
Lemma tokens_step fuel pre t z out old tmp' next nxt buf' next' :
  octet_text t ->
  strtok2 (pre ++ t ++ 0 :: z) next None = Ok (buf', next', nxt) ->
  (exists z', buf' = pre ++ t ++ 0 :: z') ->
  length old = 3%nat ->
  homogenize_tokens (S fuel) (pre ++ t ++ 0 :: z) (out ++ old ++ tmp') next (Some (blen pre)) (blen out) =
  homogenize_tokens fuel buf'
    (out ++ pad2 t ++ (match nxt with Some _ => 58 | None => 0 end) :: tmp')
    next' nxt (blen out + 2 + match nxt with Some _ => 1 | None => 0 end).
Proof.
  intros Ht Hs [z' ->] Ho. cbn [homogenize_tokens]. rewrite Hs. cbn [mbind res_bind].
  rewrite drop_blen, arr_str_nul by (by apply plain_nz, Ht). cbn [mbind res_bind].
  destruct (octet_cases t Ht) as (-> & -> & -> & ->).
  pose proof (length_pad2 t Ht) as Hl.
  rewrite (wr_mid out old) by (rewrite ?length_app, ?Hl; done). cbn [mbind res_bind].
  rewrite <- (assoc_L (++)). cbn [app].
  assert (Hb : blen (pad2 t) = 2) by (unfold blen; rewrite Hl; done). rewrite Hb.
  destruct nxt; cbn [mbind res_bind]; [|f_equal; lia].
  replace (out ++ pad2 t ++ 0 :: tmp') with ((out ++ pad2 t) ++ 0 :: tmp') by (by rewrite <- (assoc_L (++))).
  rewrite (wr8_mid (out ++ pad2 t)) by (rewrite blen_app, Hb; done).
  cbn [mbind res_bind]. rewrite <- (assoc_L (++) out). done.
Qed.

Lemma wr_overflow bs : forall m o, 0 <= o -> bs <> [] -> blen m < o + blen bs -> wr m o bs = Fault.
Proof.
  induction bs as [|b bs IH]; intros m o Ho Hne Hl; [done|]. cbn [wr]. unfold wr8.
  rewrite (proj2 (Z.ltb_ge o 0)) by lia. cbn [orb].
  destruct (Z.leb_spec (blen m) o); [done|]. cbn [mbind res_bind]. rewrite blen_cons in Hl.
  apply IH; [lia| |unfold blen in *; rewrite length_insert; lia].
  intros ->. change (blen []) with 0 in Hl. lia.
Qed.

(** The terminator of the last octet does not fit when [tmp] has room for the
    characters only. *)
Lemma homogenize_tokens_overflow ts : forall fuel pre t z out old next,
  Forall octet_text (t :: ts) -> (length ts < fuel)%nat ->
  length old = (2 + 3 * length ts)%nat ->
  next = (match ts with [] => None | _ => Some (blen pre + blen t + 1) end) ->
  homogenize_tokens fuel (pre ++ t ++ 0 :: match ts with [] => z | _ => colons ts ++ 0 :: z end)
    (out ++ old) next (Some (blen pre)) (blen out) = Fault.
Proof.
  induction ts as [|u ts IH]; intros fuel pre t z out old next Hts Hf Hold Hn;
    (destruct fuel as [|fuel]; [cbn in Hf; lia|]); inversion Hts as [|? ? Ht Hts' E]; subst.
  - cbn [homogenize_tokens]. change (strtok2 (pre ++ t ++ 0 :: z) None None) with (Ok (pre ++ t ++ 0 :: z, @None Z, @None Z)).
    cbn [mbind res_bind]. rewrite drop_blen, arr_str_nul by (by apply plain_nz, Ht). cbn [mbind res_bind].
    destruct (octet_cases t Ht) as (-> & -> & -> & ->).
    assert (Hb : blen (pad2 t ++ [0]) = 3) by (rewrite blen_app; unfold blen; by rewrite (length_pad2 t Ht)).
    assert (Ho : blen old = 2) by (unfold blen; rewrite Hold; done).
    pose proof (blen_nonneg out). rewrite wr_overflow; [done|lia| |rewrite Hb, blen_app, Ho; lia]. by intros [_ ?]%app_nil.
  - set (pre' := pre ++ t ++ [0]).
    assert (Hpre' : blen pre' = blen pre + blen t + 1)
      by (unfold pre'; rewrite !blen_app; change (blen [0]) with 1; lia).
    assert (Hbuf : forall m, pre ++ t ++ 0 :: m = pre' ++ m)
      by (intros; unfold pre'; by rewrite <- !(assoc_L (++))).
    assert (Hu : Forall plain u) by (inversion Hts' as [|? ? [? _]]; done).
    destruct old as [|o1 [|o2 [|o3 old]]]; try (cbn in Hold; lia).
    replace (out ++ (o1 :: o2 :: o3 :: old)) with (out ++ [o1; o2; o3] ++ old) by done.
    rewrite (tokens_step fuel pre t _ out [o1; o2; o3] old _ (Some (blen pre'))
      (pre ++ t ++ 0 :: u ++ 0 :: match ts with [] => z | _ => colons ts ++ 0 :: z end)
      (match ts with [] => None | _ => Some (blen pre' + blen u + 1) end));
      [|done| |by eexists|done].
    2:{ rewrite !Hbuf, colons_cons, <- (assoc_L (++)).
        destruct ts as [|u' ts']; cbn [app].
        - by rewrite (strtok2_last pre') by (done || by rewrite Hpre').
        - by rewrite (strtok2_more pre') by (done || apply existsb0_end || by rewrite Hpre'). }
    rewrite Hbuf.
    replace (out ++ pad2 t ++ 58 :: old) with ((out ++ pad2 t ++ [58]) ++ old)
      by (by rewrite <- !(assoc_L (++))).
    replace (blen out + 2 + 1) with (blen (out ++ pad2 t ++ [58])).
    2:{ rewrite !blen_app. unfold blen at 2. rewrite (length_pad2 t Ht). change (blen [58]) with 1. lia. }
    apply IH; [done|cbn in Hf; lia|cbn in Hold |- *; lia|done].
Qed.

(** The octets of an address separated by colons or by dashes. *)
Fixpoint joined (d : Z) (ts : list bytes) : bytes :=
  match ts with
  | [] => []
  | [t] => t
  | t :: ts => t ++ d :: joined d ts
  end.

Lemma map_dash_plain s : Forall plain s -> map (fun c => if c =? 45 then 58 else c) s = s.
Proof.
  induction 1 as [|c s (_ & Hc & _) _ IH]; cbn; [done|].
  destruct (Z.eqb_spec c 45); [done|]. by rewrite IH.
Qed.
Lemma map_dash_joined d ts :
  d = 45 \/ d = 58 -> Forall octet_text ts ->
  map (fun c => if c =? 45 then 58 else c) (joined d ts) = colons ts.
Proof.
  intros Hd. induction 1 as [|t ts [Ht _] Hts IH]; [done|]. destruct ts as [|u ts].
  - by apply map_dash_plain.
  - change (joined d (t :: u :: ts)) with (t ++ d :: joined d (u :: ts)).
    change (colons (t :: u :: ts)) with (t ++ 58 :: colons (u :: ts)).
    rewrite map_app, map_dash_plain by done. cbn [map]. rewrite IH. by destruct Hd as [-> | ->].
Qed.
Lemma joined_nz d ts : d <> 0 -> Forall octet_text ts -> Forall (fun c => c <> 0) (joined d ts).
Proof.
  intros Hd. induction 1 as [|t ts [Ht _] Hts IH]; [done|]. apply plain_nz in Ht.
  destruct ts as [|u ts]; [done|]. apply Forall_app. split; [done|]. by constructor.
Qed.
Lemma joined_length d ts : Forall octet_text ts -> (length (joined d ts) <= 3 * length ts - 1)%nat /\
  (length ts <= length (joined d ts))%nat.
Proof.
  induction 1 as [|t ts [_ Ht] Hts IH]; [cbn; lia|]. destruct ts as [|u ts]; [cbn; lia|].
  change (joined d (t :: u :: ts)) with (t ++ d :: joined d (u :: ts)).
  rewrite length_app. cbn [length] in *. lia.
Qed.

(** The buffer after the dashes are converted. *)
Lemma dash_buffer d ts :
  d = 45 \/ d = 58 -> Forall octet_text ts -> (length (joined d ts) <= 17)%nat ->
  let buf := strncpy (joined d ts) 48 in
  map (fun c => if c =? 45 then 58 else c) (take 17 buf) ++ drop 17 buf
  = colons ts ++ 0 :: replicate (47 - length (joined d ts)) 0.
Proof.
  intros Hd Hts Hlen buf. unfold buf. rewrite strncpy_short by lia.
  set (n := length (joined d ts)) in *.
  rewrite take_app, drop_app, (take_ge (joined d ts)), (drop_ge (joined d ts)) by lia. cbn [app].
  fold n. rewrite take_replicate, drop_replicate, map_app, map_dash_joined by done.
  rewrite <- (assoc_L (++)). f_equal.
  assert (E : forall j, map (fun c => if c =? 45 then 58 else c) (replicate j 0) = replicate j 0)
    by (induction j as [|j IH]; [done | cbn; by rewrite IH]).
  rewrite E, <- replicate_add. change (0 :: replicate (47 - n) 0) with (replicate (S (47 - n)) 0).
  f_equal. lia.
Qed.

(** Six octets, each written with one or two digits and separated by colons or
    dashes, need 18 bytes in [tmp], which has 17. *)
Lemma homogenize_octets_overflow d ts :
  d = 45 \/ d = 58 -> Forall octet_text ts -> length ts = 6%nat ->
  homogenize_eth_addr (strncpy (joined d ts) 48) = Fault.
Proof.
  intros Hd Hts H6. unfold homogenize_eth_addr.
  destruct (joined_length d ts Hts) as [Hlen Hlen'].
  pose proof (joined_nz d ts ltac:(lia) Hts) as Hnz.
  rewrite dash_buffer by (done || lia).
  rewrite strncpy_short by lia.
  replace (48 - length (joined d ts))%nat with (S (47 - length (joined d ts)))%nat by lia.
  cbn [replicate]. rewrite arr_str_nul by done. cbn [mbind res_bind].
  destruct ts as [|t [|u ts]]; try discriminate H6.
  set (z := replicate (47 - _) 0). inversion Hts as [|? ? [Ht _] Hts']; subst.
  change (colons (t :: u :: ts) ++ 0 :: z) with ((t ++ 58 :: colons (u :: ts)) ++ 0 :: z).
  rewrite <- (assoc_L (++)). cbn [app].
  change (t ++ 58 :: colons (u :: ts) ++ 0 :: z) with ([] ++ t ++ 58 :: colons (u :: ts) ++ 0 :: z).
  rewrite (strtok2_more []) by (done || apply existsb0_end). cbn [mbind res_bind app]. cbv zeta.
  pose proof (homogenize_tokens_overflow (u :: ts) 49 [] t z [] (replicate 17 0) (Some (blen [] + blen t + 1))) as Hp.
  cbn [app replicate] in Hp. change (blen []) with 0 in *. by rewrite Hp by (done || cbn in H6 |- *; lia).
Qed.

(** Twelve digits without a delimiter: the colons are written into the buffer. *)
Lemma homogenize_digits s : Forall plain s -> length s = 12%nat ->
  homogenize_eth_addr (strncpy s 48) =
    Ok (colons [take 2 s; take 2 (drop 2 s); take 2 (drop 4 s); take 2 (drop 6 s); take 2 (drop 8 s); drop 10 s] ++ replicate 31 0).
Proof.
  intros Hs Hl. unfold homogenize_eth_addr. rewrite strncpy_short by lia. rewrite Hl. cbn [Nat.sub].
  assert (E : arr_str (s ++ 0 :: replicate 35 0) = Ok s) by (by apply arr_str_nul, plain_nz).
  change (s ++ replicate 36 0) with (s ++ 0 :: replicate 35 0). rewrite E. cbn [mbind res_bind].
  change (0 :: replicate 35 0) with (replicate 36 0).
  rewrite take_app, drop_app, (take_ge s), (drop_ge s), map_app, map_dash_plain by (done || lia).
  rewrite Hl. cbn [app]. rewrite <- (assoc_L (++)).
  change (map _ (take (17 - 12) (replicate 36 0)) ++ drop (17 - 12) (replicate 36 0)) with (0 :: replicate 35 0).
  change (s ++ 0 :: replicate 35 0) with ([] ++ s ++ 0 :: replicate 35 0).
  rewrite (strtok2_last []) by done. cbn [mbind res_bind app homogenize_tokens]. change (blen []) with 0.
  change (strtok2 (s ++ 0 :: replicate 35 0) None None) with (Ok (s ++ 0 :: replicate 35 0, @None Z, @None Z)).
  cbn [mbind res_bind]. change (drop (Z.to_nat 0) (s ++ 0 :: replicate 35 0)) with (s ++ 0 :: replicate 35 0).
  rewrite E. cbn [mbind res_bind]. unfold blen at 1. rewrite Hl. cbn [Z.of_nat].
  do 12 (destruct s as [|? s]; [discriminate Hl|]). destruct s; [|discriminate Hl]. reflexivity.
Qed.

(** *** Reading the canonical form *)
Lemma hexval_facts c v : hexval c = Some v ->
  plain c /\ hexval (tolower c) = Some v /\ tolower c <> 0 /\ tolower c <> 58 /\
  isspace (tolower c) = false /\ 0 <= v < 16.
Proof.
  assert (Hidem : tolower (tolower c) = tolower c).
  { unfold tolower, isupper. destruct (Z.leb_spec 65 c), (Z.leb_spec c 90); cbn; try done;
      destruct (Z.leb_spec 65 c), (Z.leb_spec c 90); try lia;
      destruct (Z.leb_spec 65 (c + 32)), (Z.leb_spec (c + 32) 90); cbn; try done; lia. }
  unfold hexval. rewrite Hidem. intros H.
  assert (Hc : (48 <= tolower c <= 57 \/ 97 <= tolower c <= 102) /\ 0 <= v < 16).
  { unfold isdigit in H. destruct (Z.leb_spec 48 (tolower c)), (Z.leb_spec (tolower c) 57);
      destruct (Z.leb_spec 97 (tolower c)), (Z.leb_spec (tolower c) 102); cbn in H; try discriminate H;
      injection H; lia. }
  split_and!; try lia; try done.
  - unfold plain, tolower, isupper in *. destruct (Z.leb_spec 65 c), (Z.leb_spec c 90); cbn in Hc; lia.
  - unfold isspace. destruct Hc as [Hc _]. apply orb_false_iff.
    rewrite Z.eqb_neq, andb_false_iff, !Z.leb_gt. lia.
Qed.

(** [t] is an octet of value [v] in one or two hexadecimal digits. *)
Definition octet_hex (t : bytes) (v : Z) : Prop :=
  (exists y l, t = [y] /\ hexval y = Some l /\ v = l) \/
  (exists x y h l, t = [x; y] /\ hexval x = Some h /\ hexval y = Some l /\ v = 16 * h + l).

Lemma octet_hex_text t v : octet_hex t v -> octet_text t.
Proof.
  intros [(y & l & -> & H & _)|(x & y & h & l & -> & H1 & H2 & _)];
    split; auto; repeat constructor; eapply hexval_facts; eauto.
Qed.
Lemma octet_hex_pad t v : octet_hex t v ->
  exists x y h l, pad2 t = [x; y] /\ hexval x = Some h /\ hexval y = Some l /\ v = 16 * h + l.
Proof.
  intros [(y & l & -> & H & ->)|(x & y & h & l & -> & H1 & H2 & ->)]; cbn.
  - exists 48, y, 0, l. repeat split; done.
  - by exists x, y, h, l.
Qed.

Lemma ether_octets_canonical ts vs :
  Forall2 octet_hex ts vs -> ts <> [] ->
  ether_octets (length ts - 1) (colons (map pad2 ts)) = Some vs.
Proof.
  induction 1 as [|t v ts vs Ht Hts IH]; [done|]. intros _.
  destruct (octet_hex_pad _ _ Ht) as (x & y & h & l & E & Hx & Hy & ->).
  destruct (hexval_facts _ _ Hy) as (_ & Hy' & N0 & N58 & Nsp & _).
  cbn [map length]. rewrite colons_cons, E. destruct Hts as [|u w ts vs Hu Hts].
  - cbn -[hexval tolower Z.mul]. rewrite Hx. cbn -[hexval tolower Z.mul].
    destruct (Z.eqb_spec (tolower y) 0); [done|]. rewrite Nsp, Hy'. done.
  - replace (S (length (u :: ts)) - 1)%nat with (S (length (u :: ts) - 1)) by (cbn; lia).
    cbn [map]. specialize (IH ltac:(done)). revert IH. cbn [map].
    generalize (colons (pad2 u :: map pad2 ts)). generalize (length (u :: ts) - 1)%nat. intros k s IH.
    cbn -[hexval tolower Z.mul]. rewrite Hx. cbn -[hexval tolower Z.mul].
    destruct (Z.eqb_spec (tolower y) 58); [done|]. rewrite Hy'. cbn -[hexval tolower Z.mul].
    by rewrite drop_0, IH.
Qed.

(** The address that names an Ethernet group, and the one of an endpoint. *)
Definition eth_stream_addr (a : bytes) (flags : Z) : stream_addr :=
  {| addr := UBuffer (ether_image a); _type := htons STREAM_ADDR_ETHERNET; _flags := htons (u16 flags) |}.
Definition inet_stream_addr (type a port flags : Z) : stream_addr :=
  {| addr := UBuffer (ipv4_image (htons port) a); _type := htons type; _flags := htons (u16 flags) |}.

(** [s] writes the octets [vs] with two digits each and nothing between them. *)
Definition octet_digits (t : bytes) (v : Z) : Prop :=
  exists x y h l, t = [x; y] /\ hexval x = Some h /\ hexval y = Some l /\ v = 16 * h + l.
Definition mac_digits (s vs : bytes) : Prop :=
  exists ts, s = concat ts /\ Forall2 octet_digits ts vs /\ length vs = 6%nat.

Lemma octet_digits_hex t v : octet_digits t v -> octet_hex t v.
Proof. intros (x & y & h & l & H). right. by exists x, y, h, l. Qed.
Lemma octet_digits_plain t v : octet_digits t v -> Forall plain t /\ length t = 2%nat.
Proof. intros H. pose proof (octet_hex_text _ _ (octet_digits_hex _ _ H)) as [Hp _]. by destruct H as (? & ? & ? & ? & -> & _). Qed.
Lemma mac_digits_plain s vs : mac_digits s vs -> Forall plain s /\ length s = 12%nat.
Proof.
  intros (ts & -> & H & Hl). assert (Hs : Forall plain (concat ts) /\ length (concat ts) = (2 * length vs)%nat).
  { clear Hl. induction H as [|t v ts vs Ht _ [IH1 IH2]]; [done|]. destruct (octet_digits_plain _ _ Ht) as [Hp Hl].
    cbn [concat length]. rewrite length_app, IH2. split; [by apply Forall_app|lia]. }
  by rewrite Hl in Hs.
Qed.

Lemma aton_fixed_ethernet sd dst p vs flags : mac_digits (p_str p) vs ->
  aton_fixed sd dst p STREAM_ADDR_ETHERNET flags = Ok (eth_stream_addr vs flags, 0).
Proof.
  intros Hd. destruct (mac_digits_plain _ _ Hd) as [Hp Hl]. destruct Hd as (ts & E & H2 & H6).
  unfold aton_fixed.
  change ((STREAM_ADDR_ETHERNET =? STREAM_ADDR_TCP) || (STREAM_ADDR_ETHERNET =? STREAM_ADDR_UDP)) with false.
  change (STREAM_ADDR_ETHERNET =? STREAM_ADDR_ETHERNET) with true. cbv iota zeta.
  unfold aton_ethernet. rewrite homogenize_digits by done. cbn [mbind res_bind].
  assert (Hts : Forall2 octet_hex ts vs) by (eapply Forall2_impl; [apply octet_digits_hex|exact H2]).
  pose proof (ether_octets_canonical ts vs Hts) as Hoct. pose proof (Forall2_length H2) as Hlt. rewrite Hlt, H6 in Hoct.
  assert (Hc : colons [take 2 (p_str p); take 2 (drop 2 (p_str p)); take 2 (drop 4 (p_str p)); take 2 (drop 6 (p_str p));
                       take 2 (drop 8 (p_str p)); drop 10 (p_str p)] = colons (map pad2 ts) /\
               Forall (fun c => c <> 0) (colons (map pad2 ts))).
  { rewrite E in Hp |- *. rewrite H6 in Hlt. clear - H2 Hlt Hp.
    do 6 (destruct H2 as [|? ? ? ? (? & ? & ? & ? & -> & ? & ? & ?) H2]; [discriminate Hlt|]). destruct H2; [|discriminate Hlt].
    cbn in Hp |- *. split; [done|]. apply plain_nz in Hp.
    repeat match goal with H : Forall _ (_ :: _) |- _ => apply Forall_cons_1 in H as [? H] end.
    by repeat constructor. }
  destruct Hc as [-> Hnz]. change (replicate 31 0) with (0 :: replicate 30 0). rewrite arr_str_nul by done.
  cbn [mbind res_bind]. unfold ether_aton. cbn [Nat.sub] in Hoct. rewrite Hoct; [done|]. intros ->. discriminate (eq_trans Hlt H6).
Qed.

(** *** Printed addresses *)
Lemma hexdump_joined a : hexdump_address a = joined 58 (map hex2 a).
Proof. unfold hexdump_address, hexdump_address_r. induction a as [|b a IH]; [done|]. destruct a; [done|]. cbn in *. by rewrite IH. Qed.
Lemma octet_digits_hex2 b : is_u8 b -> octet_digits (hex2 b) b.
Proof.
  intros Hb. ints. unfold hex2. do 4 eexists. split; [reflexivity|].
  rewrite !hexval_hexdigit by (Z.div_mod_to_equations; lia).
  repeat split. Z.div_mod_to_equations; lia.
Qed.
Lemma octet_hex_hex2 b : is_u8 b -> octet_hex (hex2 b) b.
Proof. intros. by apply octet_digits_hex, octet_digits_hex2. Qed.
Lemma mac_digits_hex2 a : is_bytes a -> length a = 6%nat -> mac_digits (concat (map hex2 a)) a.
Proof.
  intros Ha Hl. exists (map hex2 a). split_and!; [done| |done].
  clear Hl. induction Ha; constructor; auto using octet_digits_hex2.
Qed.
Lemma octet_hex_map a : is_bytes a -> Forall2 octet_hex (map hex2 a) a.
Proof. induction 1; constructor; auto using octet_hex_hex2. Qed.

(** A prefixed text no longer than the local buffer. *)
Lemma aton_guess sd dst p prefix rest flags :
  p_str p = prefix ++ B "://" ++ rest ->
  (length (p_str p) < 48)%nat -> Forall (fun c => c <> 0) (p_str p) ->
  strstr (p_str p) (B "://") = Some (length prefix) ->
  stream_addr_aton sd dst p STREAM_ADDR_GUESS flags =
    let dst := zero_addr <| _type := htons (u16 (-1)) |> <| _flags := htons (u16 flags) |> in
    let r := {| p_at := 0; p_str := rest |} in
    if strcasecmp (B "tcp") prefix =? 0 then aton_fixed sd dst r STREAM_ADDR_TCP flags
    else if strcasecmp (B "udp") prefix =? 0 then aton_fixed sd dst r STREAM_ADDR_UDP flags
    else if strcasecmp (B "eth") prefix =? 0 then aton_fixed sd dst r STREAM_ADDR_ETHERNET flags
    else if strcasecmp (B "file") prefix =? 0 then
      aton_fixed sd dst (skip7 p) STREAM_ADDR_CAPFILE (Z.lor flags STREAM_ADDR_LOCAL)
    else if strcasecmp (B "fifo") prefix =? 0 then
      aton_fixed sd dst (skip7 p) STREAM_ADDR_FIFO
        (Z.lor (Z.lor flags STREAM_ADDR_LOCAL) STREAM_ADDR_UNLINK)
    else Ok (dst, EINVAL).
Proof.
  intros Hp Hl Hnz Hs. unfold stream_addr_aton. cbn [negb Z.eqb STREAM_ADDR_GUESS].
  change (negb (STREAM_ADDR_GUESS =? STREAM_ADDR_GUESS)) with false. cbv iota.
  rewrite strncpy_short by lia.
  replace (48 - length (p_str p))%nat with (S (47 - length (p_str p)))%nat by lia.
  cbn [replicate]. rewrite arr_str_nul by done. cbn [mbind res_bind]. rewrite Hs, Hp.
  rewrite take_app_length.
  replace (length prefix + 3)%nat with (length (prefix ++ B "://")) by (rewrite length_app; done).
  rewrite (assoc_L (++)), drop_app_length. done.
Qed.

(** *** Internet addresses *)
Lemma digits_plain s : Forall (fun c => isdigit c = true) s -> Forall (fun c => c <> 58 /\ c <> 0) s.
Proof.
  apply Forall_impl. intros c H%isdigit_cases.
  repeat (apply elem_of_cons in H as [->|H]; [done|]). by apply elem_of_nil in H.
Qed.
Lemma inet_ntoa_plain a : is_u32 a -> Forall (fun c => c <> 58 /\ c <> 0) (inet_ntoa a).
Proof.
  intros Ha. unfold inet_ntoa.
  repeat (apply Forall_app; split); try (repeat constructor; done);
    apply digits_plain, dec_digits; ints; Z.div_mod_to_equations; lia.
Qed.

Lemma aton_fixed_inet sd dst p type a port flags :
  type = STREAM_ADDR_UDP \/ type = STREAM_ADDR_TCP ->
  is_u32 a -> a <> INADDR_NONE -> is_u16 port ->
  p_str p = inet_ntoa a ++ B ":" ++ dec port ->
  aton_fixed sd dst p type flags = Ok (inet_stream_addr type a port flags, 0).
Proof.
  intros Ht Ha Hn Hport Hp.
  assert (Hd : Forall (fun c => c <> 58 /\ c <> 0) (dec port))
    by (apply digits_plain, dec_digits; ints; lia).
  assert (E : forall d, aton_inet d (p_str p) = Ok (d <| addr := UBuffer (ipv4_image (htons port) a) |>, 0)).
  { intros d. unfold aton_inet. pose proof (length_inet_ntoa a Ha). pose proof (length_dec port).
    rewrite Hp, strncpy_short by (rewrite !length_app; change (length (B ":")) with 1%nat; lia).
    rewrite !length_app. change (length (B ":")) with 1%nat.
    replace (48 - _)%nat with (S (46 - length (inet_ntoa a) - length (dec port)))%nat by lia.
    cbn [replicate]. rewrite arr_str_nul.
    2:{ apply Forall_app; split; [|apply Forall_app; split];
        [eapply Forall_impl; [|apply inet_ntoa_plain, Ha]; tauto|repeat constructor; done
        |eapply Forall_impl; [|exact Hd]; tauto]. }
    cbn [mbind res_bind]. change (B ":") with [58]. cbn [app].
    rewrite strchr_first by (eapply Forall_impl; [|apply inet_ntoa_plain, Ha]; tauto).
    rewrite take_app_length.
    replace (drop (S (length (inet_ntoa a))) (inet_ntoa a ++ 58 :: dec port)) with (dec port).
    2:{ change (58 :: dec port) with ([58] ++ dec port). rewrite (assoc_L (++)).
        replace (S (length (inet_ntoa a))) with (length (inet_ntoa a ++ [58])) by (rewrite length_app; cbn; lia).
        by rewrite drop_app_length. }
    rewrite atoi_dec by (ints; lia). rewrite u16_id by done.
    unfold inet_addr. rewrite inet_aton_ntoa by done.
    destruct (Z.eqb_spec a INADDR_NONE); done. }
  unfold aton_fixed. destruct Ht as [-> | ->]; cbn [Z.eqb orb STREAM_ADDR_UDP STREAM_ADDR_TCP]; rewrite E; done.
Qed.

Lemma ipv4_image_reads port a : is_u16 port -> is_u32 a ->
  rd16 (ipv4_image port a) 2 = Ok port /\ rd32 (ipv4_image port a) 4 = Ok a.
Proof.
  intros Hp Ha. unfold ipv4_image.
  rewrite rd16_app_r by (change (blen (le16 AF_INET)) with 2; lia).
  change (2 - blen (le16 AF_INET)) with 0. rewrite rd16_le16, u16_id by done. split; [done|].
  rewrite (assoc_L (++)), rd32_app_r by (rewrite blen_app; change (blen (le16 AF_INET) + blen (le16 port)) with 4; lia).
  change (4 - blen (le16 AF_INET ++ le16 port)) with 0. by rewrite rd32_le32, u32_id.
Qed.

Lemma ntoa_inet type a port flags :
  type = STREAM_ADDR_UDP \/ type = STREAM_ADDR_TCP -> is_u32 a -> is_u16 port ->
  stream_addr_ntoa (inet_stream_addr type a port flags) =
  Ok ((if type =? STREAM_ADDR_UDP then B "udp" else B "tcp") ++ B "://" ++ inet_ntoa a ++ B ":" ++ dec port).
Proof.
  intros Ht Ha Hp. unfold stream_addr_ntoa, stream_addr_ntoa_r, stream_addr_type, inet_stream_addr. cbn [_type addr].
  destruct (ipv4_image_reads (htons port) a) as [-> ->]; [apply ntohs_range|done|].
  cbn [mbind res_bind]. unfold htons. rewrite (ntohs_ntohs port) by done.
  assert (Hl : forall t, length t = 3%nat ->
    snprintf_all (t ++ B "://" ++ inet_ntoa a ++ B ":" ++ dec port) 1024 =
    Ok (t ++ B "://" ++ inet_ntoa a ++ B ":" ++ dec port)).
  { intros t Hl. unfold snprintf_all, blen. pose proof (length_inet_ntoa a Ha). pose proof (length_dec port).
    rewrite !length_app, Hl. change (length (B ":")) with 1%nat. change (length (B "://")) with 3%nat.
    by rewrite (proj2 (Z.ltb_lt _ _)) by lia. }
  destruct Ht as [-> | ->]; cbn -[inet_ntoa dec snprintf_all B app]; rewrite Hl by done; done.
Qed.

Lemma ntoa_ethernet mac flags :
  is_bytes mac -> length mac = 6%nat ->
  stream_addr_ntoa (eth_stream_addr mac flags) = Ok (B "eth://" ++ hexdump_address mac).
Proof.
  intros Hm H6. unfold stream_addr_ntoa, stream_addr_ntoa_r, stream_addr_type, eth_stream_addr. cbn [_type addr].
  change (ntohs (htons STREAM_ADDR_ETHERNET)) with STREAM_ADDR_ETHERNET. cbn [Z.eqb orb STREAM_ADDR_ETHERNET STREAM_ADDR_TCP STREAM_ADDR_UDP].
  change (((1 =? 3) || (1 =? 2))) with false. cbn. unfold ether_image.
  change (mac ++ replicate 20 0) with ([] ++ mac ++ replicate 20 0).
  rewrite (slice_app [] mac) by (done || (unfold blen; by rewrite H6)). cbn [mbind res_bind].
  rewrite hexdump_joined. unfold snprintf_all, blen.
  assert (Hts : Forall octet_text (map hex2 mac)).
  { apply Forall_map. eapply Forall_impl; [|exact Hm]. intros b Hb. eapply octet_hex_text, octet_hex_hex2, Hb. }
  destruct (joined_length 58 _ Hts) as [Hl _]. rewrite length_map, H6 in Hl.
  cbn [length]. by rewrite (proj2 (Z.ltb_lt _ _)) by lia.
Qed.

(** ** Claims *)

(** The temporary array is declared one byte too short: every address of six
    octets written with colons or dashes, its printed form included, stores its
    terminator behind the array. *)
Theorem aton_ethernet_overflow (sd : bytes -> cptr) (dst : stream_addr) (p : cptr) (d : Z) (ts : list bytes) (flags : Z) :
  d = 45 \/ d = 58 -> Forall octet_text ts -> length ts = 6%nat -> p_str p = joined d ts ->
  stream_addr_aton sd dst p STREAM_ADDR_ETHERNET flags = Fault.
Proof.
  intros Hd Hts H6 Hp. unfold stream_addr_aton, aton_fixed.
  change (negb (STREAM_ADDR_ETHERNET =? STREAM_ADDR_GUESS)) with true. cbv iota zeta.
  change ((STREAM_ADDR_ETHERNET =? STREAM_ADDR_TCP) || (STREAM_ADDR_ETHERNET =? STREAM_ADDR_UDP)) with false.
  change (STREAM_ADDR_ETHERNET =? STREAM_ADDR_ETHERNET) with true. cbv iota.
  unfold aton_ethernet. by rewrite Hp, homogenize_octets_overflow.
Qed.

Lemma aton_eth_text sd dst p flags s mac : mac_digits s mac -> p_str p = B "eth://" ++ s ->
  stream_addr_aton sd dst p STREAM_ADDR_GUESS flags = Ok (eth_stream_addr mac flags, 0).
Proof.
  intros Hd Hs. destruct (mac_digits_plain _ _ Hd) as [Hp Hl].
  rewrite (aton_guess _ _ _ (B "eth") s); rewrite ?Hs.
  - by apply aton_fixed_ethernet.
  - done.
  - rewrite length_app, Hl. cbn. lia.
  - apply Forall_app. split; [repeat constructor; done|]. by apply plain_nz.
  - reflexivity.
Qed.

Lemma aton_inet_text sd dst at_ flags a port type :
  type = STREAM_ADDR_UDP \/ type = STREAM_ADDR_TCP -> is_u32 a -> a <> INADDR_NONE -> is_u16 port ->
  stream_addr_aton sd dst
    {| p_at := at_; p_str := (if type =? STREAM_ADDR_UDP then B "udp" else B "tcp") ++ B "://" ++ inet_ntoa a ++ B ":" ++ dec port |}
    STREAM_ADDR_GUESS flags = Ok (inet_stream_addr type a port flags, 0).
Proof.
  intros Ht Ha Hn Hp. pose proof (length_inet_ntoa a Ha). pose proof (length_dec port).
  rewrite (aton_guess _ _ _ (if type =? STREAM_ADDR_UDP then B "udp" else B "tcp")
    (inet_ntoa a ++ B ":" ++ dec port)); cbn [p_str].
  - destruct Ht as [-> | ->]; cbn -[inet_ntoa dec B app aton_fixed]; apply aton_fixed_inet; auto.
  - done.
  - rewrite !length_app. destruct (_ =? _); cbn [B length]; lia.
  - apply Forall_app; split; [|apply Forall_app; split; [|apply Forall_app; split; [|apply Forall_app; split]]].
    + destruct (_ =? _); repeat constructor; done.
    + repeat constructor; done.
    + eapply Forall_impl; [|apply inet_ntoa_plain, Ha]; tauto.
    + repeat constructor; done.
    + eapply Forall_impl; [|apply digits_plain, dec_digits; ints; lia]; tauto.
  - by destruct (_ =? _).
Qed.


(** A text of 48 characters or more fills the local copy and leaves it
    without a terminator: guessing its kind reads past the end of the copy. *)
Theorem aton_guess_long (sd : bytes -> cptr) (dst : stream_addr) (p : cptr) (flags : Z) :
  Forall (fun c => c <> 0) (p_str p) -> (48 <= length (p_str p))%nat ->
  stream_addr_aton sd dst p STREAM_ADDR_GUESS flags = Fault.
Proof.
  intros Hnz Hl. unfold stream_addr_aton.
  change (negb (STREAM_ADDR_GUESS =? STREAM_ADDR_GUESS)) with false. cbv iota zeta.
  assert (E : arr_str (strncpy (p_str p) 48) = Fault); [|by rewrite E].
  unfold arr_str, strncpy. rewrite take_app, (proj2 (Nat.sub_0_le _ _) Hl), app_nil_r.
  assert (Ht : Forall (fun c => c <> 0) (take 48 (p_str p))) by (by apply Forall_take).
  assert (E : existsb (Z.eqb 0) (take 48 (p_str p)) = false); [|by rewrite E].
  induction Ht as [|c s Hc _ IH]; [done|]. cbn [existsb]. destruct (Z.eqb_spec 0 c); [by subst|]. exact IH.
Qed.

(** ** Witnesses *)
Definition ex_strdup (s : bytes) : cptr := {| p_at := 65536; p_str := s |}.

Lemma ex_digits : mac_digits (B "01005E0000fa") [1; 0; 94; 0; 0; 250].
Proof.
  exists [B "01"; B "00"; B "5E"; B "00"; B "00"; B "fa"]. split_and!; [reflexivity| |reflexivity].
  repeat (constructor; [do 4 eexists; split; [reflexivity|]; split; [reflexivity|]; split; reflexivity|]). constructor.
Qed.


Lemma aton_ethernet_overflow_witness :
  stream_addr_aton ex_strdup zero_addr {| p_at := 4096; p_str := B "1-0-5e-0-0-A" |} STREAM_ADDR_ETHERNET 0 = Fault.
Proof.
  apply (aton_ethernet_overflow ex_strdup zero_addr {| p_at := 4096; p_str := B "1-0-5e-0-0-A" |} 45
    [B "1"; B "0"; B "5e"; B "0"; B "0"; B "A"] 0); [auto| |reflexivity|reflexivity].
  repeat (constructor; [split; [repeat constructor; discriminate|cbn; auto]|]). constructor.
Defined.

Lemma aton_guess_long_witness :
  stream_addr_aton ex_strdup zero_addr
    {| p_at := 4096; p_str := replicate 50 97 |} STREAM_ADDR_GUESS 0 = Fault.
Proof.
  apply (aton_guess_long ex_strdup zero_addr {| p_at := 4096; p_str := replicate 50 97 |} 0).
  - repeat constructor; discriminate.
  - cbn. repeat constructor.
Defined.

(** A double colon behind the place where the unpadded text ended is missed. *)
Example double_colon_missed :
  stream_addr_aton ex_strdup zero_addr {| p_at := 4096; p_str := B "1:2:3::6" |} STREAM_ADDR_ETHERNET 0
  = Ok (zero_addr <| _type := htons 1 |>, EINVAL).
Proof. vm_compute. reflexivity. Qed.
Example double_colon_expanded :
  stream_addr_aton ex_strdup zero_addr {| p_at := 4096; p_str := B "01::06" |} STREAM_ADDR_ETHERNET 0
  = Ok (eth_stream_addr [1; 0; 0; 0; 0; 6] 0, 0).
Proof. vm_compute. reflexivity. Qed.
