(* ===== verification/Filter.v ===== *)
(** * The packet filter (src/filter.c, caputils/filter.h)

    A filter is a set of criteria, selected by the bits of [index], that are
    combined with AND or OR, an optional BPF program, and the state that the
    frame-number and inter-arrival criteria need. *)

From S2P Require Import Prelude CLib Picotime Utils Address Packet.

(** ** Data *)
Definition OFFSET_DST_PORT : Z := 0.
Definition OFFSET_SRC_PORT : Z := 1.
Definition OFFSET_IP_DST : Z := 2.
Definition OFFSET_IP_SRC : Z := 3.
Definition OFFSET_IP_PROTO : Z := 4.
Definition OFFSET_ETH_DST : Z := 5.
Definition OFFSET_ETH_SRC : Z := 6.
Definition OFFSET_ETH_TYPE : Z := 7.
Definition OFFSET_VLAN : Z := 8.
Definition OFFSET_IFACE : Z := 9.
Definition OFFSET_MAMPID : Z := 10.
Definition OFFSET_END_TIME : Z := 11.
Definition OFFSET_START_TIME : Z := 12.
Definition OFFSET_PORT : Z := 13.
Definition OFFSET_FRAME_MAX_DT : Z := 14.
Definition OFFSET_FRAME_NUM : Z := 15.

Definition FILTER_DST_PORT : Z := Z.shiftl 1 OFFSET_DST_PORT.
Definition FILTER_SRC_PORT : Z := Z.shiftl 1 OFFSET_SRC_PORT.
Definition FILTER_IP_DST : Z := Z.shiftl 1 OFFSET_IP_DST.
Definition FILTER_IP_SRC : Z := Z.shiftl 1 OFFSET_IP_SRC.
Definition FILTER_IP_PROTO : Z := Z.shiftl 1 OFFSET_IP_PROTO.
Definition FILTER_ETH_DST : Z := Z.shiftl 1 OFFSET_ETH_DST.
Definition FILTER_ETH_SRC : Z := Z.shiftl 1 OFFSET_ETH_SRC.
Definition FILTER_ETH_TYPE : Z := Z.shiftl 1 OFFSET_ETH_TYPE.
Definition FILTER_VLAN : Z := Z.shiftl 1 OFFSET_VLAN.
Definition FILTER_CI : Z := Z.shiftl 1 OFFSET_IFACE.
Definition FILTER_MAMPID : Z := Z.shiftl 1 OFFSET_MAMPID.
Definition FILTER_END_TIME : Z := Z.shiftl 1 OFFSET_END_TIME.
Definition FILTER_START_TIME : Z := Z.shiftl 1 OFFSET_START_TIME.
Definition FILTER_PORT : Z := Z.shiftl 1 OFFSET_PORT.
Definition FILTER_FRAME_MAX_DT : Z := Z.shiftl 1 OFFSET_FRAME_MAX_DT.
Definition FILTER_FRAME_NUM : Z := Z.shiftl 1 OFFSET_FRAME_NUM.

Definition FILTER_AND : Z := 1.
Definition FILTER_OR : Z := 2.

Record frame_num_node := { lower : Z; upper : Z }.

(** An instruction of a compiled BPF program (libpcap). *)
Record bpf_insn := { bpf_code : Z; bpf_jt : Z; bpf_jf : Z; bpf_k : Z }.

(** A pointer to memory that the filter owns: null, valid, or released. *)
Inductive owned (A : Type) := Null | Live (a : A) | Freed.
Arguments Null {A}.
Arguments Live {A} a.
Arguments Freed {A}.
Definition release {A} (p : owned A) : owned A := match p with Null => Null | _ => Freed end.

(** [struct filter]; the linked list of frame ranges is a list. *)
Record filter := {
  filter_id : Z;
  version : Z;
  mode : Z;
  index : Z;
  starttime : timepico;
  endtime : timepico;
  mampid : bytes;
  iface : bytes;
  vlan_tci : Z;
  vlan_tci_mask : Z;
  eth_type : Z;
  eth_type_mask : Z;
  eth_src : bytes;
  eth_src_mask : bytes;
  eth_dst : bytes;
  eth_dst_mask : bytes;
  ip_proto : Z;
  ip_src : Z;
  ip_src_mask : Z;
  ip_dst : Z;
  ip_dst_mask : Z;
  src_port : Z;
  src_port_mask : Z;
  dst_port : Z;
  dst_port_mask : Z;
  port : Z;
  port_mask : Z;
  frame_max_dt : timepico;
  frame_num : list frame_num_node;
  bpf_prog : owned (list bpf_insn);
  bpf_expr : owned bytes;
  first : bool;
  frame_counter : Z;
  frame_last_ts : timepico;
  consumer : Z;
  filter_caplen : Z;
  dest : stream_addr;
}.
#[export] Instance filter_rebuild : Rebuild filter := fun f =>
  {| filter_id := filter_id f; version := version f; mode := mode f; index := index f;
     starttime := starttime f; endtime := endtime f; mampid := mampid f; iface := iface f;
     vlan_tci := vlan_tci f; vlan_tci_mask := vlan_tci_mask f;
     eth_type := eth_type f; eth_type_mask := eth_type_mask f;
     eth_src := eth_src f; eth_src_mask := eth_src_mask f;
     eth_dst := eth_dst f; eth_dst_mask := eth_dst_mask f; ip_proto := ip_proto f;
     ip_src := ip_src f; ip_src_mask := ip_src_mask f; ip_dst := ip_dst f;
     ip_dst_mask := ip_dst_mask f; src_port := src_port f; src_port_mask := src_port_mask f;
     dst_port := dst_port f; dst_port_mask := dst_port_mask f; port := port f;
     port_mask := port_mask f; frame_max_dt := frame_max_dt f; frame_num := frame_num f;
     bpf_prog := bpf_prog f; bpf_expr := bpf_expr f; first := first f;
     frame_counter := frame_counter f; frame_last_ts := frame_last_ts f;
     consumer := consumer f; filter_caplen := filter_caplen f; dest := dest f |}.

(** [memset(filter, 0, sizeof(struct filter))] *)
Definition filter_zero : filter :=
  {| filter_id := 0; version := 0; mode := 0; index := 0;
     starttime := mk_timepico 0 0; endtime := mk_timepico 0 0;
     mampid := replicate 8 0; iface := replicate 8 0;
     vlan_tci := 0; vlan_tci_mask := 0; eth_type := 0; eth_type_mask := 0;
     eth_src := replicate 6 0; eth_src_mask := replicate 6 0;
     eth_dst := replicate 6 0; eth_dst_mask := replicate 6 0; ip_proto := 0;
     ip_src := 0; ip_src_mask := 0; ip_dst := 0; ip_dst_mask := 0;
     src_port := 0; src_port_mask := 0; dst_port := 0; dst_port_mask := 0;
     port := 0; port_mask := 0; frame_max_dt := mk_timepico 0 0; frame_num := [];
     bpf_prog := Null; bpf_expr := Null; first := false; frame_counter := 0;
     frame_last_ts := mk_timepico 0 0; consumer := 0; filter_caplen := 0; dest := zero_addr |}.

(** [filter_init] (src/createfilter.c) *)
Definition filter_init : filter :=
  let f := filter_zero in
  let f := f <| filter_caplen := u32 (-1) |> in
  let f := f <| mode := FILTER_AND |> in
  let f := f <| first := true |> in
  let f := f <| frame_num := [] |> in
  f <| frame_counter := 1 |>.

(** ** Headers of the packet *)
Fixpoint matchEth (desired mask net : bytes) : bool :=
  match desired, mask, net with
  | d :: desired, k :: mask, n :: net => if negb (Z.land n k =? d) then false else matchEth desired mask net
  | _, _, _ => true
  end.

Definition find_ether_vlan_header (m : bytes) (ether h_proto : Z) : res (option Z * Z) :=
  if h_proto =? 0x8100 then
    p ← be16 m (ether + 16);
    Ok (Some ether, p)
  else Ok (None, h_proto).

Definition find_ipproto_header (m : bytes) (pkt ether ip : Z) : res Z :=
  t ← h_proto m ether;
  let vlan_offset := if t =? 0x8100 then 4 else 0 in
  hl ← ip_hl m ip;
  Ok (pkt + sizeof_ethhdr + vlan_offset + 4 * hl).

(** [find_tcp_header] and [find_udp_header] for the protocol number [proto]:
    the header and, when [ports] (the caller passed pointers), its two ports. *)
Definition find_tp_header (proto : Z) (m : bytes) (pkt ether : Z) (ip : option Z) (ports : bool)
  : res (option (Z * (Z * Z))) :=
  match ip with
  | None => Ok None
  | Some ip =>
      p ← ip_p m ip;
      if negb (p =? proto) then Ok None
      else
        tp ← find_ipproto_header m pkt ether ip;
        if ports then
          src ← be16 m tp; dst ← be16 m (tp + 2); Ok (Some (tp, (src, dst)))
        else Ok (Some (tp, (0, 0)))
  end.
Definition find_tcp_header : bytes -> Z -> Z -> option Z -> bool -> res (option (Z * (Z * Z))) :=
  find_tp_header IPPROTO_TCP.
Definition find_udp_header : bytes -> Z -> Z -> option Z -> bool -> res (option (Z * (Z * Z))) :=
  find_tp_header IPPROTO_UDP.

(** ** Filter tests *)
Definition when_flag (f : filter) (flag : Z) (test : res bool) : res bool :=
  if has_flag (index f) flag then test else Ok false.

Definition filter_iface (f : filter) (ifname : bytes) : res bool :=
  when_flag f FILTER_CI
    (hay ← arr_str ifname; needle ← arr_str (iface f);
     Ok (bool_decide (is_Some (strstr hay needle)))).

Definition filter_vlan_tci (f : filter) (m : bytes) (vlan : option Z) : res bool :=
  when_flag f FILTER_VLAN
    match vlan with
    | None => Ok false
    | Some v => tci ← be16 m (v + 14); Ok (Z.land tci (vlan_tci_mask f) =? vlan_tci f)
    end.

Definition filter_h_proto (f : filter) (h_proto : Z) : res bool :=
  when_flag f FILTER_ETH_TYPE (Ok (Z.land h_proto (eth_type_mask f) =? eth_type f)).

Definition filter_eth_src (f : filter) (m : bytes) (ether : Z) : res bool :=
  when_flag f FILTER_ETH_SRC
    (a ← slice m (ether + 6) 6; Ok (matchEth (eth_src f) (eth_src_mask f) a)).

Definition filter_eth_dst (f : filter) (m : bytes) (ether : Z) : res bool :=
  when_flag f FILTER_ETH_DST
    (a ← slice m ether 6; Ok (matchEth (eth_dst f) (eth_dst_mask f) a)).

Definition filter_ip_proto (f : filter) (m : bytes) (ip : option Z) : res bool :=
  when_flag f FILTER_IP_PROTO
    match ip with None => Ok false | Some ip => p ← ip_p m ip; Ok (ip_proto f =? p) end.

Definition filter_ip_src (f : filter) (m : bytes) (ip : option Z) : res bool :=
  when_flag f FILTER_IP_SRC
    match ip with
    | None => Ok false
    | Some ip => a ← ip_src_addr m ip; Ok (Z.land a (ip_src_mask f) =? ip_src f)
    end.

Definition filter_ip_dst (f : filter) (m : bytes) (ip : option Z) : res bool :=
  when_flag f FILTER_IP_DST
    match ip with
    | None => Ok false
    | Some ip => a ← ip_dst_addr m ip; Ok (Z.land a (ip_dst_mask f) =? ip_dst f)
    end.

Definition filter_src_port (f : filter) (p : Z) : res bool :=
  when_flag f FILTER_SRC_PORT (Ok (src_port f =? Z.land p (src_port_mask f))).

Definition filter_dst_port (f : filter) (p : Z) : res bool :=
  when_flag f FILTER_DST_PORT (Ok (dst_port f =? Z.land p (dst_port_mask f))).

Definition filter_port (f : filter) (src dst : Z) : res bool :=
  when_flag f FILTER_PORT
    (Ok ((port f =? Z.land src (port_mask f)) || (port f =? Z.land dst (port_mask f)))).

Definition filter_mampid (f : filter) (m : bytes) : res bool :=
  when_flag f FILTER_MAMPID (Ok (strncmp (cstr (mampid f)) (cstr m) 8 =? 0)).

Definition filter_start_time (f : filter) (time : timepico) : res bool :=
  when_flag f FILTER_START_TIME (Ok (timecmp (starttime f) time <=? 0)).

Definition filter_end_time (f : filter) (time : timepico) : res bool :=
  when_flag f FILTER_END_TIME (Ok (0 <? timecmp (endtime f) time)).

Definition frame_dt_test (f : filter) (time : timepico) : bool :=
  if timecmp time (frame_last_ts f) <? 0 then true
  else
    let iat := timepico_sub time (frame_last_ts f) in
    timecmp iat (frame_max_dt f) <=? 0.
Definition filter_frame_dt (f : filter) (time : timepico) : res bool :=
  when_flag f FILTER_FRAME_MAX_DT (Ok (frame_dt_test f time)).

Definition filter_frame_num (f : filter) : bool :=
  match frame_num f with
  | [] => false
  | node :: _ =>
      if frame_counter f <? lower node then false
      else if (0 <? upper node) && (upper node <? frame_counter f) then false
      else true
  end.

(** ** Matching *)

(** What [filter_core] finds before it runs the tests. *)
Record headers := {
  hd_proto : Z;
  hd_vlan : option Z;
  hd_ip : option Z;
  hd_sport : Z;
  hd_dport : Z;
}.

(** [find_udp_header] runs after [find_tcp_header] and overwrites the ports only
    when it finds a header. *)
Definition find_headers (m : bytes) : res headers :=
  t ← h_proto m 0;
  '(vlan, t) ← find_ether_vlan_header m 0 t;
  found ← find_ipv4_header m 0;
  let ip := fst <$> found in
  tcp ← find_tcp_header m 0 0 ip true;
  udp ← find_udp_header m 0 0 ip true;
  let ports := match udp, tcp with
               | Some (_, p), _ => p
               | None, Some (_, p) => p
               | None, None => (0, 0)
               end in
  Ok {| hd_proto := t; hd_vlan := vlan; hd_ip := ip; hd_sport := fst ports; hd_dport := snd ports |}.

(** [match |= test << offset], test by test. *)
Fixpoint match_bits (tests : list (res bool * Z)) (acc : Z) : res Z :=
  match tests with
  | [] => Ok acc
  | (test, offset) :: tests =>
      b ← test;
      match_bits tests (Z.lor acc (Z.shiftl (Z.b2z b) offset))
  end.

Definition filter_tests (f : filter) (m : bytes) (head : cap_header) (h : headers) : list (res bool * Z) :=
  [ (filter_dst_port f (hd_dport h), OFFSET_DST_PORT)
  ; (filter_src_port f (hd_sport h), OFFSET_SRC_PORT)
  ; (filter_ip_dst f m (hd_ip h), OFFSET_IP_DST)
  ; (filter_ip_src f m (hd_ip h), OFFSET_IP_SRC)
  ; (filter_ip_proto f m (hd_ip h), OFFSET_IP_PROTO)
  ; (filter_eth_dst f m 0, OFFSET_ETH_DST)
  ; (filter_eth_src f m 0, OFFSET_ETH_SRC)
  ; (filter_h_proto f (hd_proto h), OFFSET_ETH_TYPE)
  ; (filter_vlan_tci f m (hd_vlan h), OFFSET_VLAN)
  ; (filter_iface f (nic head), OFFSET_IFACE)
  ; (filter_mampid f (head_mampid head), OFFSET_MAMPID)
  ; (filter_end_time f (ts head), OFFSET_END_TIME)
  ; (filter_start_time f (ts head), OFFSET_START_TIME)
  ; (filter_port f (hd_sport h) (hd_dport h), OFFSET_PORT)
  ; (filter_frame_dt f (ts head), OFFSET_FRAME_MAX_DT)
  ; (Ok (filter_frame_num f), OFFSET_FRAME_NUM) ].

Definition filter_core (f : filter) (pkt : bytes) (head : cap_header) : res bool :=
  h ← find_headers pkt;
  m ← match_bits (filter_tests f pkt head h) 0;
  if mode f =? FILTER_AND then Ok (m =? index f)
  else if mode f =? FILTER_OR then Ok (0 <? m)
  else Abort.

Section Match.
(** libpcap's interpreter: zero rejects the packet. *)
Variable bpf_filter : list bpf_insn -> bytes -> Z -> Z -> Z.

(** The new filter state and the result. *)
Definition filter_match (f : filter) (pkt : bytes) (head : cap_header) : res (filter * bool) :=
  let f := if first f then f <| frame_last_ts := ts head |> <| first := false |> else f in
  core_match ← (if index f =? 0 then Ok true else filter_core f pkt head);
  bpf_match ← match bpf_prog f with
               | Null => Ok true
               | Live insn => Ok (negb (bpf_filter insn pkt (len head) (caplen head) =? 0))
               | Freed => Fault
               end;
  let matched := core_match && bpf_match in
  let f := match frame_num f with
           | node :: next =>
               if (0 <? upper node) && (upper node <? frame_counter f) then f <| frame_num := next |> else f
           | [] => f
           end in
  let f := f <| frame_counter := i32 (frame_counter f + 1) |> in
  let f := if matched then f <| frame_last_ts := ts head |> else f in
  Ok (f, matched).

(** The filter applied to a sequence of packets, as [stream_read] does. *)
Fixpoint filter_run (f : filter) (pkts : list cap_header) : res (filter * list bool) :=
  match pkts with
  | [] => Ok (f, [])
  | p :: pkts =>
      '(f, b) ← filter_match f (payload p) p;
      '(f, bs) ← filter_run f pkts;
      Ok (f, b :: bs)
  end.
End Match.

(** ** What a filter means

    The criterion behind bit [i] of the index, as a property of the packet. *)
Definition criterion (f : filter) (m : bytes) (head : cap_header) (h : headers) (i : Z) : res bool :=
  match i with
  | 0 => Ok (dst_port f =? Z.land (hd_dport h) (dst_port_mask f))
  | 1 => Ok (src_port f =? Z.land (hd_sport h) (src_port_mask f))
  | 2 => match hd_ip h with
         | None => Ok false
         | Some ip => a ← ip_dst_addr m ip; Ok (Z.land a (ip_dst_mask f) =? ip_dst f)
         end
  | 3 => match hd_ip h with
         | None => Ok false
         | Some ip => a ← ip_src_addr m ip; Ok (Z.land a (ip_src_mask f) =? ip_src f)
         end
  | 4 => match hd_ip h with None => Ok false | Some ip => p ← ip_p m ip; Ok (ip_proto f =? p) end
  | 5 => a ← slice m 0 6; Ok (matchEth (eth_dst f) (eth_dst_mask f) a)
  | 6 => a ← slice m 6 6; Ok (matchEth (eth_src f) (eth_src_mask f) a)
  | 7 => Ok (Z.land (hd_proto h) (eth_type_mask f) =? eth_type f)
  | 8 => match hd_vlan h with
         | None => Ok false
         | Some v => tci ← be16 m (v + 14); Ok (Z.land tci (vlan_tci_mask f) =? vlan_tci f)
         end
  | 9 => hay ← arr_str (nic head); needle ← arr_str (iface f);
         Ok (bool_decide (is_Some (strstr hay needle)))
  | 10 => Ok (strncmp (cstr (mampid f)) (cstr (head_mampid head)) 8 =? 0)
  | 11 => Ok (0 <? timecmp (endtime f) (ts head))
  | 12 => Ok (timecmp (starttime f) (ts head) <=? 0)
  | 13 => Ok ((port f =? Z.land (hd_sport h) (port_mask f)) || (port f =? Z.land (hd_dport h) (port_mask f)))
  | 14 => Ok (frame_dt_test f (ts head))
  | 15 => Ok (filter_frame_num f)
  | _ => Ok false
  end.

(** The test of bit [i]; only the frame numbers are tested whatever the index says. *)
Definition test_at (f : filter) (m : bytes) (head : cap_header) (h : headers) (i : Z) : res bool :=
  if (i =? 15) || Z.testbit (index f) i then criterion f m head h i else Ok false.

Definition offsets : list Z := [0; 1; 2; 3; 4; 5; 6; 7; 8; 9; 10; 11; 12; 13; 14; 15].

Lemma offsets_range : Forall (fun i => 0 <= i < 16) offsets.
Proof. repeat constructor; discriminate. Qed.

Lemma existsb_offsets (k : Z -> bool) i :
  0 <= i -> existsb (fun j => (j =? i) && k j) offsets = (i <? 16) && k i.
Proof.
  intros Hi. destruct (Z.ltb_spec i 16).
  - assert (exists n, i = Z.of_nat n /\ (n < 16)%nat) as (n & -> & Hn) by (exists (Z.to_nat i); lia).
    do 16 (destruct n as [|n]; [cbn; by rewrite ?orb_false_r|]). lia.
  - unfold offsets. cbn [existsb]. rewrite !(proj2 (Z.eqb_neq _ _)) by lia. done.
Qed.

Lemma filter_tests_at f m head h :
  filter_tests f m head h = map (fun i => (test_at f m head h i, i)) offsets.
Proof.
  unfold filter_tests, offsets, test_at, filter_dst_port, filter_src_port, filter_ip_dst, filter_ip_src,
    filter_ip_proto, filter_eth_dst, filter_eth_src, filter_h_proto, filter_vlan_tci, filter_iface,
    filter_mampid, filter_end_time, filter_start_time, filter_port, filter_frame_dt, when_flag.
  cbn [map Z.eqb orb criterion].
  unfold FILTER_DST_PORT, FILTER_SRC_PORT, FILTER_IP_DST, FILTER_IP_SRC, FILTER_IP_PROTO, FILTER_ETH_DST,
    FILTER_ETH_SRC, FILTER_ETH_TYPE, FILTER_VLAN, FILTER_CI, FILTER_MAMPID, FILTER_END_TIME,
    FILTER_START_TIME, FILTER_PORT, FILTER_FRAME_MAX_DT.
  rewrite !has_flag_testbit by done. reflexivity.
Qed.

(** The word [match_bits] computes has exactly the bits whose test succeeded. *)
Lemma match_bits_testbit tests acc M i :
  Forall (fun t => 0 <= snd t) tests -> 0 <= i ->
  match_bits tests acc = Ok M ->
  Z.testbit M i = Z.testbit acc i || existsb (fun t => (snd t =? i) && match fst t with Ok b => b | _ => false end) tests.
Proof.
  intros Ho Hi. revert acc. induction Ho as [|[t o] tests Hto _ IH]; intros acc; cbn [match_bits existsb].
  - intros [= <-]. by rewrite orb_false_r.
  - intros (b & -> & H)%bind_Ok_inv. cbn [fst snd] in *. rewrite (IH _ H), Z.lor_spec, <- orb_assoc. f_equal. f_equal.
    rewrite Z.shiftl_spec by lia. destruct (Z.eqb_spec o i) as [->|Hne].
    + rewrite Z.sub_diag. by destruct b.
    + destruct (Z.lt_trichotomy i o) as [?|[?|?]]; [by rewrite Z.testbit_neg_r by lia|lia|].
      destruct b; [|by rewrite Z.bits_0]. change (Z.b2z true) with 1.
      rewrite Z.bits_above_log2; [done|lia|cbn; lia].
Qed.

Lemma match_bits_ok tests acc :
  0 <= acc -> Forall (fun t => exists b, fst t = Ok b) tests ->
  exists M, match_bits tests acc = Ok M /\ 0 <= M.
Proof.
  intros Ha Ht. revert acc Ha. induction Ht as [|[t o] tests [b Hb] _ IH]; intros acc Ha; cbn [match_bits]; [eauto|].
  cbn in Hb. rewrite Hb. cbn. apply IH. apply Z.lor_nonneg. split; [done|].
  apply Z.shiftl_nonneg. destruct b; cbn; lia.
Qed.

(** Well-formed filters: frame ranges are only present under their bit. *)
Definition filter_wf (f : filter) : Prop :=
  is_u32 (index f) /\ (frame_num f <> [] -> Z.testbit (index f) 15 = true).

Section Core.
Variables (f : filter) (pkt : bytes) (head : cap_header) (h : headers) (c : Z -> bool).
Hypothesis Hwf : filter_wf f.
Hypothesis Hh : find_headers pkt = Ok h.
Hypothesis Hc : forall i, 0 <= i < 16 -> Z.testbit (index f) i = true -> criterion f pkt head h i = Ok (c i).

Lemma test_at_val i : 0 <= i < 16 -> test_at f pkt head h i = Ok (Z.testbit (index f) i && c i).
Proof.
  intros Hi. unfold test_at. destruct (Z.eqb_spec i 15) as [->|Hne]; cbn [orb].
  - cbn [criterion]. destruct (Z.testbit (index f) 15) eqn:E; cbn [andb].
    + rewrite <- Hc by (done || lia). done.
    + unfold filter_frame_num. destruct (frame_num f) eqn:En; [done|]. destruct Hwf as [_ H]. rewrite H in E; [done|congruence].
  - destruct (Z.testbit (index f) i) eqn:E; [|done]. by rewrite Hc.
Qed.

Lemma filter_core_word :
  exists M, match_bits (filter_tests f pkt head h) 0 = Ok M /\ 0 <= M /\
    forall i, 0 <= i -> Z.testbit M i = (i <? 16) && Z.testbit (index f) i && c i.
Proof.
  rewrite filter_tests_at.
  destruct (match_bits_ok (map (fun i => (test_at f pkt head h i, i)) offsets) 0) as (M & HM & HM0); [lia| |].
  { apply Forall_map. eapply Forall_impl; [|exact offsets_range]. intros i Hi. cbn. rewrite test_at_val; eauto. }
  exists M. split_and!; [done..|]. intros i Hi.
  erewrite match_bits_testbit; [| |done|exact HM].
  2:{ apply Forall_map. eapply Forall_impl; [|exact offsets_range]. cbn. lia. }
  rewrite Z.bits_0, existsb_map. cbn [orb fst snd].
  rewrite (existsb_offsets (fun j => match test_at f pkt head h j with Ok b => b | _ => false end)) by done.
  destruct (Z.ltb_spec i 16); [|done]. by rewrite test_at_val by lia.
Qed.

Lemma filter_core_and :
  mode f = FILTER_AND ->
  exists b, filter_core f pkt head = Ok b /\
    (b = true <-> forall i, Z.testbit (index f) i = true -> i < 16 /\ c i = true).
Proof.
  intros Hm. destruct filter_core_word as (M & HM & _ & Hbits).
  unfold filter_core. rewrite Hh. cbn [mbind res_bind]. rewrite HM, Hm. cbn [mbind res_bind Z.eqb FILTER_AND].
  eexists. split; [reflexivity|]. rewrite Z.eqb_eq. split.
  - intros E i Hi. assert (0 <= i) by (destruct (Z.lt_ge_cases i 0); [by rewrite Z.testbit_neg_r in Hi|done]).
    specialize (Hbits i ltac:(done)). rewrite E, Hi in Hbits. symmetry in Hbits.
    rewrite !andb_true_iff, Z.ltb_lt in Hbits. tauto.
  - intros H. apply Z.bits_inj'. intros i Hi. rewrite Hbits by done.
    destruct (Z.testbit (index f) i) eqn:E; [|by rewrite andb_false_r].
    destruct (H i E) as [? ->]. by rewrite (proj2 (Z.ltb_lt _ _)).
Qed.

Lemma filter_core_or :
  mode f = FILTER_OR ->
  exists b, filter_core f pkt head = Ok b /\
    (b = true <-> exists i, 0 <= i < 16 /\ Z.testbit (index f) i = true /\ c i = true).
Proof.
  intros Hm. destruct filter_core_word as (M & HM & HM0 & Hbits).
  unfold filter_core. rewrite Hh. cbn [mbind res_bind]. rewrite HM, Hm. cbn [mbind res_bind Z.eqb FILTER_AND FILTER_OR].
  eexists. split; [reflexivity|]. rewrite Z.ltb_lt. split.
  - intros Hpos. exists (Z.log2 M). pose proof (Z.log2_nonneg M) as Hl.
    pose proof (Hbits _ Hl) as E. rewrite Z.bit_log2 in E by lia. symmetry in E.
    rewrite !andb_true_iff, Z.ltb_lt in E. tauto.
  - intros (i & Hi & Ht & Hci). destruct (Z.eq_dec M 0) as [->|]; [|lia].
    specialize (Hbits i ltac:(lia)). rewrite Z.bits_0, Ht, Hci, (proj2 (Z.ltb_lt _ _)) in Hbits by lia. done.
Qed.
End Core.

(** Matching ends without [abort] in both modes. *)
Lemma slice_total m o n : total (slice m o n).
Proof. unfold slice. total_tac. Qed.
Lemma arr_str_total m : total (arr_str m).
Proof. unfold arr_str. total_tac. Qed.
#[export] Hint Resolve slice_total arr_str_total : cap.
Lemma find_tp_header_total proto m pkt ether ip ports : total (find_tp_header proto m pkt ether ip ports).
Proof. unfold find_tp_header, find_ipproto_header. total_tac. Qed.
Lemma find_headers_total m : total (find_headers m).
Proof.
  unfold find_headers, find_ether_vlan_header, find_tcp_header, find_udp_header.
  repeat (apply total_bind; [total_tac; try apply find_tp_header_total|intros]); total_tac; apply find_tp_header_total.
Qed.
Lemma criterion_total f m head h i : total (criterion f m head h i).
Proof. unfold criterion, ip_dst_addr, ip_src_addr. total_tac. Qed.
Lemma match_bits_total tests acc : Forall (fun t => total (fst t)) tests -> total (match_bits tests acc).
Proof.
  intros H. revert acc. induction H as [|[t o] tests Ht _ IH]; intros acc; cbn [match_bits]; [done|].
  apply total_bind; [exact Ht|]. intros; apply IH.
Qed.
Lemma filter_core_total f pkt head :
  mode f = FILTER_AND \/ mode f = FILTER_OR -> total (filter_core f pkt head).
Proof.
  intros Hm. unfold filter_core. apply total_bind; [apply find_headers_total|]. intros h _.
  apply total_bind.
  - rewrite filter_tests_at. apply match_bits_total, Forall_map. unfold offsets.
    repeat constructor; unfold test_at; case_match; done || apply criterion_total.
  - intros M _. by destruct Hm as [-> | ->].
Qed.

(** ** Frame numbers *)
Definition in_range (k : Z) (r : frame_num_node) : bool :=
  (lower r <=? k) && ((upper r <=? 0) || (k <=? upper r)).

(** Ranges in ascending order with at least one frame between two of them. *)
Fixpoint separated (rs : list frame_num_node) : Prop :=
  match rs with
  | [] => True
  | r :: rest =>
      (0 < upper r -> lower r <= upper r) /\
      match rest with [] => True | r' :: _ => 0 < upper r /\ upper r + 2 <= lower r' end /\
      separated rest
  end.

(** A filter whose only criterion is the frame number. *)
Definition only_frames (f : filter) : Prop :=
  index f = FILTER_FRAME_NUM /\ mode f = FILTER_AND /\ bpf_prog f = Null.
Definition decodes (p : cap_header) : Prop := exists h, find_headers (payload p) = Ok h.

(** With a single criterion selected, the filter is that criterion. *)
Lemma filter_core_single f pkt head h i0 b :
  0 <= i0 < 16 -> index f = Z.shiftl 1 i0 -> mode f = FILTER_AND -> (frame_num f <> [] -> i0 = 15) ->
  find_headers pkt = Ok h -> criterion f pkt head h i0 = Ok b ->
  filter_core f pkt head = Ok b.
Proof.
  intros Hi0 Hi Hm Hn Hh Hc.
  assert (Hbit : forall i, Z.testbit (index f) i = true <-> i = i0).
  { intros i. rewrite Hi, Z.shiftl_1_l.
    destruct (Z.lt_ge_cases i 0); [rewrite Z.testbit_neg_r by done; split; [done|lia]|].
    rewrite Z.pow2_bits_eqb, Z.eqb_eq by lia. lia. }
  destruct (filter_core_and f pkt head h (fun _ => b)) as (b' & Hb & Hspec); [|done| |done|].
  - split; [|intros E%Hn; apply Hbit; lia]. rewrite Hi, Z.shiftl_1_l. ints.
    pose proof (Z.pow_lt_mono_r 2 i0 32). pose proof (Z.pow_nonneg 2 i0). change (2 ^ 32) with 4294967296 in *. lia.
  - intros i _ E%Hbit. by subst i.
  - rewrite Hb. f_equal. apply eq_true_iff_eq. rewrite Hspec. split.
    + intros H. apply (H i0). by apply Hbit.
    + intros E i Hbi%Hbit. split; [lia | done].
Qed.

Lemma filter_core_frames f pkt head h :
  only_frames f -> find_headers pkt = Ok h -> filter_core f pkt head = Ok (filter_frame_num f).
Proof. intros (Hi & Hm & _) Hh. by apply (filter_core_single f pkt head h 15). Qed.

Section Frames.
Variable bpf_filter : list bpf_insn -> bytes -> Z -> Z -> Z.

(** The frame ranges left after a frame. *)
Definition prune (k : Z) (rs : list frame_num_node) : list frame_num_node :=
  match rs with
  | r :: rest => if (0 <? upper r) && (upper r <? k) then rest else rs
  | [] => []
  end.

Lemma filter_match_frames f p :
  only_frames f -> decodes p ->
  exists f', filter_match bpf_filter f (payload p) p = Ok (f', filter_frame_num f) /\
    only_frames f' /\ frame_counter f' = i32 (frame_counter f + 1) /\
    frame_num f' = prune (frame_counter f) (frame_num f).
Proof.
  intros Hf [h Hh]. unfold filter_match.
  set (f1 := if first f then _ else f).
  assert (H1 : only_frames f1 /\ frame_counter f1 = frame_counter f /\ frame_num f1 = frame_num f)
    by (unfold f1; destruct (first f); done).
  destruct H1 as (Hf1 & Hk & Hn). clearbody f1.
  rewrite (proj2 (Z.eqb_neq (index f1) 0)) by (destruct Hf1 as [-> _]; done).
  rewrite (filter_core_frames f1 _ _ h) by done. cbn [mbind res_bind].
  assert (Hnum : filter_frame_num f1 = filter_frame_num f) by (unfold filter_frame_num; by rewrite Hk, Hn).
  destruct Hf1 as (Hi & Hm & Hb). rewrite Hb. cbn [mbind res_bind]. rewrite andb_true_r, Hnum.
  set (f2 := match frame_num f1 with [] => _ | _ :: _ => _ end).
  assert (H2 : index f2 = FILTER_FRAME_NUM /\ mode f2 = FILTER_AND /\ bpf_prog f2 = Null /\
               frame_counter f2 = frame_counter f /\ frame_num f2 = prune (frame_counter f) (frame_num f)).
  { unfold f2, prune. rewrite <- Hn, <- Hk. destruct (frame_num f1) eqn:E; [by rewrite E|]. by destruct (_ && _); rewrite ?E. }
  destruct H2 as (? & ? & ? & Hk2 & Hn2). clearbody f2.
  eexists. split; [reflexivity|]. destruct (filter_frame_num f); cbn; rewrite Hk2, Hn2; done.
Qed.

(** Only the first range can contain the next frame, the earlier ones cannot. *)
Lemma separated_later k rs :
  separated rs ->
  match rs with r :: _ => 0 < upper r -> k - 1 <= upper r | [] => True end ->
  existsb (in_range k) rs = match rs with [] => false | r :: _ => in_range k r end.
Proof.
  assert (Hlow : forall rs b, separated rs -> match rs with r :: _ => b < lower r | [] => True end ->
                 existsb (in_range b) rs = false).
  { clear. intros rs b. induction rs as [|r rs IH]; [done|]. intros (Hr & Hn & Hs) Hb. cbn [existsb].
    rewrite IH; [|done|]. { unfold in_range. by rewrite (proj2 (Z.leb_gt _ _)) by lia. }
    destruct rs; [done|]. destruct Hn. specialize (Hr ltac:(done)). lia. }
  destruct rs as [|r rs]; [done|]. intros (Hr & Hn & Hs) Hk. cbn [existsb].
  rewrite Hlow; [by rewrite orb_false_r|done|].
  destruct rs; [done|]. destruct Hn. specialize (Hk ltac:(done)). lia.
Qed.

Lemma prune_separated k rs :
  separated rs ->
  match rs with r :: _ => 0 < upper r -> k - 1 <= upper r | [] => True end ->
  separated (prune k rs) /\
  match prune k rs with r :: _ => 0 < upper r -> k <= upper r | [] => True end /\
  forall j, k < j -> existsb (in_range j) (prune k rs) = existsb (in_range j) rs.
Proof.
  destruct rs as [|r rs]; [done|]. intros (Hr & Hn & Hs) Hk. unfold prune.
  destruct (Z.ltb_spec 0 (upper r)), (Z.ltb_spec (upper r) k); cbn [andb].
  - split_and!; [done| |].
    + destruct rs as [|r' rs]; [done|]. destruct Hs as (Hr' & _). specialize (Hk ltac:(done)). lia.
    + intros j Hj. cbn [existsb]. unfold in_range at 2.
      rewrite (proj2 (Z.leb_gt (upper r) 0)), (proj2 (Z.leb_gt j (upper r))) by lia. by rewrite andb_false_r.
  - split_and!; [done|lia|done].
  - split_and!; [done|lia|done].
  - split_and!; [done|lia|done].
Qed.

Lemma filter_run_frames pkts : forall f,
  only_frames f -> Forall decodes pkts -> separated (frame_num f) ->
  match frame_num f with r :: _ => 0 < upper r -> frame_counter f - 1 <= upper r | [] => True end ->
  0 <= frame_counter f -> frame_counter f + Z.of_nat (length pkts) <= 2147483648 ->
  exists f', filter_run bpf_filter f pkts =
    Ok (f', map (fun i => existsb (in_range (frame_counter f + Z.of_nat i)) (frame_num f)) (seq 0 (length pkts))).
Proof.
  induction pkts as [|p pkts IH]; intros f Hf Hd Hs Hk Hk0 Hb; [by eexists|].
  inversion Hd as [|? ? Hp Hd']; subst. cbn [length] in Hb.
  destruct (filter_match_frames f p Hf Hp) as (f1 & E1 & Hf1 & Hk1 & Hn1).
  destruct (prune_separated _ _ Hs Hk) as (Hs' & Hk' & Hlater).
  assert (E2 : exists f', filter_run bpf_filter f1 pkts =
    Ok (f', map (fun i => existsb (in_range (frame_counter f + 1 + Z.of_nat i)) (frame_num f1)) (seq 0 (length pkts)))).
  { destruct (decide (pkts = [])) as [->|Hne]; [by eexists|].
    assert (0 < length pkts)%nat by (destruct pkts; [done|cbn; lia]).
    rewrite i32_id in Hk1 by lia. rewrite <- Hk1. apply IH; [done|done|by rewrite Hn1| |lia|lia].
    rewrite Hn1, Hk1. destruct (prune _ _); [done|]. intros ?%Hk'. lia. }
  destruct E2 as (f' & E2).
  exists f'. cbn [filter_run]. rewrite E1. cbn [mbind res_bind]. rewrite E2. cbn [mbind res_bind length seq map].
  do 3 f_equal.
  - rewrite Z.add_0_r, separated_later by done. unfold filter_frame_num, in_range.
    destruct (frame_num f) as [|r rs]; [done|]. 
    destruct (Z.ltb_spec (frame_counter f) (lower r)), (Z.leb_spec (lower r) (frame_counter f)); try lia; try done.
    destruct (Z.ltb_spec 0 (upper r)), (Z.leb_spec (upper r) 0), (Z.ltb_spec (upper r) (frame_counter f)),
      (Z.leb_spec (frame_counter f) (upper r)); try lia; done.
  - rewrite <- seq_shift, map_map. apply map_ext. intros i. rewrite Hn1, Hlater by lia.
    do 2 f_equal. lia.
Qed.
End Frames.

(** ** Inter-arrival times *)
Definition only_dt (f : filter) : Prop :=
  index f = FILTER_FRAME_MAX_DT /\ mode f = FILTER_AND /\ bpf_prog f = Null /\ frame_num f = [] /\
  first f = false /\ norm (frame_last_ts f) /\ norm (frame_max_dt f).

(** The criterion fails exactly when the packet comes later than allowed after
    the last one that matched. *)
Lemma frame_dt_test_false f t :
  norm (frame_last_ts f) -> norm (frame_max_dt f) -> norm t ->
  frame_dt_test f t = false <-> val (frame_max_dt f) < val t - val (frame_last_ts f).
Proof.
  intros Hl Hm Ht. unfold frame_dt_test. rewrite timecmp_compare by done.
  destruct (timepico_sub_spec t (frame_last_ts f) Ht Hl) as [Hn Hv].
  assert (Hb : 0 <= val t < 4294967296 * PICO /\ 0 <= val (frame_last_ts f) /\ 0 <= val (frame_max_dt f))
    by (destruct Ht, Hl, Hm; tp; ints; nia).
  destruct (Z.compare_spec (val t) (val (frame_last_ts f))) as [E|E|E]; cbn [Z.ltb Z.compare].
  2: split; [done|lia].
  all: rewrite timecmp_compare by done; rewrite Hv, Z.mod_small by lia;
    destruct (Z.compare_spec (val t - val (frame_last_ts f)) (val (frame_max_dt f))); cbn; split; done || lia.
Qed.

Section InterArrival.
Variable bpf_filter : list bpf_insn -> bytes -> Z -> Z -> Z.

Lemma filter_match_dt_reject f p :
  only_dt f -> decodes p -> frame_dt_test f (ts p) = false ->
  exists f', filter_match bpf_filter f (payload p) p = Ok (f', false) /\ only_dt f' /\
    frame_last_ts f' = frame_last_ts f /\ frame_max_dt f' = frame_max_dt f.
Proof.
  intros (Hi & Hm & Hb & Hn & Hf & Hl & Hd) [h Hh] Ht. unfold filter_match. rewrite Hf.
  rewrite (proj2 (Z.eqb_neq (index f) 0)) by (by rewrite Hi).
  rewrite (filter_core_single f (payload p) p h 14 false); [|lia|done|done|by rewrite Hn|done|].
  2:{ cbn [criterion]. by rewrite Ht. }
  cbn [mbind res_bind andb]. rewrite Hb, Hn. cbn [mbind res_bind andb]. eexists. split; [reflexivity|].
  cbn. rewrite Hn. done.
Qed.

Lemma filter_run_dt_reject pkts : forall f t0,
  only_dt f -> Forall decodes pkts -> val (frame_max_dt f) < t0 - val (frame_last_ts f) ->
  Forall (fun p => norm (ts p) /\ t0 <= val (ts p)) pkts ->
  exists f', filter_run bpf_filter f pkts = Ok (f', replicate (length pkts) false).
Proof.
  induction pkts as [|p pkts IH]; intros f t0 Hf Hd Hgap Hts; [by eexists|].
  inversion Hd as [|? ? Hp Hd']; inversion Hts as [|? ? [Hn Ht] Hts']; subst.
  destruct (filter_match_dt_reject f p Hf Hp) as (f1 & E1 & Hf1 & Hl1 & Hm1).
  { apply frame_dt_test_false; [apply Hf..|done|lia]. }
  destruct (IH f1 t0) as (f' & E2); [done|done|by rewrite Hl1, Hm1|done|].
  exists f'. cbn [filter_run]. rewrite E1. cbn [mbind res_bind]. rewrite E2. done.
Qed.
End InterArrival.

(** ** Claims *)

(** C1: Refinement of the bit-twiddling matcher: whenever the criteria selected
    by the index can be evaluated on the packet, AND mode accepts the packet
    exactly when all of them hold (and no unknown bit is set), OR mode exactly
    when one of them holds. *)
Theorem filter_core_refines (f : filter) (pkt : bytes) (head : cap_header) (h : headers) (c : Z -> bool) :
  filter_wf f -> find_headers pkt = Ok h ->
  (forall i, 0 <= i < 16 -> Z.testbit (index f) i = true -> criterion f pkt head h i = Ok (c i)) ->
  (mode f = FILTER_AND -> exists b, filter_core f pkt head = Ok b /\
     (b = true <-> forall i, Z.testbit (index f) i = true -> i < 16 /\ c i = true)) /\
  (mode f = FILTER_OR -> exists b, filter_core f pkt head = Ok b /\
     (b = true <-> exists i, 0 <= i < 16 /\ Z.testbit (index f) i = true /\ c i = true)).
Proof. intros Hwf Hh Hc. split; [by apply (filter_core_and f pkt head h) | by apply (filter_core_or f pkt head h)]. Qed.

(** C23: With frame ranges in ascending order that leave at least one frame
    between them, a filter on frame numbers accepts exactly the frames of the
    ranges, counted from one, as long as fewer than 2^31 packets are read: the
    counter is an [int]. *)
Theorem frame_num_exact (bpf : list bpf_insn -> bytes -> Z -> Z -> Z) (f : filter) (pkts : list cap_header) :
  only_frames f -> frame_counter f = 1 -> separated (frame_num f) -> Forall decodes pkts ->
  Z.of_nat (length pkts) < 2147483648 ->
  exists f', filter_run bpf f pkts =
    Ok (f', map (fun i => existsb (in_range (1 + Z.of_nat i)) (frame_num f)) (seq 0 (length pkts))).
Proof.
  intros Hf Hk Hs Hd Hl. rewrite <- Hk. apply filter_run_frames; [done..| |lia|lia].
  destruct (frame_num f); [done|]. lia.
Qed.

(** Once a packet has come later than the maximal inter-arrival time after
    the last match, it and every packet that is not earlier is rejected. *)
Theorem frame_dt_latch (bpf : list bpf_insn -> bytes -> Z -> Z -> Z) (f : filter) (p : cap_header) (pkts : list cap_header) :
  only_dt f -> Forall decodes (p :: pkts) -> norm (ts p) ->
  val (frame_max_dt f) < val (ts p) - val (frame_last_ts f) ->
  Forall (fun q => norm (ts q) /\ val (ts p) <= val (ts q)) pkts ->
  exists f', filter_run bpf f (p :: pkts) = Ok (f', replicate (length (p :: pkts)) false).
Proof.
  intros Hf Hd Hn Hgap Hts. apply (filter_run_dt_reject bpf _ _ (val (ts p))); [done..|].
  constructor; [split; [done|lia] | done].
Qed.

(** Adjacent ranges lose a frame: with the ranges 1-2 and 3-4, frame 3 is
    rejected, because a range is dropped one frame after it ended. *)
Theorem frame_num_adjacent (bpf : list bpf_insn -> bytes -> Z -> Z -> Z) (p1 p2 p3 p4 : cap_header) :
  Forall decodes [p1; p2; p3; p4] ->
  exists f', filter_run bpf
    (filter_init <| index := FILTER_FRAME_NUM |>
                 <| frame_num := [{| lower := 1; upper := 2 |}; {| lower := 3; upper := 4 |}] |>)
    [p1; p2; p3; p4] = Ok (f', [true; true; false; true]).
Proof.
  intros Hd. repeat (apply Forall_cons_1 in Hd as [?H Hd]). set (f := filter_init <| index := _ |> <| frame_num := _ |>).
  destruct (filter_match_frames bpf f p1) as (f1 & E1 & Hf1 & Hk1 & Hn1); [done..|].
  destruct (filter_match_frames bpf f1 p2) as (f2 & E2 & Hf2 & Hk2 & Hn2); [done..|].
  destruct (filter_match_frames bpf f2 p3) as (f3 & E3 & Hf3 & Hk3 & Hn3); [done..|].
  destruct (filter_match_frames bpf f3 p4) as (f4 & E4 & Hf4 & Hk4 & Hn4); [done..|].
  rewrite Hk1 in *. rewrite Hk2 in *. rewrite Hk3 in *.
  change (frame_counter f) with 1 in *. change (i32 (1 + 1)) with 2 in *. change (i32 (2 + 1)) with 3 in *. change (prune 1 (frame_num f)) with (frame_num f) in Hn1.
  rewrite Hn1 in *. change (prune 2 (frame_num f)) with (frame_num f) in Hn2.
  rewrite Hn2 in *. change (prune 3 (frame_num f)) with [{| lower := 3; upper := 4 |}] in Hn3.
  exists f4. cbn [filter_run]. rewrite E1. cbn [mbind res_bind]. rewrite E2. cbn [mbind res_bind].
  rewrite E3. cbn [mbind res_bind]. rewrite E4. cbn [mbind res_bind].
  unfold filter_frame_num. rewrite Hk1, Hk2, Hk3, Hn1, Hn2, Hn3. done.
Qed.

(** ** Witnesses *)
Definition ex_bpf (_ : list bpf_insn) (_ : bytes) (_ _ : Z) : Z := 1.
Definition ex_frame : cap_header := ex_cap (ipv4_frame ex_macs [] (ex_ip ++ ex_tcp ++ ex_data)).
Definition ex_headers : headers :=
  {| hd_proto := 0x0800; hd_vlan := None; hd_ip := Some 14; hd_sport := 1024; hd_dport := 80 |}.

Lemma filter_core_refines_witness :
  let f := filter_init <| index := Z.lor FILTER_DST_PORT FILTER_IP_PROTO |> <| dst_port := 80 |>
             <| dst_port_mask := 65535 |> <| ip_proto := 6 |> in
  exists b, filter_core f (payload ex_frame) ex_frame = Ok b /\
    (b = true <-> forall i, Z.testbit (index f) i = true -> i < 16 /\ true = true).
Proof.
  intros f. apply (filter_core_refines f (payload ex_frame) ex_frame ex_headers (fun _ => true));
    [split; [split; [discriminate|reflexivity]|intros H; by destruct H]
    |vm_compute; reflexivity| |reflexivity].
  intros i Hi Ht. assert (exists n, i = Z.of_nat n /\ (n < 16)%nat) as (n & -> & Hn) by (exists (Z.to_nat i); lia).
  do 16 (destruct n as [|n]; [vm_compute in Ht |- *; done|]). lia.
Defined.

Definition ex_ranges : filter :=
  filter_init <| index := FILTER_FRAME_NUM |>
              <| frame_num := [{| lower := 2; upper := 3 |}; {| lower := 5; upper := -1 |}] |>.

Lemma frame_num_exact_witness :
  exists f', filter_run ex_bpf ex_ranges (replicate 6 ex_frame) = Ok (f', [false; true; true; false; true; true]).
Proof.
  apply (frame_num_exact ex_bpf ex_ranges (replicate 6 ex_frame)).
  - done.
  - done.
  - cbn. lia.
  - apply Forall_replicate. exists ex_headers. vm_compute. reflexivity.
  - cbn. lia.
Defined.

Lemma frame_num_adjacent_witness :
  exists f' bs, filter_run ex_bpf
    (filter_init <| index := FILTER_FRAME_NUM |>
                 <| frame_num := [{| lower := 1; upper := 2 |}; {| lower := 3; upper := 4 |}] |>)
    [ex_frame; ex_frame; ex_frame; ex_frame] = Ok (f', bs) /\ bs !! 2%nat = Some false.
Proof.
  destruct (frame_num_adjacent ex_bpf ex_frame ex_frame ex_frame ex_frame) as [f' H].
  - repeat (apply Forall_cons_2; [exists ex_headers; vm_compute; reflexivity|]). constructor.
  - exists f', [true; true; false; true]. split; [exact H|reflexivity].
Defined.

Lemma frame_dt_latch_witness :
  let f := filter_init <| index := FILTER_FRAME_MAX_DT |> <| first := false |>
             <| frame_last_ts := mk_timepico 900 0 |> <| frame_max_dt := mk_timepico 5 0 |> in
  exists f', filter_run ex_bpf f [ex_frame; ex_frame] = Ok (f', [false; false]).
Proof.
  intros f. apply (frame_dt_latch ex_bpf f ex_frame [ex_frame]).
  - vm_compute. repeat split; discriminate.
  - repeat (apply Forall_cons_2; [exists ex_headers; vm_compute; reflexivity|]). constructor.
  - vm_compute. repeat split; discriminate.
  - reflexivity.
  - constructor; [vm_compute; repeat split; discriminate | constructor].
Defined.
