(* ===== verification/FilterPack.v ===== *)
(** * Filters on the wire (src/filter.c, [filter_pack] and [filter_unpack])

    The representation of a filter that a MArCd sends to a measurement point. *)

From S2P Require Import Prelude CLib Picotime Utils Address Packet Filter.

(** [struct filter_packed], integers in network order. *)
Record filter_packed := {
  fp_filter_id : Z;
  fp_index : Z;
  fp_iface : bytes;
  fp_vlan_tci : Z;
  fp_eth_type : Z;
  fp_eth_src : bytes;
  fp_eth_dst : bytes;
  fp_ip_proto : Z;
  fp__ip_src : bytes;
  fp__ip_dst : bytes;
  fp_src_port : Z;
  fp_dst_port : Z;
  fp_vlan_tci_mask : Z;
  fp_eth_type_mask : Z;
  fp_eth_src_mask : bytes;
  fp_eth_dst_mask : bytes;
  fp__ip_src_mask : bytes;
  fp__ip_dst_mask : bytes;
  fp_src_port_mask : Z;
  fp_dst_port_mask : Z;
  fp_consumer : Z;
  fp_caplen : Z;
  fp_dest : stream_addr;
  fp_version : Z;
  fp_starttime : timepico;
  fp_endtime : timepico;
  fp_mampid : bytes;
  fp_ip_src : Z;
  fp_ip_src_mask : Z;
  fp_ip_dst : Z;
  fp_ip_dst_mask : Z;
  fp_port : Z;
  fp_port_mask : Z;
  fp_mode : Z;
}.
#[export] Instance filter_packed_rebuild : Rebuild filter_packed := fun p =>
  {| fp_filter_id := fp_filter_id p; fp_index := fp_index p; fp_iface := fp_iface p;
     fp_vlan_tci := fp_vlan_tci p; fp_eth_type := fp_eth_type p; fp_eth_src := fp_eth_src p;
     fp_eth_dst := fp_eth_dst p; fp_ip_proto := fp_ip_proto p; fp__ip_src := fp__ip_src p;
     fp__ip_dst := fp__ip_dst p; fp_src_port := fp_src_port p; fp_dst_port := fp_dst_port p;
     fp_vlan_tci_mask := fp_vlan_tci_mask p; fp_eth_type_mask := fp_eth_type_mask p;
     fp_eth_src_mask := fp_eth_src_mask p; fp_eth_dst_mask := fp_eth_dst_mask p;
     fp__ip_src_mask := fp__ip_src_mask p; fp__ip_dst_mask := fp__ip_dst_mask p;
     fp_src_port_mask := fp_src_port_mask p; fp_dst_port_mask := fp_dst_port_mask p;
     fp_consumer := fp_consumer p; fp_caplen := fp_caplen p; fp_dest := fp_dest p;
     fp_version := fp_version p; fp_starttime := fp_starttime p; fp_endtime := fp_endtime p;
     fp_mampid := fp_mampid p; fp_ip_src := fp_ip_src p; fp_ip_src_mask := fp_ip_src_mask p;
     fp_ip_dst := fp_ip_dst p; fp_ip_dst_mask := fp_ip_dst_mask p; fp_port := fp_port p;
     fp_port_mask := fp_port_mask p; fp_mode := fp_mode p |}.

(** [memcpy(dst, inet_ntoa(a), 16)]: the C library's buffer holds the text, its
    terminator and, behind it, what earlier calls left there. *)
Definition ntoa16 (stale : bytes) (a : Z) : bytes := take 16 (inet_ntoa a ++ 0 :: stale).

Definition filter_pack (stale : bytes) (src : filter) (dst : filter_packed) : filter_packed :=
  let dst := dst <| fp_filter_id := htonl (filter_id src) |> in
  let dst := dst <| fp_index := htonl (index src) |> in
  let dst := dst <| fp_vlan_tci := htons (vlan_tci src) |> in
  let dst := dst <| fp_eth_type := htons (eth_type src) |> in
  let dst := dst <| fp_ip_proto := ip_proto src |> in
  let dst := dst <| fp_src_port := htons (src_port src) |> in
  let dst := dst <| fp_dst_port := htons (dst_port src) |> in
  let dst := dst <| fp_port := htons (port src) |> in
  let dst := dst <| fp_vlan_tci_mask := htons (vlan_tci_mask src) |> in
  let dst := dst <| fp_eth_type_mask := htons (eth_type_mask src) |> in
  let dst := dst <| fp_src_port_mask := htons (src_port_mask src) |> in
  let dst := dst <| fp_dst_port_mask := htons (dst_port_mask src) |> in
  let dst := dst <| fp_port_mask := htons (port_mask src) |> in
  let dst := dst <| fp_consumer := htonl (consumer src) |> in
  let dst := dst <| fp_caplen := htonl (filter_caplen src) |> in
  let dst := dst <| fp_mode := u8 (mode src) |> in
  let dst := dst <| fp_ip_src := ip_src src |> in
  let dst := dst <| fp_ip_dst := ip_dst src |> in
  let dst := dst <| fp_ip_src_mask := ip_src_mask src |> in
  let dst := dst <| fp_ip_dst_mask := ip_dst_mask src |> in
  let dst := dst <| fp__ip_src := ntoa16 stale (ip_src src) |> in
  let dst := dst <| fp__ip_dst := ntoa16 stale (ip_dst src) |> in
  let dst := dst <| fp__ip_src_mask := ntoa16 stale (ip_src_mask src) |> in
  let dst := dst <| fp__ip_dst_mask := ntoa16 stale (ip_dst_mask src) |> in
  let dst := dst <| fp_iface := iface src |> in
  let dst := dst <| fp_eth_src := eth_src src |> in
  let dst := dst <| fp_eth_dst := eth_dst src |> in
  let dst := dst <| fp_eth_src_mask := eth_src_mask src |> in
  let dst := dst <| fp_eth_dst_mask := eth_dst_mask src |> in
  let dst := dst <| fp_dest := dest src |> in
  dst <| fp_version := htonl 2 |>.

(** [inet_aton(src, &dst)]: the destination is kept when the text is invalid. *)
Definition inet_aton_to (dst : Z) (src : bytes) : res Z :=
  text ← arr_str src;
  Ok (match inet_aton text with Some a => a | None => dst end).

Definition filter_unpack (src : filter_packed) (dst : filter) : res filter :=
  let dst := dst <| filter_id := ntohl (fp_filter_id src) |> in
  let dst := dst <| index := ntohl (fp_index src) |> in
  let dst := dst <| vlan_tci := ntohs (fp_vlan_tci src) |> in
  let dst := dst <| eth_type := ntohs (fp_eth_type src) |> in
  let dst := dst <| ip_proto := fp_ip_proto src |> in
  let dst := dst <| src_port := ntohs (fp_src_port src) |> in
  let dst := dst <| dst_port := ntohs (fp_dst_port src) |> in
  let dst := dst <| vlan_tci_mask := ntohs (fp_vlan_tci_mask src) |> in
  let dst := dst <| eth_type_mask := ntohs (fp_eth_type_mask src) |> in
  let dst := dst <| src_port_mask := ntohs (fp_src_port_mask src) |> in
  let dst := dst <| dst_port_mask := ntohs (fp_dst_port_mask src) |> in
  let dst := dst <| consumer := ntohl (fp_consumer src) |> in
  let dst := dst <| filter_caplen := ntohl (fp_caplen src) |> in
  let version_ := i32 (ntohl (fp_version src)) in
  dst ← (if version_ =? 0 then
           a ← inet_aton_to (ip_src dst) (fp__ip_src src);
           let dst := dst <| ip_src := a |> in
           a ← inet_aton_to (ip_dst dst) (fp__ip_dst src);
           let dst := dst <| ip_dst := a |> in
           a ← inet_aton_to (ip_src_mask dst) (fp__ip_src_mask src);
           let dst := dst <| ip_src_mask := a |> in
           a ← inet_aton_to (ip_dst_mask dst) (fp__ip_dst_mask src);
           Ok (dst <| ip_dst_mask := a |>)
         else
           let dst := dst <| ip_src := fp_ip_src src |> in
           let dst := dst <| ip_dst := fp_ip_dst src |> in
           let dst := dst <| ip_src_mask := fp_ip_src_mask src |> in
           Ok (dst <| ip_dst_mask := fp_ip_dst_mask src |>));
  let dst := if 2 <=? version_ then dst <| mode := fp_mode src |> else dst <| mode := FILTER_AND |> in
  let dst := dst <| iface := fp_iface src |> in
  let dst := dst <| eth_src := fp_eth_src src |> in
  let dst := dst <| eth_dst := fp_eth_dst src |> in
  let dst := dst <| eth_src_mask := fp_eth_src_mask src |> in
  let dst := dst <| eth_dst_mask := fp_eth_dst_mask src |> in
  let dst := dst <| dest := fp_dest src |> in
  let dst := dst <| version := htonl 2 |> in
  Ok (dst <| frame_num := [] |>).

(** The fields have the width of their C types. *)
Record filter_ranges (f : filter) : Prop := {
  r_id : is_u32 (filter_id f); r_index : is_u32 (index f); r_vlan : is_u16 (vlan_tci f);
  r_type : is_u16 (eth_type f); r_sport : is_u16 (src_port f); r_dport : is_u16 (dst_port f);
  r_vlan_mask : is_u16 (vlan_tci_mask f); r_type_mask : is_u16 (eth_type_mask f);
  r_sport_mask : is_u16 (src_port_mask f); r_dport_mask : is_u16 (dst_port_mask f);
  r_consumer : is_u32 (consumer f); r_caplen : is_u32 (filter_caplen f); r_mode : is_u8 (mode f);
  r_src : is_u32 (ip_src f); r_dst : is_u32 (ip_dst f); r_src_mask : is_u32 (ip_src_mask f);
  r_dst_mask : is_u32 (ip_dst_mask f);
}.

(** What of [f] arrives in [dst]. *)
Definition transmitted (f dst : filter) : filter :=
  f <| version := htonl 2 |> <| starttime := starttime dst |> <| endtime := endtime dst |>
    <| mampid := mampid dst |> <| port := port dst |> <| port_mask := port_mask dst |>
    <| frame_max_dt := frame_max_dt dst |> <| frame_num := [] |> <| bpf_prog := bpf_prog dst |>
    <| bpf_expr := bpf_expr dst |> <| first := first dst |> <| frame_counter := frame_counter dst |>
    <| frame_last_ts := frame_last_ts dst |>.

Lemma arr_str_ntoa16 stale a : is_u32 a -> arr_str (ntoa16 stale a) = Ok (inet_ntoa a).
Proof.
  intros Ha. unfold ntoa16. pose proof (length_inet_ntoa a Ha).
  rewrite take_app, take_ge by lia.
  replace (16 - length (inet_ntoa a))%nat with (S (15 - length (inet_ntoa a)))%nat by lia.
  cbn [take]. apply arr_str_nul. eapply Forall_impl; [|apply inet_ntoa_plain, Ha]. intros c Hc. apply Hc.
Qed.
Lemma inet_aton_to_ntoa16 stale d a : is_u32 a -> inet_aton_to d (ntoa16 stale a) = Ok a.
Proof. intros Ha. unfold inet_aton_to. rewrite arr_str_ntoa16 by done. cbn [mbind res_bind]. by rewrite inet_aton_ntoa. Qed.

(** ** Claims *)

(** C20: Packing and unpacking a filter transmits every field of the original
    format, the mode and the binary addresses; the frame ranges are cleared; the
    port criterion, the start and end times, the MAMPid, the maximal inter-arrival
    time, the BPF program and the matcher's own state are those the receiver had. *)
Theorem filter_pack_unpack (stale : bytes) (f dst : filter) (p : filter_packed) :
  filter_ranges f -> filter_unpack (filter_pack stale f p) dst = Ok (transmitted f dst).
Proof.
  intros []. unfold filter_unpack, filter_pack, transmitted. cbn.
  change (i32 (ntohl (htonl 2))) with 2. cbn. unfold htons, htonl.
  rewrite !ntohs_ntohs, !ntohl_ntohl, u8_id by done. done.
Qed.

(** A filter in the legacy format, whose addresses are sent as text, gives
    the same addresses; its mode is AND. *)
Theorem filter_unpack_legacy (stale : bytes) (f dst : filter) (p : filter_packed) :
  filter_ranges f ->
  filter_unpack ((filter_pack stale f p) <| fp_version := 0 |>) dst =
    Ok ((transmitted f dst) <| mode := FILTER_AND |>).
Proof.
  intros []. unfold filter_unpack, filter_pack, transmitted. cbn -[inet_aton_to ntoa16].
  rewrite !inet_aton_to_ntoa16 by done. cbn. unfold htons, htonl.
  rewrite !ntohs_ntohs, !ntohl_ntohl by done. done.
Qed.

(** A filter on either port is not transmitted faithfully: the receiver gets
    the bit of the criterion but neither the port nor its mask, so its filter
    accepts packets that the sender's filter rejects. *)
Theorem filter_pack_loses_port (stale : bytes) (p : filter_packed) :
  let f := filter_init <| index := FILTER_PORT |> <| port := 8080 |> <| port_mask := 65535 |> in
  filter_core f (payload ex_frame) ex_frame = Ok false /\
  exists g, filter_unpack (filter_pack stale f p) filter_init = Ok g /\
    filter_core g (payload ex_frame) ex_frame = Ok true.
Proof.
  intros f. split; [vm_compute; reflexivity|]. eexists. split.
  - unfold filter_unpack, filter_pack, f. cbn. reflexivity.
  - vm_compute. reflexivity.
Qed.

(** ** Witnesses *)
Definition ex_packed : filter_packed :=
  {| fp_filter_id := 0; fp_index := 0; fp_iface := []; fp_vlan_tci := 0; fp_eth_type := 0; fp_eth_src := [];
     fp_eth_dst := []; fp_ip_proto := 0; fp__ip_src := []; fp__ip_dst := []; fp_src_port := 0;
     fp_dst_port := 0; fp_vlan_tci_mask := 0; fp_eth_type_mask := 0; fp_eth_src_mask := [];
     fp_eth_dst_mask := []; fp__ip_src_mask := []; fp__ip_dst_mask := []; fp_src_port_mask := 0;
     fp_dst_port_mask := 0; fp_consumer := 0; fp_caplen := 0; fp_dest := zero_addr; fp_version := 0;
     fp_starttime := mk_timepico 0 0; fp_endtime := mk_timepico 0 0; fp_mampid := []; fp_ip_src := 0;
     fp_ip_src_mask := 0; fp_ip_dst := 0; fp_ip_dst_mask := 0; fp_port := 0; fp_port_mask := 0; fp_mode := 0 |}.
Definition ex_sent : filter :=
  filter_init <| filter_id := 7 |> <| index := FILTER_IP_SRC |> <| ip_src := 16777226 |>
              <| ip_src_mask := 4294967295 |> <| mode := FILTER_OR |>.

Lemma filter_pack_unpack_witness :
  filter_unpack (filter_pack [0; 0] ex_sent ex_packed) filter_init = Ok (transmitted ex_sent filter_init).
Proof.
  apply (filter_pack_unpack [0; 0] ex_sent filter_init ex_packed). constructor; vm_compute; split; done.
Defined.
Lemma filter_unpack_legacy_witness :
  filter_unpack ((filter_pack [0; 0] ex_sent ex_packed) <| fp_version := 0 |>) filter_init
  = Ok ((transmitted ex_sent filter_init) <| mode := FILTER_AND |>).
Proof.
  apply (filter_unpack_legacy [0; 0] ex_sent filter_init ex_packed). constructor; vm_compute; split; done.
Defined.
