(* ===== verification/CreateFilter.v ===== *)
(** * Building filters (src/createfilter.c)

    Filters from command-line arguments and from the setter functions. *)

From Stdlib Require Import String.
From S2P Require Import Prelude CLib Picotime Utils Address Packet Filter.
Local Abbreviation length := List.length.

(** ** Options *)
Definition PARAM_BIT : Z := 2147483648.
Definition PARAM_CAPLEN : Z := 1.
Definition PARAM_MODE : Z := 2.
Definition PARAM_BPF : Z := 3.

Definition options : list (bytes * Z) :=
  [ (B "tp.port", FILTER_PORT); (B "starttime", 4096); (B "begin", 4096); (B "endtime", 2048)
  ; (B "end", 2048); (B "mampid", 1024); (B "mpid", 1024); (B "iface", 512); (B "if", 512)
  ; (B "eth.vlan", 256); (B "eth.type", 128); (B "eth.src", 64); (B "eth.dst", 32)
  ; (B "ip.proto", 16); (B "ip.src", 8); (B "ip.dst", 4); (B "tp.sport", 2); (B "tp.dport", 1)
  ; (B "caplen", Z.lor PARAM_CAPLEN PARAM_BIT); (B "filter-mode", Z.lor PARAM_MODE PARAM_BIT)
  ; (B "frame-max-dt", FILTER_FRAME_MAX_DT); (B "frame-num", FILTER_FRAME_NUM)
  ; (B "bpf", Z.lor PARAM_BPF PARAM_BIT) ].

(** The place of the first '=' behind the first character, or the length. *)
Definition name_end (arg : bytes) : nat :=
  match strchr (drop 1 arg) 61 with Some i => S i | None => length arg end.

(** Whether an argument is one of the options (or a prefix of one). *)
Definition is_consumed (arg : bytes) : bool :=
  (3 <=? length arg)%nat &&
  existsb (fun o => match arg with
                    | 45 :: 45 :: name => strncmp (fst o) name (name_end arg - 2) =? 0
                    | _ => false
                    end) options.

(** [split_argv] without the program name: the arguments that stay and those
    that belong to the filter. *)
Fixpoint split_args (args : list bytes) : list bytes * list bytes :=
  match args with
  | [] => ([], [])
  | arg :: rest =>
      if is_consumed arg then
        if hd0 (drop (name_end arg) arg) =? 61 then
          let '(keep, take) := split_args rest in (keep, arg :: take)
        else match rest with
             | next :: rest' =>
                 if hd0 next =? 45 then let '(keep, take) := split_args rest in (keep, arg :: take)
                 else let '(keep, take) := split_args rest' in (keep, arg :: next :: take)
             | [] => ([], [arg])
             end
      else let '(keep, take) := split_args rest in (arg :: keep, take)
  end.
Definition split_argv (argv : list bytes) : list bytes * list bytes :=
  match argv with
  | [] => ([], [])
  | program :: args => let '(keep, take) := split_args args in (program :: keep, program :: take)
  end.

(** [getopt_long] on arguments that all take a value: exact names first, then
    abbreviations that denote one value only. *)
Inductive getopt_result :=
| GetoptEnd
| GetoptError (rest : list bytes)
| GetoptOption (op : Z) (optarg : bytes) (rest : list bytes).

Definition find_option (name : bytes) : option Z :=
  match list_find (fun o => fst o = name) options with
  | Some (_, o) => Some (snd o)
  | None =>
      match List.filter (fun o => prefixb name (fst o)) options with
      | [] => None
      | o :: others => if forallb (fun o' => snd o' =? snd o) others then Some (snd o) else None
      end
  end.

Fixpoint getopt_long (args : list bytes) : getopt_result :=
  match args with
  | [] => GetoptEnd
  | arg :: rest =>
      match arg with
      | 45 :: 45 :: name =>
          let n := match strchr name 61 with Some i => i | None => length name end in
          match find_option (take n name) with
          | None => GetoptError rest
          | Some op =>
              if (n <? length name)%nat then GetoptOption op (drop (S n) name) rest
              else match rest with
                   | value :: rest => GetoptOption op value rest
                   | [] => GetoptError []
                   end
          end
      | _ => getopt_long rest
      end
  end.

(** ** Parsers: the result, the new value and the new mask *)

(** [value[/mask]] *)
Definition split_mask (str : bytes) : bytes * option bytes :=
  match strchr str 47 with
  | Some i => (take i str, Some (drop (S i) str))
  | None => (str, None)
  end.

(** [while ( bits-- ) mask = (mask >> 1) | (1<<31)] *)
Fixpoint cidr_mask (bits : nat) (mask : Z) : Z :=
  match bits with
  | O => mask
  | S bits => cidr_mask bits (Z.lor (Z.shiftr mask 1) (Z.shiftl 1 31))
  end.

Definition parse_inet_addr (str : bytes) (addr0 mask0 : Z) : bool * Z * Z :=
  let '(buf_addr, m) := split_mask str in
  let buf_mask := match m with Some m => m | None => B "255.255.255.255" end in
  match inet_aton buf_addr with
  | None => (false, addr0, mask0)
  | Some addr =>
      let bits := u32 (atoi buf_mask) in
      if bool_decide (strchr buf_mask 46 = None) && (bits <=? 32) then
        let mask := htonl (cidr_mask (Z.to_nat bits) 0) in
        (true, Z.land addr mask, mask)
      else match inet_aton buf_mask with
           | None => (false, addr, mask0)
           | Some mask => (true, Z.land addr mask, mask)
           end
  end.

(** A 16-bit mask in decimal or, behind 0x, in hexadecimal. *)
Definition parse_mask16 (m : option bytes) : Z :=
  match m with
  | None => 0xFFFF
  | Some tmp =>
      if strncasecmp tmp (B "0x") 2 =? 0 then u16 (strtol (drop 2 tmp) 16) else u16 (strtol tmp 10)
  end.

Section Parsers.
(** The system's databases of services ([s_port], in network order) and of
    protocols, the calendar functions and the BPF compiler. *)
Variable getservbyname : bytes -> option Z.
Variable getprotobyname : bytes -> option Z.
Context {tm : Type}.
Variable strptime : bytes -> string -> option (tm * bytes).
Variable mktime : tm -> Z.
Variable pcap_compile : bytes -> option (list bpf_insn).

Definition parse_port (optarg : bytes) (port0 : Z) : bool * Z * Z :=
  let '(src, m) := split_mask optarg in
  let mask := parse_mask16 m in
  match getservbyname src with
  | Some s_port => (true, Z.land (ntohs s_port) mask, mask)
  | None =>
      if isdigit (hd0 src) then (true, Z.land (u16 (atoi src)) mask, mask)
      else (false, port0, mask)
  end.

(** [sscanf(src, "%hi/%hi", ...)]; at the end of the input before the first
    number it returns -1, which is not the value tested for. *)
Definition parse_vlan (src : bytes) (tci0 : Z) : bool * Z * Z :=
  match skip_space src with
  | [] => (true, tci0, 0xFFFF)
  | _ =>
      match scan_int true src with
      | None => (false, tci0, 0xFFFF)
      | Some (tci, rest) =>
          match rest with
          | 47 :: rest =>
              match scan_int true rest with
              | Some (mask, _) => (true, u16 tci, u16 mask)
              | None => (true, u16 tci, 0xFFFF)
              end
          | _ => (true, u16 tci, 0xFFFF)
          end
      end
  end.

Definition parse_eth_type (src_orig : bytes) (type0 : Z) : bool * Z * Z :=
  let '(src, m) := split_mask src_orig in
  let mask := parse_mask16 m in
  match ethertype_by_name src with
  | Some e => (true, Z.land (snd e) mask, mask)
  | None =>
      match skip_space src with
      | [] => (true, Z.land type0 mask, mask)
      | _ => match scan_int false src with
             | None => (false, type0, mask)
             | Some (v, _) => (true, Z.land (u16 v) mask, mask)
             end
      end
  end.

Definition parse_eth_addr (str : bytes) (addr0 mask0 : bytes) : bool * bytes * bytes :=
  let '(buf_addr, m) := split_mask str in
  let buf_mask := match m with Some m => m | None => B "FF:FF:FF:FF:FF:FF" end in
  match eth_aton addr0 buf_addr with
  | (_, false) => (false, addr0, mask0)
  | (addr, true) =>
      match eth_aton mask0 buf_mask with
      | (_, false) => (false, addr, mask0)
      | (mask, true) => (true, zip_with Z.land addr mask, mask)
      end
  end.

Definition parse_ip_proto (src : bytes) (proto0 : Z) : bool * Z :=
  match getprotobyname src with
  | Some p => (true, u8 p)
  | None => if isdigit (hd0 src) then (true, u8 (atoi src)) else (false, proto0)
  end.

(** [strtok_r(buf, ",", ...)]: the non-empty pieces between commas. *)
Fixpoint comma_tokens (s cur : bytes) : list bytes :=
  match s with
  | [] => match cur with [] => [] | _ => [cur] end
  | c :: s => if c =? 44 then match cur with [] => comma_tokens s [] | _ => cur :: comma_tokens s [] end
              else comma_tokens s (cur ++ [c])
  end.

Definition parse_range (range : bytes) : option frame_num_node :=
  match strchr range 45 with
  | None => Some {| lower := atoi range; upper := atoi range |}
  | Some _ =>
      match scan_int false range with
      | None => None
      | Some (l, rest) =>
          let l := i32 l in
          match match rest with 45 :: rest => scan_int false rest | _ => None end with
          | Some (u, _) => Some {| lower := l; upper := i32 u |}
          | None => if l <? 0 then Some {| lower := -1; upper := i32 (- l) |} else Some {| lower := l; upper := -1 |}
          end
      end
  end.

(** The list is stored from [filter->frame_num] on; with no valid range the
    field keeps its value. *)
Definition parse_frame_range (arg : bytes) (f : filter) : filter :=
  match omap parse_range (comma_tokens arg []) with
  | [] => f
  | nodes => f <| frame_num := nodes |>
  end.

(** The previous program and expression are released first; the pointers to them
    are replaced only when the new expression compiles. *)
Definition bpf_set (f : filter) (expr : bytes) : filter * Z :=
  let f := f <| bpf_prog := release (bpf_prog f) |> <| bpf_expr := release (bpf_expr f) |> in
  match pcap_compile expr with
  | None => (f, EINVAL)
  | Some prg => let f := f <| bpf_prog := Live prg |> in (f <| bpf_expr := Live expr |>, 0)
  end.

(** ** One option *)
Definition set_flag (f : filter) (bit : Z) : filter := f <| index := Z.lor (index f) bit |>.

Definition apply_param (f : filter) (param : Z) (optarg : bytes) : filter * Z :=
  if param =? PARAM_CAPLEN then (f <| filter_caplen := u32 (atoi optarg) |>, 0)
  else if param =? PARAM_MODE then
    if strcasecmp optarg (B "and") =? 0 then (f <| mode := FILTER_AND |>, 0)
    else if strcasecmp optarg (B "or") =? 0 then (f <| mode := FILTER_OR |>, 0)
    else (f, 0)
  else if param =? PARAM_BPF then bpf_set f optarg
  else (f, 0).

(** The new field values; the bit of the index is set when the text is valid. *)
Definition apply_criterion (f : filter) (bitmask : Z) (optarg : bytes) : filter :=
  let done_ (ok : bool) (f : filter) := if ok then set_flag f bitmask else f in
  let time := timepico_from_string strptime mktime optarg in
  if bitmask =? FILTER_PORT then
    let '(ok, p, m) := parse_port optarg (port f) in done_ ok (f <| port := p |> <| port_mask := m |>)
  else if bitmask =? FILTER_START_TIME then done_ (fst time =? 0) (f <| starttime := snd time |>)
  else if bitmask =? FILTER_END_TIME then done_ (fst time =? 0) (f <| endtime := snd time |>)
  else if bitmask =? FILTER_MAMPID then done_ true (f <| mampid := strncpy optarg 8 |>)
  else if bitmask =? FILTER_CI then done_ true (f <| iface := strncpy optarg 8 |>)
  else if bitmask =? FILTER_VLAN then
    let '(ok, v, m) := parse_vlan optarg (vlan_tci f) in done_ ok (f <| vlan_tci := v |> <| vlan_tci_mask := m |>)
  else if bitmask =? FILTER_ETH_TYPE then
    let '(ok, v, m) := parse_eth_type optarg (eth_type f) in done_ ok (f <| eth_type := v |> <| eth_type_mask := m |>)
  else if bitmask =? FILTER_ETH_SRC then
    let '(ok, v, m) := parse_eth_addr optarg (eth_src f) (eth_src_mask f) in
    done_ ok (f <| eth_src := v |> <| eth_src_mask := m |>)
  else if bitmask =? FILTER_ETH_DST then
    let '(ok, v, m) := parse_eth_addr optarg (eth_dst f) (eth_dst_mask f) in
    done_ ok (f <| eth_dst := v |> <| eth_dst_mask := m |>)
  else if bitmask =? FILTER_IP_PROTO then
    let '(ok, v) := parse_ip_proto optarg (ip_proto f) in done_ ok (f <| ip_proto := v |>)
  else if bitmask =? FILTER_IP_SRC then
    let '(ok, v, m) := parse_inet_addr optarg (ip_src f) (ip_src_mask f) in
    done_ ok (f <| ip_src := v |> <| ip_src_mask := m |>)
  else if bitmask =? FILTER_IP_DST then
    let '(ok, v, m) := parse_inet_addr optarg (ip_dst f) (ip_dst_mask f) in
    done_ ok (f <| ip_dst := v |> <| ip_dst_mask := m |>)
  else if bitmask =? FILTER_SRC_PORT then
    let '(ok, p, m) := parse_port optarg (src_port f) in done_ ok (f <| src_port := p |> <| src_port_mask := m |>)
  else if bitmask =? FILTER_DST_PORT then
    let '(ok, p, m) := parse_port optarg (dst_port f) in done_ ok (f <| dst_port := p |> <| dst_port_mask := m |>)
  else if bitmask =? FILTER_FRAME_MAX_DT then done_ (fst time =? 0) (f <| frame_max_dt := snd time |>)
  else if bitmask =? FILTER_FRAME_NUM then done_ true (parse_frame_range optarg f)
  else done_ true f.

Definition apply_option (f : filter) (op : Z) (optarg : bytes) : filter * Z :=
  if has_flag op PARAM_BIT then apply_param f (Z.lxor op PARAM_BIT) optarg
  else (apply_criterion f op optarg, 0).

(** The loop of [filter_from_argv]; an option uses up an argument, so their
    number bounds it. *)
Fixpoint option_loop (fuel : nat) (args : list bytes) (f : filter) : res (filter * Z) :=
  match fuel with
  | O => OutOfFuel
  | S fuel =>
      match getopt_long args with
      | GetoptEnd => Ok (f, 0)
      | GetoptError _ => Ok (f, 1)
      | GetoptOption op optarg rest =>
          let '(f, ret) := apply_option f op optarg in
          if ret =? 0 then option_loop fuel rest f else Ok (f, ret)
      end
  end.

(** The arguments left over, the filter and the return value. *)
Definition filter_from_argv (argv : list bytes) : res (list bytes * filter * Z) :=
  match argv with
  | [] => Ok ([], filter_init, 0)
  | _ =>
      let '(keep, take) := split_argv argv in
      '(f, ret) ← option_loop (S (length take)) (drop 1 take) filter_init;
      Ok (keep, f, ret)
  end.

(** ** Setters *)
Definition filter_ci_set (f : filter) (str : bytes) : filter :=
  let f := set_flag f FILTER_CI in f <| iface := strncpy str 8 |>.
Definition filter_vlan_set (f : filter) (str : bytes) : filter :=
  let f := set_flag f FILTER_VLAN in
  let '(_, v, m) := parse_vlan str (vlan_tci f) in f <| vlan_tci := v |> <| vlan_tci_mask := m |>.
Definition filter_eth_type_set (f : filter) (str : bytes) : filter :=
  let f := set_flag f FILTER_ETH_TYPE in
  let '(_, v, m) := parse_eth_type str (eth_type f) in f <| eth_type := v |> <| eth_type_mask := m |>.
Definition filter_eth_src_set (f : filter) (str : bytes) : filter :=
  let f := set_flag f FILTER_ETH_SRC in
  let '(_, v, m) := parse_eth_addr str (eth_src f) (eth_src_mask f) in f <| eth_src := v |> <| eth_src_mask := m |>.
Definition filter_eth_dst_set (f : filter) (str : bytes) : filter :=
  let f := set_flag f FILTER_ETH_DST in
  let '(_, v, m) := parse_eth_addr str (eth_dst f) (eth_dst_mask f) in f <| eth_dst := v |> <| eth_dst_mask := m |>.
Definition filter_ip_proto_set (f : filter) (proto : Z) : filter :=
  let f := set_flag f FILTER_IP_PROTO in f <| ip_proto := u8 proto |>.
Definition filter_ip_proto_aton (f : filter) (str : bytes) : filter :=
  let f := set_flag f FILTER_IP_PROTO in
  let '(_, v) := parse_ip_proto str (ip_proto f) in f <| ip_proto := v |>.
Definition filter_src_port_set (f : filter) (p mask : Z) : filter :=
  let f := set_flag f FILTER_SRC_PORT in f <| src_port := Z.land p mask |> <| src_port_mask := mask |>.
Definition filter_dst_port_set (f : filter) (p mask : Z) : filter :=
  let f := set_flag f FILTER_DST_PORT in f <| dst_port := Z.land p mask |> <| dst_port_mask := mask |>.
Definition filter_tp_port_set (f : filter) (p mask : Z) : filter :=
  let f := set_flag f FILTER_PORT in f <| port := Z.land p mask |> <| port_mask := mask |>.
Definition filter_src_ip_set (f : filter) (ip mask : Z) : filter :=
  let f := set_flag f FILTER_IP_SRC in f <| ip_src := Z.land ip mask |> <| ip_src_mask := mask |>.
Definition filter_dst_ip_set (f : filter) (ip mask : Z) : filter :=
  let f := set_flag f FILTER_IP_DST in f <| ip_dst := Z.land ip mask |> <| ip_dst_mask := mask |>.
Definition filter_src_ip_aton (f : filter) (str : bytes) : filter :=
  let f := set_flag f FILTER_IP_SRC in
  let '(_, v, m) := parse_inet_addr str (ip_src f) (ip_src_mask f) in f <| ip_src := v |> <| ip_src_mask := m |>.
Definition filter_dst_ip_aton (f : filter) (str : bytes) : filter :=
  let f := set_flag f FILTER_IP_DST in
  let '(_, v, m) := parse_inet_addr str (ip_dst f) (ip_dst_mask f) in f <| ip_dst := v |> <| ip_dst_mask := m |>.
Definition filter_mampid_set (f : filter) (m : bytes) : filter :=
  let f := set_flag f FILTER_MAMPID in f <| mampid := strncpy m 8 |>.
Definition filter_starttime_set (f : filter) (t : timepico) : filter :=
  let f := set_flag f FILTER_START_TIME in f <| starttime := t |>.
Definition filter_endtime_set (f : filter) (t : timepico) : filter :=
  let f := set_flag f FILTER_END_TIME in f <| endtime := t |>.
Definition filter_frame_dt_set (f : filter) (t : timepico) : filter :=
  let f := set_flag f FILTER_FRAME_MAX_DT in f <| frame_max_dt := t |>.
Definition filter_frame_num_set (f : filter) (str : bytes) : filter :=
  let f := set_flag f FILTER_FRAME_NUM in parse_frame_range str f.

(** The ranges are released but the pointer to them is kept. *)
Definition filter_close (f : filter) : filter := f <| bpf_prog := Null |> <| bpf_expr := Null |>.
End Parsers.

(** ** Masks *)
Lemma land_split a0 b0 r s :
  is_u8 a0 -> is_u8 b0 -> Z.land (a0 + 256 * r) (b0 + 256 * s) = Z.land a0 b0 + 256 * Z.land r s.
Proof.
  intros Ha Hb. ints.
  assert (Hx : forall c t, 0 <= c < 256 -> Z.land (c + 256 * t) (Z.ones 8) = c /\ Z.shiftr (c + 256 * t) 8 = t).
  { intros c t Hc. rewrite Z.land_ones, Z.shiftr_div_pow2 by lia. change (2 ^ 8) with 256.
    split; Z.div_mod_to_equations; lia. }
  destruct (Hx a0 r Ha) as [A1 A2], (Hx b0 s Hb) as [B1 B2].
  set (x := a0 + 256 * r) in *. set (y := b0 + 256 * s) in *.
  assert (E : Z.land x y = Z.land (Z.land x y) (Z.ones 8) + 256 * Z.shiftr (Z.land x y) 8).
  { rewrite Z.land_ones, Z.shiftr_div_pow2 by lia. change (2 ^ 8) with 256. Z.div_mod_to_equations; lia. }
  rewrite E, Z.shiftr_land, A2, B2. f_equal. rewrite <- A1, <- B1 at 1.
  apply Z.bits_inj'. intros i Hi. rewrite !Z.land_spec.
  destruct (Z.testbit x i), (Z.testbit y i), (Z.testbit (Z.ones 8) i); done.
Qed.

Lemma land_u8 a b : is_u8 a -> is_u8 b -> is_u8 (Z.land a b).
Proof.
  intros Ha Hb. ints. split; [apply Z.land_nonneg; lia|].
  assert (E : Z.land a b = Z.land (Z.land a b) (Z.ones 8)).
  { rewrite <- Z.land_assoc, (Z.land_ones b 8), Z.mod_small by (change (2 ^ 8) with 256; lia). done. }
  rewrite E, Z.land_ones by lia. change (2 ^ 8) with 256. apply Z.mod_pos_bound. lia.
Qed.

(** Masking commutes with the change of byte order. *)
Lemma ntohl_land x y : is_u32 x -> is_u32 y -> ntohl (Z.land x y) = Z.land (ntohl x) (ntohl y).
Proof.
  intros Hx Hy. destruct (u32_bytes x Hx) as (a & b & c & d & Ha & Hb & Hc & Hd & ->).
  destruct (u32_bytes y Hy) as (a' & b' & c' & d' & Ha' & Hb' & Hc' & Hd' & ->).
  assert (E : forall a b c d a' b' c' d', is_u8 a -> is_u8 b -> is_u8 c -> is_u8 d ->
    is_u8 a' -> is_u8 b' -> is_u8 c' -> is_u8 d' ->
    Z.land (a + 256 * b + 65536 * c + 16777216 * d) (a' + 256 * b' + 65536 * c' + 16777216 * d') =
    Z.land a a' + 256 * Z.land b b' + 65536 * Z.land c c' + 16777216 * Z.land d d').
  { clear. intros.
    replace (a + 256 * b + 65536 * c + 16777216 * d) with (a + 256 * (b + 256 * (c + 256 * d))) by lia.
    replace (a' + 256 * b' + 65536 * c' + 16777216 * d') with (a' + 256 * (b' + 256 * (c' + 256 * d'))) by lia.
    rewrite !land_split by done. lia. }
  rewrite E, !ntohl_bytes by (done || by apply land_u8). rewrite (E d c b a d' c' b' a') by done. lia.
Qed.

Lemma u32_land x y : is_u32 x -> is_u32 y -> is_u32 (Z.land x y).
Proof.
  intros Hx Hy. ints. split; [apply Z.land_nonneg; lia|].
  assert (E : Z.land x y = Z.land (Z.land x y) (Z.ones 32)).
  { rewrite <- Z.land_assoc, (Z.land_ones y 32), Z.mod_small by (change (2 ^ 32) with 4294967296; lia). done. }
  rewrite E, Z.land_ones by lia. change (2 ^ 32) with 4294967296. apply Z.mod_pos_bound. lia.
Qed.

(** The mask of [n] leading ones, in host order. *)
Definition prefix_mask (n : Z) : Z := 2 ^ 32 - 2 ^ (32 - n).

Lemma cidr_mask_prefix n : (n <= 32)%nat -> cidr_mask n 0 = prefix_mask (Z.of_nat n).
Proof. intros Hn. do 33 (destruct n as [|n]; [reflexivity|]). lia. Qed.

Lemma prefix_mask_u32 n : 0 <= n <= 32 -> is_u32 (prefix_mask n).
Proof.
  intros Hn. unfold prefix_mask. ints. change (2 ^ 32) with 4294967296.
  pose proof (Z.pow_pos_nonneg 2 (32 - n)). pose proof (Z.pow_le_mono_r 2 (32 - n) 32).
  change (2 ^ 32) with 4294967296 in *. lia.
Qed.

Lemma land_prefix x n :
  is_u32 x -> 0 <= n <= 32 -> Z.land x (prefix_mask n) = (x / 2 ^ (32 - n)) * 2 ^ (32 - n).
Proof.
  intros Hx Hn. set (k := 32 - n). assert (Hk : 0 <= k) by lia.
  assert (E : prefix_mask n = Z.shiftl (Z.ones n) k).
  { unfold prefix_mask. rewrite Z.shiftl_mul_pow2, Z.ones_equiv by lia. fold k.
    replace 32 with (n + k) by lia. rewrite Z.pow_add_r by lia. lia. }
  rewrite E, <- Z.shiftl_mul_pow2, <- Z.shiftr_div_pow2 by lia.
  assert (Hsm : Z.shiftr x k = Z.land (Z.shiftr x k) (Z.ones n)).
  { rewrite Z.land_ones, Z.mod_small; [done| |lia]. rewrite Z.shiftr_div_pow2 by lia.
    ints. split; [apply Z.div_pos; lia|]. apply Z.div_lt_upper_bound; [lia|].
    rewrite <- Z.pow_add_r by lia. replace (k + n) with 32 by lia. apply Hx. }
  apply Z.bits_inj'. intros i Hi. rewrite Z.land_spec, !Z.shiftl_spec by done.
  destruct (Z.lt_ge_cases i k); [by rewrite !(Z.testbit_neg_r _ (i - k)), andb_false_r by lia|].
  rewrite Hsm, Z.land_spec, Z.shiftr_spec by lia. by replace (i - k + k) with i by lia.
Qed.

Lemma prefix_match x a n :
  is_u32 x -> is_u32 a -> 0 <= n <= 32 ->
  Z.land x (htonl (prefix_mask n)) = Z.land a (htonl (prefix_mask n)) <->
  ntohl x / 2 ^ (32 - n) = ntohl a / 2 ^ (32 - n).
Proof.
  intros Hx Ha Hn. pose proof (prefix_mask_u32 n Hn) as HM.
  assert (HN : is_u32 (htonl (prefix_mask n))) by apply ntohl_range.
  assert (H2 : 0 < 2 ^ (32 - n)) by (apply Z.pow_pos_nonneg; lia).
  assert (Hl : forall y, is_u32 y -> ntohl (Z.land y (htonl (prefix_mask n))) = ntohl y / 2 ^ (32 - n) * 2 ^ (32 - n)).
  { intros y Hy. rewrite ntohl_land by done. unfold htonl. rewrite ntohl_ntohl by done.
    apply land_prefix; [apply ntohl_range | done]. }
  split.
  - intros E. apply (f_equal ntohl) in E. rewrite !Hl in E by done. nia.
  - intros E. rewrite <- (ntohl_ntohl (Z.land x _)), <- (ntohl_ntohl (Z.land a _)) by (by apply u32_land).
    by rewrite !Hl, E by done.
Qed.

Lemma inet_ntoa_no_slash a : is_u32 a -> Forall (fun c => c <> 47) (inet_ntoa a).
Proof.
  intros Ha. unfold inet_ntoa. ints.
  assert (Hd : forall n, 0 <= n -> Forall (fun c => c <> 47) (dec n)).
  { intros n Hn. eapply Forall_impl; [|by apply dec_digits]. intros c H%isdigit_cases.
    repeat (apply elem_of_cons in H as [->|H]; [done|]). by apply elem_of_nil in H. }
  repeat (apply Forall_app; split); try (repeat constructor; done);
    apply Hd; Z.div_mod_to_equations; lia.
Qed.

(** ** Frame ranges *)
Lemma comma_tokens_plain t s cur :
  Forall (fun c => c <> 44) t -> comma_tokens (t ++ s) cur = comma_tokens s (cur ++ t).
Proof.
  intros Ht. revert cur. induction Ht as [|c t Hc _ IH]; intros cur; [by rewrite app_nil_r|].
  cbn. destruct (Z.eqb_spec c 44); [done|]. rewrite IH. by rewrite <- (assoc_L (++)).
Qed.
Lemma comma_tokens_joined ts :
  Forall (fun t => Forall (fun c => c <> 44) t /\ t <> []) ts -> comma_tokens (joined 44 ts) [] = ts.
Proof.
  induction 1 as [|t ts [Ht Hne] Hts IH]; [done|]. destruct ts as [|u ts].
  - cbn [joined]. rewrite <- (app_nil_r t) at 1. rewrite comma_tokens_plain by done. by destruct t.
  - change (joined 44 (t :: u :: ts)) with (t ++ 44 :: joined 44 (u :: ts)).
    rewrite comma_tokens_plain by done. cbn [app comma_tokens]. cbn [Z.eqb Pos.eqb]. rewrite IH. by destruct t.
Qed.

Lemma scan_int_digits c s : isdigit c = true ->
  scan_int false (c :: s) = Some (clamp64 (fst (scan_digits 10 0 (c :: s))), snd (scan_digits 10 0 (c :: s))) /\
  scan_int false (45 :: c :: s) = Some (clamp64 (- fst (scan_digits 10 0 (c :: s))), snd (scan_digits 10 0 (c :: s))).
Proof.
  intros Hc. assert (Hc' := Hc). apply isdigit_cases in Hc'.
  assert (Hsp : forall c', isspace c' = false -> skip_space (c' :: c :: s) = c' :: c :: s) by (intros c' H; cbn; by rewrite H).
  split.
  - unfold scan_int.
    assert (E : skip_space (c :: s) = c :: s /\
      (match c :: s with 45 :: s' => (-1, s') | 43 :: s' => (1, s') | _ => (1, c :: s) end) = (1, c :: s)).
    { repeat (apply elem_of_cons in Hc' as [->|Hc']; [done|]). by apply elem_of_nil in Hc'. }
    destruct E as [-> ->]. rewrite Hc. destruct (scan_digits 10 0 (c :: s)) as [v r]. by rewrite Z.mul_1_l.
  - unfold scan_int. rewrite Hsp by done. rewrite Hc. destruct (scan_digits 10 0 (c :: s)) as [v r].
    by replace (-1 * v) with (- v) by lia.
Qed.

Lemma scan_digits_dec n rest :
  0 <= n < 2147483648 -> match rest with c :: _ => digit_val c = 99 | [] => True end ->
  scan_digits 10 0 (dec n ++ rest) = (n, rest).
Proof.
  intros Hn Hr. unfold dec. rewrite (proj2 (Z.ltb_ge _ _)) by lia. rewrite <- dec_aux_app.
  destruct (scan_dec_aux 20 n) as (k & _ & ->); [cbn; lia|].
  destruct rest as [|c rest]; cbn; [f_equal; lia|]. rewrite Hr. cbn. f_equal; lia.
Qed.

Lemma scan_int_dec n rest :
  0 <= n < 2147483648 -> match rest with c :: _ => digit_val c = 99 | [] => True end ->
  scan_int false (dec n ++ rest) = Some (n, rest) /\ scan_int false (45 :: dec n ++ rest) = Some (- n, rest).
Proof.
  intros Hn Hr. pose proof (scan_digits_dec n rest Hn Hr) as Hs.
  pose proof (dec_digits n ltac:(lia)) as Hd. pose proof (dec_nonempty n ltac:(lia)) as Hne.
  destruct (dec n) as [|c s]; [done|]. cbn [app] in *.
  destruct (scan_int_digits c (s ++ rest) (Forall_inv Hd)) as [-> ->]. rewrite Hs. cbn [fst snd].
  unfold clamp64. split; do 2 f_equal; lia.
Qed.

(** The text of a range in the four forms of the documentation. *)
Definition range_text (r : frame_num_node) : bytes :=
  if upper r =? -1 then dec (lower r) ++ B "-"
  else if lower r =? -1 then B "-" ++ dec (upper r)
  else if lower r =? upper r then dec (lower r)
  else dec (lower r) ++ B "-" ++ dec (upper r).
Definition range_ok (r : frame_num_node) : Prop :=
  lower r < 2147483648 /\ upper r < 2147483648 /\
  ((0 <= lower r /\ (upper r = -1 \/ 0 <= upper r)) \/ (lower r = -1 /\ 0 < upper r)).

Lemma digits_chars n c : 0 <= n -> isdigit c = false -> Forall (fun x => x <> c) (dec n).
Proof. intros Hn Hc. eapply Forall_impl; [|by apply dec_digits]. intros x Hx ->. congruence. Qed.

Lemma parse_range_text r : range_ok r -> parse_range (range_text r) = Some r.
Proof.
  destruct r as [l u]. intros (Hl & Hu & H). cbn [lower upper] in *. unfold range_text, parse_range. cbn [lower upper].
  change (B "-") with [45].
  destruct (Z.eqb_spec u (-1)) as [->|]; [|destruct (Z.eqb_spec l (-1)) as [->|]; [|destruct (Z.eqb_spec l u) as [->|]]].
  - rewrite strchr_first by (apply digits_chars; done || lia).
    destruct (scan_int_dec l [45]) as [-> _]; [lia|done|]. rewrite i32_id by lia.
    cbn. by rewrite (proj2 (Z.ltb_ge _ _)) by lia.
  - cbn [app strchr]. cbn [Z.eqb Pos.eqb].
    destruct (scan_int_dec u []) as [_ E]; [lia|done|]. rewrite app_nil_r in E. rewrite E, i32_id by lia.
    cbn -[i32]. rewrite (proj2 (Z.ltb_lt _ _)) by lia. by rewrite Z.opp_involutive, i32_id by lia.
  - rewrite strchr_none by (apply digits_chars; done || lia). by rewrite atoi_dec by lia.
  - cbn [app]. rewrite strchr_first by (apply digits_chars; done || lia).
    destruct (scan_int_dec l (45 :: dec u)) as [-> _]; [lia|done|].
    destruct (scan_int_dec u []) as [E _]; [lia|done|]. rewrite app_nil_r in E. rewrite E.
    by rewrite !i32_id by lia.
Qed.

Lemma range_text_token r : range_ok r -> Forall (fun c => c <> 44) (range_text r) /\ range_text r <> [].
Proof.
  intros (Hl & Hu & H). unfold range_text. change (B "-") with [45].
  destruct (Z.eqb_spec (upper r) (-1)); [|destruct (Z.eqb_spec (lower r) (-1)); [|destruct (Z.eqb_spec (lower r) (upper r))]].
  all: split; [repeat (apply Forall_app; split); try (repeat constructor; done); apply digits_chars; done || lia|].
  - intros E%app_eq_nil. by destruct E.
  - done.
  - apply dec_nonempty. lia.
  - intros E%app_eq_nil. destruct E as [E _]. by apply dec_nonempty in E; [|lia].
Qed.

(** ** Splitting the arguments *)

(** A command line as its user means it: arguments of the program, and options of
    the filter under their full names with a value behind [=] or as the next
    argument. *)
Inductive segment :=
| Other (arg : bytes)
| Joined (name value : bytes)
| Separate (name value : bytes).
Definition segment_args (s : segment) : list bytes :=
  match s with
  | Other arg => [arg]
  | Joined name value => [B "--" ++ name ++ B "=" ++ value]
  | Separate name value => [B "--" ++ name; value]
  end.
Definition segment_ok (s : segment) : Prop :=
  match s with
  | Other arg => is_consumed arg = false
  | Joined name _ => In name (map fst options)
  | Separate name value => In name (map fst options) /\ hd0 value <> 45
  end.
Definition command_line (segs : list segment) : list bytes := concat (map segment_args segs).

(** What of it stays, and what is set in the filter. *)
Definition kept_args (segs : list segment) : list bytes := concat (map (fun s => match s with Other arg => [arg] | _ => [] end) segs).
Definition taken_args (segs : list segment) : list bytes := concat (map (fun s => match s with Other _ => [] | _ => segment_args s end) segs).
Definition option_code (name : bytes) : Z :=
  match List.find (fun o => bool_decide (fst o = name)) options with Some o => snd o | None => 0 end.
Definition given_options (segs : list segment) : list (Z * bytes) :=
  concat (map (fun s => match s with Other _ => [] | Joined name value | Separate name value => [(option_code name, value)] end) segs).

Lemma joined_arg name value : In name (map fst options) ->
  let arg := B "--" ++ name ++ B "=" ++ value in
  is_consumed arg = true /\ (hd0 (drop (name_end arg) arg) =? 61) = true /\
  forall rest, getopt_long (arg :: rest) = GetoptOption (option_code name) value rest.
Proof. intros H. repeat (destruct H as [<-|H]; [vm_compute; done|]). destruct H. Qed.
Lemma separate_arg name : In name (map fst options) ->
  let arg := B "--" ++ name in
  is_consumed arg = true /\ (hd0 (drop (name_end arg) arg) =? 61) = false /\
  forall value rest, getopt_long (arg :: value :: rest) = GetoptOption (option_code name) value rest.
Proof. intros H. repeat (destruct H as [<-|H]; [vm_compute; done|]). destruct H. Qed.

Lemma split_segments segs : Forall segment_ok segs -> split_args (command_line segs) = (kept_args segs, taken_args segs).
Proof.
  unfold command_line, kept_args, taken_args.
  induction 1 as [|s segs Hs _ IH]; [done|]. cbn [map concat]. destruct s as [arg|name value|name value]; cbn [segment_args segment_ok app] in *.
  - cbn [split_args]. by rewrite Hs, IH.
  - destruct (joined_arg name value Hs) as (H1 & H2 & _). cbv zeta in H1, H2. cbn [split_args]. by rewrite H1, H2, IH.
  - destruct Hs as [Hn Hv]. destruct (separate_arg name Hn) as (H1 & H2 & _). cbv zeta in H1, H2. cbn [split_args].
    by rewrite H1, H2, (proj2 (Z.eqb_neq _ _) Hv), IH.
Qed.

(** ** The option loop *)
Lemma getopt_long_shorter args op v rest :
  getopt_long args = GetoptOption op v rest -> (length rest < length args)%nat /\ exists n, find_option n = Some op.
Proof.
  induction args as [|arg args IH]; [done|]. cbn [getopt_long].
  assert (Hskip : getopt_long args = GetoptOption op v rest ->
    (length rest < length (arg :: args))%nat /\ exists n, find_option n = Some op).
  { intros [H1 H2]%IH. split; [cbn; lia | done]. }
  destruct arg as [|c1 [|c2 name]]; try exact Hskip.
  all: repeat (match goal with |- (match ?c with _ => _ end) = _ -> _ => is_var c; destruct c end; try exact Hskip).
  cbv zeta. destruct (find_option _) as [op'|] eqn:E; [|done]. destruct (_ <? _)%nat.
  - intros [= -> <- <-]. split; [cbn; lia | eauto].
  - destruct args as [|value args]; [done|]. intros [= -> <- <-]. split; [cbn; lia | eauto].
Qed.

Lemma find_option_In name op : find_option name = Some op -> In op (map snd options).
Proof.
  unfold find_option. destruct (list_find _ options) as [[i o]|] eqn:E.
  - intros [= <-]. apply list_find_Some in E as (H & _ & _). apply in_map. eapply list_elem_of_In, list_elem_of_lookup_2, H.
  - clear E. intros H.
    assert (Hf : forall o, In o (List.filter (fun o => prefixb name (fst o)) options) -> In o options)
      by (intros o ?%filter_In; tauto).
    destruct (List.filter _ options) as [|o others]; [done|]. destruct (forallb _ others); [|done].
    injection H as <-. apply in_map, Hf. by left.
Qed.

(** What every filter made from arguments satisfies. *)
Definition made (f : filter) : Prop :=
  0 <= index f < 65536 /\ (frame_num f <> [] -> Z.testbit (index f) 15 = true) /\
  (mode f = FILTER_AND \/ mode f = FILTER_OR) /\ first f = true /\ frame_counter f = 1.

Lemma lor_bound a b : 0 <= a < 65536 -> 0 <= b < 65536 -> 0 <= Z.lor a b < 65536.
Proof.
  intros Ha Hb. assert (0 <= Z.lor a b) by (apply Z.lor_nonneg; lia). split; [done|].
  assert (Hlog : forall x, 0 <= x < 65536 -> Z.log2 x < 16).
  { intros x Hx. destruct (Z.eq_dec x 0) as [->|]; [done|]. apply Z.log2_lt_pow2; lia. }
  destruct (Z.eq_dec (Z.lor a b) 0) as [->|]; [lia|].
  apply (Z.log2_lt_pow2 _ 16); [lia|]. rewrite Z.log2_lor by lia.
  pose proof (Hlog a Ha). pose proof (Hlog b Hb). lia.
Qed.

Lemma made_set_flag f bit : made f -> 0 <= bit < 65536 -> made (set_flag f bit).
Proof.
  intros (Hi & Hn & Hm & Hf & Hk) Hb. unfold made, set_flag. cbn -[Z.testbit Z.lor]. split_and!; try done.
  - by apply lor_bound.
  - by apply lor_bound.
  - intros H%Hn. by rewrite Z.lor_spec, H.
Qed.

(** [made] looks at five fields only. *)
Lemma made_ext f g :
  made f -> index g = index f -> frame_num g = frame_num f -> mode g = mode f -> first g = first f ->
  frame_counter g = frame_counter f -> made g.
Proof. unfold made. intros H -> -> -> -> ->. exact H. Qed.

Section Loop.
Variable getservbyname : bytes -> option Z.
Variable getprotobyname : bytes -> option Z.
Context {tm : Type}.
Variable strptime : bytes -> string -> option (tm * bytes).
Variable mktime : tm -> Z.
Variable pcap_compile : bytes -> option (list bpf_insn).

Lemma apply_criterion_made f op optarg :
  made f -> 0 <= op < 65536 -> made (apply_criterion getservbyname getprotobyname strptime mktime f op optarg).
Proof.
  intros Hf Hop. unfold apply_criterion. cbv zeta.
  assert (Hd : forall (ok : bool) g, made g -> made (if ok then set_flag g op else g))
    by (intros [] g Hg; [by apply made_set_flag | done]).
  cbv beta. repeat match goal with
  | |- made (if ?ok then set_flag _ _ else _) => apply (Hd ok); apply (made_ext f); done
  | |- made (if ?b =? ?c then _ else _) => destruct (b =? c) eqn:?
  | |- made (let '(_, _) := ?x in _) => destruct x as [? ?]
  | |- made (match ?x with (_, _) => _ end) => destruct x as [? ?]
  | |- made (set_flag _ _) => apply (Hd true); apply (made_ext f); done
  end.
  unfold parse_frame_range. destruct (omap parse_range (comma_tokens optarg [])) as [|n ns]; [by apply made_set_flag|].
  destruct Hf as (Hi & Hn & Hm & Hf & Hk). unfold made, set_flag. cbn -[Z.testbit Z.lor]. split_and!; try done.
  - by apply lor_bound.
  - by apply lor_bound.
  - intros _. match goal with H : (op =? FILTER_FRAME_NUM) = true |- _ => apply Z.eqb_eq in H; rewrite H end.
      rewrite Z.lor_spec. apply orb_true_r.
Qed.

Lemma apply_option_made f op optarg :
  made f -> In op (map snd options) ->
  made (fst (apply_option getservbyname getprotobyname strptime mktime pcap_compile f op optarg)).
Proof.
  intros Hf Hop. unfold apply_option. destruct (has_flag op PARAM_BIT) eqn:E.
  - unfold apply_param, bpf_set. repeat case_match; cbn [fst]; try exact Hf;
      try (apply (made_ext f); done); destruct Hf as (? & ? & ? & ? & ?); unfold made; cbn; tauto.
  - cbn [fst]. apply apply_criterion_made; [done|].
    repeat (destruct Hop as [<-|Hop]; [try (vm_compute in E; discriminate E); split; vm_compute; done|]). done.
Qed.

Lemma option_loop_made fuel args f :
  made f -> (length args < fuel)%nat ->
  exists g ret, option_loop getservbyname getprotobyname strptime mktime pcap_compile fuel args f = Ok (g, ret) /\ made g.
Proof.
  revert args f. induction fuel as [|fuel IH]; intros args f Hf Hl; [lia|]. cbn [option_loop].
  destruct (getopt_long args) as [|rest|op optarg rest] eqn:E; [eauto..|].
  apply getopt_long_shorter in E as [Hs [n Hn%find_option_In]].
  pose proof (apply_option_made f op optarg Hf Hn) as Hg.
  destruct (apply_option _ _ _ _ _ f op optarg) as [g ret]. cbn [fst] in Hg.
  destruct (ret =? 0); [apply IH; [done|lia]|eauto].
Qed.

(** The options applied one after the other, up to one that fails. *)
Fixpoint apply_all (f : filter) (os : list (Z * bytes)) : filter * Z :=
  match os with
  | [] => (f, 0)
  | (op, value) :: os =>
      let '(f, ret) := apply_option getservbyname getprotobyname strptime mktime pcap_compile f op value in
      if ret =? 0 then apply_all f os else (f, ret)
  end.

Lemma option_loop_segments segs : Forall segment_ok segs -> forall fuel f, (length (taken_args segs) < fuel)%nat ->
  option_loop getservbyname getprotobyname strptime mktime pcap_compile fuel (taken_args segs) f = Ok (apply_all f (given_options segs)).
Proof.
  unfold taken_args, given_options.
  induction 1 as [|s segs Hs _ IH]; intros [|fuel] f Hl; [lia|done|lia|]. cbn [map concat] in *.
  destruct s as [arg|name value|name value]; cbn [segment_args segment_ok app] in *.
  - by apply IH.
  - destruct (joined_arg name value Hs) as (_ & _ & E). cbn [option_loop apply_all]. rewrite E.
    destruct (apply_option _ _ _ _ _ _ _ _) as [g ret]. destruct (ret =? 0); [|done]. apply IH. cbn in Hl. lia.
  - destruct Hs as [Hn _]. destruct (separate_arg name Hn) as (_ & _ & E). cbn [option_loop apply_all]. rewrite E.
    destruct (apply_option _ _ _ _ _ _ _ _) as [g ret]. destruct (ret =? 0); [|done]. apply IH. cbn in Hl. lia.
Qed.

Lemma filter_from_segments program segs : Forall segment_ok segs ->
  filter_from_argv getservbyname getprotobyname strptime mktime pcap_compile (program :: command_line segs)
    = Ok (program :: kept_args segs, fst (apply_all filter_init (given_options segs)), snd (apply_all filter_init (given_options segs))).
Proof.
  intros Hs. unfold filter_from_argv, split_argv. rewrite split_segments by done.
  change (drop 1 (program :: taken_args segs)) with (taken_args segs).
  rewrite option_loop_segments by (done || cbn; lia). cbn [mbind res_bind]. by destruct (apply_all _ _).
Qed.

(** ** Claims *)

(** C22: On a command line of arguments of the program and of filter options
    under their full names, each with its value behind [=] or as the next argument
    (which then does not begin with a dash), filter_from_argv keeps exactly the
    program's arguments, in their order, and makes the filter that results from
    applying the options with their values one after the other, up to the first
    that fails, whose code it returns. *)
Theorem filter_from_argv_split (program : bytes) (segs : list segment) :
  Forall segment_ok segs ->
  exists f ret,
    filter_from_argv getservbyname getprotobyname strptime mktime pcap_compile (program :: command_line segs)
      = Ok (program :: kept_args segs, f, ret) /\
    apply_all filter_init (given_options segs) = (f, ret).
Proof.
  intros Hs. rewrite filter_from_segments by done. eexists _, _. split; [reflexivity|]. by destruct (apply_all _ _).
Qed.

(** C21: A filter built from any argument vector is well formed: only known
    criteria are selected, frame ranges come with their bit, and the mode is AND
    or OR, so that matching a packet never aborts. *)
Theorem filter_from_argv_wf (argv : list bytes) (pkt : bytes) (head : cap_header) :
  exists keep f ret,
    filter_from_argv getservbyname getprotobyname strptime mktime pcap_compile argv = Ok (keep, f, ret) /\
    filter_wf f /\ index f < 65536 /\ frame_counter f = 1 /\ filter_core f pkt head <> Abort.
Proof.
  assert (H0 : made filter_init) by (unfold made; cbn; split_and!; lia || done || auto).
  assert (H : exists keep f ret, filter_from_argv getservbyname getprotobyname strptime mktime pcap_compile argv
                = Ok (keep, f, ret) /\ made f).
  { destruct argv as [|program args]; [by exists [], filter_init, 0|].
    unfold filter_from_argv, split_argv. destruct (split_args args) as [keep taken].
    destruct (option_loop_made (S (length (program :: taken))) (drop 1 (program :: taken)) filter_init)
      as (g & ret & -> & Hg); [done|rewrite length_drop; cbn; lia|]. cbn. eauto 10. }
  destruct H as (keep & f & ret & E & Hi & Hn & Hm & Hf & Hk). exists keep, f, ret. split_and!; [done| |lia|done|].
  - split; [ints; lia | done].
  - apply total_neq, filter_core_total, Hm.
Qed.
End Loop.

Definition ex_segments : list segment :=
  [Other (B "-v"); Joined (B "tp.dport") (B "80"); Other (B "a.cap"); Separate (B "caplen") (B "96"); Other (B "b.cap")].
Lemma filter_from_argv_split_witness :
  exists f ret, filter_from_argv (fun _ => None) (fun _ => None) (fun (_ : bytes) (_ : string) => @None (Z * bytes)) (fun t => t) (fun _ => None)
      [B "capshow"; B "-v"; B "--tp.dport=80"; B "a.cap"; B "--caplen"; B "96"; B "b.cap"] =
      Ok ([B "capshow"; B "-v"; B "a.cap"; B "b.cap"], f, ret) /\
    apply_all (fun _ => None) (fun _ => None) (fun (_ : bytes) (_ : string) => @None (Z * bytes)) (fun t => t) (fun _ => None) filter_init
      [(FILTER_DST_PORT, B "80"); (Z.lor PARAM_CAPLEN PARAM_BIT, B "96")] = (f, ret).
Proof.
  apply (filter_from_argv_split (fun _ => None) (fun _ => None) (fun (_ : bytes) (_ : string) => @None (Z * bytes)) (fun t => t) (fun _ => None)
    (B "capshow") ex_segments).
  unfold ex_segments. repeat (apply Forall_cons_2; [vm_compute; first [reflexivity|tauto|split; [tauto|discriminate]]|]). constructor.
Defined.

(** An address with a prefix length and the addresses that agree in as many bits. *)
Lemma parse_inet_cidr (a n addr0 mask0 : Z) :
  is_u32 a -> 0 <= n <= 32 ->
  exists v m, parse_inet_addr (inet_ntoa a ++ B "/" ++ dec n) addr0 mask0 = (true, v, m) /\
    forall src, is_u32 src ->
      (Z.land src m = v <-> ntohl src / 2 ^ (32 - n) = ntohl a / 2 ^ (32 - n)).
Proof.
  intros Ha Hn. unfold parse_inet_addr, split_mask. change (B "/") with [47]. cbn [app].
  rewrite strchr_first by (by apply inet_ntoa_no_slash). rewrite take_app_length.
  replace (drop (S (length (inet_ntoa a))) (inet_ntoa a ++ 47 :: dec n)) with (dec n).
  2:{ change (47 :: dec n) with ([47] ++ dec n). rewrite (assoc_L (++)).
      replace (S (length (inet_ntoa a))) with (length (inet_ntoa a ++ [47])) by (rewrite length_app; cbn; lia).
      by rewrite drop_app_length. }
  rewrite inet_aton_ntoa, atoi_dec by (done || lia). rewrite u32_id by (ints; lia).
  rewrite bool_decide_eq_true_2.
  2:{ apply strchr_none. eapply Forall_impl; [|apply dec_digits; lia]. intros c H%isdigit_cases.
      repeat (apply elem_of_cons in H as [->|H]; [done|]). by apply elem_of_nil in H. }
  rewrite (proj2 (Z.leb_le _ _)) by lia. cbn [andb]. rewrite cidr_mask_prefix by lia.
  rewrite Z2Nat.id by lia. do 2 eexists. split; [reflexivity|]. intros src Hs. by apply prefix_match.
Qed.

(** C35: The option --ip.src with an address and a prefix length [n] makes a filter
    that matches exactly the packets with an IPv4 header whose source address
    agrees with the given one in the first [n] bits, for any packet whose headers
    can be decoded and whose source address lies in memory. *)
Theorem ip_src_cidr_matches (serv proto : bytes -> option Z) {tm : Type} (strptime : bytes -> string -> option (tm * bytes))
    (mktime : tm -> Z) (compile : bytes -> option (list bpf_insn)) (bpf : list bpf_insn -> bytes -> Z -> Z -> Z) (program : bytes) (a n : Z) :
  is_u32 a -> 0 <= n <= 32 ->
  exists f, filter_from_argv serv proto strptime mktime compile [program; B "--ip.src=" ++ inet_ntoa a ++ B "/" ++ dec n]
      = Ok ([program], f, 0) /\
    forall p h, find_headers (payload p) = Ok h ->
      (hd_ip h = None -> exists f', filter_match bpf f (payload p) p = Ok (f', false)) /\
      (forall ip src, hd_ip h = Some ip -> ip_src_addr (payload p) ip = Ok src -> is_u32 src ->
         exists f' b, filter_match bpf f (payload p) p = Ok (f', b) /\
           (b = true <-> ntohl src / 2 ^ (32 - n) = ntohl a / 2 ^ (32 - n))).
Proof.
  intros Ha Hn. destruct (parse_inet_cidr a n 0 0 Ha Hn) as (v & m & E & Hsel).
  set (text := inet_ntoa a ++ B "/" ++ dec n) in *.
  pose (f := set_flag (filter_init <| ip_src := v |> <| ip_src_mask := m |>) FILTER_IP_SRC).
  exists f. split.
  { pose proof (filter_from_segments serv proto strptime mktime compile program [Joined (B "ip.src") text]) as G.
    assert (Hc : apply_all serv proto strptime mktime compile filter_init (given_options [Joined (B "ip.src") text]) = (f, 0)).
    { unfold given_options. cbn [map concat app apply_all]. change (option_code (B "ip.src")) with FILTER_IP_SRC.
      unfold apply_option. change (has_flag FILTER_IP_SRC PARAM_BIT) with false. cbv iota. unfold apply_criterion. cbv zeta beta.
      change (ip_src filter_init) with 0. change (ip_src_mask filter_init) with 0.
      rewrite E. reflexivity. }
    rewrite Hc in G. apply G. constructor; [|constructor]. cbn [segment_ok]. vm_compute. tauto. }
  intros p h Hh.
  assert (Hm : forall b, criterion f (payload p) p h 3 = Ok b -> exists f', filter_match bpf f (payload p) p = Ok (f', b)).
  { intros b Hb. unfold filter_match.
    set (f1 := if first f then f <| frame_last_ts := ts p |> <| first := false |> else f).
    change (index f1 =? 0) with false. cbv iota.
    rewrite (filter_core_single f1 (payload p) p h 3 b); [|lia|reflexivity|reflexivity|done|done|exact Hb].
    cbn [mbind res_bind]. change (bpf_prog f1) with (@Null (list bpf_insn)). cbn [mbind res_bind]. rewrite andb_true_r. eauto. }
  split.
  - intros Hip. apply Hm. cbn [criterion]. by rewrite Hip.
  - intros ip src Hip Hs Hu. destruct (Hm (Z.land src m =? v)) as [f' E'].
    { cbn [criterion]. rewrite Hip, Hs. reflexivity. }
    exists f', (Z.land src m =? v). split; [done|]. rewrite Z.eqb_eq. by apply Hsel.
Qed.

Lemma ip_src_cidr_matches_witness :
  exists f, filter_from_argv (fun _ => None) (fun _ => None) (fun (_ : bytes) (_ : string) => @None (Z * bytes)) (fun t => t) (fun _ => None)
      [B "capshow"; B "--ip.src=10.1.2.3/8"] = Ok ([B "capshow"], f, 0) /\
    exists f' b, filter_match (fun _ _ _ _ => 1) f (payload ex_frame) ex_frame = Ok (f', b) /\
      (b = true <-> ntohl 16777226 / 2 ^ 24 = ntohl 50463242 / 2 ^ 24).
Proof.
  destruct (ip_src_cidr_matches (fun _ => None) (fun _ => None) (fun (_ : bytes) (_ : string) => @None (Z * bytes)) (fun t => t) (fun _ => None)
    (fun _ _ _ _ => 1) (B "capshow") 50463242 8) as (f & E & H); [split; [discriminate|reflexivity]|lia|].
  exists f. split; [exact E|]. destruct (H ex_frame ex_headers) as [_ Hm]; [vm_compute; reflexivity|].
  apply (Hm 14 16777226); [reflexivity|vm_compute; reflexivity|split; [discriminate|reflexivity]].
Defined.

(** A list of frame ranges survives being written in the documented syntax
    and parsed. *)
Theorem parse_frame_range_text (rs : list frame_num_node) (f : filter) :
  Forall range_ok rs -> rs <> [] ->
  parse_frame_range (joined 44 (map range_text rs)) f = f <| frame_num := rs |>.
Proof.
  intros Hrs Hne. unfold parse_frame_range. rewrite comma_tokens_joined.
  2:{ apply Forall_map. eapply Forall_impl; [|exact Hrs]. apply range_text_token. }
  assert (E : omap parse_range (map range_text rs) = rs).
  { clear Hne. induction Hrs as [|r rs Hr _ IH]; [done|]. cbn. rewrite (parse_range_text r Hr). by f_equal. }
  rewrite E. by destruct rs.
Qed.

Lemma parse_frame_range_text_witness :
  parse_frame_range (B "-3,7,9-12,20-") filter_init = filter_init <| frame_num :=
    [{| lower := -1; upper := 3 |}; {| lower := 7; upper := 7 |}; {| lower := 9; upper := 12 |};
     {| lower := 20; upper := -1 |}] |>.
Proof.
  apply (parse_frame_range_text [{| lower := -1; upper := 3 |}; {| lower := 7; upper := 7 |};
    {| lower := 9; upper := 12 |}; {| lower := 20; upper := -1 |}] filter_init); [|discriminate].
  repeat (apply Forall_cons_2; [unfold range_ok; cbn; lia|]). constructor.
Defined.

(** The parsers of addresses, Ethernet types and ports always mask the value
    they return, so that the criterion they make can be met. *)
Theorem parsers_mask (serv : bytes -> option Z) (str : bytes) (v m v0 m0 : Z) :
  (parse_inet_addr str v0 m0 = (true, v, m) -> Z.land v m = v) /\
  (parse_eth_type str v0 = (true, v, m) -> Z.land v m = v) /\
  (parse_port serv str v0 = (true, v, m) -> Z.land v m = v).
Proof.
  assert (H : forall x, Z.land (Z.land x m) m = Z.land x m) by (intros x; by rewrite <- Z.land_assoc, Z.land_diag).
  unfold parse_inet_addr, parse_eth_type, parse_port. destruct (split_mask str) as [a k].
  split_and!.
  - destruct (inet_aton a); [|done]. destruct (_ && _); [by intros [= <- <-]|].
    destruct (inet_aton _); [by intros [= <- <-] | done].
  - destruct (ethertype_by_name a); [by intros [= <- <-]|].
    destruct (skip_space a); [by intros [= <- <-]|]. destruct (scan_int false a) as [[w r]|]; [by intros [= <- <-] | done].
  - destruct (serv a); [by intros [= <- <-]|]. destruct (isdigit _); [by intros [= <- <-] | done].
Qed.

Lemma parsers_mask_witness : Z.land 16 240 = 16.
Proof.
  apply (parsers_mask (fun _ => None) (B "22/0xf0") 16 240 0 0). vm_compute. reflexivity.
Defined.

(** The VLAN parser does not: a tag control information with a bit outside
    its mask is accepted, and the criterion then rejects every packet. *)
Theorem parse_vlan_unmasked (f : filter) (m : bytes) (vlan : option Z) (b : bool) :
  filter_vlan_tci (filter_vlan_set f (B "0x1064/0x0fff")) m vlan = Ok b -> b = false.
Proof.
  unfold filter_vlan_set. change (parse_vlan (B "0x1064/0x0fff") _) with (true, 0x1064, 0xfff).
  unfold filter_vlan_tci, when_flag. destruct (has_flag _ _); [|by intros [= <-]].
  destruct vlan as [v|]; [|by intros [= <-]]. intros (tci & _ & E)%bind_Ok_inv. injection E as <-.
  apply Z.eqb_neq. intros E. apply (f_equal (fun z => Z.testbit z 12)) in E. cbn [field_set vlan_tci vlan_tci_mask] in E.
  rewrite Z.land_spec in E. change (Z.testbit 0xfff 12) with false in E. by rewrite andb_false_r in E.
Qed.

Lemma parse_vlan_unmasked_witness :
  filter_vlan_tci (filter_vlan_set filter_init (B "0x1064/0x0fff")) (replicate 18 0) (Some 0) = Ok false.
Proof.
  destruct (filter_vlan_tci (filter_vlan_set filter_init (B "0x1064/0x0fff")) (replicate 18 0) (Some 0)) as [b| | |] eqn:E.
  - f_equal. exact (parse_vlan_unmasked filter_init (replicate 18 0) (Some 0) b E).
  - vm_compute in E. discriminate E.
  - vm_compute in E. discriminate E.
  - vm_compute in E. discriminate E.
Defined.
