(* ===== verification/Protocols.v ===== *)
(** * Protocol decoders and the header walk
      (src/protocol.c, src/protocols/*.c, src/packet.c)

    Every decoder says where the header behind its own starts and which protocol
    it has; [header_walk] steps through a packet with them. *)

From S2P Require Import Prelude CLib Picotime Packet.

(** ** Protocol types *)
Inductive ptype :=
| PROTOCOL_UNKNOWN | PROTOCOL_DONE | PROTOCOL_DATA
| PROTOCOL_ARP | PROTOCOL_CDP | PROTOCOL_DNS | PROTOCOL_ETHERNET | PROTOCOL_GRE
| PROTOCOL_GTP | PROTOCOL_ICMP | PROTOCOL_IGMP | PROTOCOL_IPV4 | PROTOCOL_IPV6
| PROTOCOL_MPLS | PROTOCOL_OSPF | PROTOCOL_PTPv2 | PROTOCOL_PW | PROTOCOL_SCTP
| PROTOCOL_STP | PROTOCOL_TCP | PROTOCOL_UDP | PROTOCOL_VLAN.
#[export] Instance ptype_eq_dec : EqDecision ptype.
Proof. solve_decision. Defined.

(** A network address as it was found; the text form is made from it. *)
Inductive net_addr := NetNone | Net4 (a : Z) | Net6 (a : bytes).

(** [struct network] *)
Record network := { net_src : net_addr; net_dst : net_addr; plen : Z }.

(** [struct header_chunk]; [protocol] is the type of the current protocol and
    [ptr] the offset of the current header in the packet. *)
Record header_chunk := {
  cp : cap_header;
  protocol : option ptype;
  last_net : network;
  truncated : bool;
  ptr : option Z;
}.
#[export] Instance header_chunk_rebuild : Rebuild header_chunk := fun h =>
  {| cp := cp h; protocol := protocol h; last_net := last_net h;
     truncated := truncated h; ptr := ptr h |}.

(** A [next_payload] callback: the (possibly updated) chunk, the type of the
    next protocol and [*out], which starts as the current pointer. *)
Definition next_result : Type := header_chunk * ptype * option Z.

(** [struct caputils_protocol] without the printing callbacks. *)
Record caputils_protocol := {
  pr_name : bytes;
  pr_size : Z;
  pr_size_dyn : option (header_chunk -> Z -> res Z);
  pr_next_payload : option (header_chunk -> Z -> res next_result);
}.

Definition mem (h : header_chunk) : bytes := payload (cp h).

(** ** Link layer *)
Definition ETHERTYPE_MPLS : Z := 0x8847.

Definition ethertype_next (ethertype : Z) : ptype :=
  if ethertype =? ETHERTYPE_ARP then PROTOCOL_ARP
  else if ethertype =? ETHERTYPE_VLAN then PROTOCOL_VLAN
  else if ethertype =? ETHERTYPE_IP then PROTOCOL_IPV4
  else if ethertype =? ETHERTYPE_IPV6 then PROTOCOL_IPV6
  else if ethertype =? ETHERTYPE_MPLS then PROTOCOL_MPLS
  else if ethertype =? STPBRIDGES then PROTOCOL_STP
  else if ethertype =? 0x88F7 then PROTOCOL_PTPv2
  else PROTOCOL_DATA.

Definition ethernet_next (h : header_chunk) (p : Z) : res next_result :=
  let payload := p + sizeof_ethhdr in
  t ← h_proto (mem h) p;
  Ok (h, ethertype_next t, Some payload).

Definition vlan_next (h : header_chunk) (p : Z) : res next_result :=
  t ← be16 (mem h) (p + 2);
  Ok (h, ethertype_next t, Some (p + 4)).

(** The bit fields of an MPLS header, from its value in host order. *)
Definition mpls_bottom (val : Z) : bool := Z.testbit val 8.

Definition mpls_next_payload (h : header_chunk) (p : Z) : res next_result :=
  val ← be32 (mem h) p;
  let payload := p + 4 in
  if negb (mpls_bottom val) then Ok (h, PROTOCOL_MPLS, Some payload)
  else
    b ← rd8 (mem h) payload;
    let hi := Z.land b 0xf0 in
    if hi =? 0 then Ok (h, PROTOCOL_PW, Some payload)
    else if hi =? 0x40 then Ok (h, PROTOCOL_IPV4, Some payload)
    else if hi =? 0x60 then Ok (h, PROTOCOL_IPV6, Some payload)
    else Ok (h, PROTOCOL_DATA, Some payload).

Definition pw_next_payload (h : header_chunk) (p : Z) : res next_result :=
  Ok (h, PROTOCOL_ETHERNET, Some (p + 4)).

(** ** Network layer *)
Definition IPPROTO_HOPOPTS : Z := 0.
Definition IPPROTO_ICMP : Z := 1.
Definition IPPROTO_IGMP : Z := 2.
Definition IPPROTO_IPIP : Z := 4.
Definition IPPROTO_IPV6 : Z := 41.
Definition IPPROTO_GRE : Z := 47.
Definition IPPROTO_OSPF : Z := 89.
Definition IPPROTO_SCTP : Z := 132.

Definition ipproto_next (proto : Z) : ptype :=
  if proto =? IPPROTO_GRE then PROTOCOL_GRE
  else if proto =? IPPROTO_ICMP then PROTOCOL_ICMP
  else if proto =? IPPROTO_IGMP then PROTOCOL_IGMP
  else if proto =? IPPROTO_IPIP then PROTOCOL_IPV4
  else if proto =? IPPROTO_IPV6 then PROTOCOL_IPV6
  else if proto =? IPPROTO_OSPF then PROTOCOL_OSPF
  else if proto =? IPPROTO_TCP then PROTOCOL_TCP
  else if proto =? IPPROTO_UDP then PROTOCOL_UDP
  else if proto =? IPPROTO_SCTP then PROTOCOL_SCTP
  else PROTOCOL_DATA.

Definition ipv4_next (h : header_chunk) (p : Z) : res next_result :=
  hl ← ip_hl (mem h) p;
  let payload := p + 4 * hl in
  if hl <? 5 then Ok (h, PROTOCOL_DONE, None)
  else
    src ← ip_src_addr (mem h) p;
    dst ← ip_dst_addr (mem h) p;
    l ← ip_len (mem h) p;
    let h := h <| last_net := {| net_src := Net4 src; net_dst := Net4 dst; plen := u64 (l - 4 * hl) |} |> in
    proto ← ip_p (mem h) p;
    Ok (h, ipproto_next proto, Some payload).

Definition sizeof_ip6_hdr : Z := 40.
Definition is_ipv6_ext (nxt : Z) : bool := nxt =? IPPROTO_HOPOPTS.

(** The loop over the extension headers at [payload]: the total header size and,
    when its end was found, the payload and its protocol. *)
Fixpoint ipv6_ext_loop (fuel : nat) (c : cap_header) (pl header_size : Z) : res (Z * option (Z * Z)) :=
  match fuel with
  | O => OutOfFuel
  | S fuel =>
      if limited_caplen c (Some pl) 2 then Ok (header_size, None)
      else
        len ← rd8 (payload c) (pl + 1);
        let cur_size := ntohs len * 8 + 8 in
        if limited_caplen c (Some pl) cur_size then Ok (header_size, None)
        else
          nxt ← rd8 (payload c) pl;
          let header_size := header_size + cur_size in
          let pl := pl + cur_size in
          if is_ipv6_ext nxt then ipv6_ext_loop fuel c pl header_size
          else Ok (header_size, Some (pl, nxt))
  end.

(** The first check looks at the start of the packet, not of the header. *)
Definition ipv6_total_header_size (c : cap_header) (ip : Z) : res (Z * option (Z * Z)) :=
  let header_size := sizeof_ip6_hdr in
  if limited_caplen c (Some 0) sizeof_ip6_hdr then Ok (0, None)
  else
    nxt ← rd8 (payload c) (ip + 6);
    if negb (is_ipv6_ext nxt) then Ok (header_size, Some (ip + header_size, nxt))
    else ipv6_ext_loop (S (Z.to_nat (caplen c))) c (ip + header_size) header_size.

(** [ip6_plen] is used as it is loaded, without a change of byte order. *)
Definition ipv6_next (h : header_chunk) (p : Z) : res next_result :=
  '(header_size, found) ← ipv6_total_header_size (cp h) p;
  match found with
  | None => Ok (h, PROTOCOL_DONE, None)
  | Some (pl, proto) =>
      src ← slice (mem h) (p + 8) 16;
      dst ← slice (mem h) (p + 24) 16;
      l ← rd16 (mem h) (p + 4);
      let h := h <| last_net := {| net_src := Net6 src; net_dst := Net6 dst;
                                   plen := u64 (l + sizeof_ip6_hdr - header_size) |} |> in
      Ok (h, ipproto_next proto, Some pl)
  end.

(** The option bits and the protocol of a GRE header, from its host-order value. *)
Definition gre_next (h : header_chunk) (p : Z) : res next_result :=
  val ← be32 (mem h) p;
  let payload := p + 4 in
  let payload := if Z.testbit val 31 || Z.testbit val 30 then payload + 4 else payload in
  let payload := if Z.testbit val 29 then payload + 4 else payload in
  let payload := if Z.testbit val 28 then payload + 4 else payload in
  Ok (h, ethertype_next (val mod 65536), Some payload).

(** ** Transport layer *)
Definition PORT_DNS : Z := 53.
Definition PORT_GTPu : Z := 2152.
Definition PORT_GTPc : Z := 2123.
Definition PORT_PTPv2 : Z := 319.

(** The test of equal ports stands in front of the case labels and is never
    evaluated. *)
Definition udp_next (h : header_chunk) (p : Z) : res next_result :=
  let out := p + sizeof_udphdr in
  sport ← be16 (mem h) p;
  dport ← be16 (mem h) (p + 2);
  if (sport =? PORT_DNS) || (dport =? PORT_DNS) then Ok (h, PROTOCOL_DNS, Some out)
  else if (dport =? PORT_GTPu) || (dport =? PORT_GTPc) then Ok (h, PROTOCOL_GTP, Some out)
  else if dport =? PORT_PTPv2 then Ok (h, PROTOCOL_PTPv2, Some out)
  else Ok (h, PROTOCOL_DATA, Some out).

Definition tcp_next (h : header_chunk) (p : Z) : res next_result :=
  doff ← tcp_doff (mem h) p;
  let header_size := 4 * doff in
  let payload_size := u64 (plen (last_net h) - header_size) in
  let out := p + header_size in
  if payload_size =? 0 then Ok (h, PROTOCOL_DONE, Some out)
  else
    sport ← be16 (mem h) p;
    dport ← be16 (mem h) (p + 2);
    if (sport =? PORT_DNS) || (dport =? PORT_DNS) then Ok (h, PROTOCOL_DNS, Some (out + 2))
    else Ok (h, PROTOCOL_DATA, Some out).

(** ** GTP *)
Inductive gtp_version_t := GTPv1 | GTPv2 | GTPvP.
Definition MSG_TPDU : Z := 255.

Definition gtp_version (m : bytes) (p : Z) : res gtp_version_t :=
  b ← rd8 m p;
  let version := b / 32 in
  if version =? 1 then Ok (if Z.testbit b 4 then GTPv1 else GTPvP)
  else if version =? 2 then Ok GTPv2
  else Abort.

(** The three versions keep the message type in the second byte. *)
Definition gtp_message_type (m : bytes) (p : Z) : res Z :=
  v ← gtp_version m p;
  match v with GTPv1 | GTPv2 | GTPvP => rd8 m (p + 1) end.

Definition gtp_header_size (m : bytes) (p : Z) : res Z :=
  v ← gtp_version m p;
  b ← rd8 m p;
  match v with
  | GTPv1 =>
      if Z.testbit b 2 then Abort
      else Ok (if Z.testbit b 1 || Z.testbit b 0 || Z.testbit b 2 then 8 + 4 else 8)
  | GTPv2 => Ok (4 + if Z.testbit b 3 then 4 else 0)
  | GTPvP => Ok 6
  end.

Definition gtp_header_size_adapter (h : header_chunk) (p : Z) : res Z := gtp_header_size (mem h) p.

Definition gtp_next (h : header_chunk) (p : Z) : res next_result :=
  version ← gtp_version (mem h) p;
  message_type ← gtp_message_type (mem h) p;
  size ← gtp_header_size (mem h) p;
  let payload := p + size in
  b ← rd8 (mem h) p;
  if match version with GTPv2 => Z.testbit b 4 | _ => false end then Ok (h, PROTOCOL_GTP, Some payload)
  else if negb (message_type =? MSG_TPDU) then Ok (h, PROTOCOL_DATA, Some payload)
  else
    c ← rd8 (mem h) payload;
    let hi := Z.land c 0xf0 in
    if hi =? 0x40 then Ok (h, PROTOCOL_IPV4, Some payload)
    else if hi =? 0x60 then Ok (h, PROTOCOL_IPV6, Some payload)
    else Ok (h, PROTOCOL_DATA, Some payload).

(** ** Protocols without payload: [*out] is left at the current header. *)
Definition done_next (h : header_chunk) (p : Z) : res next_result := Ok (h, PROTOCOL_DONE, Some p).
Definition arp_next : header_chunk -> Z -> res next_result := done_next.
Definition cdp_next : header_chunk -> Z -> res next_result := done_next.
Definition icmp_next_payload : header_chunk -> Z -> res next_result := done_next.
Definition igmp_next : header_chunk -> Z -> res next_result := done_next.
Definition ospf_next : header_chunk -> Z -> res next_result := done_next.
Definition ptpv2_next : header_chunk -> Z -> res next_result := done_next.
Definition sctp_next : header_chunk -> Z -> res next_result := done_next.
Definition stp_next : header_chunk -> Z -> res next_result := done_next.

(** ** The registry *)
Definition mk_protocol (name : bytes) (size : Z) (next : option (header_chunk -> Z -> res next_result))
  : caputils_protocol :=
  {| pr_name := name; pr_size := size; pr_size_dyn := None; pr_next_payload := next |}.

Definition protocol_done : caputils_protocol := mk_protocol (B "done") 0 None.
Definition protocol_data : caputils_protocol := mk_protocol (B "data") 0 None.
Definition protocol_arp : caputils_protocol := mk_protocol (B "ARP") 0 (Some arp_next).
Definition protocol_cdp : caputils_protocol := mk_protocol (B "CDP") 0 (Some cdp_next).
Definition protocol_dns : caputils_protocol := mk_protocol (B "DNS") 12 None.
Definition protocol_ethernet : caputils_protocol := mk_protocol (B "ethernet") 14 (Some ethernet_next).
Definition protocol_gre : caputils_protocol := mk_protocol (B "GRE") 4 (Some gre_next).
Definition protocol_gtp : caputils_protocol :=
  {| pr_name := B "GPRS Tunneling Protocol"; pr_size := 1;
     pr_size_dyn := Some gtp_header_size_adapter; pr_next_payload := Some gtp_next |}.
Definition protocol_icmp : caputils_protocol := mk_protocol (B "ICMP") 8 (Some icmp_next_payload).
Definition protocol_igmp : caputils_protocol := mk_protocol (B "IGMP") 0 (Some igmp_next).
Definition protocol_ipv4 : caputils_protocol := mk_protocol (B "IPv4") 20 (Some ipv4_next).
Definition protocol_ipv6 : caputils_protocol := mk_protocol (B "IPv6") 20 (Some ipv6_next).
Definition protocol_mpls : caputils_protocol := mk_protocol (B "MPLS") 4 (Some mpls_next_payload).
Definition protocol_ospf : caputils_protocol := mk_protocol (B "OSPF") 0 (Some ospf_next).
Definition protocol_ptpv2 : caputils_protocol := mk_protocol (B "PTPV2") 30 (Some ptpv2_next).
Definition protocol_pw : caputils_protocol := mk_protocol (B "PW") 4 (Some pw_next_payload).
Definition protocol_sctp : caputils_protocol := mk_protocol (B "SCTP") 12 (Some sctp_next).
Definition protocol_stp : caputils_protocol := mk_protocol (B "STP") 0 (Some stp_next).
Definition protocol_tcp : caputils_protocol := mk_protocol (B "TCP") 20 (Some tcp_next).
Definition protocol_udp : caputils_protocol := mk_protocol (B "UDP") 8 (Some udp_next).
Definition protocol_vlan : caputils_protocol := mk_protocol (B "vlan") 4 (Some vlan_next).

(** The table after [protocol_init]: every type but the unknown one. *)
Definition protocol_get (type : ptype) : option caputils_protocol :=
  match type with
  | PROTOCOL_UNKNOWN => None
  | PROTOCOL_DONE => Some protocol_done
  | PROTOCOL_DATA => Some protocol_data
  | PROTOCOL_ARP => Some protocol_arp
  | PROTOCOL_CDP => Some protocol_cdp
  | PROTOCOL_DNS => Some protocol_dns
  | PROTOCOL_ETHERNET => Some protocol_ethernet
  | PROTOCOL_GRE => Some protocol_gre
  | PROTOCOL_GTP => Some protocol_gtp
  | PROTOCOL_ICMP => Some protocol_icmp
  | PROTOCOL_IGMP => Some protocol_igmp
  | PROTOCOL_IPV4 => Some protocol_ipv4
  | PROTOCOL_IPV6 => Some protocol_ipv6
  | PROTOCOL_MPLS => Some protocol_mpls
  | PROTOCOL_OSPF => Some protocol_ospf
  | PROTOCOL_PTPv2 => Some protocol_ptpv2
  | PROTOCOL_PW => Some protocol_pw
  | PROTOCOL_SCTP => Some protocol_sctp
  | PROTOCOL_STP => Some protocol_stp
  | PROTOCOL_TCP => Some protocol_tcp
  | PROTOCOL_UDP => Some protocol_udp
  | PROTOCOL_VLAN => Some protocol_vlan
  end.

(** ** The header walk (src/packet.c) *)
Definition ptr_sanity (c : cap_header) (p : option Z) : res unit :=
  match p with
  | None => Abort
  | Some p => if (p <? 0) || (caplen c <? p) then Abort else Ok tt
  end.

(** [header->protocol] of an initialised walk *)
Definition current (h : header_chunk) : res caputils_protocol :=
  match protocol h with
  | None => Fault
  | Some t => match protocol_get t with Some p => Ok p | None => Fault end
  end.

Definition header_size (h : header_chunk) : res Z :=
  pr ← current h;
  match pr_size_dyn pr with
  | Some f => match ptr h with Some p => f h p | None => Fault end
  | None => Ok (pr_size pr)
  end.

Definition next_payload (h : header_chunk) : res (header_chunk * bool) :=
  pr ← current h;
  match pr_next_payload pr, ptr h with
  | None, _ => Ok (h, false)
  | Some _, None => Fault
  | Some next, Some p =>
      if truncated h then Ok (h, false)
      else
        '(h, type, out) ← next h p;
        let h := h <| ptr := out |> in
        let h := h <| protocol := Some type |> in
        match protocol_get type with
        | None => Abort
        | Some _ =>
            if (bool_decide (ptr h = None) && bool_decide (type = PROTOCOL_DONE))
               || limited_caplen (cp h) (ptr h) 0 then
              let h := h <| ptr := None |> in
              Ok (h <| truncated := true |>, false)
            else
              _ ← ptr_sanity (cp h) (ptr h);
              size ← header_size h;
              let h := if limited_caplen (cp h) (ptr h) size then h <| truncated := true |> else h in
              Ok (h, negb (bool_decide (type = PROTOCOL_UNKNOWN)) && negb (bool_decide (type = PROTOCOL_DONE)))
        end
  end.

Definition header_init (c : cap_header) : header_chunk :=
  {| cp := c; protocol := None; last_net := {| net_src := NetNone; net_dst := NetNone; plen := 0 |};
     truncated := false; ptr := None |}.

Definition header_walk (h : header_chunk) : res (header_chunk * bool) :=
  match ptr h with
  | None =>
      let h := h <| protocol := Some PROTOCOL_ETHERNET |> in
      let h := h <| ptr := Some 0 |> in
      size ← header_size h;
      let h := if limited_caplen (cp h) (ptr h) size then h <| truncated := true |> else h in
      Ok (h, true)
  | Some _ => next_payload h
  end.

(** [while ( header_walk(&header) ) ...]: the protocols and where they start. *)
Fixpoint walk (fuel : nat) (h : header_chunk) : res (list (option ptype * option Z)) :=
  match fuel with
  | O => OutOfFuel
  | S fuel =>
      '(h, more) ← header_walk h;
      if (more : bool) then (rest ← walk fuel h; Ok ((protocol h, ptr h) :: rest)) else Ok []
  end.
Definition walk_packet (c : cap_header) : res (list (option ptype * option Z)) :=
  walk (S (S (S (Z.to_nat (caplen c))))) (header_init c).

(** ** Safety of the decoders *)

(** Reads at offsets that are known to lie inside the object succeed. *)
Ltac load :=
  rewrite ?bind_assoc;
  match goal with
  | |- context [?e ≫= _] =>
      let v := fresh "v" in let E := fresh "Ev" in
      lazymatch e with
      | rd8 ?m ?o => destruct (rd8_in m o) as [v E]; [lia|]; rewrite E
      | rd16 ?m ?o => destruct (rd16_in m o) as [v E]; [lia..|]; rewrite E
      | rd32 ?m ?o => destruct (rd32_in m o) as [v E]; [lia..|]; rewrite E
      | be16 ?m ?o => destruct (be16_in m o) as [v E]; [lia..|]; rewrite E
      | be32 ?m ?o => destruct (be32_in m o) as [v E]; [lia..|]; rewrite E
      end
  end; cbn [mbind res_bind].

(** The packet's memory is readable for 20 bytes beyond the captured length, as
    it is inside a stream's buffer. *)
Definition padded (c : cap_header) : Prop := 0 <= caplen c /\ caplen c + 20 <= blen (payload c).

(** What a decoder may answer at [p]: a protocol that ends the walk, or a header
    further on. *)
Definition good_next (h : header_chunk) (p : Z) (r : res next_result) : Prop :=
  exists h' t out, r = Ok (h', t, out) /\ cp h' = cp h /\ truncated h' = truncated h /\ t <> PROTOCOL_UNKNOWN /\
    match out with
    | None => t = PROTOCOL_DONE
    | Some q => p < q \/ (p <= q /\ (t = PROTOCOL_DONE \/ t = PROTOCOL_DATA \/ t = PROTOCOL_DNS))
    end.

(** The bytes a decoder may rely on when the header is not truncated. *)
Definition complete (h : header_chunk) (t : ptype) (p : Z) : Prop :=
  match t with
  | PROTOCOL_GTP => exists s, gtp_header_size (mem h) p = Ok s /\ p + s <= caplen (cp h)
  | _ => match protocol_get t with Some pr => p + pr_size pr <= caplen (cp h) | None => False end
  end.

Lemma ethertype_next_known x : ethertype_next x <> PROTOCOL_UNKNOWN.
Proof. unfold ethertype_next. repeat case_match; done. Qed.
Lemma ipproto_next_known x : ipproto_next x <> PROTOCOL_UNKNOWN.
Proof. unfold ipproto_next. repeat case_match; done. Qed.
#[export] Hint Resolve ethertype_next_known ipproto_next_known : cap.

Ltac good q := do 3 eexists; split; [reflexivity|]; split_and!; [done|done|auto with cap|left; lia].

Lemma mul_nonneg_mod v : 0 <= 4 * (v mod 16).
Proof. pose proof (Z.mod_pos_bound v 16 ltac:(lia)). lia. Qed.

Lemma ipv6_ext_loop_ok c fuel pl hs :
  0 <= caplen c -> caplen c <= blen (payload c) -> 0 <= pl -> is_bytes (payload c) ->
  (Z.to_nat (caplen c - pl) < fuel)%nat ->
  exists hs' found, ipv6_ext_loop fuel c pl hs = Ok (hs', found) /\
    match found with Some (q, _) => pl < q | None => True end.
Proof.
  intros Hc Hm Hp Hb. revert pl hs Hp. induction fuel as [|fuel IH]; intros pl hs Hp Hf; [lia|].
  cbn [ipv6_ext_loop]. unfold limited_caplen.
  destruct (_ || _) eqn:E1; [by do 2 eexists|]. apply orb_false_iff in E1 as [_ E1%Z.ltb_ge].
  load. destruct (_ || _) eqn:E2; [by do 2 eexists|]. apply orb_false_iff in E2 as [_ E2%Z.ltb_ge].
  load. pose proof (ntohs_range v) as Hr. ints.
  destruct (is_ipv6_ext _); [|do 2 eexists; split; [reflexivity|cbn -[ntohs]; lia]].
  destruct (IH (pl + (ntohs v * 8 + 8)) (hs + (ntohs v * 8 + 8))) as (hs' & found & E & Hq); [lia|lia|].
  exists hs', found. split; [done|]. destruct found as [[q n]|]; [lia | done].
Qed.

Lemma gtp_version_ok m p : 0 <= p < blen m -> gtp_version m p = Abort \/ exists v, gtp_version m p = Ok v.
Proof. intros. unfold gtp_version. load. repeat case_match; eauto. Qed.

Lemma gtp_header_size_ok m p : 0 <= p < blen m ->
  gtp_header_size m p = Abort \/ exists s, gtp_header_size m p = Ok s /\ 4 <= s <= 12.
Proof.
  intros. unfold gtp_header_size. destruct (gtp_version_ok m p) as [-> | [v ->]]; [lia|by left|].
  cbn [mbind res_bind]. load. destruct v; repeat case_match; (by left) || (right; eexists; split; [reflexivity|lia]).
Qed.

Lemma gtp_next_good h p :
  padded (cp h) -> 0 <= p -> protocol h = Some PROTOCOL_GTP -> complete h PROTOCOL_GTP p ->
  good_next h p (gtp_next h p).
Proof.
  intros [Hc Hm] Hp Ht (s & Hs & Hle). fold (mem h) in Hm. unfold gtp_next, gtp_message_type. 
  destruct (gtp_header_size_ok (mem h) p) as [E|(s' & E & Hs')]; [|congruence|].
  { destruct (Z.lt_ge_cases p (blen (mem h))); [lia|]. exfalso. unfold gtp_header_size, gtp_version in Hs. inv_ok.
    match goal with H : rd8 _ p = Ok _ |- _ => apply rd8_inv in H end. lia. }
  rewrite E in Hs. injection Hs as ->.
  destruct (gtp_version_ok (mem h) p) as [Ev | [v Ev]]; [lia|unfold gtp_header_size in E; by rewrite Ev in E|].
  rewrite Ev. cbn [mbind res_bind].
  assert (Em : (match v with GTPv1 | GTPv2 | GTPvP => rd8 (mem h) (p + 1) end) = rd8 (mem h) (p + 1)) by (by destruct v).
  rewrite Em. do 1 load. rewrite E. cbn [mbind res_bind]. load.
  clear Em. match goal with |- context [if ?b then _ else _] => destruct b end; [good q|].
  match goal with |- context [if ?b then _ else _] => destruct b end; [good q|].
  load. repeat case_match; good q.
Qed.

Lemma ipv6_next_good h p :
  padded (cp h) -> is_bytes (mem h) -> 0 <= p -> p + 20 <= caplen (cp h) -> good_next h p (ipv6_next h p).
Proof.
  intros [Hc Hm] Hb Hp Hle. fold (mem h) in Hm. unfold ipv6_next.
  assert (H : exists hs found, ipv6_total_header_size (cp h) p = Ok (hs, found) /\
                match found with Some (q, _) => p < q | None => True end).
  { unfold ipv6_total_header_size. fold (mem h). destruct (limited_caplen _ _ _); [by do 2 eexists|].
    load. destruct (negb _); [do 2 eexists; split; [reflexivity|cbn; unfold sizeof_ip6_hdr; lia]|].
    destruct (ipv6_ext_loop_ok (cp h) (S (Z.to_nat (caplen (cp h)))) (p + sizeof_ip6_hdr) sizeof_ip6_hdr)
      as (hs & found & -> & Hq); unfold sizeof_ip6_hdr in *; try done; try (unfold mem in *; lia).
    exists hs, found. split; [done|]. destruct found as [[q n]|]; [lia | done]. }
  destruct H as (hs & found & -> & Hq). cbn [mbind res_bind]. destruct found as [[q n]|].
  - destruct (slice_in (mem h) (p + 8) 16) as [s ->]; [lia..|]. cbn [mbind res_bind].
    destruct (slice_in (mem h) (p + 24) 16) as [d ->]; [lia..|]. cbn [mbind res_bind].
    load. good q.
  - do 3 eexists. split; [reflexivity|]. done.
Qed.

Lemma ipv4_next_good h p :
  padded (cp h) -> 0 <= p -> p + 20 <= caplen (cp h) -> good_next h p (ipv4_next h p).
Proof.
  intros [Hc Hm] Hp Hle. fold (mem h) in Hm. unfold ipv4_next, ip_hl, ip_src_addr, ip_dst_addr, ip_len, ip_p.
  load. destruct (Z.ltb_spec (v mod 16) 5); [by do 3 eexists|].
  load. load. load. change (mem (h <| last_net := _ |>)) with (mem h). load. good q.
Qed.

Lemma tcp_next_good h p :
  padded (cp h) -> is_bytes (mem h) -> 0 <= p -> p + 20 <= caplen (cp h) -> good_next h p (tcp_next h p).
Proof.
  intros [Hc Hm] Hb Hp Hle. fold (mem h) in Hm. unfold tcp_next, tcp_doff. load.
  assert (Hv : 0 <= v / 16) by (apply rd8_range in Ev; [ints; apply Z.div_pos; lia | done]).
  destruct (_ =? 0).
  - do 3 eexists. split; [reflexivity|]. split_and!; [done|done|done|right; split; [lia|auto]].
  - load. load. destruct (_ || _); do 3 eexists; (split; [reflexivity|]);
      split_and!; try done; right; (split; [lia|auto]).
Qed.

Lemma gre_next_good h p :
  padded (cp h) -> 0 <= p -> p + 4 <= caplen (cp h) -> good_next h p (gre_next h p).
Proof.
  intros [Hc Hm] Hp Hle. fold (mem h) in Hm. unfold gre_next. load.
  do 3 eexists. split; [reflexivity|]. split_and!; [done|done|auto with cap|left].
  repeat case_match; lia.
Qed.

(** Every decoder answers well on a header that is not truncated. *)
Lemma next_good h p t pr next :
  padded (cp h) -> is_bytes (mem h) -> 0 <= p -> protocol h = Some t -> complete h t p ->
  protocol_get t = Some pr -> pr_next_payload pr = Some next -> good_next h p (next h p).
Proof.
  intros Hpad Hb Hp Ht Hcomp Hpr Hnext. pose proof Hpad as [Hc Hm]. fold (mem h) in Hm.
  destruct t; cbn in Hpr; try discriminate Hpr; injection Hpr as <-; cbn in Hnext; try discriminate Hnext;
    injection Hnext as <-; cbn [complete protocol_get pr_size mk_protocol] in Hcomp.
  1, 2, 6, 7, 11, 12, 14, 15:
    do 3 eexists; (split; [reflexivity|]); split_and!; try done; right; (split; [lia|auto]).
  - unfold ethernet_next, h_proto, sizeof_ethhdr. cbn in Hcomp. load. good q.
  - by apply gre_next_good.
  - by apply gtp_next_good.
  - by apply ipv4_next_good.
  - by apply ipv6_next_good.
  - unfold mpls_next_payload. cbn in Hcomp. load.
    match goal with |- context [if ?b then _ else _] => destruct b end; [good q|]. load. repeat case_match; good q.
  - unfold pw_next_payload. good q.
  - by apply tcp_next_good.
  - unfold udp_next. cbn in Hcomp. load. load. unfold sizeof_udphdr. repeat case_match; good q.
  - unfold vlan_next. cbn in Hcomp. load. good q.
Qed.

(** ** The walk *)

(** A header that [header_walk] has delivered. *)
Record delivered (h : header_chunk) (t : ptype) (p : Z) : Prop := {
  d_protocol : protocol h = Some t;
  d_ptr : ptr h = Some p;
  d_in : 0 <= p <= caplen (cp h);
  d_known : t <> PROTOCOL_UNKNOWN;
  d_complete : truncated h = false -> complete h t p;
}.

(** Protocols after which the walk has nothing more to do. *)
Definition terminal (t : ptype) : bool :=
  match t with PROTOCOL_DONE | PROTOCOL_DATA | PROTOCOL_DNS => true | _ => false end.

Lemma header_size_ok h t p :
  padded (cp h) -> protocol h = Some t -> ptr h = Some p -> 0 <= p <= caplen (cp h) -> t <> PROTOCOL_UNKNOWN ->
  header_size h = Abort /\ t = PROTOCOL_GTP /\ gtp_header_size (mem h) p = Abort \/
  exists s, header_size h = Ok s /\ (limited_caplen (cp h) (Some p) s = false -> complete h t p).
Proof.
  intros [Hc Hm] Ht Hptr Hp Hk. fold (mem h) in Hm. unfold header_size, current. rewrite Ht, Hptr.
  assert (Hl : forall s, limited_caplen (cp h) (Some p) s = false -> p + s <= caplen (cp h)).
  { intros s. unfold limited_caplen. rewrite orb_false_iff, Z.ltb_ge, Z.ltb_ge. lia. }
  destruct t; try done; cbn; try (right; eexists; split; [reflexivity|]; apply Hl).
  destruct (gtp_header_size_ok (mem h) p) as [E|(s & E & Hs)]; [lia| |].
  - left. unfold gtp_header_size_adapter. by rewrite E.
  - right. exists s. unfold gtp_header_size_adapter. rewrite E. split; [done|]. intros ?%Hl. eauto.
Qed.

(** The walk got from one header to another by delivering headers. *)
Inductive reaches : header_chunk -> header_chunk -> Prop :=
  | reaches_refl h : reaches h h
  | reaches_step h h1 h2 : header_walk h = Ok (h1, true) -> reaches h1 h2 -> reaches h h2.

(** From [h] the walk arrives at a complete header, behind which the protocol's
    own decoder finds a GTP header inside the captured data, and [gtp_header_size]
    does not support that header. *)
Definition reaches_bad_gtp (h : header_chunk) : Prop :=
  exists h1 t p pr next h2 q,
    reaches h h1 /\ delivered h1 t p /\ truncated h1 = false /\ protocol_get t = Some pr /\
    pr_next_payload pr = Some next /\ next h1 p = Ok (h2, PROTOCOL_GTP, Some q) /\
    0 <= q <= caplen (cp h1) /\ gtp_header_size (mem h1) q = Abort.

Lemma reaches_bad_gtp_step h h1 : header_walk h = Ok (h1, true) -> reaches_bad_gtp h1 -> reaches_bad_gtp h.
Proof.
  intros Hw (h2 & t & p & pr & next & h3 & q & Hr & H). exists h2, t, p, pr, next, h3, q.
  split; [by econstructor|done].
Qed.

(** One step: the walk ends, or it delivers a header that starts later, unless
    that header is a terminal one. *)
Lemma header_walk_step h t p :
  padded (cp h) -> is_bytes (mem h) -> delivered h t p ->
  (header_walk h = Abort /\ reaches_bad_gtp h) \/
  (exists h', header_walk h = Ok (h', false)) \/
  (exists h' t' q, header_walk h = Ok (h', true) /\ cp h' = cp h /\ delivered h' t' q /\ p <= q /\
     terminal t = false /\ (p < q \/ terminal t' = true)).
Proof.
  intros Hpad Hb [Ht Hptr Hin Hk Hcomp]. unfold header_walk. rewrite Hptr. unfold next_payload, current. rewrite Ht.
  destruct (protocol_get t) as [pr|] eqn:Hpr; [|by destruct t]. cbn [mbind res_bind]. rewrite Hptr.
  destruct (pr_next_payload pr) as [next|] eqn:Hnext; [|right; left; eauto].
  destruct (truncated h) eqn:Htr; [right; left; eauto|]. specialize (Hcomp eq_refl).
  assert (Hterm : terminal t = false).
  { destruct t; try done; cbn in Hpr; injection Hpr as <-; discriminate Hnext. }
  destruct (next_good h p t pr next Hpad Hb ltac:(lia) Ht Hcomp Hpr Hnext)
    as (h1 & t1 & out & Hres & Hcp & Htr1 & Hk1 & Hout). rewrite Hres. cbn [mbind res_bind].
  destruct (protocol_get t1) eqn:Hpr1; [|by destruct t1].
  set (h2 := h1 <| ptr := out |> <| protocol := Some t1 |>).
  assert (Hcp2 : cp h2 = cp h) by done. change (ptr h2) with out.
  destruct (_ || _) eqn:Elim; [right; left; eauto|]. apply orb_false_iff in Elim as [Enull Elim].
  destruct out as [q|].
  2:{ subst t1. done. }
  rewrite Hcp2 in *. unfold limited_caplen in Elim. apply orb_false_iff in Elim as [E1%Z.ltb_ge E2%Z.ltb_ge].
  unfold ptr_sanity. rewrite (proj2 (Z.ltb_ge q 0)), (proj2 (Z.ltb_ge (caplen (cp h)) q)) by lia.
  cbn [orb mbind res_bind].
  assert (Hmem : mem h2 = mem h) by (unfold mem; by rewrite Hcp2).
  destruct (header_size_ok h2 t1 q) as [(-> & -> & Hgtp)|(s & -> & Hs)];
    [by rewrite Hcp2|done|done|rewrite Hcp2; lia|done| |].
  { left. split; [done|]. exists h, t, p, pr, next, h1, q. rewrite <- Hmem.
    split; [apply reaches_refl|]. split; [by constructor|]. split_and!; try done; lia. }
  cbn [mbind res_bind]. rewrite Hcp2 in *.
  set (h3 := if limited_caplen (cp h) (Some q) s then _ else _).
  assert (H3 : cp h3 = cp h /\ delivered h3 t1 q).
  { unfold h3. destruct (limited_caplen (cp h) (Some q) s) eqn:El.
    - split; [done|]. constructor; try done; cbn; rewrite ?Hcp; lia.
    - split; [done|]. constructor; try done; cbn; rewrite ?Hcp; try lia. intros _. by apply Hs. }
  destruct H3 as [Hcp3 Hd3].
  rewrite (bool_decide_eq_false_2 (t1 = PROTOCOL_UNKNOWN)) by done. cbn [negb andb].
  destruct (bool_decide_reflect (t1 = PROTOCOL_DONE)) as [->|Hnd]; [right; left; eauto|].
  right; right. exists h3, t1, q. split_and!; try done; [lia|].
  destruct Hout as [Hlt|[Hle [?|Hterm1]]]; [by left|done|right]. by destruct Hterm1 as [-> | ->].
Qed.

(** Offsets do not decrease and lie inside the captured data. *)
Fixpoint offsets_from (lo hi : Z) (l : list (option ptype * option Z)) : Prop :=
  match l with
  | [] => True
  | (_, Some p) :: l => lo <= p <= hi /\ offsets_from p hi l
  | (_, None) :: _ => False
  end.

Lemma walk_ok fuel h t p :
  padded (cp h) -> is_bytes (mem h) -> delivered h t p ->
  (if terminal t then 1 else caplen (cp h) - p + 2) <= Z.of_nat fuel ->
  (walk fuel h = Abort /\ reaches_bad_gtp h) \/
  exists l, walk fuel h = Ok l /\ offsets_from p (caplen (cp h)) l.
Proof.
  revert h t p. induction fuel as [|fuel IH]; intros h t p Hpad Hb Hd Hf;
    pose proof (d_in _ _ _ Hd); [destruct (terminal t); lia|].
  cbn [walk]. destruct (header_walk_step h t p Hpad Hb Hd)
    as [[-> Hg]|[[h' ->]|(h' & t' & q & Hw & Hcp & Hd' & Hpq & Ht & Hprog)]]; [by left|right; by exists []|].
  rewrite Hw. cbn [mbind res_bind]. rewrite Ht in Hf. pose proof (d_in _ _ _ Hd') as Hq.
  destruct (IH h' t' q) as [[-> Hg]|(l & -> & Hl)].
  - by rewrite Hcp.
  - unfold mem in *. by rewrite Hcp.
  - done.
  - rewrite Hcp in *. destruct Hprog as [?|Ht']; [destruct (terminal t')|rewrite Ht']; lia.
  - left. split; [done|by apply (reaches_bad_gtp_step h h')].
  - right. eexists. split; [reflexivity|]. rewrite (d_ptr _ _ _ Hd'). rewrite Hcp in *. split; [lia | done].
Qed.

Lemma header_walk_first c :
  padded c -> exists h, header_walk (header_init c) = Ok (h, true) /\ cp h = c /\ delivered h PROTOCOL_ETHERNET 0.
Proof.
  intros [Hc Hm]. unfold header_walk, header_init. cbn -[limited_caplen].
  destruct (limited_caplen c (Some 0) 14) eqn:E; eexists; (split; [reflexivity|]); (split; [done|]);
    constructor; try done. cbn. intros _. unfold limited_caplen in E. apply orb_false_iff in E as [_ E%Z.ltb_ge]. lia.
Qed.

(** ** Claims *)

(** C4: Walking the headers of any captured packet, however it is corrupted or
    truncated, ends; the pointer check never fires and no protocol is missing:
    the only abort is the one of the GTP decoder, and then the walk has reached a
    complete header (by delivering every header before it) behind which that
    header's decoder finds a GTP header that starts inside the captured data and
    has a version or flags [gtp_header_size] does not support.  In every other
    case the walk succeeds: the headers are delivered in order of position and
    start inside the captured data.  The memory has to be readable for 20 bytes
    beyond the captured length ([padded]). *)
Theorem walk_packet_safe (c : cap_header) :
  padded c -> is_bytes (payload c) ->
  (walk_packet c = Abort /\ reaches_bad_gtp (header_init c)) \/
  exists l, walk_packet c = Ok ((Some PROTOCOL_ETHERNET, Some 0) :: l) /\ offsets_from 0 (caplen c) l.
Proof.
  intros Hpad Hb. unfold walk_packet.
  assert (Hn : caplen c + 2 <= Z.of_nat (S (S (Z.to_nat (caplen c))))) by (destruct Hpad; lia).
  revert Hn. generalize (S (S (Z.to_nat (caplen c)))). intros n Hn. cbn [walk].
  destruct (header_walk_first c Hpad) as (h & Hw & Hcp & Hd). rewrite Hw. cbn [mbind res_bind].
  destruct (walk_ok n h PROTOCOL_ETHERNET 0) as [[-> Hg]|(l & -> & Hl)];
    [by rewrite Hcp|unfold mem; by rewrite Hcp|done|cbn [terminal]; rewrite Hcp; lia| |].
  - left. split; [done|by apply (reaches_bad_gtp_step _ h)].
  - right. exists l. rewrite Hcp in Hl. by rewrite (d_ptr _ _ _ Hd), (d_protocol _ _ _ Hd).
Qed.

Definition ex_padded (m : bytes) : cap_header := (ex_cap m) <| payload := m ++ replicate 20 0 |>.

Lemma walk_packet_safe_witness :
  let c := ex_padded (ipv4_frame ex_macs [1] (ex_ip ++ ex_tcp ++ ex_data)) in
  exists l, walk_packet c = Ok ((Some PROTOCOL_ETHERNET, Some 0) :: l) /\ offsets_from 0 (caplen c) l.
Proof.
  intros c. destruct (walk_packet_safe c) as [[H _]|H].
  - vm_compute. split; discriminate.
  - vm_compute. repeat constructor; discriminate.
  - vm_compute in H. discriminate H.
  - exact H.
Defined.

(** ** The walk of an ordinary frame *)

(** A step to a complete header of a fixed-size protocol. *)
Lemma header_walk_to h t p pr next h1 t1 pr1 q :
  protocol h = Some t -> ptr h = Some p -> truncated h = false ->
  protocol_get t = Some pr -> pr_next_payload pr = Some next -> next h p = Ok (h1, t1, Some q) ->
  cp h1 = cp h -> truncated h1 = false -> 0 <= q ->
  protocol_get t1 = Some pr1 -> pr_size_dyn pr1 = None -> 0 <= pr_size pr1 -> q + pr_size pr1 <= caplen (cp h) ->
  t1 <> PROTOCOL_DONE -> t1 <> PROTOCOL_UNKNOWN ->
  header_walk h = Ok (h1 <| ptr := Some q |> <| protocol := Some t1 |>, true).
Proof.
  intros Ht Hp Htr Hpr Hn Hnext Hcp Htr1 Hq Hpr1 Hdyn Hs0 Hsz Hd Hu.
  unfold header_walk. rewrite Hp. unfold next_payload, current. rewrite Ht, Hpr. cbn [mbind res_bind].
  rewrite Hn, Hp, Htr, Hnext. cbn [mbind res_bind]. rewrite Hpr1.
  set (h2 := h1 <| ptr := Some q |> <| protocol := Some t1 |>).
  change (ptr h2) with (Some q). change (cp h2) with (cp h1). rewrite Hcp. unfold limited_caplen, ptr_sanity.
  rewrite !(proj2 (Z.ltb_ge q 0)), !(proj2 (Z.ltb_ge (caplen (cp h)) _)) by lia. cbn [bool_decide andb orb mbind res_bind].
  rewrite bool_decide_eq_false_2 by done. cbn [andb orb mbind res_bind].
  unfold header_size, current. change (protocol h2) with (Some t1). cbv beta iota. rewrite Hpr1. cbn [mbind res_bind]. rewrite Hdyn.
  cbn [mbind res_bind]. rewrite (proj2 (Z.ltb_ge (caplen (cp h)) _)) by lia.
  by rewrite !bool_decide_eq_false_2 by done.
Qed.

(** The current header ends with an Ethernet type just before offset [o]. *)
Definition typed_at (h : header_chunk) (o : Z) : Prop :=
  truncated h = false /\
  (protocol h = Some PROTOCOL_ETHERNET /\ ptr h = Some (o - 14) \/
   protocol h = Some PROTOCOL_VLAN /\ ptr h = Some (o - 4)).

Lemma typed_step h o t t1 pr1 :
  typed_at h o -> be16 (mem h) (o - 2) = Ok t -> ethertype_next t = t1 -> 0 <= o ->
  protocol_get t1 = Some pr1 -> pr_size_dyn pr1 = None -> 0 <= pr_size pr1 -> o + pr_size pr1 <= caplen (cp h) ->
  t1 <> PROTOCOL_DONE -> t1 <> PROTOCOL_UNKNOWN ->
  header_walk h = Ok (h <| ptr := Some o |> <| protocol := Some t1 |>, true).
Proof.
  intros [Htr [[Hp Hq]|[Hp Hq]]] Hbe Ht Ho Hpr1 Hdyn Hs0 Hsz Hd Hu.
  - apply (header_walk_to h PROTOCOL_ETHERNET (o - 14) protocol_ethernet ethernet_next h t1 pr1 o); try done.
    unfold ethernet_next, h_proto. replace (o - 14 + 12) with (o - 2) by lia. rewrite Hbe. cbn.
    unfold sizeof_ethhdr. rewrite Ht. do 3 f_equal. lia.
  - apply (header_walk_to h PROTOCOL_VLAN (o - 4) protocol_vlan vlan_next h t1 pr1 o); try done.
    unfold vlan_next. replace (o - 4 + 2) with (o - 2) by lia. rewrite Hbe. cbn. rewrite Ht. do 3 f_equal. lia.
Qed.

(** The headers of the tags, and then of the datagram at [o]. *)
Fixpoint tag_headers (tcis : list Z) (o : Z) : list (option ptype * option Z) :=
  match tcis with
  | [] => [(Some PROTOCOL_IPV4, Some o)]
  | _ :: tcis => (Some PROTOCOL_VLAN, Some o) :: tag_headers tcis (o + 4)
  end.

Lemma walk_tags tcis : forall fuel h pre tail o,
  mem h = pre ++ tags tcis ETHERTYPE_IP ++ tail -> o = blen pre + 2 -> typed_at h o ->
  caplen (cp h) = blen (mem h) -> 20 <= blen tail ->
  let ip := o + 4 * Z.of_nat (length tcis) in
  walk (S (length tcis) + fuel) h =
    (rest ← walk fuel (h <| ptr := Some ip |> <| protocol := Some PROTOCOL_IPV4 |>);
     Ok (tag_headers tcis o ++ rest)).
Proof.
  induction tcis as [|tci tcis IH]; intros fuel h pre tail o Hm Ho Hty Hcap Htail ip.
  - cbn [length Nat.add walk tag_headers app]. cbn [tags] in Hm.
    rewrite (typed_step h o ETHERTYPE_IP PROTOCOL_IPV4 protocol_ipv4); try done.
    + cbn [mbind res_bind]. unfold ip. by replace (o + 4 * Z.of_nat (length [])) with o by (cbn; lia).
    + rewrite Hm. apply be16_at; [lia|done].
    + pose proof (blen_nonneg pre). lia.
    + rewrite Hcap, Hm, !blen_app, blen_wr16be. cbn. lia.
  - cbn [tags] in Hm. rewrite <- !(assoc_L (++)) in Hm.
    pose proof (blen_nonneg pre). pose proof (blen_tags tcis ETHERTYPE_IP).
    change (S (length (tci :: tcis)) + fuel)%nat with (S (S (length tcis) + fuel)). cbn [walk].
    rewrite (typed_step h o ETHERTYPE_VLAN PROTOCOL_VLAN protocol_vlan); try done; try lia.
    + cbn [mbind res_bind].
      set (h' := h <| ptr := Some o |> <| protocol := Some PROTOCOL_VLAN |>).
      rewrite (IH fuel h' (pre ++ wr16be ETHERTYPE_VLAN ++ wr16be tci) tail (o + 4)).
      * cbn [tag_headers length]. subst ip.
        replace (o + 4 + 4 * Z.of_nat (length tcis)) with (o + 4 * Z.of_nat (S (length tcis))) by lia.
        change (h' <| ptr := ?x |> <| protocol := ?y |>) with (h <| ptr := x |> <| protocol := y |>).
        destruct (walk fuel _); done.
      * unfold h', mem in *. cbn [cp field_set]. rewrite Hm. by rewrite <- !(assoc_L (++)).
      * rewrite !blen_app, !blen_wr16be. lia.
      * split; [apply Hty|]. right. split; [done|]. cbn. f_equal. lia.
      * done.
      * done.
    + rewrite Hm. apply be16_at; [lia|done].
    + rewrite Hcap, Hm, !blen_app, !blen_wr16be. pose proof (blen_nonneg tail). cbn. lia.
Qed.

(** From a complete IPv4 header to the end of a TCP segment with data. *)
Lemma walk_ipv4_tcp fuel h pre hdr tcp data pad sp dp :
  mem h = pre ++ hdr ++ tcp ++ data ++ pad -> caplen (cp h) = blen (mem h) ->
  protocol h = Some PROTOCOL_IPV4 -> ptr h = Some (blen pre) -> truncated h = false ->
  ipv4_hdr hdr IPPROTO_TCP (blen hdr + blen tcp + blen data) -> tcp_hdr tcp ->
  be16 tcp 0 = Ok sp -> be16 tcp 2 = Ok dp -> sp <> PORT_DNS -> dp <> PORT_DNS ->
  0 < blen data -> blen hdr + blen tcp + blen data < 65536 ->
  walk (S (S (S fuel))) h =
    Ok [(Some PROTOCOL_TCP, Some (blen pre + blen hdr));
        (Some PROTOCOL_DATA, Some (blen pre + blen hdr + blen tcp))].
Proof.
  intros Hm Hcap Hpr Hptr Htr Hip (H20 & Hdoff) Hsp Hdp Nsp Ndp Hdata Hsz.
  destruct (ip_fields pre hdr (tcp ++ data ++ pad) (blen pre) _ _ Hip eq_refl) as ((hl & Hhl & Ehl) & Hlen & Hp).
  rewrite <- Hm in Hhl, Hlen, Hp. destruct Hip as (Hh20 & _).
  assert (Htot : blen (mem h) = blen pre + blen hdr + blen tcp + blen data + blen pad)
    by (rewrite Hm, !blen_app; lia).
  pose proof (blen_nonneg pre). pose proof (blen_nonneg pad).
  destruct (rd32_in (mem h) (blen pre + 12)) as [src Hsrc]; [lia..|].
  destruct (rd32_in (mem h) (blen pre + 16)) as [dst Hdst]; [lia..|].
  set (net := {| net_src := Net4 src; net_dst := Net4 dst; plen := u64 (blen hdr + blen tcp + blen data - 4 * hl) |}).
  set (q := blen pre + blen hdr).
  assert (Hnext : ipv4_next h (blen pre) = Ok (h <| last_net := net |>, PROTOCOL_TCP, Some q)).
  { unfold ipv4_next, ip_src_addr, ip_dst_addr. rewrite Hhl. cbn [mbind res_bind].
    rewrite (proj2 (Z.ltb_ge hl 5)), Hsrc, Hdst, Hlen by lia. cbn [mbind res_bind].
    change (mem (h <| last_net := _ |>)) with (mem h). rewrite Hp. cbn [mbind res_bind].
    do 3 f_equal. unfold q. lia. }
  cbn [walk]. rewrite (header_walk_to h PROTOCOL_IPV4 (blen pre) protocol_ipv4 ipv4_next
    (h <| last_net := net |>) PROTOCOL_TCP protocol_tcp q); try done; try (unfold q; cbn; lia).
  cbn [mbind res_bind].
  set (h1 := h <| last_net := net |> <| ptr := Some q |> <| protocol := Some PROTOCOL_TCP |>).
  assert (Hmem1 : mem h1 = (pre ++ hdr) ++ tcp ++ data ++ pad)
    by (unfold h1, mem in *; cbn [cp field_set]; rewrite Hm; by rewrite <- !(assoc_L (++))).
  assert (Hq : q = blen (pre ++ hdr)) by (rewrite blen_app; done).
  assert (Hnext1 : tcp_next h1 q = Ok (h1, PROTOCOL_DATA, Some (q + blen tcp))).
  { unfold tcp_next, tcp_doff. rewrite Hmem1, (rd8_mid _ _ _ _ 12) by lia. inv_ok. rewrite Hv.
    cbn [mbind res_bind]. change (plen (last_net h1)) with (u64 (blen hdr + blen tcp + blen data - 4 * hl)).
    rewrite (u64_id (_ - 4 * hl)) by (ints; lia). rewrite u64_id by (ints; lia).
    rewrite (proj2 (Z.eqb_neq _ 0)) by lia.
    rewrite (be16_mid _ _ _ q 0), (be16_mid _ _ _ (q + 2) 2), Hsp, Hdp by lia. cbn [mbind res_bind].
    rewrite (proj2 (Z.eqb_neq sp _)), (proj2 (Z.eqb_neq dp _)) by done. cbn [orb]. do 3 f_equal. lia. }
  rewrite (header_walk_to h1 PROTOCOL_TCP q protocol_tcp tcp_next h1 PROTOCOL_DATA protocol_data (q + blen tcp));
    done || (unfold q; cbn; lia).
Qed.

(** C19: The walk of an ordinary frame delivers the Ethernet header, every VLAN
    tag, the IPv4 header, the TCP header behind all its options and the data,
    each at the offset where it starts. *)
Theorem walk_packet_tcp (c : cap_header) (macs : bytes) (tcis : list Z) (hdr tcp data pad : bytes) (sp dp : Z) :
  payload c = ipv4_frame macs tcis (hdr ++ tcp ++ data ++ pad) -> caplen c = blen (payload c) ->
  blen macs = 12 -> ipv4_hdr hdr IPPROTO_TCP (blen hdr + blen tcp + blen data) -> tcp_hdr tcp ->
  be16 tcp 0 = Ok sp -> be16 tcp 2 = Ok dp -> sp <> PORT_DNS -> dp <> PORT_DNS ->
  0 < blen data -> blen hdr + blen tcp + blen data < 65536 ->
  let ip := 14 + 4 * Z.of_nat (length tcis) in
  walk_packet c =
    Ok ((Some PROTOCOL_ETHERNET, Some 0) :: tag_headers tcis 14 ++
        [(Some PROTOCOL_TCP, Some (ip + blen hdr)); (Some PROTOCOL_DATA, Some (ip + blen hdr + blen tcp))]).
Proof.
  intros Hp Hcap Hmac Hip Htcp Hsp Hdp Nsp Ndp Hdata Hsz ip.
  assert (Hmem : payload c = (macs ++ tags tcis ETHERTYPE_IP) ++ hdr ++ tcp ++ data ++ pad)
    by (rewrite Hp; unfold ipv4_frame; by rewrite <- !(assoc_L (++))).
  assert (Htot : blen (payload c) = ip + blen hdr + blen tcp + blen data + blen pad)
    by (rewrite Hmem, !blen_app, blen_tags; unfold ip; lia).
  pose proof (blen_nonneg pad). pose proof (proj1 Hip). pose proof (proj1 Htcp).
  set (h0 := (header_init c) <| protocol := Some PROTOCOL_ETHERNET |> <| ptr := Some 0 |>).
  assert (Hfirst : header_walk (header_init c) = Ok (h0, true)).
  { unfold header_walk, header_init. cbn -[limited_caplen]. unfold limited_caplen.
    by rewrite (proj2 (Z.ltb_ge (caplen c) _)) by lia. }
  assert (Hfuel : exists f, S (S (S (Z.to_nat (caplen c)))) = S (S (length tcis) + S (S (S f)))).
  { exists (Z.to_nat (caplen c) - length tcis - 2)%nat. unfold ip in *. lia. }
  unfold walk_packet. destruct Hfuel as [f ->]. cbn [walk]. rewrite Hfirst. cbn [mbind res_bind].
  rewrite (walk_tags tcis (S (S (S f))) h0 macs (hdr ++ tcp ++ data ++ pad) 14); try done.
  2: by rewrite Hmac.
  2:{ split; [done|]. by left. }
  2:{ rewrite !blen_app. lia. }
  erewrite (walk_ipv4_tcp f _ (macs ++ tags tcis ETHERTYPE_IP) hdr tcp data pad sp dp); try done.
  - cbn [mbind res_bind]. replace (blen (macs ++ tags tcis ETHERTYPE_IP)) with ip
      by (rewrite blen_app, blen_tags, Hmac; unfold ip; lia). done.
  - rewrite blen_app, blen_tags, Hmac. cbn. f_equal. lia.
Qed.

Lemma walk_packet_tcp_witness :
  walk_packet (ex_cap (ipv4_frame ex_macs [1] (ex_ip ++ ex_tcp ++ ex_data ++ [0]))) =
    Ok [(Some PROTOCOL_ETHERNET, Some 0); (Some PROTOCOL_VLAN, Some 14); (Some PROTOCOL_IPV4, Some 18);
        (Some PROTOCOL_TCP, Some 38); (Some PROTOCOL_DATA, Some 58)].
Proof.
  apply (walk_packet_tcp (ex_cap (ipv4_frame ex_macs [1] (ex_ip ++ ex_tcp ++ ex_data ++ [0])))
    ex_macs [1] ex_ip ex_tcp ex_data [0] 1024 80); try reflexivity; try discriminate;
    vm_compute; repeat split; discriminate.
Defined.

(** One packet stops the program: a GTP header of a version other than 1 and
    2, or with extension headers, makes the walk abort. *)
Theorem walk_packet_gtp_abort :
  let udp := [8; 104; 8; 104; 0; 20; 0; 0] in
  let ip := [69; 0; 0; 40; 0; 0; 0; 0; 64; 17; 0; 0; 10; 0; 0; 1; 10; 0; 0; 2] in
  walk_packet (ex_padded (ipv4_frame ex_macs [] (ip ++ udp ++ replicate 12 0))) = Abort /\
  walk_packet (ex_padded (ipv4_frame ex_macs [] (ip ++ udp ++ 52 :: replicate 11 0))) = Abort.
Proof. vm_compute. done. Qed.

(** Without readable memory behind the capture the walk can read past it: an
    MPLS bottom-of-stack header at the very end of the packet does. *)
Theorem walk_packet_mpls_overread :
  walk_packet (ex_cap (ex_macs ++ wr16be ETHERTYPE_MPLS ++ [0; 1; 1; 64])) = Fault.
Proof. vm_compute. reflexivity. Qed.
