(* ===== verification/ConnectionId.v ===== *)
(** * Connection identifiers (src/packet/connection_id.c)

    Connections are kept in 256 buckets of growing arrays ([Slist]); the two
    directions of a connection are two adjacent entries that point at each other.
    The entries ([struct entry]) are allocated one by one and shared between the
    array of keys and the states: a pointer to one is its index in [heap]. *)

From S2P Require Import Prelude CLib Picotime Slist Utils Address Packet Filter.

(** ** Data *)
Record entry := {
  e_protocol : Z;
  finished : Z;
  e_src : Z;
  e_dst : Z;
  e_sport : Z;
  e_dport : Z;
}.
#[export] Instance entry_rebuild : Rebuild entry := fun e =>
  {| e_protocol := e_protocol e; finished := finished e; e_src := e_src e; e_dst := e_dst e;
     e_sport := e_sport e; e_dport := e_dport e |}.
#[export] Instance entry_eq_dec : EqDecision entry.
Proof. solve_decision. Defined.

Record state := {
  seq_ : Z;
  s_entry : nat;
  sibling : option sptr;
  id : Z;
}.
#[export] Instance state_rebuild : Rebuild state := fun s =>
  {| seq_ := seq_ s; s_entry := s_entry s; sibling := sibling s; id := id s |}.

Abbreviation bucket := (slist nat state).

Definition PROTOCOL_IPV4_ID : Z := 11.
Definition bucket_count : Z := 256.
Definition sizeof_state : Z := 32.
Definition CONNECTION_ID_NONE : Z := 0.

(** The part of the static data that one call works on. *)
Record conn := { cb : bucket; heap : list entry; counter : Z }.
#[export] Instance conn_rebuild : Rebuild conn := fun c =>
  {| cb := cb c; heap := heap c; counter := counter c |}.

(** [++counter], an [int], and its value as a [connection_id_t]. *)
Definition next_count (k : Z) : Z := i32 (k + 1).
Definition next_id (k : Z) : Z := u32 (next_count k).

Definition entry_at (c : conn) (k : nat) : res entry :=
  match heap c !! k with Some e => Ok e | None => Fault end.
Definition get_state (c : conn) (p : sptr) : res state := deref (cb c) p.
Definition put_state (c : conn) (p : sptr) (s : state) : res conn :=
  b ← store (cb c) p s; Ok (c <| cb := b |>).

Definition connection_id_cmp (h : list entry) (cur : nat) (key : entry) : Z :=
  if decide (h !! cur = Some key) then 0 else 1.

(** A fresh copy of [e] becomes the key of a new, zeroed state. *)
Definition entry_put (c : conn) (e : entry) (i : Z) : res (conn * sptr) :=
  let key := length (heap c) in
  let c := c <| heap := heap c ++ [e] |> in
  '(b, p) ← slist_put (cb c) key;
  let c := c <| cb := b |> in
  c ← put_state c p {| seq_ := 0; s_entry := key; sibling := None; id := i |};
  Ok (c, p).

Definition ipv4_forward (src dst sport dport : Z) : entry :=
  {| e_protocol := PROTOCOL_IPV4_ID; finished := 0; e_src := src; e_dst := dst; e_sport := sport; e_dport := dport |}.
Definition ipv4_backward (src dst sport dport : Z) : entry :=
  {| e_protocol := PROTOCOL_IPV4_ID; finished := 0; e_src := dst; e_dst := src; e_sport := dport; e_dport := sport |}.

(** The ports of the last header found win; both entries, or nothing. *)
Definition ipv4_connection_id (cp : cap_header) (ip : Z) : res (option (entry * entry)) :=
  let m := payload cp in
  tcp ← find_tcp_header m 0 0 (Some ip) true;
  udp ← find_udp_header m 0 0 (Some ip) true;
  match udp, tcp with
  | None, None => Ok None
  | Some (_, (sport, dport)), _ | None, Some (_, (sport, dport)) =>
      src ← ip_src_addr m ip; dst ← ip_dst_addr m ip;
      Ok (Some (ipv4_forward src dst sport dport, ipv4_backward src dst sport dport))
  end.

Definition ipv4_bucket_select (m : bytes) (ip : Z) : res Z :=
  src ← ip_src_addr m ip; dst ← ip_dst_addr m ip;
  Ok (Z.lxor src dst mod bucket_count).

Definition tcp_seq (m : bytes) (tcp : Z) : res Z := rd32 m (tcp + 4).
Definition tcp_syn (m : bytes) (tcp : Z) : res bool := b ← rd8 m (tcp + 13); Ok (Z.testbit b 1).
Definition tcp_ack (m : bytes) (tcp : Z) : res bool := b ← rd8 m (tcp + 13); Ok (Z.testbit b 4).

(** [find_ipv4_header] and then [find_tcp_header] without ports. *)
Definition find_tcp (m : bytes) : res (option Z) :=
  found ← find_ipv4_header m 0;
  t ← find_tcp_header m 0 0 (option_map fst found) false;
  Ok (option_map fst t).

(** A SYN without ACK, and its sequence number. *)
Definition opening_seq (m : bytes) : res (option Z) :=
  t ← find_tcp m;
  match t with
  | None => Ok None
  | Some tcp =>
      syn ← tcp_syn m tcp; ack ← tcp_ack m tcp;
      if syn && negb ack then s ← tcp_seq m tcp; Ok (Some s) else Ok None
  end.

Definition set_finished (c : conn) (k : nat) : res conn :=
  e ← entry_at c k; Ok (c <| heap := <[k := e <| finished := 1 |>]> (heap c) |>).

(** The new states get the sequence number and each other. *)
Definition link_new (c : conn) (new0 new1 : sptr) (seq : Z) : res conn :=
  n0 ← get_state c new0;
  c ← put_state c new0 (n0 <| seq_ := seq |> <| sibling := Some new1 |>);
  n1 ← get_state c new1;
  put_state c new1 (n1 <| seq_ := seq |> <| sibling := Some new0 |>).
(** The old entries are marked as finished. *)
Definition finish_old (c : conn) (st : sptr) : res conn :=
  s ← get_state c st;
  c ← set_finished c (s_entry s);
  s ← get_state c st;
  sib ← match sibling s with Some p => get_state c p | None => Fault end;
  set_finished c (s_entry sib).

(** The state pointers of the caller stay in use while [entry_put] adds to the
    arrays they point into. *)
Definition connection_id_tcp_syn (c : conn) (cp : cap_header) (st : sptr) : res (conn * sptr) :=
  o ← opening_seq (payload cp);
  match o with
  | None => Ok (c, st)
  | Some seq =>
      s ← get_state c st;
      if seq_ s =? seq then Ok (c, st)
      else
        let i := next_id (counter c) in
        let c := c <| counter := next_count (counter c) |> in
        e0 ← entry_at c (s_entry s);
        '(c, new0) ← entry_put c e0 i;
        s ← get_state c st;
        sib ← match sibling s with Some p => get_state c p | None => Fault end;
        e1 ← entry_at c (s_entry sib);
        '(c, new1) ← entry_put c e1 i;
        c ← link_new c new0 new1 seq;
        c ← finish_old c st;
        Ok (c, new0)
  end.

(** The sequence number a new state starts with. *)
Definition initial_seq (m : bytes) : res Z :=
  t ← find_tcp m;
  match t with None => Ok 0 | Some tcp => tcp_seq m tcp end.

(** The body of the loop over the two directions. *)
Definition new_state (c : conn) (m : bytes) (e : entry) (i : Z) : res (conn * sptr) :=
  '(c, p) ← entry_put c e i;
  seq ← initial_seq m;
  n ← get_state c p;
  c ← put_state c p (n <| seq_ := seq |>);
  Ok (c, p).

(** [new[i]->sibling = new[1-i]] for both. *)
Definition set_siblings (c : conn) (new0 new1 : sptr) : res conn :=
  n0 ← get_state c new0; c ← put_state c new0 (n0 <| sibling := Some new1 |>);
  n1 ← get_state c new1; put_state c new1 (n1 <| sibling := Some new0 |>).

Definition connection_id_search (c : conn) (cp : cap_header) (e0 e1 : entry) : res (conn * Z) :=
  match slist_find (connection_id_cmp (heap c)) (cb c) e0 with
  | Some st =>
      '(c, st) ← connection_id_tcp_syn c cp st;
      s ← get_state c st;
      Ok (c, id s)
  | None =>
      let i := next_id (counter c) in
      let c := c <| counter := next_count (counter c) |> in
      '(c, new0) ← new_state c (payload cp) e0 i;
      '(c, new1) ← new_state c (payload cp) e1 i;
      c ← set_siblings c new0 new1;
      Ok (c, i)
  end.

(** The static data: all buckets; the lists are initialised before first use. *)
Record conn_db := { buckets : list bucket; db_heap : list entry; db_counter : Z }.

Definition initial_db : conn_db :=
  {| buckets := replicate 256 (slist_init 8 sizeof_state 32); db_heap := []; db_counter := 0 |}.

Definition connection_id (db : conn_db) (cp : cap_header) : res (conn_db * Z) :=
  let m := payload cp in
  found ← find_ipv4_header m 0;
  match option_map fst found with
  | None => Ok (db, CONNECTION_ID_NONE)
  | Some ip =>
      es ← ipv4_connection_id cp ip;
      match es with
      | None => Ok (db, CONNECTION_ID_NONE)
      | Some (e0, e1) =>
          b ← ipv4_bucket_select m ip;
          match buckets db !! Z.to_nat b with
          | None => Fault
          | Some bk =>
              '(c, i) ← connection_id_search {| cb := bk; heap := db_heap db; counter := db_counter db |} cp e0 e1;
              Ok ({| buckets := <[Z.to_nat b := cb c]> (buckets db); db_heap := heap c; db_counter := counter c |}, i)
          end
      end
  end.

(** ** Examples *)

(** A TCP packet of one byte of data; [src] and [dst] are the last octets of
    addresses in one network. *)
Definition tcp_packet (src dst sport dport flags sequence : Z) : cap_header :=
  ex_cap (ipv4_frame ex_macs []
    ([69; 0; 0; 41; 0; 0; 0; 0; 64; 6; 0; 0; 10; 0; 0; src; 10; 0; 0; dst]
     ++ wr16be sport ++ wr16be dport ++ wr32be sequence ++ [0; 0; 0; 0; 80; flags; 0; 0; 0; 0; 0; 0] ++ [97])).
Definition SYN : Z := 2.
Definition SYNACK : Z := 18.

Fixpoint run_ids (db : conn_db) (pkts : list cap_header) : res (conn_db * list Z) :=
  match pkts with
  | [] => Ok (db, [])
  | p :: pkts => '(db, i) ← connection_id db p; '(db, is_) ← run_ids db pkts; Ok (db, i :: is_)
  end.
Definition ids (pkts : list cap_header) : res (list Z) := '(_, l) ← run_ids initial_db pkts; Ok l.

(** ** What a bucket stores *)

(** The entry of the other direction. *)
Definition mirror (e : entry) : entry :=
  {| e_protocol := e_protocol e; finished := finished e; e_src := e_dst e; e_dst := e_src e;
     e_sport := e_dport e; e_dport := e_sport e |}.

Lemma mirror_mirror e : mirror (mirror e) = e.
Proof. by destruct e. Qed.

(** A bucket is a list of connections, both directions next to each other. *)
Definition flat (ps : list (entry * Z)) : list entry := ps ≫= fun p => [fst p; mirror (fst p)].
Definition flat_ids (ps : list (entry * Z)) : list Z := ps ≫= fun p => [snd p; snd p].

Record rep (c : conn) (ps : list (entry * Z)) : Prop := {
  rep_wf : slist_wf (cb c);
  rep_even : Z.even (capacity (cb c)) = true;
  rep_key : Forall2 (fun k e => heap c !! k = Some e) (key (cb c)) (flat ps);
  rep_val : Forall2 (fun v i => exists s, v = Some s /\ id s = i) (value (cb c)) (flat_ids ps);
}.

Lemma length_flat ps : length (flat ps) = (2 * length ps)%nat.
Proof. induction ps as [|p ps IH]; [done|]. cbn. unfold flat in IH. rewrite IH. lia. Qed.
Lemma length_flat_ids ps : length (flat_ids ps) = (2 * length ps)%nat.
Proof. induction ps as [|p ps IH]; [done|]. cbn. unfold flat_ids in IH. rewrite IH. lia. Qed.
Lemma flat_app ps qs : flat (ps ++ qs) = flat ps ++ flat qs.
Proof. unfold flat. apply bind_app. Qed.
Lemma flat_ids_app ps qs : flat_ids (ps ++ qs) = flat_ids ps ++ flat_ids qs.
Proof. unfold flat_ids. apply bind_app. Qed.

(** Allocation: one more key, one more zeroed state; the arrays move exactly when
    they are full. *)
Lemma entry_put_spec c e i :
  slist_wf (cb c) -> 2 * capacity (cb c) < 2147483648 ->
  exists c', entry_put c e i = Ok (c', slist_get (cb c') (size (cb c))) /\
    slist_wf (cb c') /\ heap c' = heap c ++ [e] /\ counter c' = counter c /\
    key (cb c') = key (cb c) ++ [length (heap c)] /\
    value (cb c') = value (cb c) ++ [Some {| seq_ := 0; s_entry := length (heap c); sibling := None; id := i |}] /\
    size (cb c') = size (cb c) + 1 /\ element_size (cb c') = element_size (cb c) /\
    ((size (cb c) < capacity (cb c) /\ capacity (cb c') = capacity (cb c) /\ vblk (cb c') = vblk (cb c)) \/
     (size (cb c) = capacity (cb c) /\ capacity (cb c') = 2 * capacity (cb c))).
Proof.
  intros Hwf Hcap. unfold entry_put. cbn [cb heap field_set].
  destruct (slist_put_spec (cb c) (length (heap c)) Hwf Hcap) as (b & E & Hwf' & Hk & Hv & Hs & He & Hgrow).
  rewrite E. cbn [mbind res_bind]. unfold put_state, store. cbn [cb field_set].
  pose proof (wf_value _ Hwf) as Hlen. pose proof (wf_elem _ Hwf').
  rewrite slot_get by lia. cbn [mbind res_bind]. match goal with |- exists _, Ok (?x, _) = _ /\ _ => exists x end. split; [reflexivity|].
  cbn [cb heap counter field_set key value size element_size capacity vblk].
  assert (Hins : <[Z.to_nat (size (cb c)) := Some {| seq_ := 0; s_entry := length (heap c); sibling := None; id := i |}]> (value b)
    = value (cb c) ++ [Some {| seq_ := 0; s_entry := length (heap c); sibling := None; id := i |}]).
  { rewrite Hv, Hlen, Nat2Z.id. replace (length (value (cb c))) with (length (value (cb c)) + 0)%nat at 1 by lia.
    by rewrite insert_app_r. }
  split_and!; try done.
  - destruct Hwf'. constructor; cbn; try done. rewrite length_insert. done.
  - destruct Hgrow as [(? & ? & ?)|(? & ? & _)]; [left|right]; done.
Qed.

(** Access to the state in slot [n]. *)
Definition set_val (c : conn) (n : nat) (s : state) : conn :=
  c <| cb := (cb c) <| value := <[n := Some s]> (value (cb c)) |> |>.

Lemma set_val_wf c n s : slist_wf (cb c) -> slist_wf (cb (set_val c n s)).
Proof. intros []. constructor; cbn; rewrite ?length_insert; done. Qed.

Lemma access c n s p :
  slist_wf (cb c) -> value (cb c) !! n = Some (Some s) -> p = slist_get (cb c) (Z.of_nat n) ->
  get_state c p = Ok s /\ forall s', put_state c p s' = Ok (set_val c n s').
Proof.
  intros Hwf Hv ->. pose proof (wf_elem _ Hwf). pose proof (wf_value _ Hwf). pose proof (lookup_lt_Some _ _ _ Hv).
  assert (E : slot (cb c) (slist_get (cb c) (Z.of_nat n)) = Ok n) by (rewrite slot_get, Nat2Z.id by lia; done).
  unfold get_state, put_state, deref, store. split; [rewrite E; cbn [mbind res_bind]; by rewrite Hv|]. intros s'. rewrite E. cbn [mbind res_bind]. unfold set_val. reflexivity.
Qed.

Lemma slist_get_ext (a b : bucket) i :
  vblk a = vblk b -> element_size a = element_size b -> slist_get a i = slist_get b i.
Proof. intros H1 H2. unfold slist_get, delta. by rewrite H1, H2. Qed.

Lemma Forall2_heap_app h h' ks es :
  Forall2 (fun k e => h !! k = Some e) ks es -> Forall2 (fun k (e : entry) => (h ++ h') !! k = Some e) ks es.
Proof. apply Forall2_impl. intros k e Hk. by apply lookup_app_l_Some. Qed.

Lemma rep_size c ps : rep c ps -> size (cb c) = Z.of_nat (2 * length ps).
Proof. intros []. rewrite (wf_key _ rep_wf0), (Forall2_length rep_key0), length_flat. done. Qed.

Lemma insert_end {A} (l : list A) x y z : <[length l := z]> (l ++ x :: y) = l ++ z :: y.
Proof. rewrite <- (Nat.add_0_r (length l)) at 1. by rewrite insert_app_r. Qed.
Lemma insert_end2 {A} (l : list A) x y z : <[S (length l) := z]> (l ++ [x; y]) = l ++ [x; z].
Proof. rewrite <- Nat.add_1_r. by rewrite insert_app_r. Qed.

(** One direction is added, with the sequence number of the packet. *)
Lemma new_state_spec c m e i sq :
  slist_wf (cb c) -> 2 * capacity (cb c) < 2147483648 -> initial_seq m = Ok sq ->
  exists c', new_state c m e i = Ok (c', slist_get (cb c') (size (cb c))) /\
    slist_wf (cb c') /\ heap c' = heap c ++ [e] /\ counter c' = counter c /\
    key (cb c') = key (cb c) ++ [length (heap c)] /\
    value (cb c') = value (cb c) ++ [Some {| seq_ := sq; s_entry := length (heap c); sibling := None; id := i |}] /\
    size (cb c') = size (cb c) + 1 /\ element_size (cb c') = element_size (cb c) /\
    ((size (cb c) < capacity (cb c) /\ capacity (cb c') = capacity (cb c) /\ vblk (cb c') = vblk (cb c)) \/
     (size (cb c) = capacity (cb c) /\ capacity (cb c') = 2 * capacity (cb c))).
Proof.
  intros Hwf Hcap Hsq. unfold new_state.
  destruct (entry_put_spec c e i Hwf Hcap) as (c1 & -> & W1 & Hh & Hc & Hk & Hv & Hs & He & Hg). cbn [mbind res_bind].
  rewrite Hsq. cbn [mbind res_bind]. set (n := length (value (cb c))). pose proof (wf_value _ Hwf) as Hn. fold n in Hn. rewrite Hn.
  set (s0 := {| seq_ := 0; s_entry := length (heap c); sibling := None; id := i |}) in *.
  assert (L1 : value (cb c1) !! n = Some (Some s0)) by (rewrite Hv, lookup_app_r, Nat.sub_diag by lia; done).
  destruct (access c1 n s0 _ W1 L1 eq_refl) as [-> P1]. cbn [mbind res_bind]. rewrite P1. cbn [mbind res_bind].
  exists (set_val c1 n (s0 <| seq_ := sq |>)). split; [done|]. split; [by apply set_val_wf|]. rewrite Hn in Hs, Hg.
  split_and!; try done. cbn. rewrite Hv. apply insert_end.
Qed.

(** The two new states are made siblings of each other. *)
Lemma link_siblings c n s0 s1 p0 p1 l :
  slist_wf (cb c) -> value (cb c) = l ++ [Some s0; Some s1] -> n = length l ->
  p0 = slist_get (cb c) (Z.of_nat n) -> p1 = slist_get (cb c) (Z.of_nat (S n)) ->
  exists c', set_siblings c p0 p1 = Ok c' /\
    slist_wf (cb c') /\ heap c' = heap c /\ counter c' = counter c /\ key (cb c') = key (cb c) /\
    capacity (cb c') = capacity (cb c) /\ element_size (cb c') = element_size (cb c) /\
    value (cb c') = l ++ [Some (s0 <| sibling := Some p1 |>); Some (s1 <| sibling := Some p0 |>)].
Proof.
  intros Hwf Hv -> Hp0 Hp1. unfold set_siblings.
  assert (L0 : value (cb c) !! length l = Some (Some s0)) by (rewrite Hv, lookup_app_r, Nat.sub_diag by lia; done).
  destruct (access c _ s0 p0 Hwf L0 Hp0) as [-> P0]. cbn [mbind res_bind]. rewrite P0. cbn [mbind res_bind].
  set (c1 := set_val c _ _). assert (W1 : slist_wf (cb c1)) by (by apply set_val_wf).
  assert (V1 : value (cb c1) = l ++ [Some (s0 <| sibling := Some p1 |>); Some s1]).
  { unfold c1, set_val. cbn [cb value field_set]. rewrite Hv. apply insert_end. }
  assert (L1 : value (cb c1) !! S (length l) = Some (Some s1)).
  { rewrite V1, lookup_app_r by lia. by replace (S (length l) - length l)%nat with 1%nat by lia. }
  destruct (access c1 _ s1 p1 W1 L1 Hp1) as [-> P1]. cbn [mbind res_bind]. rewrite P1.
  eexists. split; [reflexivity|]. split_and!; try done; [by apply set_val_wf|].
  unfold set_val. cbn [cb value field_set]. rewrite V1. apply insert_end2.
Qed.

(** Two linked states are added; their keys are the two newest entries. *)
Record extended (h : list entry) (b b' : bucket) (sq i : Z) : Prop := {
  ex_wf : slist_wf b';
  ex_even : Z.even (capacity b') = true;
  ex_elem : element_size b' = element_size b;
  ex_key : key b' = key b ++ [length h; S (length h)];
  ex_value : exists q0 q1, value b' = value b ++ [Some {| seq_ := sq; s_entry := length h; sibling := Some q0; id := i |};
                                                  Some {| seq_ := sq; s_entry := S (length h); sibling := Some q1; id := i |}] /\
    p_off q0 = delta b * Z.of_nat (S (length (key b))) /\ p_off q1 = delta b * Z.of_nat (length (key b));
  ex_capacity : capacity b' = capacity b \/ size b = capacity b /\ capacity b' = 2 * capacity b;
}.

(** A new connection: both directions are added under a fresh identifier.  No
    pointer goes stale, because the arrays can only move at the first of the two
    additions. *)
Lemma search_extends c cp e0 e1 sq :
  slist_wf (cb c) -> Z.even (capacity (cb c)) = true -> Z.even (size (cb c)) = true -> 4 * capacity (cb c) < 2147483648 ->
  initial_seq (payload cp) = Ok sq -> slist_find (connection_id_cmp (heap c)) (cb c) e0 = None ->
  exists c', connection_id_search c cp e0 e1 = Ok (c', next_id (counter c)) /\ extended (heap c) (cb c) (cb c') sq (next_id (counter c)) /\
    counter c' = next_count (counter c) /\ heap c' = heap c ++ [e0; e1].
Proof.
  intros Hwf Heven Hsize Hcap Hsq Hfind.
  unfold connection_id_search. rewrite Hfind. set (i := next_id (counter c)). pose proof (wf_pos _ Hwf) as Hpos. cbv zeta.
  destruct (new_state_spec (c <| counter := next_count (counter c) |>) (payload cp) e0 i sq) as (c1 & -> & W1 & Hh1 & Hc1 & Hk1 & Hv1 & Hs1 & He1 & Hg1); [done|cbn; lia|done|].
  cbn [cb heap counter field_set mbind res_bind] in *.
  assert (Hcap1 : Z.even (capacity (cb c1)) = true /\ capacity (cb c1) <= 2 * capacity (cb c)).
  { destruct Hg1 as [(_ & -> & _)|(_ & ->)]; [split; [done|lia]|]. split; [by rewrite Z.even_mul|lia]. }
  destruct Hcap1 as [Hev1 Hle1].
  destruct (new_state_spec c1 (payload cp) e1 i sq) as (c2 & -> & W2 & Hh2 & Hc2 & Hk2 & Hv2 & Hs2 & He2 & Hg2); [done|lia|done|].
  assert (Hodd : size (cb c1) < capacity (cb c1)).
  { pose proof (wf_cap _ W1). apply Zeven_bool_iff, Zeven_ex in Hev1 as [k Hk], Hsize as [k' Hk']. lia. }
  destruct Hg2 as [(_ & Hcap2 & Hblk2)|[? _]]; [|lia]. cbn [mbind res_bind].
  set (n := length (value (cb c))). assert (Hn : size (cb c) = Z.of_nat n) by apply (wf_value _ Hwf).
  assert (Hn' : length (key (cb c)) = n) by (pose proof (wf_key _ Hwf); lia).
  rewrite Hv1, <- (assoc_L (++)) in Hv2. cbn [app] in Hv2.
  edestruct (link_siblings c2 n _ _ (slist_get (cb c1) (size (cb c))) (slist_get (cb c2) (size (cb c1))) _ W2 Hv2 eq_refl)
    as (c3 & E3 & W3 & Hh3 & Hc3 & Hk3 & Hcap3 & He3 & Hv3); [rewrite Hn; by apply slist_get_ext | f_equal; lia |].
  rewrite E3. cbn [mbind res_bind]. eexists. split; [reflexivity|]. split_and!.
  - rewrite Hh1, length_app, Nat.add_1_r in Hv3, Hk2. constructor; [done|by rewrite Hcap3, Hcap2|congruence|by rewrite Hk3, Hk2, Hk1, <- (assoc_L (++))| |].
    + eexists _, _. split; [exact Hv3|]. cbn [slist_get p_off]. unfold delta. rewrite He2, He1, Hn', Hs1, Hn. split; [|done]. f_equal; lia.
    + rewrite Hcap3, Hcap2. destruct Hg1 as [(_ & -> & _)|(-> & ->)]; auto.
  - by rewrite Hc3, Hc2, Hc1.
  - by rewrite Hh3, Hh2, Hh1, <- (assoc_L (++)).
Qed.

Lemma search_new c ps cp e0 sq :
  rep c ps -> 4 * capacity (cb c) < 2147483648 -> initial_seq (payload cp) = Ok sq ->
  slist_find (connection_id_cmp (heap c)) (cb c) e0 = None ->
  exists c', connection_id_search c cp e0 (mirror e0) = Ok (c', next_id (counter c)) /\
    rep c' (ps ++ [(e0, next_id (counter c))]) /\ counter c' = next_count (counter c) /\
    heap c' = heap c ++ [e0; mirror e0] /\ capacity (cb c') <= 2 * capacity (cb c).
Proof.
  intros Hrep Hcap Hsq Hfind. pose proof (rep_size _ _ Hrep) as Hsize. destruct Hrep as [Hwf Heven Hkey Hval].
  destruct (search_extends c cp e0 (mirror e0) sq Hwf Heven) as (c' & H & [W E _ Hk (q0 & q1 & Hv & _) Hg] & Hc & Hh); try done.
  { rewrite Hsize, Nat2Z.inj_mul. apply Z.even_mul. }
  pose proof (wf_pos _ Hwf). exists c'. split_and!; [done| |done|done|lia]. constructor; [done|done| |].
  - rewrite flat_app, Hh, Hk. apply Forall2_app; [by apply Forall2_heap_app|]. cbn. repeat constructor.
    + rewrite lookup_app_r, Nat.sub_diag by lia. done.
    + rewrite lookup_app_r by lia. by replace (S (length (heap c)) - length (heap c))%nat with 1%nat by lia.
  - rewrite flat_ids_app, Hv. apply Forall2_app; [done|]. cbn. repeat constructor; eexists; (split; [reflexivity|done]).
Qed.

(** ** The connections of a bucket, as a specification *)

(** The identifier of the oldest connection with this entry in either direction. *)
Fixpoint conn_lookup (ps : list (entry * Z)) (e : entry) : option Z :=
  match ps with
  | [] => None
  | (e', i) :: ps => if decide (e = e' \/ e = mirror e') then Some i else conn_lookup ps e
  end.

Lemma conn_lookup_mirror ps e : conn_lookup ps (mirror e) = conn_lookup ps e.
Proof.
  induction ps as [|[e' i] ps IH]; [done|]. cbn. rewrite IH. apply decide_ext. split; intros [H|H].
  - right. by rewrite <- H, mirror_mirror.
  - left. rewrite <- (mirror_mirror e), H. apply mirror_mirror.
  - right. by rewrite H.
  - left. rewrite H. apply mirror_mirror.
Qed.

Lemma conn_lookup_snoc ps e i : conn_lookup ps e = None -> conn_lookup (ps ++ [(e, i)]) e = Some i.
Proof.
  induction ps as [|[e' j] ps IH]; cbn; [intros _; by rewrite decide_True by auto|].
  case_decide; [done|]. apply IH.
Qed.

(** The scan over the keys finds a slot of that connection. *)
Lemma find_lookup h keys ps e k :
  Forall2 (fun k e => h !! k = Some e) keys (flat ps) ->
  match find_from (connection_id_cmp h) keys e k with
  | Some j => exists n i, j = k + Z.of_nat n /\ flat_ids ps !! n = Some i /\ conn_lookup ps e = Some i
  | None => conn_lookup ps e = None
  end.
Proof.
  revert keys k. induction ps as [|[e' i] ps IH]; intros keys k H.
  { cbn in H. apply Forall2_nil_inv_r in H as ->. done. }
  cbn in H. apply Forall2_cons_inv_r in H as (k1 & ks & Hk1 & H & ->).
  apply Forall2_cons_inv_r in H as (k2 & rest & Hk2 & H & ->). cbn [find_from].
  unfold connection_id_cmp at 1. rewrite Hk1. cbn [conn_lookup].
  destruct (decide (Some e' = Some e)) as [E|E]; cbn.
  { exists O, i. rewrite decide_True by (left; congruence). split; [lia|done]. }
  unfold connection_id_cmp at 1. rewrite Hk2.
  destruct (decide (Some (mirror e') = Some e)) as [E2|E2]; cbn.
  { exists 1%nat, i. rewrite decide_True by (right; congruence). split; [lia|done]. }
  rewrite decide_False by (intros [?|?]; congruence).
  specialize (IH rest (k + 1 + 1) H). destruct (find_from _ rest e _) as [j|]; [|done].
  destruct IH as (n & i' & -> & Hn & Hl). exists (S (S n)), i'. split; [lia|]. done.
Qed.

(** A packet that opens nothing gets the identifier of its connection. *)
Lemma search_found c ps cp e0 e1 i :
  rep c ps -> opening_seq (payload cp) = Ok None -> conn_lookup ps e0 = Some i ->
  connection_id_search c cp e0 e1 = Ok (c, i).
Proof.
  intros [Hwf _ Hkey Hval] Hopen Hl. unfold connection_id_search, slist_find.
  pose proof (find_lookup (heap c) (key (cb c)) ps e0 0 Hkey) as Hf.
  destruct (find_from _ _ _ _) as [j|]; cbn [fmap option_fmap option_map]; [|congruence].
  destruct Hf as (n & i' & -> & Hn & Hl'). assert (i' = i) as -> by congruence.
  unfold connection_id_tcp_syn. rewrite Hopen. cbn [mbind res_bind].
  destruct (Forall2_lookup_r _ _ _ _ _ Hval Hn) as (v & Hv & s & -> & Hid).
  destruct (access c n s _ Hwf Hv eq_refl) as [G _]. rewrite Z.add_0_l, G. cbn. by rewrite Hid.
Qed.

Lemma find_None_lookup c ps e :
  rep c ps -> conn_lookup ps e = None -> slist_find (connection_id_cmp (heap c)) (cb c) e = None.
Proof.
  intros [_ _ Hkey _] Hl. unfold slist_find. pose proof (find_lookup (heap c) (key (cb c)) ps e 0 Hkey) as Hf.
  destruct (find_from _ _ _ _) as [j|]; [|done]. destruct Hf as (? & ? & _ & _ & ?). congruence.
Qed.

(** ** The database of all buckets *)
Definition at_bucket (db : conn_db) (b : bucket) : conn := {| cb := b; heap := db_heap db; counter := db_counter db |}.

Definition db_rep (db : conn_db) (pss : list (list (entry * Z))) : Prop :=
  length (buckets db) = 256%nat /\ Forall2 (fun b ps => rep (at_bucket db b) ps) (buckets db) pss.

(** The connection a packet belongs to, as [connection_id] reads it. *)
Definition flow (cp : cap_header) : res (option entry) :=
  found ← find_ipv4_header (payload cp) 0;
  match option_map fst found with
  | None => Ok None
  | Some ip => es ← ipv4_connection_id cp ip; Ok (option_map fst es)
  end.
Definition bucket_of (e : entry) : nat := Z.to_nat (Z.lxor (e_src e) (e_dst e) mod bucket_count).

Lemma bucket_of_mirror e : bucket_of (mirror e) = bucket_of e.
Proof. unfold bucket_of. cbn. by rewrite Z.lxor_comm. Qed.

Lemma bucket_of_lt e : (bucket_of e < 256)%nat.
Proof. unfold bucket_of, bucket_count. pose proof (Z.mod_pos_bound (Z.lxor (e_src e) (e_dst e)) 256). lia. Qed.

Lemma connection_id_flow db cp e bk :
  flow cp = Ok (Some e) -> buckets db !! bucket_of e = Some bk ->
  connection_id db cp =
    '(c, i) ← connection_id_search (at_bucket db bk) cp e (mirror e);
    Ok ({| buckets := <[bucket_of e := cb c]> (buckets db); db_heap := heap c; db_counter := counter c |}, i).
Proof.
  unfold flow, connection_id. intros H Hb. inv_ok. rewrite Hv. cbn [mbind res_bind].
  destruct (option_map fst v) as [ip|]; [|done]. inv_ok. rewrite Hv0. cbn [mbind res_bind].
  destruct v0 as [[f g]|]; [|done]. cbn in H. injection H as ->.
  unfold ipv4_connection_id, ipv4_bucket_select in *. inv_ok.
  destruct v1 as [[? [sp dp]]|], v0 as [[? [sp' dp']]|]; try done; inv_ok; injection Hv0 as <- <-;
    rewrite Hv3, Hv4; cbn [mbind res_bind]; unfold bucket_of in Hb; cbn in Hb; rewrite Hb; reflexivity.
Qed.

Lemma rep_heap_app c ps h k :
  rep c ps -> rep {| cb := cb c; heap := heap c ++ h; counter := k |} ps.
Proof. intros []. constructor; try done. by apply Forall2_heap_app. Qed.

(** The other buckets only see the shared entries grow. *)
Lemma db_rep_update db pss n bk ps' c' h :
  db_rep db pss -> buckets db !! n = Some bk -> heap c' = db_heap db ++ h -> rep c' ps' ->
  db_rep {| buckets := <[n := cb c']> (buckets db); db_heap := heap c'; db_counter := counter c' |} (<[n := ps']> pss).
Proof.
  intros [Hl Hall] Hb Hh Hrep. split; [cbn; by rewrite length_insert|]. cbn. apply Forall2_insert.
  - eapply Forall2_impl; [|exact Hall]. intros b ps Hr. revert Hr. unfold at_bucket. cbn. rewrite Hh.
    apply (rep_heap_app (at_bucket db b)).
  - unfold at_bucket. cbn. by destruct c'.
Qed.

Lemma db_rep_initial : db_rep initial_db (replicate 256 []).
Proof.
  split; [done|]. apply Forall2_replicate. constructor; cbn; try constructor; try done.
Qed.

(** No bucket holds more than [M] slots. *)
Definition bounded (M : Z) (db : conn_db) : bool := forallb (fun b => capacity b <=? M) (buckets db).

Lemma bounded_spec M db : bounded M db = true <-> forall b, b ∈ buckets db -> capacity b <= M.
Proof.
  unfold bounded. rewrite forallb_forall. split; intros H b Hb.
  - apply list_elem_of_In, H in Hb. lia.
  - apply list_elem_of_In, H in Hb. lia.
Qed.

Lemma bounded_insert M db n b h k :
  bounded M db = true -> 0 <= M -> capacity b <= 2 * M ->
  bounded (2 * M) {| buckets := <[n := b]> (buckets db); db_heap := h; db_counter := k |} = true.
Proof.
  rewrite !bounded_spec. cbn. intros H HM Hb x [j Hj]%list_elem_of_lookup_1.
  destruct (decide (n = j)) as [->|Hn].
  - apply list_lookup_insert_Some in Hj as [(_ & <- & _)|[? _]]; done.
  - rewrite list_lookup_insert_ne in Hj by done. transitivity M; [|lia]. apply H. by eapply list_elem_of_lookup_2.
Qed.

(** The number a connection has, or the next one. *)
Definition id_of (db : conn_db) (ps : list (entry * Z)) (e : entry) : Z :=
  default (next_id (db_counter db)) (conn_lookup ps e).

(** One packet: the identifier of its connection if there is one and the packet
    does not reopen it, the next number for a connection seen first. *)
Lemma connection_id_step M db pss cp e ps sq :
  db_rep db pss -> flow cp = Ok (Some e) -> pss !! bucket_of e = Some ps ->
  bounded M db = true -> 4 * M < 2147483648 -> initial_seq (payload cp) = Ok sq ->
  conn_lookup ps e = None \/ opening_seq (payload cp) = Ok None ->
  exists db' ps', connection_id db cp = Ok (db', id_of db ps e) /\ db_rep db' (<[bucket_of e := ps']> pss) /\
    conn_lookup ps' e = Some (id_of db ps e) /\ bounded (2 * M) db' = true /\
    (is_Some (conn_lookup ps e) -> db_counter db' = db_counter db).
Proof.
  unfold id_of. intros Hdb Hflow Hps HM Hsmall Hsq Hcase.
  destruct (Forall2_lookup_r _ _ _ _ _ (proj2 Hdb) Hps) as (bk & Hbk & Hrep).
  assert (Hc : capacity bk <= M) by (eapply bounded_spec; [done | by eapply list_elem_of_lookup_2]).
  pose proof (wf_pos _ (rep_wf _ _ Hrep)) as Hpos. cbn in Hpos.
  rewrite (connection_id_flow db cp e bk Hflow Hbk).
  destruct (conn_lookup ps e) as [i|] eqn:El.
  - destruct Hcase as [?|Hopen]; [done|].
    rewrite (search_found _ ps cp e (mirror e) i Hrep Hopen El). cbn [mbind res_bind].
    eexists _, ps. split; [reflexivity|]. split_and!; [|done|apply bounded_insert; [done|lia|cbn; lia]|done].
    apply (db_rep_update db pss _ bk ps (at_bucket db bk) []); try done. by rewrite app_nil_r.
  - destruct (search_new _ ps cp e sq Hrep) as (c' & E & Hrep' & Hcnt & Hheap & Hcap');
      [cbn; lia | done | by eapply find_None_lookup |].
    rewrite E. cbn [mbind res_bind]. eexists _, _. split; [reflexivity|]. cbn in Hcap'.
    split_and!; [by eapply db_rep_update | by apply conn_lookup_snoc | apply bounded_insert; [done|lia|lia] | by intros []].
Qed.

(** C32: Both directions of a connection get the same identifier.  From a database
    that represents its connections, a packet that belongs to the connection [e]
    (unknown so far, or known and the packet is no opening SYN) and a reply from
    the other side that is no opening SYN get one number, without an access out of
    bounds or through a stale pointer; the number is the one the connection has,
    or the counter's next value (an [int], as unsigned), and the reply allocates none. *)
Theorem connection_id_directions M db pss ps cp cp' e sq sq' :
  db_rep db pss -> bounded M db = true -> 8 * M < 2147483648 ->
  flow cp = Ok (Some e) -> flow cp' = Ok (Some (mirror e)) -> pss !! bucket_of e = Some ps ->
  initial_seq (payload cp) = Ok sq -> initial_seq (payload cp') = Ok sq' ->
  conn_lookup ps e = None \/ opening_seq (payload cp) = Ok None ->
  opening_seq (payload cp') = Ok None ->
  exists db1 db2, connection_id db cp = Ok (db1, id_of db ps e) /\
    connection_id db1 cp' = Ok (db2, id_of db ps e) /\ db_counter db2 = db_counter db1.
Proof.
  intros Hdb HM Hsmall Hf Hf' Hps Hq Hq' Hcase Hop.
  destruct (connection_id_step M db pss cp e ps sq) as (db1 & ps1 & E1 & Hdb1 & Hl1 & HM1 & _); try done; [lia|].
  destruct (connection_id_step (2 * M) db1 (<[bucket_of e := ps1]> pss) cp' (mirror e) ps1 sq')
    as (db2 & ps2 & E2 & _ & _ & _ & Hc2); try done; [ |lia|by right|].
  { rewrite bucket_of_mirror. apply list_lookup_insert_eq. by eapply lookup_lt_Some. }
  unfold id_of at 1 in E2. rewrite conn_lookup_mirror, Hl1 in E2, Hc2. cbn in E2. exists db1, db2. split_and!; eauto.
Qed.

Lemma connection_id_directions_witness :
  exists db1 db2, connection_id initial_db (tcp_packet 1 2 1000 80 SYN 7) = Ok (db1, 1) /\
    connection_id db1 (tcp_packet 2 1 80 1000 SYNACK 9) = Ok (db2, 1) /\ db_counter db2 = db_counter db1.
Proof.
  apply (connection_id_directions 32 initial_db (replicate 256 []) []
    (tcp_packet 1 2 1000 80 SYN 7) (tcp_packet 2 1 80 1000 SYNACK 9)
    (ipv4_forward 16777226 33554442 1000 80) 117440512 150994944);
    [exact db_rep_initial | vm_compute; reflexivity | lia | vm_compute; reflexivity | vm_compute; reflexivity
    | vm_compute; reflexivity | vm_compute; reflexivity | vm_compute; reflexivity | left; reflexivity | vm_compute; reflexivity].
Defined.

(** Sixteen connections between hosts of one bucket fill its first allocation. *)
Definition full_bucket : list cap_header := map (fun i => tcp_packet 1 2 (1000 + Z.of_nat i) 80 SYN 7) (seq 0 16).

Example ids_example :
  ids [tcp_packet 1 2 1000 80 SYN 7; tcp_packet 2 1 80 1000 SYNACK 9; tcp_packet 1 3 1000 80 SYN 8;
       tcp_packet 1 2 1000 80 SYN 55; tcp_packet 2 1 80 1000 SYNACK 9] = Ok [1; 1; 2; 3; 3].
Proof. vm_compute. reflexivity. Qed.

(** A second handshake on a known connection is written through dangling
    pointers when the bucket's arrays move: with sixteen connections in the bucket
    the new SYN makes [entry_put] reallocate the array that [state] points into,
    and with seventeen the array has already moved, which leaves every stored
    [sibling] pointer pointing into the old block. *)
Theorem connection_id_reopen_stale :
  ids full_bucket = Ok (map Z.of_nat (seq 1 16)) /\
  ids (full_bucket ++ [tcp_packet 1 2 1000 80 SYN 8]) = Fault /\
  ids (full_bucket ++ [tcp_packet 1 2 5000 80 SYN 7; tcp_packet 1 2 1000 80 SYN 8]) = Fault /\
  ids (removelast full_bucket ++ [tcp_packet 1 2 1000 80 SYN 8]) = Ok (map Z.of_nat (seq 1 16)).
Proof. vm_compute. repeat split. Qed.
