(* ===== verification/ConnectionReopen.v ===== *)
(** * Repeated and reopened connections (src/packet/connection_id.c)

    What holds of the database after any sequence of calls, connections that are opened
    again included, and what a second call for the same packet does. *)

From S2P Require Import Prelude CLib Picotime Slist Utils Address Packet Filter ConnectionId.

(** The slot of the other direction. *)
Definition partner (j : nat) : nat := if Nat.even j then S j else Nat.pred j.

Lemma partner_partner j : partner (partner j) = j.
Proof.
  unfold partner. destruct (Nat.even j) eqn:E.
  - by rewrite Nat.even_succ, <- Nat.negb_even, E.
  - destruct j; [done|]. cbn [Nat.pred]. rewrite Nat.even_succ, <- Nat.negb_even in E. by apply negb_false_iff in E as ->.
Qed.
Lemma partner_ne j : partner j <> j.
Proof. unfold partner. destruct (Nat.even j) eqn:E; [lia|]. destruct j; [done|cbn; lia]. Qed.
Lemma partner_lt j n : Nat.even n = true -> (j < n)%nat -> (partner j < n)%nat.
Proof.
  intros Hn Hj. unfold partner. destruct (Nat.even j) eqn:E; [|lia].
  destruct (decide (S j = n)) as [<-|]; [|lia]. by rewrite Nat.even_succ, <- Nat.negb_even, E in Hn.
Qed.
Lemma partner_add j n : Nat.even n = true -> partner (n + j) = (n + partner j)%nat.
Proof.
  intros Hn. unfold partner. rewrite Nat.even_add, Hn. destruct (Nat.even j) eqn:E; cbn [Bool.eqb]; [lia|].
  destruct j; [done|cbn; lia].
Qed.

(** ** The invariant of a bucket *)

(** Slot [j] holds the direction [e]: its key, its state and its sibling, which is where the
    slot of the other direction was when the two were linked. *)
Definition slot_holds (h : list entry) (b : bucket) (j : nat) (e : entry) : Prop :=
  exists k s q, key b !! j = Some k /\ h !! k = Some e /\ value b !! j = Some (Some s) /\ s_entry s = k /\
    sibling s = Some q /\ p_off q = delta b * Z.of_nat (partner j).

Record bucket_ok (h : list entry) (n : nat) (b : bucket) : Prop := {
  bo_wf : slist_wf b;
  bo_even : Z.even (capacity b) = true;
  bo_size : Nat.even (length (key b)) = true;
  bo_slot : forall j, (j < length (key b))%nat -> exists e, slot_holds h b j e /\ slot_holds h b (partner j) (mirror e) /\ bucket_of e = n;
  bo_nodup : NoDup (key b);
  bo_unique : forall j j' e, slot_holds h b j e -> slot_holds h b j' e -> finished e = 0 -> j' = j \/ j' = partner j;
}.

Definition finish_entry (e : entry) : entry := e <| finished := 1 |>.

Lemma slot_holds_fun h b j e e' : slot_holds h b j e -> slot_holds h b j e' -> e = e'.
Proof. intros (k & ? & ? & Hk & He & _) (k' & ? & ? & Hk' & He' & _). congruence. Qed.

Lemma slot_holds_lt h b j e : slot_holds h b j e -> (j < length (key b))%nat.
Proof. intros (k & ? & ? & Hk & _). by eapply lookup_lt_Some. Qed.

(** Only the entries of the keys of the bucket matter. *)
Lemma slot_holds_ext h h' b j e : (forall k, k ∈ key b -> h' !! k = h !! k) -> slot_holds h b j e -> slot_holds h' b j e.
Proof.
  intros Hext (k & s & q & Hk & He & Hr). exists k, s, q. split; [done|]. split; [|done].
  rewrite Hext; [done|by eapply list_elem_of_lookup_2].
Qed.

Lemma bucket_ok_ext h h' n b : (forall k, k ∈ key b -> h' !! k = h !! k) -> bucket_ok h n b -> bucket_ok h' n b.
Proof.
  intros Hext [W E Z S N U]. constructor; try done.
  - intros j (e & H1 & H2 & H3)%S. exists e. split_and!; try done; by eapply slot_holds_ext.
  - assert (Hb : forall k, k ∈ key b -> h !! k = h' !! k) by (intros; symmetry; auto).
    intros j j' e H H'. apply (U j j' e); by eapply slot_holds_ext.
Qed.

Lemma key_entry h n b k : bucket_ok h n b -> k ∈ key b -> exists e, h !! k = Some e /\ bucket_of e = n.
Proof.
  intros Hb [j Hj]%list_elem_of_lookup_1. destruct (bo_slot _ _ _ Hb j) as (e & (k' & ? & ? & Hk & He & _) & _ & Hn); [by eapply lookup_lt_Some|].
  exists e. split; [congruence|done].
Qed.

Lemma bucket_ok_app h l n b : bucket_ok h n b -> bucket_ok (h ++ l) n b.
Proof.
  intros Hb. apply bucket_ok_ext with h; [|done]. intros k (e & He & _)%(key_entry _ _ _ _ Hb).
  rewrite He. by apply lookup_app_l_Some.
Qed.

(** ** Finishing a connection *)
Section Finish.
Variable h : list entry.
Variable n : nat.
Variable b : bucket.
Variable j k k' : nat.
Variable e : entry.
Hypothesis Hb : bucket_ok h n b.
Hypothesis Hj : slot_holds h b j e.
Hypothesis Hk : key b !! j = Some k.
Hypothesis Hk' : key b !! partner j = Some k'.

Definition finished_heap : list entry := <[k' := finish_entry (mirror e)]> (<[k := finish_entry e]> h).

Lemma finish_keys : h !! k = Some e /\ h !! k' = Some (mirror e) /\ k <> k' /\ bucket_of e = n.
Proof.
  destruct (bo_slot _ _ _ Hb j (slot_holds_lt _ _ _ _ Hj)) as (e' & H1 & H2 & Hn).
  assert (e' = e) as -> by (by eapply slot_holds_fun).
  destruct H1 as (? & ? & ? & G1 & ? & _), H2 as (? & ? & ? & G2 & ? & _). split_and!; try congruence.
  intros ->. apply (partner_ne j). eapply NoDup_lookup; [apply (bo_nodup _ _ _ Hb)|exact Hk'|exact Hk].
Qed.

(** What each slot holds then. *)
Lemma finish_slot i x : slot_holds h b i x -> slot_holds finished_heap b i (if decide (i = j \/ i = partner j) then finish_entry x else x).
Proof.
  destruct finish_keys as (E1 & E2 & Hne & _). intros (ki & s & q & Hki & Hx & Hr). exists ki, s, q. split; [done|]. split; [|done].
  pose proof (lookup_lt_Some _ _ _ E1). pose proof (lookup_lt_Some _ _ _ E2). unfold finished_heap.
  pose proof (bo_nodup _ _ _ Hb) as Hnd. destruct (decide (i = j \/ i = partner j)) as [[-> | ->]|Hi].
  - assert (ki = k) as -> by congruence. rewrite list_lookup_insert_ne, list_lookup_insert_eq by done. congruence.
  - assert (ki = k') as -> by congruence. rewrite list_lookup_insert_eq by (by rewrite length_insert). congruence.
  - rewrite !list_lookup_insert_ne; [done| |]; intros ->; apply Hi; [left|right]; eapply NoDup_lookup; eauto.
Qed.

Lemma finish_slot_back i x : slot_holds finished_heap b i x ->
  exists y, slot_holds h b i y /\ x = if decide (i = j \/ i = partner j) then finish_entry y else y.
Proof.
  intros H. destruct (bo_slot _ _ _ Hb i (slot_holds_lt _ _ _ _ H)) as (y & Hy & _). exists y. split; [done|].
  eapply slot_holds_fun; [done|by apply finish_slot].
Qed.

Lemma in_pair i : partner i = j \/ partner i = partner j <-> i = j \/ i = partner j.
Proof.
  split; intros [H|H].
  - right. by rewrite <- H, partner_partner.
  - left. by rewrite <- (partner_partner i), H, partner_partner.
  - right. by rewrite H.
  - left. by rewrite H, partner_partner.
Qed.

Lemma finish_ok : bucket_ok finished_heap n b.
Proof.
  destruct Hb as [W E Z S N U]. constructor; try done.
  - intros i (x & H1 & H2 & Hn)%S. apply finish_slot in H1, H2. rewrite (decide_ext _ _ _ _ (in_pair i)) in H2.
    eexists. split; [exact H1|]. destruct (decide (i = j \/ i = partner j)); by split.
  - intros i i' x (y & H1 & E1)%finish_slot_back (y' & H2 & E2)%finish_slot_back Hf.
    destruct (decide (i = j \/ i = partner j)); [rewrite E1 in Hf; discriminate Hf|]. destruct (decide (i' = j \/ i' = partner j)); [rewrite E2 in Hf; discriminate Hf|].
    subst y y'. by eapply U.
Qed.

(** Neither direction is left unfinished. *)
Lemma finish_gone i x : finished e = 0 -> slot_holds finished_heap b i x -> x <> e /\ x <> mirror e.
Proof.
  intros Hf (y & H & ->)%finish_slot_back. destruct (decide (i = j \/ i = partner j)) as [Hi|Hi].
  { assert (finished (finish_entry y) = 1) by done. split; intros E; rewrite E in *; cbn in *; congruence. }
  destruct (bo_slot _ _ _ Hb j (slot_holds_lt _ _ _ _ Hj)) as (e' & H1 & H2 & _).
  assert (e' = e) as -> by (by eapply slot_holds_fun).
  split; intros ->; apply Hi.
  - eapply (bo_unique _ _ _ Hb); [exact H1|done|done].
  - destruct (bo_unique _ _ _ Hb _ _ _ H2 H) as [-> | ->]; [done|auto|]. rewrite partner_partner. auto.
Qed.

Lemma finish_other n' b' : n' <> n -> bucket_ok h n' b' -> bucket_ok finished_heap n' b'.
Proof.
  destruct finish_keys as (E1 & E2 & _ & Hn). intros Hne Hb'. apply bucket_ok_ext with h; [|done].
  intros i (x & Hx & Hin)%(key_entry _ _ _ _ Hb'). unfold finished_heap. rewrite !list_lookup_insert_ne; [done| |]; intros ->.
  - congruence.
  - rewrite E2 in Hx. injection Hx as <-. rewrite bucket_of_mirror in Hin. congruence.
Qed.
End Finish.

(** ** Adding a connection *)

Lemma length_value h n b : bucket_ok h n b -> length (value b) = length (key b).
Proof. intros [[W1 W2 _ _ _ _] _ _ _ _ _]. lia. Qed.

Lemma size_even h n b : bucket_ok h n b -> Z.even (size b) = true.
Proof.
  intros [[W1 _ _ _ _ _] _ [m Hm]%Nat.even_spec _ _ _]. apply Z.even_spec. exists (Z.of_nat m). lia.
Qed.

Section Extend.
Variable h : list entry.
Variable n : nat.
Variable b b' : bucket.
Variable e : entry.
Variable sq i : Z.
Hypothesis Hb : bucket_ok h n b.
Hypothesis Hx : extended h b b' sq i.
Hypothesis Hn : bucket_of e = n.
Hypothesis Hnew : forall j x, slot_holds h b j x -> x <> e /\ x <> mirror e.

Let h' := h ++ [e; mirror e].
Let N := length (key b).

Lemma extend_delta : delta b' = delta b.
Proof. unfold delta. by rewrite (ex_elem _ _ _ _ _ Hx). Qed.

Lemma extend_old j x : slot_holds h b j x -> slot_holds h' b' j x.
Proof.
  intros (k & s & q & Hk & Hxe & Hv & Hs & Hq & Ho). exists k, s, q. rewrite (ex_key _ _ _ _ _ Hx), extend_delta.
  destruct (ex_value _ _ _ _ _ Hx) as (q0 & q1 & -> & _). split_and!; try done; by apply lookup_app_l_Some.
Qed.

Lemma extend_new0 : slot_holds h' b' N e.
Proof.
  destruct (ex_value _ _ _ _ _ Hx) as (q0 & q1 & Hv & Ho & _). do 3 eexists. rewrite (ex_key _ _ _ _ _ Hx), Hv.
  rewrite (lookup_app_r (value b)) by (rewrite (length_value _ _ _ Hb); unfold N; lia). rewrite (length_value _ _ _ Hb).
  unfold N. rewrite lookup_app_r, Nat.sub_diag by lia. split_and!; try reflexivity.
  - unfold h'. by rewrite lookup_app_r, Nat.sub_diag by lia.
  - rewrite extend_delta, Ho. unfold partner. by rewrite (bo_size _ _ _ Hb).
Qed.
Lemma extend_new1 : slot_holds h' b' (S N) (mirror e).
Proof.
  destruct (ex_value _ _ _ _ _ Hx) as (q0 & q1 & Hv & _ & Ho). do 3 eexists. rewrite (ex_key _ _ _ _ _ Hx), Hv.
  rewrite (lookup_app_r (value b)) by (rewrite (length_value _ _ _ Hb); unfold N; lia). rewrite (length_value _ _ _ Hb).
  unfold N. rewrite lookup_app_r by lia. replace (S (length (key b)) - length (key b))%nat with 1%nat by lia. split_and!; try reflexivity.
  - unfold h'. rewrite lookup_app_r by lia. by replace (S (length h) - length h)%nat with 1%nat by lia.
  - rewrite extend_delta, Ho. unfold partner. by rewrite Nat.even_succ, <- Nat.negb_even, (bo_size _ _ _ Hb).
Qed.

Lemma extend_length : length (key b') = S (S N).
Proof. rewrite (ex_key _ _ _ _ _ Hx), length_app. cbn. unfold N. lia. Qed.
Lemma extend_partner : partner N = S N /\ partner (S N) = N.
Proof. unfold partner, N. by rewrite Nat.even_succ, <- Nat.negb_even, (bo_size _ _ _ Hb). Qed.

Lemma extend_cases j x : slot_holds h' b' j x -> slot_holds h b j x \/ j = N /\ x = e \/ j = S N /\ x = mirror e.
Proof.
  intros H. pose proof (slot_holds_lt _ _ _ _ H) as Hl. rewrite extend_length in Hl.
  destruct (decide (j < N)%nat) as [Hj|Hj].
  - left. destruct (bo_slot _ _ _ Hb j Hj) as (y & Hy & _). by rewrite (slot_holds_fun _ _ _ _ _ H (extend_old _ _ Hy)).
  - right. destruct (decide (j = N)) as [-> |].
    + left. split; [done|]. eapply slot_holds_fun; [done|apply extend_new0].
    + right. assert (j = S N) as -> by lia. split; [done|]. eapply slot_holds_fun; [done|apply extend_new1].
Qed.

Lemma extend_ok : bucket_ok h' n b'.
Proof.
  destruct extend_partner as [P0 P1]. constructor.
  - apply Hx.
  - apply Hx.
  - rewrite extend_length. exact (bo_size _ _ _ Hb).
  - intros j Hj. rewrite extend_length in Hj. destruct (decide (j < N)%nat) as [Hl|Hl].
    + destruct (bo_slot _ _ _ Hb j Hl) as (x & H1 & H2 & H3). exists x. split_and!; [by apply extend_old.. |done].
    + destruct (decide (j = N)) as [-> |]; [|assert (j = S N) as -> by lia].
      * exists e. rewrite P0. split_and!; [apply extend_new0|apply extend_new1|done].
      * exists (mirror e). rewrite P1, mirror_mirror, bucket_of_mirror. split_and!; [apply extend_new1|apply extend_new0|done].
  - rewrite (ex_key _ _ _ _ _ Hx). apply list.NoDup_app. split; [apply Hb|]. split.
    + intros k (x & Hk & _)%(key_entry _ _ _ _ Hb). apply lookup_lt_Some in Hk. rewrite !elem_of_cons, elem_of_nil. lia.
    + repeat constructor; rewrite ?elem_of_cons, ?elem_of_nil; lia.
  - intros j j' x H H' Hf.
    destruct (extend_cases _ _ H) as [G|[[-> ->]|[-> ->]]], (extend_cases _ _ H') as [G'|[[-> E]|[-> E]]]; subst; rewrite ?P0, ?P1; auto.
    + by eapply (bo_unique _ _ _ Hb).
    + by destruct (Hnew _ _ G).
    + by destruct (Hnew _ _ G).
    + by destruct (Hnew _ _ G').
    + by destruct (Hnew _ _ G').
Qed.

(** The new connection is what is found for its forward direction. *)
Lemma extend_found : slist_find (connection_id_cmp h') b' e = Some (slist_get b' (Z.of_nat N)).
Proof.
  unfold slist_find. rewrite (ex_key _ _ _ _ _ Hx), find_from_app.
  assert (E : find_from (connection_id_cmp h') (key b) e 0 = None).
  { apply find_from_None, Forall_forall. intros k Hk. apply list_elem_of_In, list_elem_of_lookup_1 in Hk as [j Hj].
    destruct (bo_slot _ _ _ Hb j) as (x & H & _); [by eapply lookup_lt_Some|]. destruct (Hnew _ _ H) as [Hne _].
    destruct H as (k' & ? & ? & Hk & Hxe & _). unfold connection_id_cmp. rewrite decide_False; [done|].
    assert (k' = k) as -> by congruence. unfold h'. rewrite (lookup_app_l_Some _ _ _ _ Hxe). congruence. }
  rewrite E. cbn [find_from]. unfold connection_id_cmp at 1. rewrite decide_True by (unfold h'; by rewrite lookup_app_r, Nat.sub_diag by lia).
  cbn. by rewrite Z.add_0_l.
Qed.
End Extend.

(** ** Opening a connection again *)
Lemma get_state_block c p s : get_state c p = Ok s -> p_blk p = vblk (cb c).
Proof.
  unfold get_state, deref, slot. destruct (bool_decide (p_blk p = vblk (cb c))) eqn:E; [|discriminate].
  intros _. by apply bool_decide_eq_true in E.
Qed.

(** A pointer into the current block that has the offset of slot [j] is the pointer to it. *)
Lemma pointer_at (b : bucket) q m : p_blk q = vblk b -> p_off q = delta b * m -> q = slist_get b m.
Proof. destruct q. cbn. intros -> ->. reflexivity. Qed.

Lemma lookup_last {A} (l : list A) x y : (l ++ [x; y]) !! length l = Some x /\ (l ++ [x; y]) !! S (length l) = Some y.
Proof.
  rewrite !lookup_app_r, Nat.sub_diag by lia. by replace (S (length l) - length l)%nat with 1%nat by lia.
Qed.

Lemma link_new_inv c l z0 z1 (b : bucket) m seq c' :
  slist_wf (cb c) -> value (cb c) = l ++ [Some z0; Some z1] -> m = Z.of_nat (length l) -> element_size b = element_size (cb c) ->
  link_new c (slist_get b m) (slist_get (cb c) (m + 1)) seq = Ok c' ->
  vblk b = vblk (cb c) /\ slist_wf (cb c') /\ heap c' = heap c /\ counter c' = counter c /\ key (cb c') = key (cb c) /\
  capacity (cb c') = capacity (cb c) /\ element_size (cb c') = element_size (cb c) /\ vblk (cb c') = vblk (cb c) /\
  value (cb c') = l ++ [Some (z0 <| seq_ := seq |> <| sibling := Some (slist_get (cb c) (m + 1)) |>);
                        Some (z1 <| seq_ := seq |> <| sibling := Some (slist_get (cb c) m) |>)].
Proof.
  intros Hwf Hv -> He H. unfold link_new in H. destruct (lookup_last l (Some z0) (Some z1)) as [L0 L1]. rewrite <- Hv in L0, L1.
  apply bind_Ok_inv in H as (n0 & G0 & H). pose proof (get_state_block _ _ _ G0) as B0. cbn in B0.
  rewrite (slist_get_ext b (cb c)) in * by done. destruct (access c _ z0 _ Hwf L0 eq_refl) as [E0 P0].
  rewrite E0 in G0. injection G0 as <-. rewrite P0 in H. cbn [mbind res_bind] in H. set (c1 := set_val c _ _) in H.
  assert (W1 : slist_wf (cb c1)) by (by apply set_val_wf).
  assert (V1 : value (cb c1) = l ++ [Some (z0 <| seq_ := seq |> <| sibling := Some (slist_get (cb c) (Z.of_nat (length l) + 1)) |>); Some z1]).
  { unfold c1, set_val. cbn [cb value field_set]. rewrite Hv. apply insert_end. }
  assert (G : value (cb c1) !! S (length l) = Some (Some z1)) by (rewrite V1; apply lookup_last).
  destruct (access c1 _ z1 (slist_get (cb c) (Z.of_nat (length l) + 1)) W1 G) as [E1 P1]; [by rewrite Nat2Z.inj_succ|].
  rewrite E1 in H. cbn [mbind res_bind] in H. rewrite P1 in H. injection H as <-. split_and!; try done; [by apply set_val_wf|].
  unfold set_val. cbn [cb value field_set]. rewrite V1. apply insert_end2.
Qed.

Lemma set_finished_inv c k e c' : heap c !! k = Some e -> set_finished c k = Ok c' -> c' = c <| heap := <[k := finish_entry e]> (heap c) |>.
Proof. intros He. unfold set_finished, entry_at. rewrite He. cbn. by intros [= <-]. Qed.

Lemma finish_old_inv c j s s' k k' e e' q c' :
  slist_wf (cb c) -> value (cb c) !! j = Some (Some s) -> value (cb c) !! partner j = Some (Some s') -> s_entry s = k -> s_entry s' = k' ->
  sibling s = Some q -> p_off q = delta (cb c) * Z.of_nat (partner j) -> heap c !! k = Some e -> heap c !! k' = Some e' -> k <> k' ->
  finish_old c (slist_get (cb c) (Z.of_nat j)) = Ok c' ->
  c' = c <| heap := <[k' := finish_entry e']> (<[k := finish_entry e]> (heap c)) |>.
Proof.
  intros W Hs Hs' Hk Hk' Hq Ho He He' Hne H. unfold finish_old in H. rewrite (proj1 (access c j s _ W Hs eq_refl)) in H. cbn [mbind res_bind] in H.
  rewrite Hk in H. apply bind_Ok_inv in H as (c1 & -> %(set_finished_inv _ _ _ _ He) & H). set (c1 := c <| heap := _ |>) in H.
  rewrite (proj1 (access c1 j s (slist_get (cb c) (Z.of_nat j)) W Hs eq_refl)) in H. cbn [mbind res_bind] in H. rewrite Hq in H.
  apply bind_Ok_inv in H as (s2 & G & H). pose proof (get_state_block _ _ _ G) as B2.
  rewrite (pointer_at (cb c) q (Z.of_nat (partner j)) B2 Ho), (proj1 (access c1 _ s' (slist_get (cb c) _) W Hs' eq_refl)) in G. injection G as <-.
  rewrite Hk' in H. apply (set_finished_inv _ _ e') in H; [done|]. unfold c1. cbn [heap field_set]. by rewrite list_lookup_insert_ne.
Qed.

(** The arrays have an even size and capacity, so they can only move at the first of two additions. *)
Lemma second_put_fits (b b1 b2 : bucket) :
  Z.even (capacity b) = true -> Z.even (size b) = true -> size b1 = size b + 1 ->
  (size b < capacity b /\ capacity b1 = capacity b /\ vblk b1 = vblk b) \/ (size b = capacity b /\ capacity b1 = 2 * capacity b) ->
  (size b1 < capacity b1 /\ capacity b2 = capacity b1 /\ vblk b2 = vblk b1) \/ (size b1 = capacity b1 /\ capacity b2 = 2 * capacity b1) ->
  Z.even (capacity b2) = true /\ (capacity b2 = capacity b \/ size b = capacity b /\ capacity b2 = 2 * capacity b).
Proof.
  intros Hc Hz Hs H1 H2. pose proof Hc as [m Hm]%Zeven_bool_iff%Zeven_ex. apply Zeven_bool_iff, Zeven_ex in Hz as [m' Hm'].
  destruct H1 as [(_ & E1 & _)|(? & E1)], H2 as [(_ & E2 & _)|(? & E2)]; try (exfalso; lia).
  - rewrite E2, E1. auto.
  - rewrite E2, E1, Z.even_mul. auto.
Qed.

(** When the call succeeds, no pointer that it used was stale: the connection is
    finished and a new one with the same entries is added. *)
Lemma syn_reopens c n cp j e s seq c' st' :
  bucket_ok (heap c) n (cb c) -> slot_holds (heap c) (cb c) j e -> value (cb c) !! j = Some (Some s) ->
  4 * capacity (cb c) < 2147483648 -> opening_seq (payload cp) = Ok (Some seq) -> seq_ s <> seq ->
  connection_id_tcp_syn c cp (slist_get (cb c) (Z.of_nat j)) = Ok (c', st') ->
  exists k k', key (cb c) !! j = Some k /\ key (cb c) !! partner j = Some k' /\
    heap c' = finished_heap (heap c) k k' e ++ [e; mirror e] /\ extended (heap c) (cb c) (cb c') seq (next_id (counter c)) /\
    counter c' = next_count (counter c) /\ st' = slist_get (cb c') (Z.of_nat (length (key (cb c)))).
Proof.
  intros Hb Hj Hs Hcap Ho Hne H.
  destruct (bo_slot _ _ _ Hb j (slot_holds_lt _ _ _ _ Hj)) as (e' & H1 & H2 & _).
  assert (e' = e) as -> by (by eapply slot_holds_fun).
  destruct H1 as (k & s0 & q & Hk & He & Hs0 & Hse & Hq & Hoff), H2 as (k' & s' & q' & Hk' & He' & Hs' & Hse' & _).
  assert (s0 = s) as -> by congruence. exists k, k'. do 2 (split; [done|]).
  destruct (finish_keys _ _ _ _ _ _ _ Hb Hj Hk Hk') as (_ & _ & Hkk & _).
  pose proof (bo_wf _ _ _ Hb) as W. pose proof (wf_pos _ W) as Hpos. pose proof (length_value _ _ _ Hb) as Hlv.
  unfold connection_id_tcp_syn in H. rewrite Ho in H. cbn [mbind res_bind] in H.
  destruct (access c j s _ W Hs eq_refl) as [G _]. rewrite G in H. cbn [mbind res_bind] in H. clear G.
  rewrite (proj2 (Z.eqb_neq _ _) Hne), Hse in H. cbv zeta in H. set (i := next_id (counter c)) in *.
  assert (G : entry_at (c <| counter := next_count (counter c) |>) k = Ok e) by (unfold entry_at; cbn; by rewrite He). rewrite G in H. cbn [mbind res_bind] in H. clear G.
  destruct (entry_put_spec (c <| counter := next_count (counter c) |>) e i) as (c1 & E1 & W1 & Hh1 & Hc1 & Hk1 & Hv1 & Hsz1 & Hel1 & Hg1); [done|cbn; lia|].
  rewrite E1 in H. cbn [cb heap counter field_set mbind res_bind] in *. clear E1.
  apply bind_Ok_inv in H as (s1 & G1 & H). pose proof (get_state_block _ _ _ G1) as B1. cbn [slist_get p_blk] in B1.
  assert (Es : value (cb c1) !! j = Some (Some s)) by (rewrite Hv1; by apply lookup_app_l_Some).
  assert (P1 : forall m, slist_get (cb c) m = slist_get (cb c1) m) by (intros m; by apply slist_get_ext).
  rewrite P1, (proj1 (access c1 j s _ W1 Es eq_refl)) in G1. injection G1 as <-. rewrite Hq in H.
  apply bind_Ok_inv in H as (s2 & G2 & H). pose proof (get_state_block _ _ _ G2) as B2.
  assert (Hd1 : delta (cb c1) = delta (cb c)) by (unfold delta; by rewrite Hel1).
  rewrite (pointer_at (cb c1) q (Z.of_nat (partner j)) B2) in G2 by (by rewrite Hd1).
  assert (Es' : value (cb c1) !! partner j = Some (Some s')) by (rewrite Hv1; by apply lookup_app_l_Some).
  rewrite (proj1 (access c1 _ s' _ W1 Es' eq_refl)) in G2. injection G2 as <-. rewrite Hse' in H.
  assert (G : entry_at c1 k' = Ok (mirror e)) by (unfold entry_at; by rewrite Hh1, (lookup_app_l_Some _ _ _ _ He')). rewrite G in H. cbn [mbind res_bind] in H. clear G.
  assert (Hcap1 : 2 * capacity (cb c1) < 2147483648) by lia.
  destruct (entry_put_spec c1 (mirror e) i W1 Hcap1) as (c2 & E2 & W2 & Hh2 & Hc2 & Hk2 & Hv2 & Hsz2 & Hel2 & Hg2).
  rewrite E2 in H. cbn [mbind res_bind] in H. clear E2.
  apply bind_Ok_inv in H as (c3 & L & H). apply bind_Ok_inv in H as (c4 & F & H). injection H as <- <-.
  rewrite Hv1, <- (assoc_L (++)) in Hv2. cbn [app] in Hv2. rewrite Hsz1 in L.
  assert (Hsz : size (cb c) = Z.of_nat (length (value (cb c)))) by apply W.
  destruct (link_new_inv c2 _ _ _ _ _ _ _ W2 Hv2 Hsz (eq_sym Hel2) L) as (B3 & W3 & Hh3 & Hc3 & Hk3 & Hcap3 & Hel3 & B3' & Hv3).
  assert (Hh : heap c3 = heap c ++ [e; mirror e]) by (by rewrite Hh3, Hh2, Hh1, <- (assoc_L (++))).
  rewrite P1, (slist_get_ext (cb c1) (cb c3)) in F by congruence.
  apply (finish_old_inv c3 j s s' k k' e (mirror e) q) in F; try done;
    [|by rewrite Hv3; apply lookup_app_l_Some|by rewrite Hv3; apply lookup_app_l_Some
     |rewrite Hoff; unfold delta; by rewrite Hel3, Hel2, Hel1|by rewrite Hh; apply lookup_app_l_Some|by rewrite Hh; apply lookup_app_l_Some].
  subst c4. cbn [heap cb counter field_set]. split_and!.
  - unfold finished_heap. rewrite Hh, insert_app_l by exact (lookup_lt_Some _ _ _ He). rewrite insert_app_l; [done|]. rewrite length_insert. exact (lookup_lt_Some _ _ _ He').
  - destruct (second_put_fits (cb c) (cb c1) (cb c2)) as (Hev & Hcc); [apply Hb|by eapply size_even|done..|].
    constructor; [done|by rewrite Hcap3|congruence|by rewrite Hk3, Hk2, Hk1, Hh1, length_app, Nat.add_1_r, <- (assoc_L (++))| |by rewrite Hcap3].
    rewrite Hh1, length_app, Nat.add_1_r in Hv3. eexists _, _. split; [exact Hv3|]. cbn [slist_get p_off]. unfold delta.
    rewrite Hel2, Hel1, Hsz, Hlv. split; [f_equal; lia|done].
  - by rewrite Hc3, Hc2.
  - rewrite Hsz, Hlv. apply slist_get_ext; congruence.
Qed.

(** ** A second call *)
Lemma opening_initial m s : opening_seq m = Ok (Some s) -> initial_seq m = Ok s.
Proof.
  unfold opening_seq, initial_seq. intros H. inv_ok. destruct v as [tcp|]; inv_ok; [|discriminate]. rewrite Hv. cbn [mbind res_bind].
  destruct (_ && _); inv_ok; [|discriminate]. congruence.
Qed.

(** The first of the two new states. *)
Lemma added_state h n b c sq i : bucket_ok h n b -> extended h b (cb c) sq i ->
  exists s, get_state c (slist_get (cb c) (Z.of_nat (length (key b)))) = Ok s /\ seq_ s = sq /\ id s = i.
Proof.
  intros Hb Hx. destruct (ex_value _ _ _ _ _ Hx) as (q0 & q1 & Hv & _). pose proof (length_value _ _ _ Hb) as Hl.
  exists {| seq_ := sq; s_entry := length h; sibling := Some q0; id := i |}. split; [|done]. eapply access; [apply Hx| |reflexivity]. rewrite Hv, <- Hl. apply lookup_last.
Qed.

(** The connection that was added last is found, and it is not opened again by the packet that
    opened it. *)
Lemma search_added h c n b e i sq o cp :
  bucket_ok h n b -> bucket_of e = n -> (forall j x, slot_holds h b j x -> x <> e /\ x <> mirror e) ->
  extended h b (cb c) sq i -> heap c = h ++ [e; mirror e] ->
  opening_seq (payload cp) = Ok o -> (forall s, o = Some s -> s = sq) -> connection_id_search c cp e (mirror e) = Ok (c, i).
Proof.
  intros Hb Hn Hnew Hx Hh Ho Hs. unfold connection_id_search. rewrite Hh, (extend_found h n b (cb c) e sq i Hb Hx Hn Hnew).
  destruct (added_state h n b c sq i Hb Hx) as (s & G & E1 & E2). unfold connection_id_tcp_syn. rewrite Ho. cbn [mbind res_bind].
  destruct o as [s'|]; [|cbn [mbind res_bind]; rewrite G; cbn; by rewrite E2].
  rewrite (Hs s' eq_refl), G. cbn [mbind res_bind]. rewrite E1, Z.eqb_refl. cbn [mbind res_bind]. rewrite G. cbn. by rewrite E2.
Qed.

(** What a call does to a bucket: nothing, or one connection more. *)
Definition grown (c c' : conn) : Prop :=
  c' = c \/ counter c' = next_count (counter c) /\ length (key (cb c')) = (2 + length (key (cb c)))%nat /\
    (capacity (cb c') = capacity (cb c) \/ size (cb c) = capacity (cb c) /\ capacity (cb c') = 2 * capacity (cb c)).

Lemma extended_grown h c c' sq i : extended h (cb c) (cb c') sq i -> counter c' = next_count (counter c) -> grown c c'.
Proof. intros [_ _ _ Hk _ Hc] Hi. right. split_and!; [done|rewrite Hk, length_app; cbn; lia|done]. Qed.

Lemma not_found c n e : bucket_ok (heap c) n (cb c) -> finished e = 0 -> slist_find (connection_id_cmp (heap c)) (cb c) e = None ->
  forall j x, slot_holds (heap c) (cb c) j x -> x <> e /\ x <> mirror e.
Proof.
  intros Hb Hf Hn. unfold slist_find in Hn. destruct (find_from _ _ _ _) eqn:E; [discriminate|]. apply find_from_None in E.
  assert (G : forall j x, slot_holds (heap c) (cb c) j x -> x <> e).
  { intros j x (k & ? & ? & Hk & Hx & _) ->. rewrite Forall_forall in E. apply (E k); [apply list_elem_of_In; by eapply list_elem_of_lookup_2|].
    unfold connection_id_cmp. by rewrite decide_True. }
  intros j x H. split; [by eapply G|]. intros ->. destruct (bo_slot _ _ _ Hb j (slot_holds_lt _ _ _ _ H)) as (y & H1 & H2 & _).
  assert (y = mirror e) as -> by (by eapply slot_holds_fun). rewrite mirror_mirror in H2. by apply (G _ _ H2).
Qed.

(** What one call leaves behind. *)
Definition settled (c : conn) (n : nat) (cp : cap_header) (e : entry) (c' : conn) (i : Z) : Prop :=
  connection_id_search c' cp e (mirror e) = Ok (c', i) /\ bucket_ok (heap c') n (cb c') /\
  (forall n' b', n' <> n -> bucket_ok (heap c) n' b' -> bucket_ok (heap c') n' b') /\ grown c c'.

Lemma reopen_settled c n cp j e s seq c' st' :
  bucket_ok (heap c) n (cb c) -> bucket_of e = n -> finished e = 0 -> slot_holds (heap c) (cb c) j e -> value (cb c) !! j = Some (Some s) ->
  4 * capacity (cb c) < 2147483648 -> opening_seq (payload cp) = Ok (Some seq) -> seq_ s <> seq ->
  connection_id_tcp_syn c cp (slist_get (cb c) (Z.of_nat j)) = Ok (c', st') ->
  (exists s', get_state c' st' = Ok s' /\ id s' = next_id (counter c)) /\ settled c n cp e c' (next_id (counter c)).
Proof.
  intros Hb Hn Hf Hj Hs Hcap Ho Hne Hsyn.
  destruct (syn_reopens c n cp j e s seq c' st' Hb Hj Hs Hcap Ho Hne Hsyn) as (k1 & k2 & K1 & K2 & Hh & Hx & Hc & ->).
  set (h := finished_heap (heap c) k1 k2 e) in *.
  assert (Hl : length h = length (heap c)) by (unfold h, finished_heap; by rewrite !length_insert).
  assert (Hx' : extended h (cb c) (cb c') seq (next_id (counter c))) by (destruct Hx; constructor; rewrite ?Hl; done).
  pose proof (finish_ok _ _ _ _ _ _ _ Hb Hj K1 K2 : bucket_ok h n (cb c)) as Hb'.
  assert (Hnew : forall i x, slot_holds h (cb c) i x -> x <> e /\ x <> mirror e)
    by (intros; eapply (finish_gone (heap c) n (cb c) j k1 k2 e); done).
  split; [destruct (added_state h n (cb c) c' seq (next_id (counter c)) Hb' Hx') as (s' & ? & _ & ?); eauto|]. split_and!.
  - eapply search_added; [exact Hb'|done..|by intros ? [= ->]].
  - rewrite Hh. eapply extend_ok; eassumption.
  - intros n' b' Hne' Hb2. rewrite Hh. apply bucket_ok_app. exact (finish_other _ _ _ _ _ _ _ Hb Hj K1 K2 n' b' Hne' Hb2).
  - eapply extended_grown; eassumption.
Qed.

Lemma search_settled c n cp e o c' i :
  bucket_ok (heap c) n (cb c) -> bucket_of e = n -> finished e = 0 -> 4 * capacity (cb c) < 2147483648 ->
  opening_seq (payload cp) = Ok o -> connection_id_search c cp e (mirror e) = Ok (c', i) -> settled c n cp e c' i.
Proof.
  intros Hb Hn Hf Hcap Ho H. destruct (slist_find (connection_id_cmp (heap c)) (cb c) e) as [st|] eqn:Hfind.
  - pose proof H as H0. unfold connection_id_search in H. rewrite Hfind in H. apply bind_Ok_inv in H as ([c1 st1] & Hsyn & H).
    apply bind_Ok_inv in H as (s1 & G1 & H). injection H as <- <-.
    unfold slist_find in Hfind. destruct (find_from _ _ _ _) as [p|] eqn:E; [|discriminate]. cbn in Hfind. injection Hfind as <-.
    apply find_from_Some in E as (j & k & -> & Hk & Hcmp & _). rewrite Z.add_0_l in Hsyn.
    destruct (bo_slot _ _ _ Hb j) as (e' & Hj & _); [by eapply lookup_lt_Some|].
    assert (e' = e) as ->.
    { unfold connection_id_cmp in Hcmp. destruct (decide _) as [Hd|]; [|discriminate]. destruct Hj as (? & ? & ? & ? & ? & _). congruence. }
    pose proof Hj as (k0 & s & q & _ & _ & Hs & _).
    assert (Hcase : c1 = c \/ exists seq, o = Some seq /\ seq_ s <> seq).
    { pose proof Hsyn as G. unfold connection_id_tcp_syn in G. rewrite Ho in G. cbn [mbind res_bind] in G.
      destruct o as [seq|]; [|left; congruence].
      rewrite (proj1 (access c j s _ (bo_wf _ _ _ Hb) Hs eq_refl)) in G. cbn [mbind res_bind] in G.
      destruct (Z.eqb_spec (seq_ s) seq); [left; congruence|right; eauto]. }
    destruct Hcase as [-> |(seq & -> & Hne)]; [split_and!; [done|done|auto|by left]|].
    destruct (reopen_settled c n cp j e s seq c1 st1) as [(s' & G & Hid) Hset]; try done. by assert (id s1 = next_id (counter c)) as -> by congruence.
  - pose proof (not_found c n e Hb Hf Hfind) as Hnew.
    assert (Hi : exists sq, initial_seq (payload cp) = Ok sq).
    { unfold connection_id_search in H. rewrite Hfind in H. apply bind_Ok_inv in H as (x & H & _). unfold new_state in H.
      apply bind_Ok_inv in H as ([? ?] & _ & H). apply bind_Ok_inv in H as (sq & H & _). eauto. }
    destruct Hi as [sq Hsq].
    destruct (search_extends c cp e (mirror e) sq (bo_wf _ _ _ Hb) (bo_even _ _ _ Hb) (size_even _ _ _ Hb) Hcap Hsq Hfind) as (c2 & H2 & Hx & Hc & Hh).
    rewrite H in H2. injection H2 as <- ->. split_and!.
    + eapply search_added; [exact Hb|done..|]. intros s' ->. apply opening_initial in Ho. congruence.
    + rewrite Hh. eapply extend_ok; eassumption.
    + intros n' b' _ Hb'. rewrite Hh. by apply bucket_ok_app.
    + eapply extended_grown; eassumption.
Qed.

(** ** The database *)

(** Each connection that gets a number takes two slots, and arrays double when they are full. *)
Record db_ok (db : conn_db) : Prop := {
  do_length : length (buckets db) = 256%nat;
  do_counter : 0 <= db_counter db;
  do_bucket : forall n b, buckets db !! n = Some b -> bucket_ok (db_heap db) n b;
  do_room : forall b, b ∈ buckets db -> Z.of_nat (length (key b)) <= 2 * db_counter db /\ capacity b <= 32 + 4 * db_counter db;
}.

Lemma db_ok_initial : db_ok initial_db.
Proof.
  constructor; [done|cbn; lia| |].
  - intros n b [-> _]%lookup_replicate. constructor; [by apply slist_init_wf|done|done|intros j Hj; cbn in Hj; lia|constructor|].
    intros j j' e (? & ? & ? & Hk & _). done.
  - intros b [-> _]%elem_of_replicate. cbn. lia.
Qed.

Lemma connection_id_inv db cp r : connection_id db cp = Ok r ->
  (flow cp = Ok None /\ r = (db, CONNECTION_ID_NONE)) \/ exists e, flow cp = Ok (Some e) /\ finished e = 0.
Proof.
  unfold connection_id, flow. intros H. inv_ok. rewrite Hv. cbn [mbind res_bind]. destruct (option_map fst v) as [ip|]; [|left; by inv_ok].
  inv_ok. rewrite Hv0. cbn [mbind res_bind]. destruct v0 as [[e0 e1]|]; [|left; by inv_ok]. right. exists e0. split; [done|].
  clear - Hv0. unfold ipv4_connection_id in Hv0. apply bind_Ok_inv in Hv0 as (t & _ & Hv0). apply bind_Ok_inv in Hv0 as (u & _ & Hv0).
  destruct u as [[? [? ?]]|], t as [[? [? ?]]|]; try done; inv_ok; by injection Hv0 as <- _.
Qed.

Lemma flow_none db cp : flow cp = Ok None -> connection_id db cp = Ok (db, CONNECTION_ID_NONE).
Proof.
  unfold connection_id, flow. intros H. inv_ok. rewrite Hv. cbn [mbind res_bind]. destruct (option_map fst v) as [ip|]; [|done].
  inv_ok. rewrite Hv0. cbn [mbind res_bind]. by destruct v0 as [[? ?]|].
Qed.

Lemma grown_room c c' k : slist_wf (cb c) -> grown c c' -> 0 <= counter c < 100000000 ->
  Z.of_nat (length (key (cb c))) <= 2 * counter c -> capacity (cb c) <= 32 + 4 * counter c ->
  counter c <= counter c' <= counter c + 1 /\ (k <= 2 * counter c -> k <= 2 * counter c') /\
  Z.of_nat (length (key (cb c'))) <= 2 * counter c' /\ capacity (cb c') <= 32 + 4 * counter c'.
Proof.
  intros [W1 _ _ _ _ _] [-> |(-> & -> & Hc)] H0 H1 H2; [split_and!; lia|].
  unfold next_count. rewrite i32_id by lia. split_and!; lia.
Qed.

Lemma connection_id_settled db cp o db' i :
  db_ok db -> db_counter db < 100000000 -> opening_seq (payload cp) = Ok o -> connection_id db cp = Ok (db', i) ->
  connection_id db' cp = Ok (db', i) /\ db_ok db' /\ db_counter db <= db_counter db' <= db_counter db + 1.
Proof.
  intros [Hl H0 Hb Hr] Hc Ho H. destruct (connection_id_inv db cp _ H) as [[Hf [= -> ->]]|(e & Hf & Hfin)].
  { split; [by apply flow_none|]. split; [done|lia]. }
  destruct (lookup_lt_is_Some_2 (buckets db) (bucket_of e)) as [bk Hbk]; [rewrite Hl; apply bucket_of_lt|].
  rewrite (connection_id_flow db cp e bk Hf Hbk) in H. apply bind_Ok_inv in H as ([c' i'] & Hs & H). injection H as <- <-.
  destruct (Hr bk) as [R1 R2]; [by eapply list_elem_of_lookup_2|].
  destruct (search_settled (at_bucket db bk) (bucket_of e) cp e o c' i') as (Hag & Hb' & Hoth & Hg); try done; [by apply Hb|cbn; lia|].
  destruct (grown_room (at_bucket db bk) c' 0) as (Hcc & _ & R1' & R2'); try done; [apply (Hb _ _ Hbk)|].
  cbn [at_bucket counter] in Hcc. split_and!; [| |cbn; lia|cbn; lia].
  - erewrite (connection_id_flow _ cp e (cb c')); [|done|cbn [buckets]; apply list_lookup_insert_eq; by eapply lookup_lt_Some].
    unfold at_bucket. cbn [db_heap db_counter buckets]. replace {| cb := cb c'; heap := heap c'; counter := counter c' |} with c' by (by destruct c').
    rewrite Hag. cbn [mbind res_bind]. by rewrite list_insert_insert_eq.
  - constructor; cbn [buckets db_heap db_counter].
    + by rewrite length_insert.
    + cbn in Hcc. lia.
    + intros n b Hn. destruct (decide (n = bucket_of e)) as [-> |Hne].
      * apply list_lookup_insert_Some in Hn as [(_ & <- & _)|[? _]]; done.
      * rewrite list_lookup_insert_ne in Hn by done. apply Hoth; [done|]. by apply Hb.
    + intros b [n Hn]%list_elem_of_lookup_1. apply list_lookup_insert_Some in Hn as [(_ & <- & _)|[_ Hn]]; [done|].
      destruct (Hr b) as [? ?]; [by eapply list_elem_of_lookup_2|]. cbn in Hcc. lia.
Qed.

(** The databases that come out of calls, as many as numbers are left. *)
Inductive reachable : conn_db -> Prop :=
  | reachable_initial : reachable initial_db
  | reachable_call db cp o db' i : reachable db -> db_counter db < 100000000 -> opening_seq (payload cp) = Ok o ->
      connection_id db cp = Ok (db', i) -> reachable db'.

Lemma reachable_ok db : reachable db -> db_ok db.
Proof. induction 1 as [|db cp o db' i _ IH Hc Ho H]; [apply db_ok_initial|]. by eapply connection_id_settled. Qed.

(** C16: A second call for the same packet gives the same identifier and changes nothing,
    whatever packets came before: also for a packet that opens a connection again, when
    the first call succeeds.  The fields of the TCP header must lie in the memory behind
    the packet. *)
Theorem connection_id_again (db db' : conn_db) (cp : cap_header) (o : option Z) (i : Z) :
  reachable db -> db_counter db < 100000000 -> opening_seq (payload cp) = Ok o ->
  connection_id db cp = Ok (db', i) -> connection_id db' cp = Ok (db', i).
Proof. intros Hr Hc Ho H. by eapply connection_id_settled; [apply reachable_ok|..]. Qed.

(** ** Witness: a connection that is opened twice *)
Definition db_after (db : conn_db) (cp : cap_header) : conn_db := match connection_id db cp with Ok (db, _) => db | _ => db end.
Definition ex_db1 : conn_db := db_after initial_db (tcp_packet 1 2 1000 80 SYN 7).
Definition ex_db2 : conn_db := db_after ex_db1 (tcp_packet 1 2 1000 80 SYN 55).

Lemma connection_id_again_witness :
  connection_id ex_db1 (tcp_packet 1 2 1000 80 SYN 55) = Ok (ex_db2, 2) /\ connection_id ex_db2 (tcp_packet 1 2 1000 80 SYN 55) = Ok (ex_db2, 2).
Proof.
  assert (H : connection_id ex_db1 (tcp_packet 1 2 1000 80 SYN 55) = Ok (ex_db2, 2)) by (vm_compute; reflexivity). split; [exact H|].
  apply (connection_id_again ex_db1 ex_db2 (tcp_packet 1 2 1000 80 SYN 55) (Some 922746880)); [|vm_compute; reflexivity|vm_compute; reflexivity|exact H].
  apply (reachable_call initial_db (tcp_packet 1 2 1000 80 SYN 7) (Some 117440512) ex_db1 1); [constructor|vm_compute; reflexivity..].
Defined.
