(* ===== verification/Stream.v ===== *)
(** * Streams (src/stream.c, src/stream.h)

    The buffered reader.  Where the bytes come from is an interface ([Source]):
    the callback [fill_buffer] of a stream; [StreamFile] provides the one of
    capture files. *)

From S2P Require Import Prelude CLib Picotime Utils Address Packet Filter.

(** ** Data *)
Record file_version := { major : Z; minor : Z }.

(** [struct file_header_t]. *)
Record file_header := {
  magic : Z;
  version_ : file_version;
  header_offset : Z;
  comment_size : Z;
  fh_mpid : bytes;
}.
#[export] Instance file_header_rebuild : Rebuild file_header := fun h =>
  {| magic := magic h; version_ := version_ h; header_offset := header_offset h;
     comment_size := comment_size h; fh_mpid := fh_mpid h |}.

Record stream_stat := {
  stat_read : Z;
  stat_recv : Z;
  stat_matched : Z;
  stat_buffer_size : Z;
  stat_buffer_usage : Z;
}.
#[export] Instance stream_stat_rebuild : Rebuild stream_stat := fun s =>
  {| stat_read := stat_read s; stat_recv := stat_recv s; stat_matched := stat_matched s;
     stat_buffer_size := stat_buffer_size s; stat_buffer_usage := stat_buffer_usage s |}.

(** [struct stream] without the callbacks. *)
Record stream := {
  st_type : Z;
  st_addr : stream_addr;
  FH : file_header;
  comment : option bytes;
  buffer : bytes;
  buffer_size : Z;
  expSeqnr : Z;
  writePos : Z;
  readPos : Z;
  flushed : Z;
  num_addresses : Z;
  if_mtu : Z;
  if_loopback : Z;
  stat : stream_stat;
}.
#[export] Instance stream_rebuild : Rebuild stream := fun s =>
  {| st_type := st_type s; st_addr := st_addr s; FH := FH s; comment := comment s; buffer := buffer s;
     buffer_size := buffer_size s; expSeqnr := expSeqnr s; writePos := writePos s; readPos := readPos s;
     flushed := flushed s; num_addresses := num_addresses s; if_mtu := if_mtu s; if_loopback := if_loopback s;
     stat := stat s |}.

Definition stream_alloc (protocol buffer_size mtu : Z) : stream :=
  let buffer_size := if buffer_size =? 0 then 175000 else buffer_size in
  {| st_type := protocol; st_addr := zero_addr;
     FH := {| magic := 0; version_ := {| major := 0; minor := 0 |}; header_offset := 0; comment_size := 0;
              fh_mpid := replicate 200 0 |};
     comment := None; buffer := replicate (Z.to_nat buffer_size) 0; buffer_size := buffer_size;
     expSeqnr := 0; writePos := 0; readPos := 0; flushed := 0; num_addresses := 0; if_mtu := mtu; if_loopback := 0;
     stat := {| stat_read := 0; stat_recv := 0; stat_matched := 0; stat_buffer_size := buffer_size; stat_buffer_usage := 0 |} |}.

Definition VERSION_MAJOR : Z := 0.
Definition VERSION_MINOR : Z := 7.
Definition is_valid_version (fhptr : file_header) : bool :=
  (major (version_ fhptr) <=? VERSION_MAJOR) && (minor (version_ fhptr) <=? VERSION_MINOR).

(** ** Captured packets in memory *)
Definition sizeof_cap_header : Z := 36.

(** The bytes of a capture header and of the data behind it. *)
Definition cap_header_image (p : cap_header) : bytes :=
  nic p ++ head_mampid p ++ le32 (tv_sec (ts p)) ++ le64 (tv_psec (ts p)) ++ le32 (len p) ++ le32 (caplen p).
Definition packet_image (p : cap_header) : bytes := cap_header_image p ++ payload p.

(** The memory at offset [o] seen through a [struct cap_header*]. *)
Definition cap_at (m : bytes) (o : Z) : res cap_header :=
  n ← slice m o 8; mp ← slice m (o + 8) 8;
  sec ← rd32 m (o + 16); psec ← rd64 m (o + 20); l ← rd32 m (o + 28); cl ← rd32 m (o + 32);
  Ok {| nic := n; head_mampid := mp; ts := {| tv_sec := sec; tv_psec := psec |}; len := l; caplen := cl;
        payload := drop (Z.to_nat (o + sizeof_cap_header)) m |}.

(** ** The reader *)
Definition EAGAIN : Z := 11.
Definition EINTR : Z := 4.

(** [fill s timeout max]: the bytes stored at the destination, the value
    returned and [errno]. *)
Class Source (S : Type) := fill : S -> option timeval -> Z -> S * (bytes * Z * Z).

Definition bump_read (st : stream) : stream :=
  st <| stat := (stat st) <| stat_read := u64 (stat_read (stat st) + 1) |>
                          <| stat_buffer_usage := u32 (writePos st - readPos st) |> |>.
Definition bump_matched (st : stream) : stream :=
  st <| stat := (stat st) <| stat_matched := u64 (stat_matched (stat st) + 1) |> |>.

(** The buffer is filled to its end and holds more than the next packet. *)
Definition not_drained (st : stream) : res bool :=
  let available := u64 (buffer_size st - writePos st) in
  let left := u64 (buffer_size st - readPos st) in
  if (available =? 0) && (sizeof_cap_header <? left) then
    caplen ← rd32 (buffer st) (readPos st + 32); Ok (sizeof_cap_header + caplen <? left)
  else Ok false.

(** The unread bytes are moved to the start of the buffer. *)
Definition compact (st : stream) : res stream :=
  if 0 <? readPos st then
    let n := u32 (writePos st - readPos st) in
    content ← slice (buffer st) (readPos st) n;
    b ← wr (buffer st) 0 content;
    Ok (st <| buffer := b |> <| writePos := n |> <| readPos := 0 |>)
  else Ok st.

Section Reader.
Context {S : Type} {src : Source S}.
Variable bpf_filter : list bpf_insn -> bytes -> Z -> Z -> Z.

Definition fill_buffer (st : stream) (s : S) (timeout : option timeval) : res (stream * S * Z) :=
  if flushed st =? 1 then Ok (st, s, -1) else
  full ← not_drained st;
  if (full : bool) then Ok (st, s, 0) else
  st ← compact st;
  let available := u64 (buffer_size st - writePos st) in
  let '(s, (data, ret, errno)) := fill s timeout available in
  b ← wr (buffer st) (writePos st) data;
  let st := st <| buffer := b |> in
  if 0 <? ret then Ok (st <| writePos := u32 (writePos st + ret) |>, s, 0)
  else if ret <? 0 then Ok (st, s, errno)
  else Ok (st, s, -1).

Definition read_result : Type := stream * S * option filter * (Z * option cap_header).

(** One packet against the filter, if there is one. *)
Definition filter_status (f : option filter) (cp : cap_header) : res (option filter * bool) :=
  match f with
  | None => Ok (None, true)
  | Some f => '(f, b) ← filter_match bpf_filter f (payload cp) cp; Ok (Some f, b)
  end.

(** The loop of [stream_read]; [fuel] bounds the number of iterations. *)
Fixpoint read_loop (fuel : nat) (st : stream) (s : S) (f : option filter) (timeout : option timeval) : res read_result :=
  match fuel with
  | O => OutOfFuel
  | Datatypes.S fuel =>
      if u32 (writePos st - readPos st) <? sizeof_cap_header then
        '(st, s, ret) ← fill_buffer st s (Some (default {| tval_sec := 1; tval_usec := 0 |} timeout));
        if ret =? 0 then read_loop fuel st s f timeout
        else if (ret =? EAGAIN) && ((sizeof_cap_header <=? u32 (writePos st - readPos st)) || bool_decide (timeout = None))
        then read_loop fuel st s f timeout
        else Ok (st, s, f, (ret, None))
      else
        '(st, s, ret) ← fill_buffer st s (Some {| tval_sec := 0; tval_usec := 0 |});
        if negb (ret =? 0) && negb (ret =? EAGAIN) && negb (ret =? -1) then Ok (st, s, f, (ret, None))
        else
          cp ← cap_at (buffer st) (readPos st);
          let packet_size := sizeof_cap_header + caplen cp in
          let end_pos := readPos st + packet_size in
          if writePos st <? end_pos then
            '(st, s, ret) ← fill_buffer st s timeout;
            if ret =? 0 then read_loop fuel st s f timeout else Ok (st, s, f, (ret, None))
          else
            let st := bump_read (st <| readPos := u32 (readPos st + packet_size) |>) in
            '(f, filterStatus) ← filter_status f cp;
            if (filterStatus : bool) then Ok (bump_matched st, s, f, (0, Some cp))
            else read_loop fuel st s f timeout
  end.

(** [read] is the callback that streams of measurement frames install. *)
Definition stream_read (read : option (stream -> S -> option filter -> option timeval -> res read_result))
    (fuel : nat) (st : stream) (s : S) (f : option filter) (timeout : option timeval) : res read_result :=
  match read with
  | Some read => read st s f timeout
  | None => read_loop fuel st s f timeout
  end.

(** The loop of [stream_peek]; the read position does not move. *)
Fixpoint peek_loop (fuel : nat) (st : stream) (s : S) (f : option filter) : res read_result :=
  match fuel with
  | O => OutOfFuel
  | Datatypes.S fuel =>
      let refill := '(st, s, ret) ← fill_buffer st s (Some {| tval_sec := 0; tval_usec := 0 |});
                    if ret =? 0 then peek_loop fuel st s f else Ok (st, s, f, (ret, None)) in
      if u32 (writePos st - readPos st) <? sizeof_cap_header then refill
      else
        cp ← cap_at (buffer st) (readPos st);
        let end_pos := readPos st + (sizeof_cap_header + caplen cp) in
        if caplen cp =? 0 then Ok (st, s, f, (ERROR_CAPFILE_INVALID, None))
        else if writePos st <? end_pos then refill
        else
          '(f, matched) ← filter_status f cp;
          if (matched : bool) then Ok (st, s, f, (0, Some cp)) else peek_loop fuel st s f
  end.

Definition stream_peek (read : option (stream -> S -> option filter -> option timeval -> res read_result))
    (fuel : nat) (st : stream) (s : S) (f : option filter) : res read_result :=
  match read with Some _ => Abort | None => peek_loop fuel st s f end.
End Reader.
Arguments read_result S : clear implicits.

(** Return codes that end the application's loop are passed on.  [read] is [stream_read] for
    the streams [T]; the callback has an effect [A] besides its result. *)
Definition stream_read_cb {T A : Type} (read : T -> option filter -> option timeval -> res (T * option filter * (Z * option cap_header)))
    (none : A) (callback : T -> cap_header -> res (A * Z))
    (st : T) (f : option filter) (timeout : option timeval) : res (T * option filter * (A * Z)) :=
  let tv := default {| tval_sec := 1; tval_usec := 0 |} timeout in
  '(st, f, (ret, cp)) ← read st f (Some tv);
  if ret =? EAGAIN then Ok (st, f, (none, 0))
  else if (ret =? -1) || (ret =? EINTR) then Ok (st, f, (none, ret))
  else if negb (ret =? 0) then Ok (st, f, (none, ret))
  else match cp with Some cp => r ← callback st cp; Ok (st, f, r) | None => Fault end.

(** ** Memory lemmas *)
Lemma wr_app a b c bs : length bs = length b -> wr (a ++ b ++ c) (blen a) bs = Ok (a ++ bs ++ c).
Proof. intros. by apply wr_mid. Qed.

Record packet_ok (p : cap_header) : Prop := {
  ok_nic : blen (nic p) = 8;
  ok_mampid : blen (head_mampid p) = 8;
  ok_sec : is_u32 (tv_sec (ts p));
  ok_psec : is_u64 (tv_psec (ts p));
  ok_len : is_u32 (len p);
  ok_caplen : caplen p = blen (payload p) /\ is_u32 (caplen p);
}.

(** The packet as it lies in memory: [rest] follows its data. *)
Definition in_memory (p : cap_header) (rest : bytes) : cap_header := p <| payload := payload p ++ rest |>.

Lemma blen_header p : packet_ok p -> blen (cap_header_image p) = 36.
Proof. intros []. unfold cap_header_image. rewrite !blen_app, ok_nic0, ok_mampid0. done. Qed.

Lemma caplen_at a p rest : packet_ok p -> rd32 (a ++ packet_image p ++ rest) (blen a + 32) = Ok (caplen p).
Proof.
  intros []. unfold packet_image, cap_header_image. rewrite <- !(assoc_L (++)).
  replace (a ++ nic p ++ head_mampid p ++ le32 (tv_sec (ts p)) ++ le64 (tv_psec (ts p)) ++ le32 (len p) ++ le32 (caplen p) ++ payload p ++ rest)
    with ((a ++ nic p ++ head_mampid p ++ le32 (tv_sec (ts p)) ++ le64 (tv_psec (ts p)) ++ le32 (len p)) ++ le32 (caplen p) ++ payload p ++ rest)
    by (by rewrite <- !(assoc_L (++))).
  apply rd32_at; [|tauto]. lens.
Qed.

Lemma cap_at_image a p rest : packet_ok p -> cap_at (a ++ packet_image p ++ rest) (blen a) = Ok (in_memory p rest).
Proof.
  intros Hp. pose proof (blen_header p Hp) as Hh. pose proof Hp as [Hn Hm Hs Hps Hl [Hc Hcu]]. unfold cap_at.
  rewrite caplen_at by done. unfold packet_image, cap_header_image. rewrite <- !(assoc_L (++)).
  set (m := payload p ++ rest). set (s := le32 (tv_sec (ts p))). set (ps := le64 (tv_psec (ts p))).
  set (l := le32 (len p)). set (c := le32 (caplen p)). set (all := a ++ _).
  assert (E1 : slice all (blen a) 8 = Ok (nic p)) by (by apply slice_app).
  assert (E2 : slice all (blen a + 8) 8 = Ok (head_mampid p)).
  { unfold all. rewrite (assoc_L (++) a). apply slice_app; lens. }
  assert (E3 : rd32 all (blen a + 16) = Ok (tv_sec (ts p))).
  { unfold all. rewrite (assoc_L (++) (nic p)), (assoc_L (++) a). apply rd32_at; [lens|done]. }
  assert (E4 : rd64 all (blen a + 20) = Ok (tv_psec (ts p))).
  { unfold all. rewrite (assoc_L (++) (head_mampid p)), (assoc_L (++) (nic p)), (assoc_L (++) a).
    apply rd64_at; [unfold s; lens|done]. }
  assert (E5 : rd32 all (blen a + 28) = Ok (len p)).
  { unfold all. rewrite (assoc_L (++) s), (assoc_L (++) (head_mampid p)), (assoc_L (++) (nic p)), (assoc_L (++) a).
    apply rd32_at; [unfold s, ps; lens|done]. }
  rewrite E1, E2, E3, E4, E5. cbn [mbind res_bind]. unfold in_memory. cbn. do 2 f_equal; [by destruct (ts p)|].
  assert (E6 : all = (a ++ cap_header_image p) ++ m) by (unfold all, cap_header_image; by rewrite <- !(assoc_L (++))).
  rewrite E6. apply drop_at. rewrite blen_app, Hh. done.
Qed.

(** ** What a source promises

    [remaining] is what is left to be delivered: a call with room delivers some
    of it, in order, and nothing only when nothing is left.  [source_ok] are the
    states in which the source works. *)
Class SourceLaws (S : Type) {src : Source S} := {
  remaining : S -> bytes;
  source_ok : S -> Prop;
  fill_laws : forall s timeout max, source_ok s -> 0 <= max < 2147483648 ->
    exists s' data errno, fill s timeout max = (s', (data, blen data, errno)) /\ source_ok s' /\
      remaining s = data ++ remaining s' /\ blen data <= max /\
      (data = [] -> max = 0 \/ remaining s = []);
}.

(** ** The buffer *)
Record stream_inv (st : stream) : Prop := {
  inv_size : blen (buffer st) = buffer_size st;
  inv_pos : 0 <= readPos st <= writePos st;
  inv_write : writePos st <= buffer_size st;
  inv_bound : sizeof_cap_header <= buffer_size st < 2147483648;
  inv_open : flushed st <> 1;
}.

(** The unread bytes in the buffer. *)
Definition unread (st : stream) : bytes :=
  take (Z.to_nat (writePos st - readPos st)) (drop (Z.to_nat (readPos st)) (buffer st)).

(** Everything but the buffer's content and positions. *)
Definition same_config (st st' : stream) : Prop :=
  st' = st <| buffer := buffer st' |> <| writePos := writePos st' |> <| readPos := readPos st' |>.

Lemma same_config_refl st : same_config st st.
Proof. by destruct st. Qed.
Lemma same_config_trans a b c : same_config a b -> same_config b c -> same_config a c.
Proof. unfold same_config. intros -> ->. done. Qed.

Lemma blen_unread st : stream_inv st -> blen (unread st) = writePos st - readPos st.
Proof.
  intros []. unfold unread. rewrite blen_take; [done|]. rewrite blen_drop by lia. lia.
Qed.

(** The buffer is the part that was read, the unread bytes and free space. *)
Lemma buffer_split st : stream_inv st ->
  exists a c, buffer st = a ++ unread st ++ c /\ blen a = readPos st /\ blen c = buffer_size st - writePos st.
Proof.
  intros []. exists (take (Z.to_nat (readPos st)) (buffer st)), (drop (Z.to_nat (writePos st)) (buffer st)).
  split_and!; [|apply blen_take; lia|rewrite blen_drop; lia]. unfold unread.
  rewrite <- (take_drop (Z.to_nat (readPos st)) (buffer st)) at 1. f_equal.
  rewrite <- (take_drop (Z.to_nat (writePos st - readPos st)) (drop (Z.to_nat (readPos st)) (buffer st))) at 1. f_equal.
  rewrite drop_drop. f_equal. lia.
Qed.

Lemma unread_intro st a u c :
  buffer st = a ++ u ++ c -> readPos st = blen a -> writePos st = blen a + blen u -> unread st = u.
Proof.
  intros Hb Hr Hw. unfold unread. rewrite Hb, Hr, Hw. rewrite drop_at by done.
  replace (blen a + blen u - blen a) with (blen u) by lia. unfold blen. by rewrite Nat2Z.id, take_app_length.
Qed.

Lemma compact_ok st : stream_inv st ->
  exists st', compact st = Ok st' /\ stream_inv st' /\ unread st' = unread st /\ same_config st st' /\ readPos st' = 0.
Proof.
  intros Hinv. pose proof (blen_unread st Hinv) as Hlen. pose proof Hinv as [].
  unfold compact. destruct (Z.ltb_spec 0 (readPos st)) as [Hr|Hr].
  2: { exists st. split_and!; try done; [apply same_config_refl|lia]. }
  rewrite u32_id by (ints; unfold sizeof_cap_header in *; lia).
  destruct (buffer_split st Hinv) as (a & c & Hb & Ha & Hc).
  set (n := writePos st - readPos st) in *. rewrite Hb, slice_app by lia. cbn [mbind res_bind].
  set (full := a ++ unread st ++ c) in *.
  assert (W : wr full 0 (unread st) = Ok (unread st ++ drop (length (unread st)) full)).
  { rewrite <- (take_drop (length (unread st)) full) at 1. apply (wr_app []).
    rewrite length_take. unfold full. rewrite !length_app. lia. }
  rewrite W. cbn [mbind res_bind app]. eexists. split; [reflexivity|].
  assert (Hl : blen (unread st ++ drop (length (unread st)) full) = buffer_size st).
  { rewrite blen_app. assert (blen full = buffer_size st) by (by rewrite <- Hb).
    assert (blen full = blen (unread st) + blen (drop (length (unread st)) full)); [|lia].
    rewrite <- (take_drop (length (unread st)) full) at 1. rewrite blen_app. f_equal.
    unfold blen. rewrite length_take. unfold full. rewrite !length_app. lia. }
  split_and!; cbn.
  - constructor; cbn; try done; lia.
  - by apply (unread_intro _ [] (unread st) (drop (length (unread st)) full)).
  - done.
  - done.
Qed.

(** A complete packet is at the front, and something behind it. *)
Definition packet_buffered (st : stream) : Prop :=
  exists c, rd32 (unread st) 32 = Ok c /\ sizeof_cap_header + c < blen (unread st).

Lemma not_drained_ok st : stream_inv st ->
  exists b, not_drained st = Ok b /\ (b = true -> packet_buffered st).
Proof.
  intros Hinv. pose proof (blen_unread st Hinv) as Hlen. pose proof Hinv as []. unfold not_drained, sizeof_cap_header in *.
  rewrite !u64_id by (ints; lia).
  destruct (Z.eqb_spec (buffer_size st - writePos st) 0) as [Ea|Ea]; [|by exists false].
  destruct (Z.ltb_spec 36 (buffer_size st - readPos st)) as [El|El]; [|by exists false]. cbn [andb].
  destruct (buffer_split st Hinv) as (a & c & Hb & Ha & Hc).
  assert (E : rd32 (buffer st) (readPos st + 32) = rd32 (unread st) 32).
  { rewrite Hb, rd32_app_r by lia. replace (readPos st + 32 - blen a) with 32 by lia. apply rd32_app_l. lia. }
  rewrite E. destruct (rd32_in (unread st) 32) as [cl Hcl]; [lia|lia|]. rewrite Hcl. cbn [mbind res_bind].
  eexists. split; [reflexivity|]. intros Hlt%Z.ltb_lt. exists cl. split; [done|]. unfold sizeof_cap_header. lia.
Qed.

Section ReaderSpec.
Context {S : Type} {src : Source S} {laws : SourceLaws S}.
Variable bpf_filter : list bpf_insn -> bytes -> Z -> Z -> Z.

(** What a call of [fill_buffer] can do: read something, find the buffer full
    with a packet at its front, or report the end. *)
Inductive fill_outcome (st : stream) (s : S) : stream -> S -> Z -> Prop :=
  | fill_read st' s' : blen (remaining s') < blen (remaining s) -> fill_outcome st s st' s' 0
  | fill_full : packet_buffered st -> fill_outcome st s st s 0
  | fill_end st' s' : unread st' = unread st -> remaining s' = [] \/ blen (unread st') = buffer_size st' -> fill_outcome st s st' s' (-1).

Lemma fill_buffer_ok st s timeout : stream_inv st -> source_ok s ->
  exists st' s' ret, fill_buffer st s timeout = Ok (st', s', ret) /\ stream_inv st' /\ source_ok s' /\ same_config st st' /\
    (exists d, unread st' = unread st ++ d) /\
    unread st' ++ remaining s' = unread st ++ remaining s /\ fill_outcome st s st' s' ret.
Proof.
  intros Hinv Hsrc. unfold fill_buffer. rewrite (proj2 (Z.eqb_neq _ _)) by (apply inv_open, Hinv).
  destruct (not_drained_ok st Hinv) as (b & -> & Hb). cbn [mbind res_bind]. destruct b.
  { exists st, s, 0. split_and!; try done; [apply same_config_refl | exists []; by rewrite app_nil_r | by apply fill_full, Hb]. }
  destruct (compact_ok st Hinv) as (st1 & -> & Hinv1 & Hu1 & Hcfg & Hr1). cbn [mbind res_bind].
  pose proof (blen_unread st1 Hinv1) as Hlen. pose proof Hinv1 as []. unfold sizeof_cap_header in *.
  rewrite u64_id by (ints; lia).
  destruct (fill_laws s timeout (buffer_size st1 - writePos st1)) as (s' & data & e & -> & Hsrc' & Hrem & Hmax & Hnil); [done|lia|].
  destruct (buffer_split st1 Hinv1) as (a & c & Hbuf & Ha & Hc).
  assert (W : wr (buffer st1) (writePos st1) data = Ok (a ++ (unread st1 ++ data) ++ drop (length data) c)).
  { rewrite Hbuf. replace (writePos st1) with (blen (a ++ unread st1)) by lens.
    rewrite <- (take_drop (length data) c) at 1. rewrite !(assoc_L (++)), <- (assoc_L (++) (a ++ unread st1)).
    rewrite wr_app; [by rewrite <- !(assoc_L (++))|]. rewrite length_take. unfold blen in *. lia. }
  rewrite W. cbn [mbind res_bind]. pose proof (blen_nonneg data).
  assert (Hl : blen (a ++ (unread st1 ++ data) ++ drop (length data) c) = buffer_size st1).
  { rewrite !blen_app, <- inv_size0, Hbuf, !blen_app. unfold blen in *. rewrite length_drop. lia. }
  destruct (Z.ltb_spec 0 (blen data)) as [Hd|Hd].
  - cbn [field_set writePos]. rewrite u32_id by (ints; lia). set (nb := a ++ (unread st1 ++ data) ++ drop (length data) c) in *.
    set (st' := st1 <| buffer := nb |> <| writePos := writePos st1 + blen data |>). exists st', s', 0. split; [reflexivity|].
    assert (Hu : unread st' = unread st1 ++ data).
    { apply (unread_intro _ a _ (drop (length data) c)); cbn; [done | done | lens]. }
    split_and!; [constructor; cbn; lia || done | done | by apply (same_config_trans _ st1) | exists data; by rewrite Hu, Hu1 | | ].
    + by rewrite Hu, Hu1, Hrem, <- (assoc_L (++)).
    + apply fill_read. rewrite Hrem, blen_app. lia.
  - assert (data = []) as -> by (destruct data; [done|rewrite blen_cons in Hd; pose proof (blen_nonneg data); lia]).
    rewrite (proj2 (Z.ltb_ge (blen []) 0)) by lia. set (nb := a ++ (unread st1 ++ []) ++ drop (length []) c) in *.
    set (st' := st1 <| buffer := nb |>). exists st', s', (-1). split; [reflexivity|]. cbn in Hrem.
    assert (Hu : unread st' = unread st1).
    { apply (unread_intro _ a _ c); cbn; [unfold nb; by rewrite app_nil_r | done | lia]. }
    split_and!; [constructor; cbn; lia || done | done | by apply (same_config_trans _ st1) | exists []; by rewrite Hu, Hu1, app_nil_r | | ].
    + by rewrite Hu, Hu1, Hrem.
    + apply fill_end; [by rewrite Hu|]. destruct (Hnil eq_refl) as [H0|H0]; [right|left; congruence]. rewrite Hu. cbn. lia.
Qed.

(** ** Packets in order *)

(** A filter's decision on a packet, whatever follows the packet in memory. *)
Definition decides (f : option filter) (p : cap_header) (f' : option filter) (b : bool) : Prop :=
  forall rest, filter_status bpf_filter f (in_memory p rest) = Ok (f', b).

(** The first of the packets the filter accepts, and those behind it. *)
Inductive selects : option filter -> list cap_header -> option filter -> option (cap_header * list cap_header) -> Prop :=
  | selects_nil f : selects f [] f None
  | selects_hit f p ps f' : decides f p f' true -> selects f (p :: ps) f' (Some (p, ps))
  | selects_skip f p ps f' f'' r : decides f p f' false -> selects f' ps f'' r -> selects f (p :: ps) f'' r.

(** Bytes that hold no complete packet, or one larger than the buffer. *)
Definition stuck (size : Z) (tail : bytes) : Prop :=
  blen tail < sizeof_cap_header \/
  exists c, rd32 tail 32 = Ok c /\ Z.min (blen tail) size < sizeof_cap_header + c.

Definition contents (ps : list cap_header) (tail : bytes) : bytes := concat (map packet_image ps) ++ tail.

Definition fits (size : Z) (p : cap_header) : Prop := packet_ok p /\ sizeof_cap_header + caplen p <= size.

Lemma blen_packet p : packet_ok p -> blen (packet_image p) = sizeof_cap_header + caplen p.
Proof. intros Hp. unfold packet_image. rewrite blen_app, blen_header by done. by destruct Hp as [? ? ? ? ? [-> _]]. Qed.

Lemma contents_cons p ps tail : contents (p :: ps) tail = packet_image p ++ contents ps tail.
Proof. unfold contents. cbn. by rewrite <- (assoc_L (++)). Qed.

(** The length field at the front of the unread bytes. *)
Lemma front_caplen st s ps tail size :
  unread st ++ remaining s = contents ps tail -> sizeof_cap_header <= blen (unread st) ->
  Forall (fits size) ps -> stuck size tail ->
  exists c, rd32 (unread st) 32 = Ok c /\
    match ps with p :: _ => c = caplen p | [] => Z.min (blen tail) size < sizeof_cap_header + c end.
Proof.
  intros E Hl Hfit Hst. unfold sizeof_cap_header in *.
  assert (Hrd : rd32 (unread st) 32 = rd32 (contents ps tail) 32) by (rewrite <- E; symmetry; apply rd32_app_l; lia).
  rewrite Hrd. destruct ps as [|p ps].
  - cbn in E |- *. destruct Hst as [Hst|(c & Hc & Hlt)]; [|eauto].
    apply (f_equal blen) in E. cbn in E. rewrite blen_app in E. pose proof (blen_nonneg (remaining s)). unfold sizeof_cap_header in *. lia.
  - exists (caplen p). split; [|done]. rewrite contents_cons. apply (caplen_at [] p). by inversion_clear Hfit as [|? ? [? _] _].
Qed.

(** The packet structure the reader sees at its position. *)
Lemma front_packet st c : stream_inv st -> rd32 (unread st) 32 = Ok c ->
  exists cp, cap_at (buffer st) (readPos st) = Ok cp /\ caplen cp = c /\
    forall p u, packet_ok p -> unread st = packet_image p ++ u -> exists rest, cp = in_memory p rest.
Proof.
  intros Hinv Hc. destruct (buffer_split st Hinv) as (a & z & Hb & Ha & Hz). pose proof Hinv as [].
  pose proof (rd32_inv _ _ _ Hc) as [_ Hu]. pose proof (blen_unread st Hinv).
  assert (Hr : rd32 (buffer st) (readPos st + 32) = Ok c).
  { rewrite Hb, rd32_app_r by lia. replace (readPos st + 32 - blen a) with 32 by lia. rewrite rd32_app_l by lia. done. }
  assert (Hsl : forall o, 0 <= o <= 8 -> exists l, slice (buffer st) (readPos st + o) 8 = Ok l).
  { intros o Ho. unfold slice. rewrite !(proj2 (Z.ltb_ge _ _)) by lia. cbn. eauto. }
  unfold cap_at. destruct (Hsl 0) as [n Hn]; [lia|]. rewrite Z.add_0_r in Hn. rewrite Hn.
  destruct (Hsl 8) as [mp Hm]; [lia|]. rewrite Hm.
  destruct (rd32_in (buffer st) (readPos st + 16)) as [sec Hsec]; [lia|lia|]. rewrite Hsec.
  destruct (rd64_in (buffer st) (readPos st + 20)) as [psec Hpsec]; [lia|lia|]. rewrite Hpsec.
  destruct (rd32_in (buffer st) (readPos st + 28)) as [l Hl]; [lia|lia|]. rewrite Hl, Hr. cbn [mbind res_bind].
  eexists. split; [reflexivity|]. split; [done|]. intros p u Hp Eu. exists (u ++ z).
  pose proof (cap_at_image a p (u ++ z) Hp) as E. unfold cap_at in E.
  rewrite (assoc_L (++) (packet_image p)), <- Eu, <- Hb, Ha in E. rewrite Hn, Hm, Hsec, Hpsec, Hl, Hr in E.
  cbn [mbind res_bind] in E. by apply Ok_inj in E.
Qed.

(** The reader moves behind the packet. *)
Lemma advance_ok st p u :
  stream_inv st -> packet_ok p -> unread st = packet_image p ++ u ->
  let st' := bump_read (st <| readPos := u32 (readPos st + (sizeof_cap_header + caplen p)) |>) in
  stream_inv st' /\ unread st' = u.
Proof.
  intros Hinv Hp Hu. pose proof (blen_unread st Hinv) as Hl. rewrite Hu, blen_app, blen_packet in Hl by done.
  pose proof (blen_nonneg u). pose proof Hinv as []. destruct (ok_caplen _ Hp) as [_ Hc]. unfold sizeof_cap_header in *.
  rewrite u32_id by (ints; lia). cbn zeta. split.
  - constructor; cbn; try done; try lia. ints; lia.
  - destruct (buffer_split st Hinv) as (a & z & Hb & Ha & Hz).
    apply (unread_intro _ (a ++ packet_image p) u z); cbn; [by rewrite Hb, Hu, <- !(assoc_L (++)) | |];
      rewrite ?blen_app, ?blen_packet by done; unfold sizeof_cap_header; lia.
Qed.

(** What a call of the reader leaves behind. *)
Definition read_post (size : Z) (tail : bytes) (f' : option filter) (r : option (cap_header * list cap_header))
    (out : res (read_result S)) : Prop :=
  exists st' s', stream_inv st' /\ source_ok s' /\ buffer_size st' = size /\
    match r with
    | Some (p, ps) => exists rest, out = Ok (st', s', f', (0, Some (in_memory p rest))) /\
                        unread st' ++ remaining s' = contents ps tail
    | None => out = Ok (st', s', f', (-1, None))
    end.

Lemma unread_complete st s p ps tail :
  unread st ++ remaining s = contents (p :: ps) tail -> packet_ok p ->
  sizeof_cap_header + caplen p <= blen (unread st) ->
  exists u, unread st = packet_image p ++ u /\ u ++ remaining s = contents ps tail.
Proof.
  intros E Hp Hl. rewrite contents_cons in E. rewrite <- blen_packet in Hl by done.
  apply app_eq_inv in E as [(u & E1 & E2)|(u & E1 & E2)]; [by exists u|].
  rewrite E1, blen_app in Hl. assert (u = []) as ->.
  { destruct u; [done|]. rewrite blen_cons in Hl. pose proof (blen_nonneg u). lia. }
  exists []. rewrite app_nil_r in E1. rewrite app_nil_r. by rewrite E1, E2.
Qed.

Lemma same_config_size st st' : same_config st st' -> buffer_size st' = buffer_size st.
Proof. by intros ->. Qed.

Lemma remaining_le st s st' s' d : unread st' = unread st ++ d ->
  unread st' ++ remaining s' = unread st ++ remaining s -> blen (remaining s') <= blen (remaining s).
Proof.
  intros -> E%(f_equal blen). rewrite !blen_app in E. pose proof (blen_nonneg d). lia.
Qed.

(** Calling the source when the packet at the front is not complete. *)
Lemma refill st s ps tail timeout :
  stream_inv st -> source_ok s -> unread st ++ remaining s = contents ps tail -> Forall (fits (buffer_size st)) ps ->
  (forall c, rd32 (unread st) 32 = Ok c -> blen (unread st) < sizeof_cap_header + c) ->
  (forall p, head ps = Some p -> blen (unread st) < sizeof_cap_header + caplen p) ->
  exists st' s' ret, fill_buffer st s timeout = Ok (st', s', ret) /\ stream_inv st' /\ source_ok s' /\
    buffer_size st' = buffer_size st /\ unread st' ++ remaining s' = contents ps tail /\
    ((ret = 0 /\ blen (remaining s') < blen (remaining s)) \/ (ret = -1 /\ ps = [])).
Proof.
  intros Hinv Hsrc E Hfit Hc Hp. destruct (fill_buffer_ok st s timeout Hinv Hsrc) as (st' & s' & ret & -> & Hinv' & Hsrc' & Hcfg & _ & E' & Hout).
  apply same_config_size in Hcfg. exists st', s', ret. split_and!; [done.. | by rewrite E' |].
  destruct Hout as [st' s' Hlt | (c & Hrd & Hlt) | st' s' Hu Hend]; [by left | |].
  - specialize (Hc c Hrd). lia.
  - right. split; [done|]. destruct ps as [|p ps]; [done|]. exfalso. specialize (Hp p eq_refl).
    inversion_clear Hfit as [|? ? [Hok Hs] _]. rewrite <- Hu in Hp. destruct Hend as [Hr|Hr]; [|lia].
    rewrite <- E', Hr, app_nil_r, contents_cons in E. rewrite E, blen_app, blen_packet in Hp by done.
    pose proof (blen_nonneg (contents ps tail)). lia.
Qed.

Lemma read_loop_spec fuel st s f ps tail timeout f' r :
  stream_inv st -> source_ok s -> Forall (fits (buffer_size st)) ps -> stuck (buffer_size st) tail ->
  unread st ++ remaining s = contents ps tail -> selects f ps f' r ->
  blen (contents ps tail) + blen (remaining s) < Z.of_nat fuel ->
  read_post (buffer_size st) tail f' r (read_loop bpf_filter fuel st s f timeout).
Proof.
  revert st s f ps. induction fuel as [|fuel IH]; intros st s f ps Hinv Hsrc Hfit Hst E Hsel Hfuel.
  { pose proof (blen_nonneg (contents ps tail)). pose proof (blen_nonneg (remaining s)). lia. }
  assert (Hwrap : forall st, stream_inv st -> u32 (writePos st - readPos st) = blen (unread st)).
  { intros st0 Hi. rewrite blen_unread by done. destruct Hi. unfold sizeof_cap_header in *. apply u32_id. ints; lia. }
  cbn [read_loop]. rewrite Hwrap by done.
  destruct (Z.ltb_spec (blen (unread st)) sizeof_cap_header) as [Hsmall|Hbig].
  - destruct (refill st s ps tail (Some (default {| tval_sec := 1; tval_usec := 0 |} timeout)) Hinv Hsrc E Hfit)
      as (st' & s' & ret & -> & Hinv' & Hsrc' & Hsz & E' & Hret).
    { intros c [_ Hrd]%rd32_inv. unfold sizeof_cap_header in *. lia. }
    { intros p Hp. destruct ps; [done|]. injection Hp as ->. inversion_clear Hfit as [|? ? [Hok _] _].
      destruct (ok_caplen _ Hok) as [_ ?]. ints; lia. }
    cbn [mbind res_bind]. rewrite <- Hsz. destruct Hret as [[-> Hlt]|[-> ->]]; cbn [Z.eqb].
    + apply (IH _ _ _ ps); rewrite ?Hsz; try done. lia.
    + inversion Hsel; subst. by exists st', s'.
  - destruct (fill_buffer_ok st s (Some {| tval_sec := 0; tval_usec := 0 |}) Hinv Hsrc)
      as (st1 & s1 & ret & -> & Hinv1 & Hsrc1 & Hcfg & [d Hd] & E1 & Hout). apply same_config_size in Hcfg.
    cbn [mbind res_bind]. pose proof (remaining_le _ _ _ _ _ Hd E1) as Hle.
    assert (Hret : negb (ret =? 0) && negb (ret =? EAGAIN) && negb (ret =? -1) = false) by (by destruct Hout).
    rewrite Hret. rewrite <- Hcfg in Hfit, Hst |- *. rewrite E in E1.
    assert (Hbig1 : sizeof_cap_header <= blen (unread st1)) by (rewrite Hd, blen_app; pose proof (blen_nonneg d); lia).
    destruct (front_caplen st1 s1 ps tail _ E1 Hbig1 Hfit Hst) as (c & Hc & Hps).
    destruct (front_packet st1 c Hinv1 Hc) as (cp & -> & Hcl & Hcp). cbn [mbind res_bind]. rewrite Hcl.
    pose proof (blen_unread st1 Hinv1) as Hlen1.
    destruct (Z.ltb_spec (writePos st1) (readPos st1 + (sizeof_cap_header + c))) as [Hshort|Hfull].
    + destruct (refill st1 s1 ps tail timeout Hinv1 Hsrc1 E1 Hfit) as (st2 & s2 & ret2 & -> & Hinv2 & Hsrc2 & Hsz & E2 & Hret2).
      { intros c' Hc'. assert (c' = c) as -> by congruence. lia. }
      { intros p Hp. destruct ps; [done|]. injection Hp as ->. subst c. lia. }
      cbn [mbind res_bind]. rewrite <- Hsz. destruct Hret2 as [[-> Hlt]|[-> ->]]; cbn [Z.eqb].
      * apply (IH _ _ _ ps); rewrite ?Hsz; try done. lia.
      * inversion Hsel; subst. by exists st2, s2.
    + destruct ps as [|p ps].
      { exfalso. apply (f_equal blen) in E1. cbn in E1. rewrite blen_app in E1. destruct Hinv1.
        pose proof (blen_nonneg (remaining s1)). lia. }
      subst c. inversion Hfit as [|? ? [Hok _] Hfit']; subst.
      destruct (unread_complete st1 s1 p ps tail E1 Hok) as (u & Hu & Eu); [lia|].
      destruct (advance_ok st1 p u Hinv1 Hok Hu) as [Hinv2 Hu2].
      set (st2 := bump_read _) in *. destruct (Hcp p u Hok Hu) as [rest ->].
      inversion Hsel as [|? ? ? ? Hdec|? ? ? f1 ? ? Hdec Hsel']; subst; rewrite Hdec; cbn [mbind res_bind].
      * exists (bump_matched st2), s1. split; [by destruct Hinv2|]. split; [done|]. split; [done|]. exists rest. by split.
      * apply (IH st2 s1 _ ps); try done. rewrite contents_cons, blen_app, blen_packet in Hfuel by done.
        destruct (ok_caplen _ Hok) as [_ ?]. unfold sizeof_cap_header in *. ints. lia.
Qed.

(** A packet larger than the buffer is taken for the end of the stream. *)
Lemma stream_read_oversized fuel st s f p rest timeout :
  stream_inv st -> source_ok s -> packet_ok p -> unread st ++ remaining s = packet_image p ++ rest ->
  buffer_size st < sizeof_cap_header + caplen p -> blen (packet_image p ++ rest) + blen (remaining s) < Z.of_nat fuel ->
  exists st' s', read_loop bpf_filter fuel st s f timeout = Ok (st', s', f, (-1, None)).
Proof.
  intros Hi Hs Hp E Hsz Hf. assert (Hst : stuck (buffer_size st) (packet_image p ++ rest)).
  { right. exists (caplen p). split; [by apply (caplen_at [])|lia]. }
  destruct (read_loop_spec fuel st s f [] (packet_image p ++ rest) timeout f None) as (st' & s' & _ & _ & _ & H); try done; [constructor..|].
  eauto.
Qed.

(** A call that returns a packet counts one match, and one packet without a filter. *)
Lemma compact_stat st st' : compact st = Ok st' -> stat st' = stat st.
Proof.
  unfold compact. destruct (0 <? readPos st); [|by intros [= <-]].
  destruct (slice _ _ _); try discriminate. cbn [mbind res_bind]. destruct (wr _ _ _); try discriminate. by intros [= <-].
Qed.
Lemma fill_buffer_stat st s timeout st' s' ret : fill_buffer st s timeout = Ok (st', s', ret) -> stat st' = stat st.
Proof.
  unfold fill_buffer. destruct (flushed st =? 1); [by intros [= <- _ _]|].
  destruct (not_drained st) as [[]| | |]; try discriminate; cbn [mbind res_bind]; [by intros [= <- _ _]|].
  destruct (compact st) as [st1| | |] eqn:Ec; try discriminate. cbn [mbind res_bind]. apply compact_stat in Ec. rewrite <- Ec.
  destruct (fill s timeout _) as [s1 [[data r] err]]. destruct (wr _ _ data); try discriminate. cbn [mbind res_bind].
  destruct (0 <? r); [by intros [= <- _ _]|]. destruct (r <? 0); by intros [= <- _ _].
Qed.
Lemma read_loop_stat fuel st s f timeout st' s' f' cp :
  read_loop bpf_filter fuel st s f timeout = Ok (st', s', f', (0, Some cp)) ->
  stat_matched (stat st') = u64 (stat_matched (stat st) + 1) /\ (f = None -> stat_read (stat st') = u64 (stat_read (stat st) + 1)).
Proof.
  revert st s f. induction fuel as [|fuel IH]; intros st s f; [discriminate|]. cbn [read_loop].
  destruct (_ <? sizeof_cap_header).
  - destruct (fill_buffer st s _) as [[[st1 s1] ret]| | |] eqn:E; try discriminate. cbn [mbind res_bind]. apply fill_buffer_stat in E.
    rewrite <- E. destruct (ret =? 0); [apply IH|]. destruct (_ && _); [apply IH|discriminate].
  - destruct (fill_buffer st s _) as [[[st1 s1] ret]| | |] eqn:E; try discriminate. cbn [mbind res_bind]. apply fill_buffer_stat in E.
    rewrite <- E. destruct (_ && _); [discriminate|]. destruct (cap_at _ _) as [c| | |]; try discriminate. cbn [mbind res_bind].
    destruct (_ <? _).
    + destruct (fill_buffer st1 s1 _) as [[[st2 s2] ret2]| | |] eqn:E2; try discriminate. cbn [mbind res_bind]. apply fill_buffer_stat in E2.
      rewrite <- E2. destruct (ret2 =? 0); [apply IH|discriminate].
    + set (st2 := bump_read _). assert (Hm : stat_matched (stat st2) = stat_matched (stat st1)) by done.
      assert (Hr : stat_read (stat st2) = u64 (stat_read (stat st1) + 1)) by done. rewrite <- Hm, <- Hr. clearbody st2.
      destruct (filter_status _ f c) as [[f1 b]| | |] eqn:Ef; try discriminate. cbn [mbind res_bind]. destruct b; [by intros [= <- _ _ _]|].
      intros H. apply IH in H as [H _]. split; [done|]. intros ->. discriminate Ef.
Qed.

(** Peeking without a filter: the packet is shown and stays. *)
Lemma peek_loop_spec fuel st s p ps tail :
  stream_inv st -> source_ok s -> Forall (fits (buffer_size st)) (p :: ps) -> stuck (buffer_size st) tail ->
  unread st ++ remaining s = contents (p :: ps) tail -> caplen p <> 0 ->
  blen (remaining s) < Z.of_nat fuel ->
  exists st' s' rest, peek_loop bpf_filter fuel st s None = Ok (st', s', None, (0, Some (in_memory p rest))) /\
    stream_inv st' /\ source_ok s' /\ buffer_size st' = buffer_size st /\ unread st' ++ remaining s' = contents (p :: ps) tail.
Proof.
  revert st s. induction fuel as [|fuel IH]; intros st s Hinv Hsrc Hfit Hst E Hcl Hfuel.
  { pose proof (blen_nonneg (remaining s)). lia. }
  assert (Hok : packet_ok p) by (by inversion_clear Hfit as [|? ? [? _] _]). destruct (ok_caplen _ Hok) as [_ Hu32].
  assert (Hlen := blen_unread st Hinv). cbn [peek_loop]. rewrite u32_id by (destruct Hinv; unfold sizeof_cap_header in *; ints; lia).
  assert (Hrefill : blen (unread st) < sizeof_cap_header + caplen p ->
    exists st' s' rest, ('(st, s, ret) ← fill_buffer st s (Some {| tval_sec := 0; tval_usec := 0 |});
                    if ret =? 0 then peek_loop bpf_filter fuel st s None else Ok (st, s, None, (ret, None)))
      = Ok (st', s', None, (0, Some (in_memory p rest))) /\
    stream_inv st' /\ source_ok s' /\ buffer_size st' = buffer_size st /\ unread st' ++ remaining s' = contents (p :: ps) tail).
  { intros Hshort. destruct (refill st s (p :: ps) tail (Some {| tval_sec := 0; tval_usec := 0 |}) Hinv Hsrc E Hfit)
      as (st' & s' & ret & -> & Hinv' & Hsrc' & Hsz & E' & [[-> Hlt]|[_ ?]]); try done.
    - intros c Hc. destruct (rd32_inv _ _ _ Hc) as [_ Hbig].
      destruct (front_caplen st s (p :: ps) tail _ E ltac:(unfold sizeof_cap_header; lia) Hfit Hst) as (c' & Hc' & ->).
      assert (c = caplen p) as -> by congruence. done.
    - intros q [= <-]. done.
    - cbn [mbind res_bind Z.eqb]. rewrite <- Hsz. apply IH; rewrite ?Hsz; try done. lia. }
  destruct (Z.ltb_spec (writePos st - readPos st) sizeof_cap_header) as [Hs|Hs]; [apply Hrefill; ints; lia|].
  destruct (front_caplen st s (p :: ps) tail _ E ltac:(lia) Hfit Hst) as (c & Hc & ->).
  destruct (front_packet st _ Hinv Hc) as (cp & -> & Hcp & Hcp'). cbn [mbind res_bind]. rewrite Hcp.
  rewrite (proj2 (Z.eqb_neq _ _)) by done.
  destruct (Z.ltb_spec (writePos st) (readPos st + (sizeof_cap_header + caplen p))) as [Hshort|Hfull]; [apply Hrefill; lia|].
  destruct (unread_complete st s p ps tail E Hok) as (u & Hu & _); [lia|]. destruct (Hcp' p u Hok Hu) as [rest ->].
  exists st, s, rest. done.
Qed.

(** Peeking at a stream without a complete packet reports its end. *)
Lemma peek_loop_nil fuel st s tail :
  stream_inv st -> source_ok s -> stuck (buffer_size st) tail -> unread st ++ remaining s = tail ->
  blen (remaining s) < Z.of_nat fuel ->
  exists st' s', peek_loop bpf_filter fuel st s None = Ok (st', s', None, (-1, None)).
Proof.
  intros Hinv Hsrc Hst E. revert st s Hinv Hsrc Hst E. induction fuel as [|fuel IH]; intros st s Hinv Hsrc Hst E Hfuel.
  { pose proof (blen_nonneg (remaining s)). lia. }
  change tail with (contents [] tail) in E.
  assert (Hlen := blen_unread st Hinv). cbn [peek_loop]. rewrite u32_id by (destruct Hinv; unfold sizeof_cap_header in *; ints; lia).
  assert (Hrefill : (forall c, rd32 (unread st) 32 = Ok c -> blen (unread st) < sizeof_cap_header + c) ->
    exists st' s', ('(st, s, ret) ← fill_buffer st s (Some {| tval_sec := 0; tval_usec := 0 |});
                    if ret =? 0 then peek_loop bpf_filter fuel st s None else Ok (st, s, None, (ret, None)))
      = Ok (st', s', None, (-1, None))).
  { intros Hshort. destruct (refill st s [] tail (Some {| tval_sec := 0; tval_usec := 0 |}) Hinv Hsrc E)
      as (st' & s' & ret & -> & Hinv' & Hsrc' & Hsz & E' & [[-> Hlt]|[-> _]]); try done; cbn [mbind res_bind Z.eqb]; [|eauto].
    apply IH; rewrite ?Hsz; try done. lia. }
  destruct (Z.ltb_spec (writePos st - readPos st) sizeof_cap_header) as [Hs|Hs].
  { apply Hrefill. intros c [_ Hrd]%rd32_inv. unfold sizeof_cap_header in *. lia. }
  destruct (front_caplen st s [] tail _ E ltac:(lia) ltac:(constructor) Hst) as (c & Hc & Hmin).
  destruct (front_packet st c Hinv Hc) as (cp & -> & Hcp & _). cbn [mbind res_bind]. rewrite Hcp.
  assert (Hle : blen (unread st) <= Z.min (blen tail) (buffer_size st)).
  { apply (f_equal blen) in E. cbn in E. rewrite blen_app in E. pose proof (blen_nonneg (remaining s)). destruct Hinv. lia. }
  rewrite (proj2 (Z.eqb_neq c 0)) by (unfold sizeof_cap_header in *; lia).
  rewrite (proj2 (Z.ltb_lt _ _)) by lia. apply Hrefill. intros c' Hc'. assert (c' = c) as -> by congruence. lia.
Qed.

(** A buffered packet that the filter rejects is looked at again and again. *)
Lemma peek_loop_reject (I : filter -> Prop) fuel st s f p u :
  stream_inv st -> packet_ok p -> caplen p <> 0 -> unread st = packet_image p ++ u ->
  (forall f, I f -> exists f', decides (Some f) p (Some f') false /\ I f') -> I f ->
  peek_loop bpf_filter fuel st s (Some f) = OutOfFuel.
Proof.
  intros Hinv Hok Hcl Hu Hrej. assert (Hlen := blen_unread st Hinv). destruct (ok_caplen _ Hok) as [_ Hu32].
  rewrite Hu, blen_app, blen_packet in Hlen by done. pose proof (blen_nonneg u).
  assert (Hc : rd32 (unread st) 32 = Ok (caplen p)) by (rewrite Hu; apply (caplen_at []), Hok).
  destruct (front_packet st _ Hinv Hc) as (cp & Hat & Hcp & Hcp'). destruct (Hcp' p u Hok Hu) as [rest ->].
  revert f. induction fuel as [|fuel IH]; intros f Hf; [done|]. cbn [peek_loop].
  rewrite u32_id by (destruct Hinv; unfold sizeof_cap_header in *; ints; lia).
  rewrite (proj2 (Z.ltb_ge _ _)) by (ints; lia). rewrite Hat. cbn [mbind res_bind]. rewrite Hcp, (proj2 (Z.eqb_neq _ _)) by done.
  rewrite (proj2 (Z.ltb_ge _ _)) by lia. destruct (Hrej f Hf) as (f' & Hdec & Hf'). rewrite Hdec. cbn [mbind res_bind]. by apply IH.
Qed.

(** ** Claims *)

(** C3: Reading from any source that delivers its bytes in order, in pieces of
    any size, returns the packets of the stream one after the other: the call ends,
    skips exactly the packets the filter rejects, returns the first it accepts with
    all its fields and data, and leaves the packets behind it to be read; when none
    is left, or only bytes that are no complete packet, it returns -1. *)
Theorem stream_read_next fuel st s f ps tail timeout f' r :
  stream_inv st -> source_ok s -> Forall (fits (buffer_size st)) ps -> stuck (buffer_size st) tail ->
  unread st ++ remaining s = contents ps tail -> selects f ps f' r ->
  blen (contents ps tail) + blen (remaining s) < Z.of_nat fuel ->
  read_post (buffer_size st) tail f' r (stream_read bpf_filter None fuel st s f timeout).
Proof. intros. by apply read_loop_spec with ps. Qed.

(** Peeking shows the packet that the next read returns, and consumes
    nothing: both deliver the same packet, with all its data. *)
Theorem stream_peek_read fuel fuel' st s p ps tail timeout :
  stream_inv st -> source_ok s -> Forall (fits (buffer_size st)) (p :: ps) -> stuck (buffer_size st) tail ->
  unread st ++ remaining s = contents (p :: ps) tail -> caplen p <> 0 ->
  blen (remaining s) < Z.of_nat fuel -> 2 * blen (contents (p :: ps) tail) < Z.of_nat fuel' ->
  exists st1 s1 rest st2 s2 rest',
    stream_peek bpf_filter None fuel st s None = Ok (st1, s1, None, (0, Some (in_memory p rest))) /\
    stream_read bpf_filter None fuel' st1 s1 None timeout = Ok (st2, s2, None, (0, Some (in_memory p rest'))) /\
    unread st2 ++ remaining s2 = contents ps tail.
Proof.
  intros Hinv Hsrc Hfit Hst E Hcl Hf Hf'.
  destruct (peek_loop_spec fuel st s p ps tail) as (st1 & s1 & rest & E1 & Hinv1 & Hsrc1 & Hsz & Ec); try done.
  destruct (read_loop_spec fuel' st1 s1 None (p :: ps) tail timeout None (Some (p, ps)))
    as (st2 & s2 & _ & _ & _ & rest' & E2 & Ec2); rewrite ?Hsz; try done.
  - by constructor.
  - rewrite <- Ec, blen_app in *. pose proof (blen_nonneg (unread st1)). lia.
  - eauto 10.
Qed.

(** Peeking with a filter that rejects the packet at the front never returns:
    the loop does not advance, so the same packet is tested for ever. *)
Theorem stream_peek_diverges (I : filter -> Prop) fuel st s f p u :
  stream_inv st -> packet_ok p -> caplen p <> 0 -> unread st = packet_image p ++ u ->
  (forall f, I f -> exists f', decides (Some f) p (Some f') false /\ I f') -> I f ->
  stream_peek bpf_filter None fuel st s (Some f) = OutOfFuel.
Proof. apply peek_loop_reject. Qed.
End ReaderSpec.
