(* ===== verification/StreamFile.v ===== *)
(** * Capture files (src/stream_file.c, caputils/file.h; writing: src/stream.c)

    Files of the current format and of the two legacy formats are opened, new
    files are created, packets are written and read back. *)

From Stdlib Require Import String.
From S2P Require Import Prelude CLib Picotime Utils Address Packet Filter Stream.
Local Abbreviation length := List.length.

(** ** The C library's files

    A seekable file: its bytes, the position, and the error code of a device
    that fails. *)
Record FILE := { content : bytes; pos : Z; ferror : option Z }.
#[export] Instance FILE_rebuild : Rebuild FILE := fun f =>
  {| content := content f; pos := pos f; ferror := ferror f |}.

Definition fread (f : FILE) (n : Z) : FILE * bytes :=
  let data := take (Z.to_nat n) (drop (Z.to_nat (pos f)) (content f)) in
  (f <| pos := pos f + blen data |>, data).
Definition fseek_set (f : FILE) (offset : Z) : FILE := f <| pos := offset |>.
Definition fseek_cur (f : FILE) (offset : Z) : FILE := f <| pos := pos f + offset |>.
(** All of the data is written, or nothing when the device fails. *)
Definition fwrite (f : FILE) (data : bytes) : FILE * bool :=
  match ferror f with
  | Some _ => (f, false)
  | None =>
      let p := Z.to_nat (pos f) in
      (f <| content := take p (content f) ++ data ++ drop (p + length data) (content f) |> <| pos := pos f + blen data |>, true)
  end.

(** ** Headers *)
Definition CAPUTILS_FILE_MAGIC : Z := 0x8f1ae247c53d9b6e.
Definition sizeof_file_header : Z := 216.
Definition sizeof_file_header_05 : Z := 212.
Definition sizeof_file_header_06 : Z := 208.

Definition file_header_image (h : file_header) : bytes :=
  le64 (magic h) ++ le16 (major (version_ h)) ++ le16 (minor (version_ h)) ++ le16 (header_offset h)
  ++ le16 (comment_size h) ++ fh_mpid h.
Definition file_header_of (m : bytes) : res file_header :=
  mg ← rd64 m 0; mj ← rd16 m 8; mn ← rd16 m 10; ho ← rd16 m 12; cs ← rd16 m 14; mp ← slice m 16 200;
  Ok {| magic := mg; version_ := {| major := mj; minor := mn |}; header_offset := ho; comment_size := cs; fh_mpid := mp |}.

(** [struct file_extension]. *)
Definition HEADER_EXT_NONE : Z := 0.
Definition HEADER_EXT_PADDING : Z := 1.
Definition sizeof_file_extension : Z := 4.

Record stream_file := { base : stream; file : FILE; force_flush : bool }.
#[export] Instance stream_file_rebuild : Rebuild stream_file := fun s =>
  {| base := base s; file := file s; force_flush := force_flush s |}.

Definition PROTOCOL_LOCAL_FILE : Z := 0.
Definition BUFSIZ : Z := 8192.
Definition ENOENT : Z := 2.
Definition EIO : Z := 5.

(** ** Reading *)
Definition stream_file_fillbuffer (f : FILE) (timeout : option timeval) (max : Z) : FILE * (bytes * Z * Z) :=
  let '(f, data) := fread f max in
  match ferror f with
  | Some e => if blen data <? max then (f, (data, -1, e)) else (f, (data, i32 (blen data), 0))
  | None => (f, (data, i32 (blen data), 0))
  end.
#[export] Instance file_source : Source FILE := stream_file_fillbuffer.

(** The legacy header, if the version in it is the right one: the size of the
    comment and the name of the measurement point. *)
Definition load_legacy_05 (f : FILE) : res (FILE * option (Z * bytes)) :=
  let '(f, m) := fread (fseek_set f 0) sizeof_file_header_05 in
  cs ← rd32 m 0; mj ← rd32 m 4; mn ← rd32 m 8; mp ← slice m 12 200;
  Ok (f, if (mj =? 0) && (mn =? 5) then Some (cs, mp) else None).
Definition load_legacy_06 (f : FILE) : res (FILE * option (Z * bytes)) :=
  let '(f, m) := fread (fseek_set f 0) sizeof_file_header_06 in
  cs ← rd32 m 0; mj ← rd8 m 4; mn ← rd8 m 5; mp ← slice m 6 200;
  Ok (f, if (mj =? 0) && (mn =? 6) then Some (cs, mp) else None).

(** The header in the current form, or the code of the error. *)
Definition load_header (f : FILE) : res (FILE * (file_header + Z)) :=
  let '(f, m) := fread f sizeof_file_header in
  if blen m <? sizeof_file_header then Ok (f, inr ERROR_CAPFILE_INVALID) else
  h ← file_header_of m;
  if magic h =? CAPUTILS_FILE_MAGIC then Ok (f, inl h) else
  '(f, legacy) ← load_legacy_05 f;
  match legacy : option (Z * bytes) with
  | Some (cs, mp) =>
      Ok (f, inl (h <| comment_size := u16 cs |> <| version_ := {| major := 0; minor := 5 |} |>
                    <| header_offset := sizeof_file_header_05 |> <| fh_mpid := mp |>))
  | None =>
      '(f, legacy) ← load_legacy_06 f;
      match legacy : option (Z * bytes) with
      | Some (cs, mp) =>
          Ok (f, inl (h <| comment_size := u16 cs |> <| version_ := {| major := 0; minor := 6 |} |>
                        <| header_offset := sizeof_file_header_06 |> <| fh_mpid := mp |>))
      | None => Ok (f, inr ERROR_CAPFILE_INVALID)
      end
  end.

(** The chain of extension headers; 0, or the code of the error. *)
Fixpoint skip_extensions (fuel : nat) (f : FILE) (max_size : Z) : res (FILE * Z) :=
  match fuel with
  | O => OutOfFuel
  | S fuel =>
      let '(f, m) := fread f sizeof_file_extension in
      if blen m <? sizeof_file_extension then Ok (f, ERROR_CAPFILE_TRUNCATED) else
      type ← rd16 m 0; next_offset ← rd16 m 2;
      if type =? HEADER_EXT_NONE then Ok (f, 0)
      else if (next_offset <? sizeof_file_extension) || (max_size <? next_offset) then Ok (f, ERROR_CAPFILE_INVALID)
      else skip_extensions fuel (fseek_cur f (next_offset - sizeof_file_extension)) max_size
  end.

(** Every iteration advances by at least the four bytes of an extension. *)
Definition read_extensions (f : FILE) (h : file_header) : res (FILE * Z) :=
  if 216 <? header_offset h then skip_extensions (S (length (content f))) f (header_offset h) else Ok (f, 0).

Section Open.
Variable fopen : bytes -> FILE + Z.

Definition open_file (fp : option FILE) (filename : option bytes) : FILE + Z :=
  match fp, filename with
  | Some f, _ => inl f
  | None, Some name => fopen name
  | None, None => inr ENOENT
  end.

(** The stream, which is there as soon as it is allocated, and the result. *)
Definition stream_file_open (fp : option FILE) (filename : option bytes) (size : Z) : res (option stream_file * Z) :=
  match open_file fp filename with
  | inr e => Ok (None, e)
  | inl f =>
      let size := if size =? 0 then BUFSIZ else size in
      let st := (stream_alloc PROTOCOL_LOCAL_FILE size BUFSIZ) <| num_addresses := 1 |> in
      let mk f st := Some {| base := st; file := f; force_flush := false |} in
      '(f, r) ← load_header f;
      match r : file_header + Z with
      | inr e => Ok (mk f st, e)
      | inl h =>
          let st := st <| FH := h |> in
          '(f, e) ← read_extensions f h;
          if negb (e =? 0) then Ok (mk f st, e) else
          let f := fseek_set f (header_offset h) in
          let '(f, c) := fread f (comment_size h) in
          if blen c <? comment_size h then Ok (mk f st, ERROR_CAPFILE_TRUNCATED) else
          let st := st <| comment := Some c |> in
          if negb (is_valid_version h) then Ok (mk f st, EINVAL) else Ok (mk f st, 0)
      end
  end.

(** ** Writing *)
Definition stream_file_create (fp : option FILE) (filename : option bytes) (mpid : bytes) (comment_ : option bytes) (flags : Z)
    : res (option stream_file * Z) :=
  match open_file fp filename with
  | inr e => Ok (None, e)
  | inl f =>
      let c := default [] comment_ in
      let h := {| magic := CAPUTILS_FILE_MAGIC; version_ := {| major := VERSION_MAJOR; minor := VERSION_MINOR |};
                  header_offset := sizeof_file_header; comment_size := u16 (blen c); fh_mpid := strncpy mpid 200 |} in
      let st := (stream_alloc PROTOCOL_LOCAL_FILE 0 BUFSIZ) <| num_addresses := 1 |> <| comment := Some c |> <| FH := h |> in
      let mk f := Some {| base := st; file := f; force_flush := has_flag flags STREAM_ADDR_FLUSH |} in
      let '(f, ok) := fwrite f (file_header_image h) in
      if negb ok then Ok (mk f, EIO) else
      let '(f, ok) := fwrite f c in
      if negb ok then Ok (mk f, EIO) else Ok (mk f, 0)
  end.
End Open.

(** [data] is the memory at the pointer, of which [size] bytes are written. *)
Definition stream_file_write (st : stream_file) (data : bytes) (size : Z) : res (stream_file * Z) :=
  m ← slice data 0 size;
  match ferror (file st) with
  | Some e => Ok (st, e)
  | None => Ok (st <| file := fst (fwrite (file st) m) |>, 0)
  end.

Definition stream_write (st : stream_file) (data : bytes) (size : Z) : res (stream_file * Z) :=
  if size =? 0 then Ok (st, EINVAL) else stream_file_write st data size.

Definition stream_write_separate (st : stream_file) (head : cap_header) (data : bytes) (size : Z) : res (stream_file * Z) :=
  if size =? 0 then Ok (st, EINVAL) else
  '(st, ret) ← stream_file_write st (cap_header_image head) sizeof_cap_header;
  if negb (ret =? 0) then Ok (st, ret) else
  stream_file_write st data size.

Definition stream_copy (st : stream_file) (head : cap_header) : res (stream_file * Z) :=
  stream_write st (packet_image head) (sizeof_cap_header + caplen head).

(** ** Using a stream *)
Section Use.
Variable bpf_filter : list bpf_insn -> bytes -> Z -> Z -> Z.

(** An application that copies packets until the first error. *)
Fixpoint copy_all (st : stream_file) (ps : list cap_header) : res (stream_file * Z) :=
  match ps with
  | [] => Ok (st, 0)
  | p :: ps => '(st, ret) ← stream_copy st p; if negb (ret =? 0) then Ok (st, ret) else copy_all st ps
  end.

(** The packet without what follows it in memory. *)
Definition captured (cp : cap_header) : cap_header := cp <| payload := take (Z.to_nat (caplen cp)) (payload cp) |>.

(** An application that reads packets until the first error: at most [n]. *)
Fixpoint drain (n fuel : nat) (st : stream) (f : FILE) : res (list cap_header * Z) :=
  match n with
  | O => OutOfFuel
  | S n =>
      '(st, f, _, (ret, cp)) ← stream_read bpf_filter None fuel st f None None;
      match (cp : option cap_header) with
      | Some cp => '(l, ret) ← drain n fuel st f; Ok (captured cp :: l, ret)
      | None => Ok ([], ret)
      end
  end.
End Use.

(** ** Files as sources *)
Lemma fread_data f n : 0 <= pos f -> 0 <= n ->
  drop (Z.to_nat (pos f)) (content f) = snd (fread f n) ++ drop (Z.to_nat (pos (fst (fread f n)))) (content f).
Proof.
  intros Hp Hn. cbn. set (d := drop (Z.to_nat (pos f)) (content f)).
  replace (Z.to_nat (pos f + blen (take (Z.to_nat n) d))) with (Z.to_nat (pos f) + length (take (Z.to_nat n) d))%nat by (unfold blen; lia).
  rewrite <- drop_drop. fold d. rewrite length_take. destruct (decide (Z.to_nat n <= length d)%nat).
  - rewrite Nat.min_l by done. by rewrite take_drop.
  - rewrite Nat.min_r, take_ge, drop_all by lia. by rewrite app_nil_r.
Qed.

#[export, program] Instance file_laws : SourceLaws FILE := {
  remaining f := drop (Z.to_nat (pos f)) (content f);
  source_ok f := ferror f = None /\ 0 <= pos f;
}.
Next Obligation.
  cbn. intros f timeout max [He Hp] Hmax. pose proof (fread_data f max Hp) as Hd. unfold fill, file_source, stream_file_fillbuffer.
  destruct (fread f max) as [f' data] eqn:Ef. cbn [fst snd] in Hd. injection Ef as <- <-. cbn [ferror field_set].
  rewrite He. set (data := take _ _) in *. assert (Hl : blen data <= max).
  { unfold data, blen. rewrite length_take. lia. }
  pose proof (blen_nonneg data). rewrite i32_id by lia. eexists _, _, _. split; [reflexivity|]. cbn.
  split; [split; [done|lia]|]. split; [apply Hd; lia|]. split; [done|]. intros Hnil.
  destruct (decide (max = 0)); [by left|right]. unfold data in Hnil.
  destruct (drop _ _) as [|x l]; [done|]. destruct (Z.to_nat max) eqn:E; [lia|done].
Qed.

Section UseSpec.
Variable bpf_filter : list bpf_insn -> bytes -> Z -> Z -> Z.

Lemma captured_in_memory p rest : packet_ok p -> captured (in_memory p rest) = p.
Proof.
  intros Hp. unfold captured, in_memory. destruct (ok_caplen _ Hp) as [Hc _]. destruct p as [n mp t l c d]. cbn in *. subst c.
  unfold blen. by rewrite Nat2Z.id, take_app_length.
Qed.

(** Reading a file to its end gives its packets. *)
Lemma drain_contents n fuel st f ps tail :
  (length ps < n)%nat ->
  stream_inv st -> source_ok f -> Forall (fits (buffer_size st)) ps -> stuck (buffer_size st) tail ->
  unread st ++ remaining f = contents ps tail -> 2 * blen (contents ps tail) < Z.of_nat fuel ->
  drain bpf_filter n fuel st f = Ok (ps, -1).
Proof.
  revert n st f. induction ps as [|p ps IH]; intros [|n] st f Hn Hinv Hsrc Hfit Hst E Hfuel; cbn [length] in Hn; try lia; cbn [drain stream_read];
    (assert (Hf : blen (contents _ tail) + blen (remaining f) < Z.of_nat fuel)
       by (eapply Z.le_lt_trans; [|exact Hfuel]; rewrite <- E, blen_app; pose proof (blen_nonneg (unread st)); lia)).
  - destruct (read_loop_spec bpf_filter fuel st f None [] tail None None None Hinv Hsrc Hfit Hst E) as (st' & f' & _ & _ & _ & ->);
      [constructor|done|]. done.
  - destruct (read_loop_spec bpf_filter fuel st f None (p :: ps) tail None None (Some (p, ps)) Hinv Hsrc Hfit Hst E)
      as (st' & f' & Hinv' & Hsrc' & Hsz & rest & -> & E'); [by constructor|done|]. cbn [mbind res_bind].
    inversion_clear Hfit as [|? ? [Hok _] Hfit']. rewrite captured_in_memory by done.
    rewrite (IH n st' f'); rewrite ?Hsz; try done; [lia|].
    rewrite contents_cons, blen_app in Hfuel. pose proof (blen_nonneg (packet_image p)). lia.
Qed.
End UseSpec.

(** ** Writing *)
Lemma fwrite_end f data : ferror f = None -> pos f = blen (content f) ->
  fwrite f data = ({| content := content f ++ data; pos := blen (content f ++ data); ferror := None |}, true).
Proof.
  intros He Hp. unfold fwrite. rewrite He. cbn. rewrite He, Hp. unfold blen.
  rewrite Nat2Z.id, take_ge, drop_ge, app_nil_r, length_app, Nat2Z.inj_add by lia. done.
Qed.

(** A file that is written from its end. *)
Definition at_end (f : FILE) : Prop := ferror f = None /\ pos f = blen (content f).

Lemma stream_copy_ok st p : packet_ok p -> at_end (file st) ->
  exists st', stream_copy st p = Ok (st', 0) /\ at_end (file st') /\ content (file st') = content (file st) ++ packet_image p.
Proof.
  intros Hp [He Hpos]. destruct (ok_caplen _ Hp) as [_ Hc]. unfold stream_copy, stream_write, stream_file_write.
  rewrite (proj2 (Z.eqb_neq _ _)) by (unfold sizeof_cap_header; ints; lia).
  pose proof (slice_app [] (packet_image p) [] 0 (sizeof_cap_header + caplen p)) as E. cbn in E. rewrite app_nil_r in E.
  rewrite E by (done || by rewrite blen_packet). cbn [mbind res_bind]. rewrite He.
  eexists. split; [reflexivity|]. cbn [file field_set]. rewrite fwrite_end by done. done.
Qed.

Lemma copy_all_ok ps st : Forall packet_ok ps -> at_end (file st) ->
  exists st', copy_all st ps = Ok (st', 0) /\ at_end (file st') /\
    content (file st') = content (file st) ++ contents ps [].
Proof.
  revert st. induction ps as [|p ps IH]; intros st Hok Hend; cbn [copy_all].
  - exists st. by rewrite app_nil_r.
  - inversion_clear Hok as [|? ? Hp Hok']. destruct (stream_copy_ok st p Hp Hend) as (st1 & -> & Hend1 & Hc1). cbn [mbind res_bind Z.eqb negb].
    destruct (IH st1 Hok' Hend1) as (st2 & -> & Hend2 & Hc2). exists st2. split_and!; [done..|].
    by rewrite Hc2, Hc1, contents_cons, <- (assoc_L (++)).
Qed.

(** ** Opening *)
Record header_ok (h : file_header) : Prop := {
  h_magic : is_u64 (magic h);
  h_major : is_u16 (major (version_ h));
  h_minor : is_u16 (minor (version_ h));
  h_offset : is_u16 (header_offset h);
  h_comment : is_u16 (comment_size h);
  h_mpid : blen (fh_mpid h) = 200;
}.

Lemma blen_file_header h : header_ok h -> blen (file_header_image h) = 216.
Proof. intros []. unfold file_header_image. rewrite !blen_app, blen_le64, !blen_le16, h_mpid0. done. Qed.

Lemma file_header_of_image h : header_ok h -> file_header_of (file_header_image h) = Ok h.
Proof.
  intros [Hm H1 H2 H3 H4 H5]. unfold file_header_of, file_header_image.
  set (m := le64 (magic h)). set (mj := le16 (major (version_ h))). set (mn := le16 (minor (version_ h))).
  set (ho := le16 (header_offset h)). set (cs := le16 (comment_size h)).
  assert (E0 : rd64 (m ++ mj ++ mn ++ ho ++ cs ++ fh_mpid h) 0 = Ok (magic h)) by (apply (rd64_at []); done).
  assert (E1 : rd16 (m ++ mj ++ mn ++ ho ++ cs ++ fh_mpid h) 8 = Ok (major (version_ h))) by (apply rd16_at; done).
  assert (E2 : rd16 (m ++ mj ++ mn ++ ho ++ cs ++ fh_mpid h) 10 = Ok (minor (version_ h)))
    by (rewrite (assoc_L (++) m); apply rd16_at; done).
  assert (E3 : rd16 (m ++ mj ++ mn ++ ho ++ cs ++ fh_mpid h) 12 = Ok (header_offset h))
    by (rewrite (assoc_L (++) mj), (assoc_L (++) m); apply rd16_at; done).
  assert (E4 : rd16 (m ++ mj ++ mn ++ ho ++ cs ++ fh_mpid h) 14 = Ok (comment_size h))
    by (rewrite (assoc_L (++) mn), (assoc_L (++) mj), (assoc_L (++) m); apply rd16_at; done).
  assert (E5 : slice (m ++ mj ++ mn ++ ho ++ cs ++ fh_mpid h) 16 200 = Ok (fh_mpid h)).
  { rewrite (assoc_L (++) ho), (assoc_L (++) mn), (assoc_L (++) mj), (assoc_L (++) m).
    rewrite <- (app_nil_r (fh_mpid h)) at 1. apply slice_app; [done | by rewrite H5]. }
  rewrite E0, E1, E2, E3, E4, E5. cbn. by destruct h as [? [? ?] ? ? ?].
Qed.

Lemma fread_at f pre d rest n : content f = pre ++ d ++ rest -> pos f = blen pre -> n = blen d ->
  fread f n = (f <| pos := blen pre + blen d |>, d).
Proof.
  intros Hc Hp ->. unfold fread. rewrite Hc, Hp, drop_at by done.
  replace (take (Z.to_nat (blen d)) (d ++ rest)) with d by (unfold blen; by rewrite Nat2Z.id, take_app_length). cbn. by rewrite Hc.
Qed.

(** A stream that was opened: nothing buffered, the file at the first packet. *)
Record opened (sf : stream_file) (h : file_header) (c body : bytes) (size : Z) : Prop := {
  o_inv : stream_inv (base sf);
  o_size : buffer_size (base sf) = size;
  o_FH : FH (base sf) = h;
  o_comment : comment (base sf) = Some c;
  o_unread : unread (base sf) = [];
  o_source : source_ok (file sf);
  o_body : remaining (file sf) = body;
  o_stat : stat_read (stat (base sf)) = 0 /\ stat_matched (stat (base sf)) = 0;
}.

Lemma stream_alloc_inv size mtu : 36 <= size < 2147483648 -> stream_inv (stream_alloc PROTOCOL_LOCAL_FILE size mtu).
Proof.
  intros H. unfold stream_alloc. rewrite (proj2 (Z.eqb_neq _ _)) by lia. constructor; cbn; unfold sizeof_cap_header; try lia.
  unfold blen. rewrite length_replicate. lia.
Qed.

Section OpenSpec.
Variable fopen : bytes -> FILE + Z.

Lemma open_body fp filename size f f1 h pre c body :
  open_file fopen fp filename = inl f -> 36 <= size < 2147483648 ->
  load_header f = Ok (f1, inl h) -> ferror f1 = None -> content f1 = pre ++ c ++ body ->
  header_offset h = blen pre -> header_offset h <= 216 -> comment_size h = blen c -> is_valid_version h = true ->
  exists sf, stream_file_open fopen fp filename size = Ok (Some sf, 0) /\ opened sf h c body size.
Proof.
  intros Ho Hs Hl He Hc Hoff H216 Hcs Hv. unfold stream_file_open. rewrite Ho, (proj2 (Z.eqb_neq _ _)) by lia.
  rewrite Hl. cbn [mbind res_bind]. unfold read_extensions. rewrite (proj2 (Z.ltb_ge _ _)) by lia. cbn [mbind res_bind Z.eqb negb].
  rewrite (fread_at (fseek_set f1 (header_offset h)) pre c body) by done. rewrite Hcs, Z.ltb_irrefl, Hv. cbn [negb].
  eexists. split; [reflexivity|]. pose proof (blen_nonneg pre). pose proof (blen_nonneg c). constructor; try done.
  - destruct (stream_alloc_inv size BUFSIZ Hs). by constructor.
  - cbn. by rewrite (proj2 (Z.eqb_neq _ _)) by lia.
  - split; [done|cbn; lia].
  - cbn. rewrite Hc, (assoc_L (++)). apply drop_at. by rewrite blen_app.
Qed.

Lemma load_current f h rest :
  header_ok h -> magic h = CAPUTILS_FILE_MAGIC -> content f = file_header_image h ++ rest -> pos f = 0 ->
  load_header f = Ok (f <| pos := 216 |>, inl h).
Proof.
  intros Hh Hm Hc Hp. pose proof (blen_file_header h Hh) as Hl. unfold load_header.
  rewrite (fread_at f [] (file_header_image h) rest) by (done || by rewrite Hl). rewrite Hl. cbn [Z.ltb].
  rewrite file_header_of_image by done. cbn [mbind res_bind]. rewrite Hm, Z.eqb_refl. done.
Qed.
End OpenSpec.

(** ** Legacy headers *)
Definition legacy_header (v comment_size : Z) (mpid : bytes) : bytes :=
  if v =? 5 then le32 comment_size ++ le32 0 ++ le32 5 ++ mpid
  else le32 comment_size ++ [0; 6] ++ mpid ++ [0; 0].

Lemma file_header_of_any m : blen m = 216 -> exists h, file_header_of m = Ok h /\ rd64 m 0 = Ok (magic h).
Proof.
  intros Hm. unfold file_header_of.
  destruct (rd64_in m 0) as [mg ->]; [lia|lia|]. destruct (rd16_in m 8) as [mj ->]; [lia|lia|].
  destruct (rd16_in m 10) as [mn ->]; [lia|lia|]. destruct (rd16_in m 12) as [ho ->]; [lia|lia|].
  destruct (rd16_in m 14) as [cs ->]; [lia|lia|]. unfold slice. rewrite Hm. cbn. eauto.
Qed.

Lemma fread_split f n : pos f = 0 -> 0 <= n <= blen (content f) ->
  exists a b, content f = a ++ b /\ blen a = n /\ fread f n = (f <| pos := n |>, a).
Proof.
  intros Hp Hn. exists (take (Z.to_nat n) (content f)), (drop (Z.to_nat n) (content f)).
  assert (Hl : blen (take (Z.to_nat n) (content f)) = n) by (by apply blen_take).
  split_and!; [by rewrite take_drop | done |].
  rewrite (fread_at f [] (take (Z.to_nat n) (content f)) (drop (Z.to_nat n) (content f))); [by rewrite Hl | cbn; by rewrite take_drop | done | done].
Qed.

(** The first eight bytes of a legacy file never are the magic number: the byte
    of the major version is zero. *)
Lemma legacy_no_magic cs b5 m mg : rd64 (le32 cs ++ 0 :: b5 :: m) 0 = Ok mg -> is_u8 b5 -> is_bytes m -> mg <> CAPUTILS_FILE_MAGIC.
Proof.
  intros H Hb Hm. destruct m as [|b6 [|b7 m]]; [done..|]. inversion_clear Hm as [|? ? H6 Hm']. inversion_clear Hm' as [|? ? H7 _].
  cbn in H. injection H as <-. unfold CAPUTILS_FILE_MAGIC. ilia.
Qed.

Definition legacy_fields (h : file_header) (v offset cs : Z) (mpid : bytes) : Prop :=
  header_offset h = offset /\ comment_size h = cs /\ version_ h = {| major := 0; minor := v |} /\ fh_mpid h = mpid.

(** A prefix of the file, as [fread] from its start delivers it. *)
Lemma fread_start f n : 0 <= n <= blen (content f) ->
  exists a b, content f = a ++ b /\ blen a = n /\ fread (fseek_set f 0) n = (f <| pos := n |>, a).
Proof. intros Hn. by apply (fread_split (fseek_set f 0)). Qed.

Lemma load_05 f cs mpid rest :
  is_u16 cs -> blen mpid = 200 -> content f = legacy_header 5 cs mpid ++ rest ->
  load_legacy_05 f = Ok (f <| pos := 212 |>, Some (cs, mpid)).
Proof.
  intros Hcs Hmp Hc. cbn [legacy_header Z.eqb] in Hc. assert (Hu : is_u32 cs) by (ints; lia). unfold load_legacy_05.
  rewrite (fread_at _ [] (le32 cs ++ le32 0 ++ le32 5 ++ mpid) rest) by (done || by rewrite !blen_app, !blen_le32, Hmp).
  set (m := le32 cs ++ _).
  assert (E1 : rd32 m 0 = Ok cs) by (by apply (rd32_at [])). assert (E2 : rd32 m 4 = Ok 0) by (by apply (rd32_at (le32 cs))).
  assert (E3 : rd32 m 8 = Ok 5) by (unfold m; rewrite (assoc_L (++)); by apply rd32_at).
  assert (E4 : slice m 12 200 = Ok mpid).
  { unfold m. rewrite (assoc_L (++) (le32 0)), (assoc_L (++)), <- (app_nil_r mpid) at 1. apply slice_app; [done|by rewrite Hmp]. }
  assert (E5 : blen m = 212) by (unfold m; by rewrite !blen_app, !blen_le32, Hmp).
  rewrite E1, E2, E3, E4, E5. done.
Qed.

Lemma load_06 f cs mpid rest :
  is_u16 cs -> blen mpid = 200 -> content f = legacy_header 6 cs mpid ++ rest ->
  load_legacy_06 f = Ok (f <| pos := 208 |>, Some (cs, mpid)).
Proof.
  intros Hcs Hmp Hc. cbn [legacy_header Z.eqb] in Hc. assert (Hu : is_u32 cs) by (ints; lia). unfold load_legacy_06.
  rewrite (fread_at _ [] (le32 cs ++ [0; 6] ++ mpid ++ [0; 0]) rest) by (done || by rewrite !blen_app, !blen_le32, Hmp).
  set (m := le32 cs ++ _).
  assert (E1 : rd32 m 0 = Ok cs) by (by apply (rd32_at [])).
  assert (E4 : slice m 6 200 = Ok mpid).
  { unfold m. rewrite (assoc_L (++)). apply slice_app; [done|by rewrite Hmp]. }
  assert (E5 : blen m = 208) by (unfold m; by rewrite !blen_app, !blen_le32, Hmp).
  rewrite E1, E4, E5. done.
Qed.

(** A file of version 0.6 is not taken for one of version 0.5. *)
Lemma load_05_of_06 f cs mpid rest :
  is_bytes mpid -> blen mpid = 200 -> content f = legacy_header 6 cs mpid ++ rest -> 212 <= blen (content f) ->
  load_legacy_05 f = Ok (f <| pos := 212 |>, None).
Proof.
  intros Hb Hmp Hc Hl. unfold load_legacy_05, sizeof_file_header_05. destruct (fread_start f 212) as (a & b & Ec & Ha & ->); [lia|].
  destruct mpid as [|m0 [|m1 mpid]]; [done..|]. inversion_clear Hb as [|? ? H0 Hb']. inversion_clear Hb' as [|? ? H1 _].
  assert (E2 : rd32 a 4 = Ok (1536 + 65536 * (m0 + 256 * m1))) by (rewrite <- (rd32_app_l a b), <- Ec, Hc by lia; done).
  destruct (rd32_in a 0) as [c ->]; [lia|lia|]. destruct (rd32_in a 8) as [mn ->]; [lia|lia|]. rewrite E2.
  unfold slice. rewrite Ha. cbn [mbind res_bind]. rewrite (proj2 (Z.eqb_neq _ _)) by (ints; lia). done.
Qed.

(** A legacy file passes the test for the current format. *)
Lemma load_header_legacy v f cs mpid rest :
  v = 5 \/ v = 6 -> is_bytes mpid -> blen mpid = 200 ->
  content f = legacy_header v cs mpid ++ rest -> 216 <= blen (content f) -> is_bytes rest -> pos f = 0 ->
  exists h, load_header f = (
    '(f, legacy) ← load_legacy_05 (f <| pos := 216 |>);
    match legacy : option (Z * bytes) with
    | Some (cs, mp) =>
        Ok (f, inl (h <| comment_size := u16 cs |> <| version_ := {| major := 0; minor := 5 |} |>
                      <| header_offset := sizeof_file_header_05 |> <| fh_mpid := mp |>))
    | None =>
        '(f, legacy) ← load_legacy_06 f;
        match legacy : option (Z * bytes) with
        | Some (cs, mp) =>
            Ok (f, inl (h <| comment_size := u16 cs |> <| version_ := {| major := 0; minor := 6 |} |>
                          <| header_offset := sizeof_file_header_06 |> <| fh_mpid := mp |>))
        | None => Ok (f, inr ERROR_CAPFILE_INVALID)
        end
    end).
Proof.
  intros Hv Hb Hmp Hc H216 Hall Hp. unfold load_header, sizeof_file_header.
  destruct (fread_split f 216) as (a & b & Ec & Ha & ->); [done|lia|]. rewrite Ha. cbn [Z.ltb Z.compare Pos.compare Pos.compare_cont].
  destruct (file_header_of_any a Ha) as (h & -> & Hmg). cbn [mbind res_bind]. exists h.
  assert (Hmg' : rd64 (content f) 0 = Ok (magic h)) by (rewrite Ec, rd64_app_l by lia; done). rewrite Hc in Hmg'.
  rewrite (proj2 (Z.eqb_neq _ _)); [done|]. destruct Hv as [-> | ->].
  - apply (legacy_no_magic cs 0 ([0; 0] ++ le32 5 ++ mpid ++ rest)); [done | done |]. repeat constructor; try done. by apply Forall_app.
  - apply (legacy_no_magic cs 6 (mpid ++ [0; 0] ++ rest)); [|done|].
    + change (legacy_header 6 cs mpid) with (le32 cs ++ [0; 6] ++ mpid ++ [0; 0]) in Hmg'. rewrite <- !(assoc_L (++)) in Hmg'. done.
    + apply Forall_app; split; [done|]. by repeat constructor.
Qed.

Lemma blen_legacy_header v cs mpid : v = 5 \/ v = 6 -> blen mpid = 200 ->
  blen (legacy_header v cs mpid) = if v =? 5 then sizeof_file_header_05 else sizeof_file_header_06.
Proof. intros [-> | ->] Hmp; unfold legacy_header; cbn [Z.eqb Pos.eqb]; by rewrite !blen_app, !blen_le32, Hmp. Qed.

Lemma load_legacy v f cs mpid rest :
  v = 5 \/ v = 6 -> is_u16 cs -> is_bytes mpid -> blen mpid = 200 ->
  content f = legacy_header v cs mpid ++ rest -> 216 <= blen (content f) -> is_bytes rest -> pos f = 0 ->
  exists h p, load_header f = Ok (f <| pos := p |>, inl h) /\ legacy_fields h v (blen (legacy_header v cs mpid)) cs mpid.
Proof.
  intros Hv Hcs Hb Hmp Hc H216 Hall Hp. destruct (load_header_legacy v f cs mpid rest) as [h ->]; try done.
  assert (Hcs' : u16 cs = cs) by (by apply u16_id). destruct Hv as [-> | ->].
  - rewrite (load_05 _ cs mpid rest) by done. cbn [mbind res_bind]. rewrite Hcs'. eexists _, _. split; [reflexivity|].
    split_and!; try done. by rewrite blen_legacy_header by auto.
  - rewrite (load_05_of_06 _ cs mpid rest) by (done || (cbn; lia)). cbn [mbind res_bind].
    rewrite (load_06 _ cs mpid rest) by done. cbn [mbind res_bind]. rewrite Hcs'. eexists _, _. split; [reflexivity|].
    split_and!; try done. by rewrite blen_legacy_header by auto.
Qed.

(** ** Any file *)
Lemma skip_extensions_ok fuel f max_size :
  0 <= pos f -> blen (content f) - pos f < 4 * Z.of_nat fuel -> (0 < fuel)%nat ->
  exists p e, skip_extensions fuel f max_size = Ok (f <| pos := p |>, e) /\
    (e = 0 \/ e = ERROR_CAPFILE_INVALID \/ e = ERROR_CAPFILE_TRUNCATED).
Proof.
  revert f. induction fuel as [|fuel IH]; intros f Hp Hfuel Hpos; [lia|]. cbn [skip_extensions].
  destruct (fread f sizeof_file_extension) as [f1 m] eqn:Ef. injection Ef as <- <-. set (m := take _ _).
  destruct (Z.ltb_spec (blen m) sizeof_file_extension) as [Hs|Hs]; [eexists _, _; split; [reflexivity|auto]|].
  unfold sizeof_file_extension in *.
  destruct (rd16_in m 0) as [type ->]; [lia|lia|]. destruct (rd16_in m 2) as [next ->]; [lia|lia|]. cbn [mbind res_bind].
  destruct (type =? HEADER_EXT_NONE); [eexists _, _; split; [reflexivity|auto]|].
  destruct ((next <? 4) || (max_size <? next)) eqn:Hn; [eexists _, _; split; [reflexivity|auto]|].
  apply orb_false_iff in Hn as [Hn%Z.ltb_ge _].
  assert (Hm : blen m = 4) by (unfold m, blen in *; rewrite length_take in *; lia).
  assert (Hroom : pos f + 4 <= blen (content f)).
  { unfold m, blen in *. rewrite length_take, length_drop in Hs. lia. }
  set (g := fseek_cur _ _). assert (Hg : pos g = pos f + next) by (cbn; rewrite Hm; lia).
  destruct (IH g) as (p & e & -> & He); [lia | change (content g) with (content f); lia | destruct fuel; [cbn in *|]; lia |].
  eexists p, e. split; [reflexivity|done].
Qed.

Lemma load_header_ok f : 0 <= pos f -> exists p r, load_header f = Ok (f <| pos := p |>, r) /\ 0 <= p /\
  match r with inr e => e = ERROR_CAPFILE_INVALID | inl _ => True end.
Proof.
  intros Hp. unfold load_header. destruct (fread f sizeof_file_header) as [f1 m] eqn:Ef. injection Ef as <- <-. set (m := take _ _). pose proof (blen_nonneg m).
  destruct (Z.ltb_spec (blen m) sizeof_file_header) as [Hs|Hs]; [eexists _, _; (split; [reflexivity|split; [lia|done]])|]. unfold sizeof_file_header in *.
  assert (Hm : blen m = 216) by (unfold m, blen in *; rewrite length_take in *; lia).
  assert (Hl : 216 <= blen (content f)) by (unfold m, blen in *; rewrite length_take, length_drop in Hm; lia).
  destruct (file_header_of_any m Hm) as (h & -> & _). cbn [mbind res_bind].
  destruct (_ =? CAPUTILS_FILE_MAGIC); [eexists _, _; (split; [reflexivity|split; [lia|done]])|]. match goal with |- context [load_legacy_05 ?g] => set (f1 := g) end.
  unfold load_legacy_05, load_legacy_06, sizeof_file_header_05, sizeof_file_header_06.
  destruct (fread_start f1 212) as (a & b & _ & Ha & ->); [cbn; lia|].
  destruct (rd32_in a 0) as [? ->]; [lia|lia|]. destruct (rd32_in a 4) as [? ->]; [lia|lia|].
  destruct (rd32_in a 8) as [? ->]; [lia|lia|]. destruct (slice_in a 12 200) as [? ->]; [lia..|]. cbn [mbind res_bind].
  destruct (_ && _); [eexists _, _; (split; [reflexivity|split; [lia|done]])|].
  destruct (fread_start (f1 <| pos := 212 |>) 208) as (a' & b' & _ & Ha' & E'); [cbn; lia|]. rewrite E'.
  destruct (rd32_in a' 0) as [? ->]; [lia|lia|]. destruct (rd8_in a' 4) as [? ->]; [lia|].
  destruct (rd8_in a' 5) as [? ->]; [lia|]. destruct (slice_in a' 6 200) as [? ->]; [lia..|]. cbn.
  destruct (_ && _); eexists _, _; (split; [reflexivity|split; [lia|done]]).
Qed.

(** ** Claims *)
Section Claims.
Variable fopen : bytes -> FILE + Z.
Variable bpf_filter : list bpf_insn -> bytes -> Z -> Z -> Z.

Definition empty_file : FILE := {| content := []; pos := 0; ferror := None |}.
Definition rewind (f : FILE) : FILE := fseek_set f 0.

(** The header of a new file. *)
Definition new_header (mpid c : bytes) : file_header :=
  {| magic := CAPUTILS_FILE_MAGIC; version_ := {| major := VERSION_MAJOR; minor := VERSION_MINOR |};
     header_offset := sizeof_file_header; comment_size := u16 (blen c); fh_mpid := strncpy mpid 200 |}.

Lemma new_header_ok mpid c : header_ok (new_header mpid c).
Proof.
  constructor; try done; cbn; [apply u16_range|]. unfold strncpy, blen. rewrite length_take, length_app, length_replicate. lia.
Qed.

(** Creating a file writes its header and its comment. *)
Lemma create_ok fp filename mpid c flags f :
  open_file fopen fp filename = inl f -> at_end f -> content f = [] ->
  exists w, stream_file_create fopen fp filename mpid (Some c) flags = Ok (Some w, 0) /\ at_end (file w) /\
    content (file w) = file_header_image (new_header mpid c) ++ c.
Proof.
  intros Ho [He Hp] Hc. unfold stream_file_create. rewrite Ho. cbn [default]. fold (new_header mpid c).
  rewrite fwrite_end by done. cbn [negb]. rewrite fwrite_end by done. cbn [negb]. eexists. split; [reflexivity|].
  cbn [file content]. rewrite Hc. done.
Qed.

(** A file that holds a header and a comment is opened. *)
Lemma open_current fp filename mpid c body size f :
  open_file fopen fp filename = inl f -> pos f = 0 -> ferror f = None -> blen c < 65536 -> 36 <= size < 2147483648 ->
  content f = file_header_image (new_header mpid c) ++ c ++ body ->
  exists sf, stream_file_open fopen fp filename size = Ok (Some sf, 0) /\ opened sf (new_header mpid c) c body size.
Proof.
  intros Ho Hp He Hc Hs Hcont. pose proof (blen_nonneg c). pose proof (new_header_ok mpid c) as Hh.
  assert (Hcs : comment_size (new_header mpid c) = blen c) by (cbn; apply u16_id; ints; lia).
  apply (open_body fopen fp filename size f (f <| pos := 216 |>) (new_header mpid c)
    (file_header_image (new_header mpid c)) c body); try done; [by eapply load_current|by rewrite blen_file_header].
Qed.

(** A file that holds packets too gives them back. *)
Lemma reopen_ok mpid c ps size fuel n f :
  blen c < 65536 -> 36 <= size < 2147483648 -> Forall (fits size) ps ->
  2 * blen (contents ps []) < Z.of_nat fuel -> (length ps < n)%nat ->
  ferror f = None -> content f = file_header_image (new_header mpid c) ++ c ++ contents ps [] ->
  exists sf, stream_file_open fopen (Some (rewind f)) None size = Ok (Some sf, 0) /\
    comment (base sf) = Some c /\ fh_mpid (FH (base sf)) = strncpy mpid 200 /\
    drain bpf_filter n fuel (base sf) (file sf) = Ok (ps, -1).
Proof.
  intros Hc Hs Hfit Hfuel Hn He Hcont.
  destruct (open_current (Some (rewind f)) None mpid c (contents ps []) size (rewind f)) as (sf & Eo & Hop); try done.
  exists sf. destruct Hop. split_and!; try done; [by rewrite o_FH0|].
  apply (drain_contents _ _ _ _ _ _ []); rewrite ?o_size0, ?o_unread0, ?o_body0; try done. left. done.
Qed.

(** C2: Packets survive being written to a capture file and read back: a file is
    created, any list of packets is copied into it, and the file opened with any
    buffer that holds the largest packet gives the comment, the name of the
    measurement point and exactly the packets, in order, and then the end. *)
Theorem capfile_roundtrip mpid c flags ps size fuel n :
  blen c < 65536 -> 36 <= size < 2147483648 -> Forall (fits size) ps ->
  2 * blen (contents ps []) < Z.of_nat fuel -> (length ps < n)%nat ->
  exists w w' sf,
    stream_file_create fopen (Some empty_file) None mpid (Some c) flags = Ok (Some w, 0) /\
    copy_all w ps = Ok (w', 0) /\
    stream_file_open fopen (Some (rewind (file w'))) None size = Ok (Some sf, 0) /\
    comment (base sf) = Some c /\ fh_mpid (FH (base sf)) = strncpy mpid 200 /\
    drain bpf_filter n fuel (base sf) (file sf) = Ok (ps, -1).
Proof.
  intros Hc Hs Hfit Hfuel Hn. destruct (create_ok (Some empty_file) None mpid c flags empty_file) as (w & Ew & Hend & Hcw); [done..|].
  destruct (copy_all_ok ps w) as (w' & E & [He _] & Hcont); [by eapply Forall_impl; [|exact Hfit]; intros ? []|done|].
  destruct (reopen_ok mpid c ps size fuel n (file w')) as (sf & H); try done.
  - by rewrite Hcont, Hcw, <- (assoc_L (++)).
  - by exists w, w', sf.
Qed.

(** C34: Files of the legacy versions 0.5 and 0.6 are recognised by their own
    headers and never taken for one of the other formats; their comment and their
    packets are read back. *)
Theorem capfile_legacy v c mpid ps size fuel n f :
  v = 5 \/ v = 6 -> blen c < 65536 -> is_bytes mpid -> blen mpid = 200 -> is_bytes (c ++ contents ps []) ->
  36 <= size < 2147483648 -> Forall (fits size) ps ->
  2 * blen (contents ps []) < Z.of_nat fuel -> (length ps < n)%nat ->
  content f = legacy_header v (blen c) mpid ++ c ++ contents ps [] -> 216 <= blen (content f) -> pos f = 0 -> ferror f = None ->
  exists sf, stream_file_open fopen (Some f) None size = Ok (Some sf, 0) /\
    version_ (FH (base sf)) = {| major := 0; minor := v |} /\ fh_mpid (FH (base sf)) = mpid /\ comment (base sf) = Some c /\
    drain bpf_filter n fuel (base sf) (file sf) = Ok (ps, -1).
Proof.
  intros Hv Hc Hb Hmp Hall Hs Hfit Hfuel Hn Hcont H216 Hp He. pose proof (blen_nonneg c).
  destruct (load_legacy v f (blen c) mpid (c ++ contents ps [])) as (h & p & El & Ho & Hcs & Hver & Hmpid); try done.
  assert (Hoff : blen (legacy_header v (blen c) mpid) <= 216) by (rewrite blen_legacy_header by done; by case_match).
  destruct (open_body fopen (Some f) None size f (f <| pos := p |>) h (legacy_header v (blen c) mpid) c (contents ps []))
    as (sf & Eo & Hop); try done; [lia | unfold is_valid_version; rewrite Hver; by destruct Hv as [-> | ->] |].
  exists sf. destruct Hop. split_and!; try done; [by rewrite o_FH0 | by rewrite o_FH0 |].
  apply (drain_contents _ _ _ _ _ _ []); rewrite ?o_size0, ?o_unread0, ?o_body0; try done. by left.
Qed.

(** C33: Opening any file, however it is damaged, ends with a stream and one of the
    documented results: the chain of extension headers is followed to its end or to
    an error, and a stream that is reported as open has a supported version and its
    whole comment. *)
Theorem stream_file_open_total f size :
  0 <= pos f ->
  exists sf e, stream_file_open fopen (Some f) None size = Ok (Some sf, e) /\
    content (file sf) = content f /\
    In e [0; ERROR_CAPFILE_INVALID; ERROR_CAPFILE_TRUNCATED; EINVAL] /\
    (e = 0 -> is_valid_version (FH (base sf)) = true /\
              exists c, comment (base sf) = Some c /\ comment_size (FH (base sf)) <= blen c).
Proof.
  intros Hp. unfold stream_file_open. cbn [open_file]. destruct (load_header_ok f Hp) as (p & r & -> & Hp' & Hr). cbn [mbind res_bind].
  destruct r as [h|e].
  2: { subst e. eexists _, _. split; [reflexivity|]. split; [done|]. split; [cbn; auto|done]. }
  assert (Hx : exists p' e, read_extensions (f <| pos := p |>) h = Ok (f <| pos := p' |>, e) /\
    (e = 0 \/ e = ERROR_CAPFILE_INVALID \/ e = ERROR_CAPFILE_TRUNCATED)).
  { unfold read_extensions. destruct (216 <? header_offset h); [|eexists _, _; split; [reflexivity|auto]].
    change (content (f <| pos := p |>)) with (content f).
    destruct (skip_extensions_ok (S (length (content f))) (f <| pos := p |>) (header_offset h)) as (p' & e & -> & He);
      [done | cbn; unfold blen; lia | lia |]. by exists p', e. }
  destruct Hx as (p' & e & -> & He). cbn [mbind res_bind].
  destruct (Z.eqb_spec e 0) as [->|Hne]; cbn [negb].
  2: { eexists _, _. split; [reflexivity|]. split; [done|]. split; [|done]. destruct He as [?|[-> | ->]]; cbn; auto. }
  destruct (fread _ _) as [f2 c] eqn:Ef. assert (Hf2 : content f2 = content f) by (by injection Ef as <- <-).
  destruct (Z.ltb_spec (blen c) (comment_size h)) as [Hlt|Hge].
  { eexists _, _. split; [reflexivity|]. split; [done|]. split; [cbn; auto|done]. }
  destruct (is_valid_version h) eqn:Hv; cbn [negb]; eexists _, _; (split; [reflexivity|]); (split; [done|]); (split; [cbn; auto|]).
  - intros _. cbn. eauto.
  - done.
Qed.
End Claims.

(** ** Witnesses *)
Definition ex_pkt (sec : Z) (data : bytes) : cap_header :=
  {| nic := [100; 48; 48; 0; 0; 0; 0; 0]; head_mampid := [109; 112; 0; 0; 0; 0; 0; 0]; ts := {| tv_sec := sec; tv_psec := 5 |};
     len := 60; caplen := blen data; payload := data |}.
Definition ex_pkts : list cap_header := [ex_pkt 1 [1; 2; 3]; ex_pkt 2 [4; 5]].
Definition ex_file : FILE := {| content := contents ex_pkts [9]; pos := 0; ferror := None |}.
Definition ex_stream : stream := stream_alloc PROTOCOL_LOCAL_FILE 60 0.
Definition no_bpf (_ : list bpf_insn) (_ : bytes) (_ _ : Z) : Z := 0.
Definition no_fopen (_ : bytes) : FILE + Z := inr ENOENT.
Definition ex_mpid : bytes := replicate 200 7.
(** Everything is rejected by [no_bpf] as soon as there is a program. *)
Definition ex_reject : filter := filter_init <| bpf_prog := Live [] |>.

Lemma ex_pkt_ok sec data : is_u32 sec -> blen data < 4294967296 -> packet_ok (ex_pkt sec data).
Proof. intros. pose proof (blen_nonneg data). constructor; cbn; try done; ints; lia. Qed.
Lemma ex_fits size : 39 <= size -> Forall (fits size) ex_pkts.
Proof.
  intros H. assert (H0 : forall sec data, is_u32 sec -> blen data <= 3 -> fits size (ex_pkt sec data)).
  { intros sec data Hs Hd. split; [apply ex_pkt_ok; [done|lia]|]. change (36 + blen data <= size). lia. }
  apply Forall_cons_2; [|apply Forall_cons_2; [|apply Forall_nil_2]]; apply H0; done.
Qed.
Lemma ex_stuck size : stuck size [9].
Proof. by left. Qed.

Lemma stream_read_next_witness :
  read_post 60 [9] None (Some (ex_pkt 1 [1; 2; 3], [ex_pkt 2 [4; 5]]))
    (stream_read no_bpf None 500 ex_stream ex_file None None).
Proof.
  apply (stream_read_next no_bpf 500 ex_stream ex_file None ex_pkts [9]);
    [apply stream_alloc_inv; lia | by split | by apply ex_fits | apply ex_stuck | reflexivity | by constructor | vm_compute; reflexivity].
Defined.

Lemma stream_peek_read_witness : exists st1 s1 rest st2 s2 rest',
  stream_peek no_bpf None 500 ex_stream ex_file None = Ok (st1, s1, None, (0, Some (in_memory (ex_pkt 1 [1; 2; 3]) rest))) /\
  stream_read no_bpf None 500 st1 s1 None None = Ok (st2, s2, None, (0, Some (in_memory (ex_pkt 1 [1; 2; 3]) rest'))) /\
  unread st2 ++ remaining s2 = contents [ex_pkt 2 [4; 5]] [9].
Proof.
  apply (stream_peek_read no_bpf 500 500 ex_stream ex_file (ex_pkt 1 [1; 2; 3]) [ex_pkt 2 [4; 5]] [9] None);
    [apply stream_alloc_inv; lia | by split | by apply ex_fits | apply ex_stuck | reflexivity | done
    | vm_compute; reflexivity | vm_compute; reflexivity].
Defined.

Definition ex_filled : stream :=
  ex_stream <| buffer := packet_image (ex_pkt 1 [1; 2; 3]) ++ replicate 21 0 |> <| writePos := 39 |>.

Definition ex_rejecting (f : filter) : Prop := index f = 0 /\ bpf_prog f = Live [] /\ frame_num f = [].
Lemma ex_rejects p f : ex_rejecting f -> exists f', decides no_bpf (Some f) p (Some f') false /\ ex_rejecting f'.
Proof.
  intros (H1 & H2 & H3).
  set (f1 := if first f then f <| frame_last_ts := ts p |> <| first := false |> else f).
  exists (f1 <| frame_counter := i32 (frame_counter f1 + 1) |>). split.
  - intros rest. unfold filter_status, filter_match. change (ts (in_memory p rest)) with (ts p). fold f1.
    assert (G : index f1 = 0 /\ bpf_prog f1 = Live [] /\ frame_num f1 = []) by (unfold f1; by destruct (first f)).
    destruct G as (-> & -> & ->). done.
  - unfold f1. by destruct (first f).
Qed.

Lemma stream_peek_diverges_witness : stream_peek no_bpf None 1000 ex_filled ex_file (Some ex_reject) = OutOfFuel.
Proof.
  apply (stream_peek_diverges no_bpf ex_rejecting 1000 ex_filled ex_file ex_reject (ex_pkt 1 [1; 2; 3]) []);
    [constructor; vm_compute; intuition congruence | by apply ex_pkt_ok | done | reflexivity | apply ex_rejects | done].
Defined.

Lemma capfile_roundtrip_witness :
  exists w w' sf,
    stream_file_create no_fopen (Some empty_file) None (B "mp01") (Some (B "hello")) 0 = Ok (Some w, 0) /\
    copy_all w ex_pkts = Ok (w', 0) /\
    stream_file_open no_fopen (Some (rewind (file w'))) None 60 = Ok (Some sf, 0) /\
    comment (base sf) = Some (B "hello") /\ fh_mpid (FH (base sf)) = strncpy (B "mp01") 200 /\
    drain no_bpf 3 500 (base sf) (file sf) = Ok (ex_pkts, -1).
Proof.
  apply (capfile_roundtrip no_fopen no_bpf (B "mp01") (B "hello") 0 ex_pkts 60 500 3);
    [vm_compute; reflexivity | lia | by apply ex_fits | vm_compute; reflexivity | vm_compute; lia].
Defined.

Definition ex_legacy : FILE :=
  {| content := legacy_header 6 5 ex_mpid ++ B "hello" ++ contents ex_pkts []; pos := 0; ferror := None |}.

Lemma capfile_legacy_witness :
  exists sf, stream_file_open no_fopen (Some ex_legacy) None 60 = Ok (Some sf, 0) /\
    version_ (FH (base sf)) = {| major := 0; minor := 6 |} /\ fh_mpid (FH (base sf)) = ex_mpid /\
    comment (base sf) = Some (B "hello") /\ drain no_bpf 3 500 (base sf) (file sf) = Ok (ex_pkts, -1).
Proof.
  apply (capfile_legacy no_fopen no_bpf 6 (B "hello") ex_mpid ex_pkts 60 500 3 ex_legacy);
    [by right | vm_compute; reflexivity | apply Forall_replicate; done | reflexivity | repeat constructor; done
    | lia | by apply ex_fits | vm_compute; reflexivity | vm_compute; lia | reflexivity | vm_compute; discriminate | done | done].
Defined.

(** A file with a padding extension whose chain leads past its end. *)
Definition ex_damaged : FILE :=
  {| content := le64 CAPUTILS_FILE_MAGIC ++ le16 0 ++ le16 7 ++ le16 230 ++ le16 0 ++ replicate 200 0 ++ [1; 0; 20; 0; 9; 9];
     pos := 0; ferror := None |}.

Lemma stream_file_open_total_witness :
  exists sf e, stream_file_open no_fopen (Some ex_damaged) None 0 = Ok (Some sf, e) /\ content (file sf) = content ex_damaged /\
    In e [0; ERROR_CAPFILE_INVALID; ERROR_CAPFILE_TRUNCATED; EINVAL].
Proof.
  destruct (stream_file_open_total no_fopen ex_damaged 0) as (sf & e & H1 & H2 & H3 & _); [cbn; lia|]. by exists sf, e.
Defined.
