(* ===== verification/StreamBuffer.v ===== *)
(** * Measurement frames (src/stream_buffer.c, src/stream_buffer.h, caputils/send.h; src/stream.c)

    Streams over a network receive frames of several packets each.  They are kept
    in a ring of equal regions; where the frames come from is an interface
    ([FrameSource], the callback [read_frame]). *)

From S2P Require Import Prelude CLib Picotime Utils Address Packet Filter Stream.

(** ** Data *)
Definition sizeof_sendhead : Z := 16.

(** [struct stream_frame_buffer]; [frames] are the regions, [read_ptr] is a
    region and an offset in it. *)
Record stream_frame_buffer := {
  frame_size : Z;
  num_frames : Z;
  num_packets : Z;
  fb_header_offset : Z;
  read_ptr : option (Z * Z);
  frames : list bytes;
}.
#[export] Instance stream_frame_buffer_rebuild : Rebuild stream_frame_buffer := fun b =>
  {| frame_size := frame_size b; num_frames := num_frames b; num_packets := num_packets b;
     fb_header_offset := fb_header_offset b; read_ptr := read_ptr b; frames := frames b |}.

Definition sizeof_ptr : Z := 8.
Definition stream_frame_buffer_size (num_frames mtu : Z) : Z := u64 (num_frames * mtu + sizeof_ptr * num_frames).

(** The regions follow the array of pointers in the stream's buffer. *)
Fixpoint init_regions (src : bytes) (frame_offset frame_size : Z) (n : nat) (i : Z) : res (list bytes) :=
  match n with
  | O => Ok []
  | S n => b ← slice src (frame_offset + i * frame_size) frame_size; bs ← init_regions src frame_offset frame_size n (i + 1); Ok (b :: bs)
  end.
Definition stream_frame_init (src : bytes) (num_frames frame_size : Z) : res stream_frame_buffer :=
  let frame_offset := sizeof_ptr * num_frames in
  fs ← init_regions src frame_offset frame_size (Z.to_nat num_frames) 0;
  Ok {| frame_size := frame_size; num_frames := num_frames; num_packets := 0; fb_header_offset := 0;
        read_ptr := None; frames := fs |}.

(** [read_frame st dst timeout]: the region behind [dst] afterwards, and whether it
    holds a new frame. *)
Class FrameSource (S : Type) := read_frame_cb : S -> bytes -> option timeval -> res (S * bytes * bool).

Definition region (fb : stream_frame_buffer) (i : Z) : res bytes :=
  if i <? 0 then Fault else match frames fb !! Z.to_nat i with Some m => Ok m | None => Fault end.

(** The position behind [p] in the ring; the remainder of no regions is undefined. *)
Definition succ_pos (fb : stream_frame_buffer) (p : Z) : res Z :=
  if num_frames fb =? 0 then Fault else Ok (u32 (p + 1) mod num_frames fb).

(** The frame at the read position becomes the current one. *)
Definition enter_frame (st : stream) (fb : stream_frame_buffer) : res stream_frame_buffer :=
  frame ← region fb (readPos st);
  nopkts ← be32 frame (fb_header_offset fb + 4);
  Ok (fb <| read_ptr := Some (readPos st, fb_header_offset fb + sizeof_sendhead) |> <| num_packets := nopkts |>).

Section FrameReader.
Context {S : Type} {src : FrameSource S}.
Variable bpf_filter : list bpf_insn -> bytes -> Z -> Z -> Z.

Definition read_frame (st : stream) (fb : stream_frame_buffer) (s : S) (timeout : option timeval)
    : res (stream * stream_frame_buffer * S * bool) :=
  m ← region fb (writePos st);
  '(s, m, got) ← read_frame_cb s m timeout;
  let fb := fb <| frames := <[Z.to_nat (writePos st) := m]> (frames fb) |> in
  if (got : bool) then p ← succ_pos fb (writePos st); Ok (st <| writePos := p |>, fb, s, true)
  else Ok (st, fb, s, false).

Definition frame_result : Type := stream * stream_frame_buffer * S * option filter * (Z * option cap_header).

(** The next packet of the current frame; the buffer moves behind it. *)
Definition take_packet (st : stream) (fb : stream_frame_buffer) : res (stream * stream_frame_buffer * cap_header) :=
  if num_packets fb =? 0 then Abort else
  match read_ptr fb with
  | None => Fault
  | Some (i, off) =>
      m ← region fb i;
      cp ← cap_at m off;
      let packet_size := sizeof_cap_header + caplen cp in
      let fb := fb <| num_packets := num_packets fb - 1 |> <| read_ptr := Some (i, off + packet_size) |> in
      if num_packets fb =? 0 then
        p ← succ_pos fb (readPos st);
        let st := st <| readPos := p |> in
        if readPos st =? writePos st then Ok (st, fb <| read_ptr := None |>, cp)
        else fb ← enter_frame st fb; Ok (st, fb, cp)
      else Ok (st, fb, cp)
  end.

Definition count_read (st : stream) : stream :=
  st <| stat := (stat st) <| stat_read := u64 (stat_read (stat st) + 1) |> <| stat_buffer_usage := 0 |> |>.

(** [fuel] bounds the jumps to [retry]. *)
Fixpoint stream_frame_buffer_read (fuel : nat) (st : stream) (fb : stream_frame_buffer) (s : S) (f : option filter)
    (timeout : option timeval) : res frame_result :=
  match fuel with
  | O => OutOfFuel
  | Datatypes.S fuel =>
      '(st, fb, s, ready) ←
        match read_ptr fb with
        | Some _ => Ok (st, fb, s, true)
        | None =>
            '(st, fb, s, got) ← read_frame st fb s timeout;
            if (got : bool) then fb ← enter_frame st fb; Ok (st, fb, s, true) else Ok (st, fb, s, false)
        end;
      if negb ready then Ok (st, fb, s, f, (EAGAIN, None)) else
      '(st, fb, s, _) ←
        (if negb (writePos st =? readPos st)
         then read_frame st fb s (Some {| tval_sec := 0; tval_usec := 0 |}) else Ok (st, fb, s, false));
      '(st, fb, cp) ← take_packet st fb;
      let st := count_read st in
      '(f, matched) ← filter_status bpf_filter f cp;
      if (matched : bool) then Ok (bump_matched st, fb, s, f, (0, Some cp))
      else stream_frame_buffer_read fuel st fb s f timeout
  end.
End FrameReader.
Arguments frame_result S : clear implicits.

(** ** Checks on received frames (src/stream.c) *)

(** [n --> 0] counts a signed [int] down. *)
Fixpoint sendheader_sum (n : nat) (m : bytes) (ptr expected : Z) : res Z :=
  match n with
  | O => Ok expected
  | S n =>
      caplen ← rd32 m (ptr + 32);
      if caplen =? 0 then Ok 0
      else let size := sizeof_cap_header + caplen in sendheader_sum n m (ptr + size) (expected + size)
  end.
Definition sendheader_bytes (m : bytes) (sh : Z) : res Z :=
  n ← be32 m (sh + 4);
  sendheader_sum (Z.to_nat (i32 n)) m (sh + sizeof_sendhead) (sizeof_ethhdr + sizeof_sendhead).
Definition valid_framesize (actual : Z) (m : bytes) (sh : Z) : res bool :=
  expected ← sendheader_bytes m sh;
  Ok (actual =? expected).

(** The expected number afterwards; a number other than the expected one, but for
    the repetition a loopback interface delivers, aborts. *)
Definition match_inc_seqnr (if_loopback : bool) (seq sequencenr : Z) : res Z :=
  let expected := i32 seq in
  let got := i32 (ntohl sequencenr) in
  if if_loopback && (expected =? i32 (got + 1)) then Ok seq
  else if negb (expected =? got) then Abort
  else let seq := u64 (seq + 1) in
       Ok (if 65535 <=? seq then 0 else seq).

(** ** Frames and rings *)

(** A region that holds a frame with the packets [ps]: link headers, send header
    and packets, then whatever was there. *)
Definition holds_frame (off : Z) (m : bytes) (ps : list cap_header) : Prop :=
  exists h sq fl rest, m = (h ++ sq ++ wr32be (Z.of_nat (length ps)) ++ fl) ++ contents ps rest /\
    blen h = off /\ blen sq = 4 /\ blen fl = 8.

Definition good_frame (ps : list cap_header) : Prop :=
  ps <> [] /\ Forall packet_ok ps /\ Z.of_nat (length ps) < 4294967296.

(** What a source of frames promises in a state that is to deliver the frames [inc]:
    they arrive in order and fit a region; without waiting none may be available
    yet. *)
Class FrameSourceLaws (S : Type) {src : FrameSource S} (off size : Z) := {
  delivers : S -> list (list cap_header) -> Prop;
  frame_laws : forall s inc dst timeout, delivers s inc -> blen dst = size ->
    exists s' dst' got, read_frame_cb s dst timeout = Ok (s', dst', got) /\ blen dst' = size /\
    if (got : bool) then exists ps inc', inc = ps :: inc' /\ delivers s' inc' /\ good_frame ps /\ holds_frame off dst' ps
    else delivers s' inc /\ (inc = [] \/ timeout = Some {| tval_sec := 0; tval_usec := 0 |});
}.

(** The frames from region [p] on, up to region [w]. *)
Fixpoint ring (fb : stream_frame_buffer) (p : Z) (qs : list (list cap_header)) (w : Z) : Prop :=
  match qs with
  | [] => w = p
  | q :: qs => (exists m, region fb p = Ok m /\ holds_frame (fb_header_offset fb) m q) /\ good_frame q /\
               ring fb ((p + 1) mod num_frames fb) qs w
  end.

Record fb_wf (fb : stream_frame_buffer) : Prop := {
  wf_num : 0 < num_frames fb < 4294967295;
  wf_len : Z.of_nat (length (frames fb)) = num_frames fb;
  wf_region : Forall (fun m => blen m = frame_size fb) (frames fb);
  wf_off : 0 <= fb_header_offset fb;
}.

Lemma init_regions_ok src off size n i : 0 <= off -> 0 <= size -> 0 <= i -> off + (i + Z.of_nat n) * size <= blen src ->
  exists fs, init_regions src off size n i = Ok fs /\ length fs = n /\ Forall (fun m => blen m = size) fs.
Proof.
  intros Ho Hs. revert i. induction n as [|n IH]; intros i Hi Hl; cbn [init_regions]; [by exists []|].
  destruct (slice_in src (off + i * size) size) as [b Hb]; [nia|lia|nia|]. rewrite Hb. cbn [mbind res_bind].
  destruct (IH (i + 1)) as (fs & -> & Hn & Hf); [lia|nia|]. cbn [mbind res_bind]. exists (b :: fs).
  split_and!; [done|cbn; lia|]. constructor; [|done]. by apply slice_len in Hb.
Qed.

(** A new ring: all its regions are there and none of its frames was read. *)
Lemma stream_frame_init_ok n size : 0 < n < 4294967295 -> 0 <= size ->
  exists fb, stream_frame_init (replicate (Z.to_nat (n * size + sizeof_ptr * n)) 0) n size = Ok fb /\
    fb_wf fb /\ num_frames fb = n /\ frame_size fb = size /\ read_ptr fb = None.
Proof.
  intros Hn Hs. unfold stream_frame_init. set (src := replicate _ 0).
  destruct (init_regions_ok src (sizeof_ptr * n) size (Z.to_nat n) 0) as (fs & -> & Hl & Hf); [unfold sizeof_ptr; lia|lia|lia| |].
  { unfold src, blen. rewrite length_replicate. unfold sizeof_ptr. nia. }
  cbn [mbind res_bind]. eexists. split; [reflexivity|]. split; [|done]. constructor; cbn; [done|lia|done|lia].
Qed.

Lemma stream_frame_init_offset src n size fb : stream_frame_init src n size = Ok fb -> fb_header_offset fb = 0.
Proof. unfold stream_frame_init. destruct (init_regions _ _ _ _ _); try discriminate. by intros [= <-]. Qed.

Lemma succ_pos_ok fb p : fb_wf fb -> 0 <= p < num_frames fb ->
  succ_pos fb p = Ok ((p + 1) mod num_frames fb) /\ 0 <= (p + 1) mod num_frames fb < num_frames fb.
Proof.
  intros [Hn _ _ _] Hp. unfold succ_pos. rewrite (proj2 (Z.eqb_neq _ _)), u32_id by (ints; lia).
  split; [done|]. apply Z.mod_pos_bound. lia.
Qed.

Lemma ring_end fb p qs w : 0 < num_frames fb -> 0 <= p < num_frames fb -> ring fb p qs w ->
  w = (p + Z.of_nat (length qs)) mod num_frames fb.
Proof.
  intros Hn. revert p. induction qs as [|q qs IH]; intros p Hp; cbn [ring length].
  - intros ->. rewrite Z.add_0_r. symmetry. by apply Z.mod_small.
  - intros (_ & _ & H). apply IH in H; [|apply Z.mod_pos_bound; lia]. rewrite H, Zplus_mod_idemp_l. f_equal. lia.
Qed.

(** Positions of a ring that is not full differ from its end. *)
Lemma mod_distinct p k n : 0 < n -> 0 <= p < n -> 0 < k < n -> (p + k) mod n <> p.
Proof.
  intros Hn Hp Hk E. destruct (decide (p + k < n)).
  - rewrite Z.mod_small in E; lia.
  - replace (p + k) with (p + k - n + 1 * n) in E by lia. rewrite Z.mod_add, Z.mod_small in E; lia.
Qed.

(** A frame stored at the end does not disturb the frames before it. *)
Lemma ring_insert fb p qs w m :
  0 < num_frames fb -> 0 <= p < num_frames fb -> Z.of_nat (length qs) < num_frames fb ->
  ring fb p qs w -> ring (fb <| frames := <[Z.to_nat w := m]> (frames fb) |>) p qs w.
Proof.
  intros Hn. revert p. induction qs as [|q qs IH]; intros p Hp Hl H; [done|]. cbn [ring length] in *.
  pose proof (ring_end fb p (q :: qs) w Hn Hp H) as Hw. cbn [length] in Hw.
  assert (Hne : w <> p) by (rewrite Hw; apply mod_distinct; lia).
  destruct H as ((m' & Hm & Hq) & Hg & H). split_and!; [|done|].
  - exists m'. split; [|done]. unfold region in *. cbn. rewrite (proj2 (Z.ltb_ge _ _)) in * by lia.
    rewrite list_lookup_insert_ne; [done|]. pose proof (Z.mod_pos_bound (p + Z.of_nat (S (length qs))) (num_frames fb)). lia.
  - apply IH; [apply Z.mod_pos_bound; lia | lia | done].
Qed.

Lemma ring_snoc fb p qs w m q :
  0 < num_frames fb -> ring fb p qs w -> region fb w = Ok m -> holds_frame (fb_header_offset fb) m q -> good_frame q ->
  ring fb p (qs ++ [q]) ((w + 1) mod num_frames fb).
Proof.
  intros Hn. revert p. induction qs as [|q' qs IH]; intros p H Hm Hh Hg; cbn [ring app] in *.
  - subst w. eauto 10.
  - destruct H as (H1 & H2 & H3). eauto.
Qed.

Lemma ring_ext fb fb' p qs w :
  frames fb' = frames fb -> num_frames fb' = num_frames fb -> fb_header_offset fb' = fb_header_offset fb ->
  ring fb p qs w -> ring fb' p qs w.
Proof.
  intros H1 H2 H3. revert p. induction qs as [|q qs IH]; intros p; cbn [ring]; [done|].
  unfold region. rewrite H1, H2, H3. intros (Hm & Hg & H). split_and!; [done..|]. by apply IH.
Qed.

Lemma holds_frame_be32 off m q : holds_frame off m q -> good_frame q -> be32 m (off + 4) = Ok (Z.of_nat (length q)).
Proof.
  intros (h & sq & fl & rest & -> & Hh & Hsq & Hfl) (_ & _ & Hl). unfold be32, wr32be. rewrite <- !(assoc_L (++)), (assoc_L (++) h).
  assert (Hu : is_u32 (Z.of_nat (length q))) by (ints; lia).
  rewrite rd32_at; [|lens | apply ntohl_range]. cbn [mbind res_bind]. f_equal. by apply ntohl_ntohl.
Qed.

(** A frame copied into a region, over what was there. *)
Lemma holds_frame_app off data q rest : holds_frame off data q -> holds_frame off (data ++ rest) q.
Proof.
  intros (h & sq & fl & r & -> & H). exists h, sq, fl, (r ++ rest). split; [|done].
  unfold contents. by rewrite <- !(assoc_L (++)).
Qed.

Lemma region_ok fb i : fb_wf fb -> 0 <= i < num_frames fb -> exists m, region fb i = Ok m /\ blen m = frame_size fb.
Proof.
  intros [Hn Hlen Hreg _] Hi. unfold region. rewrite (proj2 (Z.ltb_ge _ _)) by lia.
  destruct (lookup_lt_is_Some_2 (frames fb) (Z.to_nat i)) as [m Hm]; [lia|]. rewrite Hm. exists m. split; [done|].
  by eapply Forall_lookup_1 in Hm; [|exact Hreg].
Qed.

Lemma region_insert_eq fb i m : fb_wf fb -> 0 <= i < num_frames fb ->
  region (fb <| frames := <[Z.to_nat i := m]> (frames fb) |>) i = Ok m.
Proof.
  intros [] Hi. unfold region. cbn. rewrite (proj2 (Z.ltb_ge _ _)) by lia. by rewrite list_lookup_insert_eq by lia.
Qed.
Lemma region_insert_ne fb i j m : 0 <= i -> i <> j -> 0 <= j ->
  region (fb <| frames := <[Z.to_nat i := m]> (frames fb) |>) j = region fb j.
Proof.
  intros Hi Hne Hj. unfold region. cbn. rewrite (proj2 (Z.ltb_ge _ _)) by lia. by rewrite list_lookup_insert_ne by lia.
Qed.

Lemma fb_wf_insert fb i m : fb_wf fb -> blen m = frame_size fb -> fb_wf (fb <| frames := <[i := m]> (frames fb) |>).
Proof. intros [] Hm. constructor; cbn; try done; [by rewrite length_insert | by apply Forall_insert]. Qed.

Section FrameSpec.
Context {S : Type} {src : FrameSource S} {off size : Z} {laws : FrameSourceLaws S off size}.
Variable bpf_filter : list bpf_insn -> bytes -> Z -> Z -> Z.

(** The buffer: the packets left of the current frame and the frames behind it. *)
Record fb_rep (st : stream) (fb : stream_frame_buffer) (cur : list cap_header) (qs : list (list cap_header)) : Prop := {
  rep_fb : fb_wf fb;
  rep_offset : fb_header_offset fb = off;
  rep_size : frame_size fb = size;
  rep_read : 0 <= readPos st < num_frames fb;
  rep_write : 0 <= writePos st < num_frames fb;
  rep_cur : match cur with
            | [] => qs = [] /\ read_ptr fb = None /\ writePos st = readPos st
            | _ => exists a m rest, read_ptr fb = Some (readPos st, blen a) /\ region fb (readPos st) = Ok m /\
                     m = a ++ contents cur rest /\ num_packets fb = Z.of_nat (length cur) /\ Forall packet_ok cur /\
                     ring fb ((readPos st + 1) mod num_frames fb) qs (writePos st) /\
                     Z.of_nat (length qs) < num_frames fb
            end;
}.

(** One call of the source with a free region at the write position. *)
Lemma read_frame_ok st fb s inc timeout p qs :
  fb_wf fb -> fb_header_offset fb = off -> frame_size fb = size -> 0 <= writePos st < num_frames fb ->
  delivers (off := off) (size := size) s inc ->
  0 <= p < num_frames fb -> ring fb p qs (writePos st) -> Z.of_nat (length qs) < num_frames fb ->
  exists s' m, let fb' := fb <| frames := <[Z.to_nat (writePos st) := m]> (frames fb) |> in
    let w := (writePos st + 1) mod num_frames fb in
    fb_wf fb' /\ region fb' (writePos st) = Ok m /\ ring fb' p qs (writePos st) /\
    ((read_frame st fb s timeout = Ok (st, fb', s', false) /\ delivers (off := off) (size := size) s' inc /\
      (inc = [] \/ timeout = Some {| tval_sec := 0; tval_usec := 0 |})) \/
     (exists q inc', read_frame st fb s timeout = Ok (st <| writePos := w |>, fb', s', true) /\
      inc = q :: inc' /\ delivers (off := off) (size := size) s' inc' /\ ring fb' p (qs ++ [q]) w /\ holds_frame off m q /\ good_frame q)).
Proof.
  intros Hwf Ho Hs Hw Hok Hp Hr Hl. pose proof (wf_num _ Hwf) as Hn. unfold read_frame.
  destruct (region_ok fb (writePos st) Hwf Hw) as (m0 & -> & Hm). cbn [mbind res_bind]. rewrite Hs in Hm.
  destruct (frame_laws s inc m0 timeout Hok Hm) as (s' & m & got & -> & Hm' & Hcase). cbn [mbind res_bind].
  exists s', m. cbn zeta. set (fb' := fb <| frames := <[Z.to_nat (writePos st) := m]> (frames fb) |>).
  assert (Hwf' : fb_wf fb') by (apply fb_wf_insert; [done|by rewrite Hs]).
  assert (Hreg : region fb' (writePos st) = Ok m) by (by apply region_insert_eq).
  assert (R : ring fb' p qs (writePos st)) by (apply ring_insert; done || lia).
  split_and!; try done. destruct got.
  - right. destruct Hcase as (q & inc' & Hin & Hd & Hg & Hh). exists q, inc'. destruct (succ_pos_ok fb' (writePos st) Hwf' Hw) as [-> Hw'].
    cbn [mbind res_bind]. split_and!; try done.
    refine (ring_snoc fb' p qs (writePos st) _ q _ R Hreg _ Hg); [cbn; lia | cbn; by rewrite Ho].
  - left. by destruct Hcase.
Qed.

Lemma enter_frame_ok st fb m q qs w :
  fb_header_offset fb = off -> region fb (readPos st) = Ok m -> holds_frame off m q -> good_frame q ->
  fb_wf fb -> frame_size fb = size -> 0 <= readPos st < num_frames fb -> 0 <= w < num_frames fb -> writePos st = w ->
  ring fb ((readPos st + 1) mod num_frames fb) qs w -> Z.of_nat (length qs) < num_frames fb ->
  exists fb', enter_frame st fb = Ok fb' /\ fb_rep st fb' q qs.
Proof.
  intros Ho Hm Hh Hg Hwf Hs Hr Hw <- Hring Hl. unfold enter_frame. rewrite Hm, Ho. cbn [mbind res_bind].
  rewrite (holds_frame_be32 off m q) by done. cbn [mbind res_bind]. eexists. split; [reflexivity|].
  constructor; try done; [by destruct Hwf|]. destruct Hg as (Hne & Hok & Hlen). destruct q as [|p q]; [done|].
  destruct Hh as (h & sq & fl & rest & -> & Hh & Hsq & Hfl).
  assert (Hb : blen (h ++ sq ++ wr32be (Z.of_nat (length (p :: q))) ++ fl) = off + sizeof_sendhead).
  { rewrite !blen_app, Hh, Hsq, Hfl. done. }
  eexists (h ++ sq ++ wr32be _ ++ fl), _, rest. split_and!; try done.
  - rewrite Hb. done.
  - eapply ring_ext; [..|exact Hring]; done.
Qed.

(** Taking the packet at the front. *)
Lemma take_packet_ok st fb p cur qs : fb_rep st fb (p :: cur) qs ->
  exists st' fb' rest cur' qs', take_packet st fb = Ok (st', fb', in_memory p rest) /\ fb_rep st' fb' cur' qs' /\
    cur' ++ concat qs' = cur ++ concat qs.
Proof.
  intros [Hwf Ho Hs Hr Hw (a & m & rest & Hptr & Hm & -> & Hnum & Hok & Hring & Hl)]. pose proof (wf_num _ Hwf) as Hn.
  unfold take_packet. cbn [length] in Hnum. rewrite Hnum, (proj2 (Z.eqb_neq _ _)) by lia. rewrite Hptr, Hm. cbn [mbind res_bind].
  inversion_clear Hok as [|? ? Hp Hok']. rewrite contents_cons, cap_at_image by done. cbn [mbind res_bind].
  change (caplen (in_memory p (contents cur rest))) with (caplen p).
  replace (Z.of_nat (Datatypes.S (length cur)) - 1) with (Z.of_nat (length cur)) by lia.
  set (fb1 := fb <| num_packets := _ |> <| read_ptr := _ |>).
  assert (Hwf1 : fb_wf fb1) by (by destruct Hwf). cbn zeta. change (num_packets fb1) with (Z.of_nat (length cur)).
  assert (Hring1 : ring fb1 ((readPos st + 1) mod num_frames fb) qs (writePos st)) by (eapply ring_ext; [..|exact Hring]; done).
  destruct (Z.eqb_spec (Z.of_nat (length cur)) 0) as [E|E].
  - destruct cur; [|cbn in E; lia]. destruct (succ_pos_ok fb1 (readPos st) Hwf1 Hr) as [-> Hr1]. cbn [mbind res_bind].
    change (num_frames fb1) with (num_frames fb) in *. set (r1 := (readPos st + 1) mod num_frames fb) in *.
    change (readPos (st <| readPos := r1 |>)) with r1. change (writePos (st <| readPos := r1 |>)) with (writePos st).
    pose proof (ring_end fb1 r1 qs (writePos st) ltac:(cbn; lia) Hr1 Hring1) as Hend. destruct qs as [|q qs].
    + rewrite Hend, Z.add_0_r, Z.mod_small, Z.eqb_refl by done. eexists _, _, _, [], []. split; [reflexivity|]. split; [|done].
      constructor; try done. by destruct Hwf1.
    + assert (Hne : writePos st <> r1) by (rewrite Hend; apply mod_distinct; cbn [length num_frames fb1 field_set] in *; lia).
      rewrite (proj2 (Z.eqb_neq _ _)) by done. destruct Hring1 as ((m1 & Hm1 & Hh1) & Hg1 & Hring1).
      destruct (enter_frame_ok (st <| readPos := r1 |>) fb1 m1 q qs (writePos st)) as (fb2 & -> & Hrep); try done;
        [change (fb_header_offset fb1) with (fb_header_offset fb) in Hh1; by rewrite Ho in Hh1 | cbn [length] in Hl; cbn; lia |].
      cbn [mbind res_bind]. eexists _, _, _, q, qs. split; [reflexivity|]. split; [done|]. done.
  - eexists _, _, _, cur, qs. split; [reflexivity|]. split; [|done]. constructor; try done. destruct cur as [|p' cur]; [done|].
    exists (a ++ packet_image p), (a ++ contents (p :: p' :: cur) rest), rest.
    split_and!; try done; [by rewrite blen_app, blen_packet | by rewrite (contents_cons p), <- (assoc_L (++))].
Qed.

(** The two reads at the beginning of a call leave a packet at the front, if any
    frame is there. *)
Definition ready_state (st : stream) (fb : stream_frame_buffer) (s : S) (packets : list cap_header) : Prop :=
  exists p cur qs inc, fb_rep st fb (p :: cur) qs /\ delivers (off := off) (size := size) s inc /\
    packets = (p :: cur) ++ concat qs ++ concat inc.

Lemma read_ahead_ok st fb s packets : ready_state st fb s packets ->
  exists st' fb' s' b, (if negb (writePos st =? readPos st)
     then read_frame st fb s (Some {| tval_sec := 0; tval_usec := 0 |}) else Ok (st, fb, s, false)) = Ok (st', fb', s', b) /\
    ready_state st' fb' s' packets.
Proof.
  intros (p & cur & qs & inc & Hrep & Hsrc & ->). destruct (Z.eqb_spec (writePos st) (readPos st)) as [E|E]; cbn [negb].
  { eexists _, _, _, _. split; [reflexivity|]. by exists p, cur, qs, inc. }
  pose proof Hrep as [Hwf Ho Hs Hr Hw (a & m & rest & Hptr & Hm & -> & Hnum & Hok & Hring & Hl)]. pose proof (wf_num _ Hwf) as Hn.
  assert (Hr1 : 0 <= (readPos st + 1) mod num_frames fb < num_frames fb) by (apply Z.mod_pos_bound; lia).
  pose proof (ring_end fb _ qs (writePos st) ltac:(lia) Hr1 Hring) as Hend. rewrite Zplus_mod_idemp_l in Hend.
  assert (Hroom : Z.of_nat (length qs) + 1 < num_frames fb).
  { destruct (decide (Z.of_nat (length qs) + 1 = num_frames fb)) as [H|H]; [|lia]. exfalso. apply E. rewrite Hend.
    replace (readPos st + 1 + Z.of_nat (length qs)) with (readPos st + 1 * num_frames fb) by lia.
    rewrite Z.mod_add by lia. by apply Z.mod_small. }
  destruct (read_frame_ok st fb s inc (Some {| tval_sec := 0; tval_usec := 0 |}) _ qs Hwf Ho Hs Hw Hsrc Hr1 Hring Hl)
    as (s' & m' & Hwf' & _ & Hring0 & Hcase). cbn zeta in Hcase.
  assert (Hm' : region (fb <| frames := <[Z.to_nat (writePos st) := m']> (frames fb) |>) (readPos st) = Ok (a ++ contents (p :: cur) rest)).
  { etransitivity; [|exact Hm]. apply region_insert_ne; cbn; lia. }
  destruct Hcase as [(-> & Hin & _)|(q & inc' & -> & Hin & Hd & Hring' & _ & Hg)]; (eexists _, _, _, _; split; [reflexivity|]).
  - exists p, cur, qs, inc. split_and!; try done. constructor; try done. by exists a, (a ++ contents (p :: cur) rest), rest.
  - exists p, cur, (qs ++ [q]), inc'. split_and!; [|done|].
    + constructor; try done; [cbn; apply Z.mod_pos_bound; lia|]. exists a, (a ++ contents (p :: cur) rest), rest. split_and!; try done.
      rewrite length_app. cbn. lia.
    + rewrite Hin, concat_app. cbn. by rewrite app_nil_r, <- !(assoc_L (++)).
Qed.

(** The first part of a call: a frame is waited for when the buffer is empty. *)
Lemma first_read_ok st fb s inc timeout cur qs : fb_rep st fb cur qs -> delivers (off := off) (size := size) s inc ->
  timeout <> Some {| tval_sec := 0; tval_usec := 0 |} ->
  let packets := cur ++ concat qs ++ concat inc in
  exists st' fb' s' b,
    match read_ptr fb with
    | Some _ => Ok (st, fb, s, true)
    | None => '(st, fb, s, got) ← read_frame st fb s timeout;
              if (got : bool) then fb ← enter_frame st fb; Ok (st, fb, s, true) else Ok (st, fb, s, false)
    end = Ok (st', fb', s', b) /\
    ((b = true /\ ready_state st' fb' s' packets) \/
     (b = false /\ packets = [] /\ fb_rep st' fb' [] [])).
Proof.
  intros Hrep Hsrc Ht. cbn zeta. destruct cur as [|p cur].
  2: { pose proof Hrep as [_ _ _ _ _ (a & m & rest & -> & _)]. eexists _, _, _, true. split; [reflexivity|]. left. split; [done|].
       by exists p, cur, qs, inc. }
  pose proof Hrep as [Hwf Ho Hs Hr Hw (-> & Hptr & Ew)]. pose proof (wf_num _ Hwf) as Hn. rewrite Hptr.
  destruct (read_frame_ok st fb s inc timeout (writePos st) [] Hwf Ho Hs Hw Hsrc Hw eq_refl) as (s' & m & Hwf' & Hm & _ & Hcase);
    [cbn; lia|]. cbn zeta in Hcase. destruct Hcase as [(-> & Hin & [Hnil|?])|(q & inc' & -> & Hin & Hd & Hring' & Hh & Hg)]; [|done|].
  { cbn [mbind res_bind]. eexists _, _, s', false. split; [reflexivity|]. right. rewrite Hnil. split_and!; try done. }
  cbn [mbind res_bind]. set (fb1 := fb <| frames := _ |>) in *. set (st1 := st <| writePos := _ |>) in *.
  destruct (enter_frame_ok st1 fb1 m q [] ((writePos st + 1) mod num_frames fb)) as (fb2 & -> & Hrep2); try done.
  - cbn. by rewrite <- Ew.
  - cbn. apply Z.mod_pos_bound. lia.
  - cbn. by rewrite Ew.
  - cbn. lia.
  - cbn [mbind res_bind]. eexists _, _, s', true. split; [reflexivity|]. left. split; [done|]. destruct Hg as [Hne _].
    destruct q as [|p q]; [done|]. exists p, q, [], inc'. split_and!; try done. rewrite Hin. done.
Qed.

Lemma fb_rep_stat st st' fb cur qs : readPos st' = readPos st -> writePos st' = writePos st ->
  fb_rep st fb cur qs -> fb_rep st' fb cur qs.
Proof. intros Hr Hw []. constructor; rewrite ?Hr, ?Hw; done. Qed.

(** What a call leaves behind. *)
Definition frame_post (f' : option filter) (r : option (cap_header * list cap_header)) (out : res (frame_result S)) : Prop :=
  exists st' fb' s' cur' qs', fb_rep st' fb' cur' qs' /\
    match r with
    | Some (p, ps) => exists rest, out = Ok (st', fb', s', f', (0, Some (in_memory p rest))) /\
                        exists inc', delivers (off := off) (size := size) s' inc' /\ cur' ++ concat qs' ++ concat inc' = ps
    | None => out = Ok (st', fb', s', f', (EAGAIN, None))
    end.

Lemma frame_read_spec fuel st fb s inc f cur qs timeout f' r :
  fb_rep st fb cur qs -> delivers (off := off) (size := size) s inc -> timeout <> Some {| tval_sec := 0; tval_usec := 0 |} ->
  selects bpf_filter f (cur ++ concat qs ++ concat inc) f' r ->
  (length (cur ++ concat qs ++ concat inc) < fuel)%nat ->
  frame_post f' r (stream_frame_buffer_read bpf_filter fuel st fb s f timeout).
Proof.
  revert st fb s inc f cur qs. induction fuel as [|fuel IH]; intros st fb s inc f cur qs Hrep Hsrc Ht Hsel Hfuel; [lia|].
  cbn [stream_frame_buffer_read].
  destruct (first_read_ok st fb s inc timeout cur qs Hrep Hsrc Ht) as (st1 & fb1 & s1 & b & -> & Hcase). cbn [mbind res_bind].
  set (packets := cur ++ _) in *. destruct Hcase as [[-> Hready]|(-> & Hnil & Hrep1)]; cbn [negb].
  2: { fold packets in Hnil. rewrite Hnil in Hsel. inversion Hsel; subst. by exists st1, fb1, s1, [], []. }
  destruct (read_ahead_ok st1 fb1 s1 packets Hready) as (st2 & fb2 & s2 & b2 & -> & (p & cur2 & qs2 & inc2 & Hrep2 & Hsrc2 & Hpk)). cbn [mbind res_bind].
  destruct (take_packet_ok st2 fb2 p cur2 qs2 Hrep2) as (st3 & fb3 & rest & cur3 & qs3 & -> & Hrep3 & Hcat). cbn [mbind res_bind].
  assert (Hrest : cur3 ++ concat qs3 ++ concat inc2 = cur2 ++ concat qs2 ++ concat inc2).
  { rewrite !(assoc_L (++)). by rewrite Hcat. }
  rewrite Hpk in Hsel, Hfuel. cbn [app] in Hsel, Hfuel. rewrite <- Hrest in Hsel, Hfuel. cbn [length] in Hfuel.
  inversion Hsel as [|? ? ? ? Hdec|? ? ? f1 ? ? Hdec Hsel']; subst; rewrite Hdec; cbn [mbind res_bind].
  - exists (bump_matched (count_read st3)), fb3, s2, cur3, qs3. split; [by eapply fb_rep_stat; [..|exact Hrep3]|]. exists rest. split; [done|]. by exists inc2.
  - apply (IH _ _ _ inc2 _ cur3 qs3); [by eapply fb_rep_stat; [..|exact Hrep3] | done | done | done | lia].
Qed.

(** C24: The ring of measurement frames is a queue: a call returns the first packet
    the filter accepts of those left in the current frame, then of the frames
    received and then of the frames that arrive, skips exactly those it rejects,
    and leaves the packets behind it; it returns EAGAIN only when no frame came.
    No frame is overwritten before its packets were returned. *)
Theorem frame_buffer_queue fuel st fb s inc f cur qs timeout f' r :
  fb_rep st fb cur qs -> delivers (off := off) (size := size) s inc -> timeout <> Some {| tval_sec := 0; tval_usec := 0 |} ->
  selects bpf_filter f (cur ++ concat qs ++ concat inc) f' r ->
  (length (cur ++ concat qs ++ concat inc) < fuel)%nat ->
  frame_post f' r (stream_frame_buffer_read bpf_filter fuel st fb s f timeout).
Proof. apply frame_read_spec. Qed.

End FrameSpec.

(** ** Witnesses *)
Definition ex_pk (sec : Z) : cap_header :=
  {| nic := replicate 8 0; head_mampid := replicate 8 0; ts := {| tv_sec := sec; tv_psec := 0 |}; len := 60; caplen := 2; payload := [1; 2] |}.
Definition ex_fr : list cap_header := [ex_pk 1; ex_pk 2].
Definition ex_frame_bytes (ps : list cap_header) : bytes :=
  (replicate 14 0 ++ le32 0 ++ wr32be (Z.of_nat (length ps)) ++ replicate 8 0) ++ contents ps [].

(** A source that delivers the same frame [n] times. *)
#[export] Instance repeated : FrameSource nat := fun n dst _ =>
  match n with O => Ok (O, dst, false) | S n => m ← wr dst 0 (ex_frame_bytes ex_fr); Ok (n, m, true) end.

Lemma ex_good_frame : good_frame ex_fr.
Proof.
  split_and!; [done | | done]. assert (H : forall sec, is_u32 sec -> packet_ok (ex_pk sec)) by (intros; by constructor).
  apply Forall_cons_2; [|apply Forall_cons_2; [|apply Forall_nil_2]]; by apply H.
Qed.

#[export, program] Instance repeated_laws : FrameSourceLaws nat 14 128 := { delivers n inc := inc = replicate n ex_fr }.
Next Obligation.
  intros [|n] inc dst timeout -> Hd; [by exists O, dst, false; auto 10|].
  assert (W : wr dst 0 (ex_frame_bytes ex_fr) = Ok (ex_frame_bytes ex_fr ++ drop 106 dst)).
  { rewrite <- (take_drop 106 dst) at 1. apply (wr_app []). rewrite length_take. unfold blen in Hd. change (length (ex_frame_bytes ex_fr)) with 106%nat. lia. }
  unfold read_frame_cb, repeated. rewrite W. cbn [mbind res_bind]. eexists n, _, true. split; [reflexivity|]. split.
  - rewrite blen_app. unfold blen in *. rewrite length_drop. change (length (ex_frame_bytes ex_fr)) with 106%nat. lia.
  - exists ex_fr, (replicate n ex_fr). split; [done|]. split; [done|]. split; [apply ex_good_frame|]. apply holds_frame_app.
    by exists (replicate 14 0), (le32 0), (replicate 8 0), [].
Qed.

Definition ex_fb (n : nat) : stream_frame_buffer :=
  {| frame_size := 128; num_frames := Z.of_nat n; num_packets := 0; fb_header_offset := 14; read_ptr := None;
     frames := replicate n (replicate 128 0) |}.
Definition ex_bpf0 (_ : list bpf_insn) (_ : bytes) (_ _ : Z) : Z := 0.

Lemma frame_buffer_queue_witness :
  frame_post (S := nat) (off := 14) (size := 128) None (Some (ex_pk 1, [ex_pk 2; ex_pk 1; ex_pk 2]))
    (stream_frame_buffer_read ex_bpf0 5 (stream_alloc 1 0 0) (ex_fb 2) 2%nat None None).
Proof.
  apply (frame_buffer_queue (off := 14) (size := 128) ex_bpf0 5 (stream_alloc 1 0 0) (ex_fb 2) 2%nat [ex_fr; ex_fr] None [] [] None None);
    [ | done | done | by constructor | cbn; lia].
  constructor; try done. constructor; [cbn; lia | done | by apply Forall_replicate | cbn; lia].
Defined.

(** A frame that announces no packets passes the check of its size and stops
    the program when it is read. *)
Theorem empty_frame_aborts :
  valid_framesize 30 (ex_frame_bytes []) 14 = Ok true /\
  stream_frame_buffer_read (src := fun s dst _ => m ← wr dst 0 (ex_frame_bytes []); Ok (s, m, true)) ex_bpf0 5 (stream_alloc 1 0 0) (ex_fb 2) tt None None = Abort.
Proof. vm_compute. repeat split. Qed.

Example seqnr_step : match_inc_seqnr false 41 (htonl 41) = Ok 42 /\ match_inc_seqnr false 65534 (htonl 65534) = Ok 0 /\
  match_inc_seqnr true 41 (htonl 40) = Ok 41 /\ match_inc_seqnr false 41 (htonl 43) = Abort.
Proof. vm_compute. repeat split. Qed.
