(* ===== verification/Interface.v ===== *)
(** * Network interfaces and sockets (src/interface.c, caputils/interface.h)

    What the library asks the system about an interface.  The answers of the system
    calls are parameters.  What arrives on a socket is a list of events. *)

From S2P Require Import Prelude CLib Picotime Packet Filter Stream.

Definition IFNAMSIZ : Z := 16.
Definition IFF_UP : Z := 1.
Definition IFF_LOOPBACK : Z := 8.
Definition IFF_MULTICAST : Z := 4096.

(** [struct iface] *)
Record iface := {
  if_name : bytes;
  if_hwaddr : bytes;
  if_index : Z;
  iface_mtu : Z;
  if_up : bool;
  if_is_loopback : bool;
  if_multicast : bool;
}.

(** Answers of socket() and of the ioctl()s for a name: a value or [errno]. *)
Record system := {
  sys_socket : option Z;
  sys_index : bytes -> Z + Z;
  sys_mtu : bytes -> Z + Z;
  sys_hwaddr : bytes -> bytes + Z;
  sys_flags : bytes -> Z + Z;
}.

(** [strncpy] into an array of [IFNAMSIZ] bytes: a long name has no terminator. *)
Definition interface_name (name : bytes) : bytes :=
  take (Z.to_nat IFNAMSIZ) (name ++ replicate (Z.to_nat IFNAMSIZ) 0).

(** The result is the interface or the error; when the hardware address cannot be
    had the program exits. *)
Definition iface_get (sys : system) (name : bytes) : res (iface + Z) :=
  let ifr_name := interface_name name in
  match sys_socket sys with
  | Some e => Ok (inr e)
  | None =>
      match sys_index sys ifr_name with
      | inr e => Ok (inr e)
      | inl ifindex =>
          match sys_mtu sys ifr_name with
          | inr e => Ok (inr e)
          | inl mtu =>
              match sys_hwaddr sys ifr_name with
              | inr _ => Abort
              | inl sa_data =>
                  match sys_flags sys ifr_name with
                  | inr e => Ok (inr e)
                  | inl flags =>
                      Ok (inl {| if_name := ifr_name; if_hwaddr := take 6 sa_data; if_index := u32 ifindex; iface_mtu := u32 mtu;
                                 if_up := has_flag flags IFF_UP; if_is_loopback := has_flag flags IFF_LOOPBACK;
                                 if_multicast := has_flag flags IFF_MULTICAST |})
                  end
              end
          end
      end
  end.

(** The name that is asked for: the given one if it fits with its terminator. *)
Lemma interface_name_short name : blen name < IFNAMSIZ ->
  exists k, interface_name name = name ++ replicate (Datatypes.S k) 0 /\ blen (interface_name name) = IFNAMSIZ.
Proof.
  unfold IFNAMSIZ, interface_name, blen. intros H. exists (15 - length name)%nat. change (Z.to_nat IFNAMSIZ) with 16%nat.
  rewrite take_app_ge by lia. rewrite take_replicate. split; [do 2 f_equal; lia|]. rewrite length_app, length_replicate. lia.
Qed.

(** Calls that fail say why: [errno] is not zero then. *)
Record sane_system (sys : system) : Prop := {
  sane_socket : sys_socket sys <> Some 0;
  sane_index : forall n, sys_index sys n <> inr 0;
  sane_mtu : forall n, sys_mtu sys n <> inr 0;
  sane_flags : forall n, sys_flags sys n <> inr 0;
}.

(** The interface is there, but SIOCGIFHWADDR fails for it: the program exits. *)
Definition hwaddr_fails (sys : system) (name : bytes) : Prop :=
  let n := interface_name name in
  sys_socket sys = None /\ (exists i, sys_index sys n = inl i) /\ (exists m, sys_mtu sys n = inl m) /\
  exists e, sys_hwaddr sys n = inr e.

Lemma iface_get_exits sys name : iface_get sys name = Abort <-> hwaddr_fails sys name.
Proof.
  unfold iface_get, hwaddr_fails. set (n := interface_name name). split.
  - destruct (sys_socket sys); [discriminate|]. destruct (sys_index sys n); [|discriminate].
    destruct (sys_mtu sys n); [|discriminate]. destruct (sys_hwaddr sys n); [by destruct (sys_flags sys n)|]. eauto 8.
  - by intros (-> & [? ->] & [? ->] & [? ->]).
Qed.

Lemma iface_get_total sys name : sane_system sys ->
  hwaddr_fails sys name \/
  (exists ifs, iface_get sys name = Ok (inl ifs)) \/ (exists e, iface_get sys name = Ok (inr e) /\ e <> 0).
Proof.
  intros [H1 H2 H3 H4]. rewrite <- iface_get_exits. unfold iface_get. set (n := interface_name name).
  specialize (H2 n). specialize (H3 n). specialize (H4 n).
  destruct (sys_socket sys) as [e|]; [right; right; exists e; split; congruence|].
  destruct (sys_index sys n) as [|e]; [|right; right; exists e; split; congruence].
  destruct (sys_mtu sys n) as [|e]; [|right; right; exists e; split; congruence].
  destruct (sys_hwaddr sys n) as [a|]; [|by left].
  destruct (sys_flags sys n) as [|e]; [|right; right; exists e; split; congruence]. eauto.
Qed.

(** ** Sockets

    What happens on it, in order.  An arrival that is late is not there yet for a
    call that does not wait. *)
Inductive arrival :=
  | Expired
  | RecvError (errno : Z)
  | RecvClosed
  | Received (data : bytes).

Definition waits (timeout : option timeval) : bool :=
  match timeout with Some tv => negb ((tval_sec tv =? 0) && (tval_usec tv =? 0)) | None => true end.
Definition select {A : Type} (net : list (bool * A)) (timeout : option timeval) : list (bool * A) * option A :=
  match net with
  | [] => ([], None)
  | (late, a) :: net => if late && negb (waits timeout) then ((false, a) :: net, None) else (net, Some a)
  end.

Lemma waits_not timeout : negb (waits timeout) = true -> timeout = Some {| tval_sec := 0; tval_usec := 0 |}.
Proof.
  destruct timeout as [[a b]|]; [|discriminate]. cbn. rewrite negb_involutive, andb_true_iff, !Z.eqb_eq. by intros [-> ->].
Qed.

(** At most [size] bytes are stored; the rest of a datagram is lost. *)
Definition recvfrom (dst : bytes) (size : Z) (data : bytes) : res (bytes * Z) :=
  let data := take (Z.to_nat size) data in
  dst ← wr dst 0 data; Ok (dst, blen data).

Lemma recvfrom_ok dst size data : blen dst = size -> blen data <= size ->
  exists rest, recvfrom dst size data = Ok (data ++ rest, blen data) /\ blen (data ++ rest) = size.
Proof.
  intros Hd Hl. unfold recvfrom. rewrite take_ge by (unfold blen in *; lia). exists (drop (length data) dst).
  assert (W : wr dst 0 data = Ok (data ++ drop (length data) dst)).
  { rewrite <- (take_drop (length data) dst) at 1. apply (wr_app []). rewrite length_take. unfold blen in *. lia. }
  rewrite W. split; [done|]. rewrite blen_app. unfold blen in *. rewrite length_drop. lia.
Qed.
