(* ===== verification/StreamEthernet.v ===== *)
(** * Streams over Ethernet (src/stream_ethernet.c)

    Measurement frames arrive on a raw socket.  Frames of other protocols or for
    other destinations are skipped, the others are checked (size, version, sequence
    number of their destination) and handed to the ring of [StreamBuffer].  The
    socket and the interfaces of the system are parameters. *)

From S2P Require Import Prelude CLib Picotime Utils Address Packet Filter Stream StreamBuffer Interface.

Definition MAX_ADDRESS : Z := 100.
Definition ETHERTYPE_MP : Z := 0x0810.
Definition SENDER_FLUSH : Z := 1.
Definition EBUSY : Z := 16.
Definition PROTOCOL_ETHERNET_MULTICAST : Z := 1.

(** [struct stream_ethernet]: [address] has the [num_addresses] entries in use.
    [recv] and [flushed], fields of the base stream, are written here only. *)
Record stream_ethernet := {
  net : list (bool * arrival);
  address : list ether_addr;
  seqnum : list Z;
  loopback : bool;
  eth_frame_size : Z;
  recv : Z;
  eth_flushed : Z;
}.
#[export] Instance stream_ethernet_rebuild : Rebuild stream_ethernet := fun s =>
  {| net := net s; address := address s; seqnum := seqnum s; loopback := loopback s; eth_frame_size := eth_frame_size s;
     recv := recv s; eth_flushed := eth_flushed s |}.

(** ** Receiving *)

(** The first entry from [i] on that is the destination. *)
Fixpoint match_address (addresses : list ether_addr) (dest : bytes) (i : nat) : option nat :=
  match addresses with
  | [] => None
  | a :: addresses => if bool_decide (dest = a) then Some i else match_address addresses dest (S i)
  end.
Definition match_ma_pkt (st : stream_ethernet) (frame : bytes) : res (option nat) :=
  proto ← be16 frame 12;
  if negb (proto =? ETHERTYPE_MP) then Ok None
  else dest ← slice frame 0 6; Ok (match_address (address st) dest 0).

Definition version_header (mj mn : Z) : file_header :=
  {| magic := 0; version_ := {| major := mj; minor := mn |}; header_offset := 0; comment_size := 0; fh_mpid := [] |}.

(** A frame for the address [k] whose size is right: whether it is returned. *)
Definition accept_frame (st : stream_ethernet) (k : nat) (frame : bytes) : res (stream_ethernet * bool) :=
  let sh := sizeof_ethhdr in
  nopkts ← be32 frame (sh + 4);
  let st := st <| recv := u64 (recv st + nopkts) |> in
  match seqnum st !! k with
  | None => Fault
  | Some seq =>
      first ← (if seq =? 0 then
                 mj ← be16 frame (sh + 12); mn ← be16 frame (sh + 14);
                 if negb (is_valid_version (version_header mj mn)) then Ok None
                 else sq ← be32 frame sh; Ok (Some sq)
               else Ok (Some seq));
      match first with
      | None => Ok (st, false)
      | Some seq =>
          sq ← rd32 frame sh;
          seq ← match_inc_seqnr (loopback st) seq sq;
          let st := st <| seqnum := <[k := seq]> (seqnum st) |> in
          flags ← be32 frame (sh + 8);
          Ok (if has_flag flags SENDER_FLUSH then st <| eth_flushed := 1 |> else st, true)
      end
  end.

Fixpoint read_frame_loop (fuel : nat) (st : stream_ethernet) (dst : bytes) (timeout : option timeval)
    : res (stream_ethernet * bytes * bool) :=
  match fuel with
  | O => OutOfFuel
  | S fuel =>
      let '(rest, r) := select (net st) timeout in
      let st := st <| net := rest |> in
      match r with
      | None | Some Expired | Some (RecvError _) | Some RecvClosed => Ok (st, dst, false)
      | Some (Received data) =>
          '(dst, n) ← recvfrom dst (eth_frame_size st) data;
          if n =? 0 then Ok (st, dst, false)
          else
            m ← match_ma_pkt st dst;
            match m with
            | None => read_frame_loop fuel st dst timeout
            | Some k =>
                valid ← valid_framesize n dst sizeof_ethhdr;
                if negb valid then read_frame_loop fuel st dst timeout
                else '(st, ret) ← accept_frame st k dst; Ok (st, dst, ret)
            end
      end
  end.

(** Every iteration takes an arrival. *)
Definition stream_ethernet_read_frame (st : stream_ethernet) (dst : bytes) (timeout : option timeval)
    : res (stream_ethernet * bytes * bool) := read_frame_loop (S (length (net st))) st dst timeout.
#[export] Instance ethernet_source : FrameSource stream_ethernet := stream_ethernet_read_frame.

Definition stream_ethernet_read (bpf_filter : list bpf_insn -> bytes -> Z -> Z -> Z) (fuel : nat) (base : stream)
    (fb : stream_frame_buffer) (st : stream_ethernet) (f : option filter) (timeout : option timeval) : res (frame_result stream_ethernet) :=
  stream_frame_buffer_read bpf_filter fuel base fb st f timeout.

(** [sendto] gives the error, if there is one; the result is what was sent. *)
Definition stream_ethernet_write (sendto : bytes -> option Z) (if_mtu : Z) (data : bytes) : Z * list bytes :=
  let payload_size := u64 (blen data - sizeof_ethhdr) in
  if if_mtu <? payload_size then (EINVAL, [])
  else match sendto data with Some errno => (errno, []) | None => (0, [data]) end.

(** ** Setting up *)

Section Setup.
Variable sys : system.
Variable socket : option Z.                       (** the error of socket() *)
Variable bind : option Z.                         (** the error of bind() *)
Variable add_membership : ether_addr -> option Z. (** the error of setsockopt() *)

(** The new address list, or the code of the error. *)
Definition stream_ethernet_add (st : stream_ethernet) (addr : ether_addr) : res (stream_ethernet * Z) :=
  if Z.of_nat (length (address st)) =? MAX_ADDRESS then Ok (st, EBUSY)
  else
    b ← rd8 addr 0;
    if Z.land b 1 =? 0 then Ok (st, ERROR_INVALID_MULTICAST)
    else match add_membership addr with
         | Some errno => Ok (st, errno)
         | None => Ok (st <| address := address st ++ [addr] |>, 0)
         end.

(** The stream with its ring; [arrivals] is what its socket will deliver. *)
Definition stream_ethernet_init (arrivals : list (bool * arrival)) (addr : ether_addr) (name : option bytes) (buffer_size : Z)
    : res (option (stream * stream_frame_buffer * stream_ethernet) * Z) :=
  match name with
  | None => Ok (None, EINVAL)
  | Some name =>
      found ← iface_get sys name;
      match found : iface + Z with
      | inr e => Ok (None, e)
      | inl ifstat =>
          let frame_size := u32 (iface_mtu ifstat + sizeof_ethhdr) in
          let buffer_size := if buffer_size =? 0 then u32 (250 * frame_size) else buffer_size in
          if buffer_size <? frame_size then Ok (None, ERROR_BUFFER_LENGTH)
          else if frame_size =? 0 then Fault
          else if negb (buffer_size mod frame_size =? 0) then Ok (None, ERROR_BUFFER_MULTIPLE)
          else
            let num_frames := buffer_size / frame_size in
            let buffer_size := stream_frame_buffer_size num_frames frame_size in
            let base := stream_alloc PROTOCOL_ETHERNET_MULTICAST buffer_size (iface_mtu ifstat) in
            fb ← stream_frame_init (buffer base) num_frames frame_size;
            let st := {| net := arrivals; address := []; seqnum := replicate (Z.to_nat MAX_ADDRESS) 0; loopback := false;
                         eth_frame_size := frame_size; recv := 0; eth_flushed := 0 |} in
            match socket with
            | Some e => Ok (Some (base, fb, st), e)
            | None =>
                let fb := fb <| fb_header_offset := sizeof_ethhdr |> in
                let base := base <| if_loopback := Z.b2z (if_is_loopback ifstat) |> in
                let st := st <| loopback := if_is_loopback ifstat |> in
                match bind with
                | Some e => Ok (Some (base, fb, st), e)
                | None =>
                    '(st, ret) ← stream_ethernet_add st addr;
                    let base := base <| num_addresses := Z.of_nat (length (address st)) |> in
                    Ok (Some (base, fb, st), ret)
                end
            end
      end
  end.

Definition stream_ethernet_open (arrivals : list (bool * arrival)) (addr : ether_addr) (name : option bytes) (buffer_size : Z)
    : res (option (stream * stream_frame_buffer * stream_ethernet) * Z) :=
  '(st, ret) ← stream_ethernet_init arrivals addr name buffer_size;
  if negb (ret =? 0) then Ok (st, ret)
  else match st : option (stream * stream_frame_buffer * stream_ethernet) with
       | None => Fault
       | Some (base, fb, st) =>
           Ok (Some (base <| st_type := PROTOCOL_ETHERNET_MULTICAST |> <| FH := (FH base) <| comment_size := 0 |> |> <| comment := None |>, fb, st), 0)
       end.

Definition stream_ethernet_create (addr : ether_addr) (name : option bytes) (comment_ : bytes)
    : res (option (stream * stream_frame_buffer * stream_ethernet) * Z) :=
  '(st, ret) ← stream_ethernet_init [] addr name 0;
  if negb (ret =? 0) then Ok (st, ret)
  else match st : option (stream * stream_frame_buffer * stream_ethernet) with
       | None => Fault
       | Some (base, fb, st) =>
           Ok (Some (base <| FH := (FH base) <| comment_size := u16 (blen comment_) |> |> <| comment := Some comment_ |>, fb, st), 0)
       end.
End Setup.

(** ** Frames on the wire *)

(** Any frame, and a measurement frame. *)
Definition eth_frame (dest source : bytes) (proto : Z) (body : bytes) : bytes := dest ++ source ++ wr16be proto ++ body.
Record send_header := { sh_seq : Z; sh_flags : Z; sh_major : Z; sh_minor : Z }.
Definition ma_frame (dest source : bytes) (h : send_header) (ps : list cap_header) : bytes :=
  eth_frame dest source ETHERTYPE_MP
    (wr32be (sh_seq h) ++ wr32be (Z.of_nat (length ps)) ++ (wr32be (sh_flags h) ++ wr16be (sh_major h) ++ wr16be (sh_minor h)) ++ contents ps []).

(** Frames that are skipped: of another protocol, or for another destination. *)
Definition foreign (st : stream_ethernet) (data : bytes) : Prop :=
  exists dest source proto body, data = eth_frame dest source proto body /\ blen dest = 6 /\ blen source = 6 /\ is_u16 proto /\
    blen data <= eth_frame_size st /\ (proto <> ETHERTYPE_MP \/ match_address (address st) dest 0 = None).

(** Frames that are skipped since their size is not that of their packets. *)
Definition damaged (st : stream_ethernet) (data : bytes) : Prop :=
  exists dest source body, data = eth_frame dest source ETHERTYPE_MP body /\ blen dest = 6 /\ blen source = 6 /\
    blen data <= eth_frame_size st /\
    forall rest, blen (data ++ rest) = eth_frame_size st -> valid_framesize (blen data) (data ++ rest) sizeof_ethhdr = Ok false.

(** A measurement frame for the address [k] that fits, with at least one packet
    and none of captured length zero. *)
Record frame_to (st : stream_ethernet) (data : bytes) (k : nat) (h : send_header) (ps : list cap_header) : Prop := {
  ff_frame : exists dest source, data = ma_frame dest source h ps /\ blen dest = 6 /\ blen source = 6 /\
    match_address (address st) dest 0 = Some k;
  ff_size : blen data <= eth_frame_size st;
  ff_good : good_frame ps;
  ff_caplen : Forall (fun p => caplen p <> 0) ps;
  ff_count : Z.of_nat (length ps) < 2147483648;
  ff_header : is_u32 (sh_seq h) /\ is_u32 (sh_flags h) /\ is_u16 (sh_major h) /\ is_u16 (sh_minor h);
}.

(** It has the sequence number that is expected for its address; the first frame
    may have any and has to be of a known version. *)
Definition in_sequence (st : stream_ethernet) (k : nat) (h : send_header) : Prop :=
  exists seq, seqnum st !! k = Some seq /\
    (seq = sh_seq h /\ seq <> 0 \/ seq = 0 /\ is_valid_version (version_header (sh_major h) (sh_minor h)) = true).
Definition frame_for (st : stream_ethernet) (data : bytes) (k : nat) (h : send_header) (ps : list cap_header) : Prop :=
  frame_to st data k h ps /\ in_sequence st k h.

(** It has another number, and is not the repetition a loopback interface delivers. *)
Definition out_of_sequence (st : stream_ethernet) (k : nat) (h : send_header) : Prop :=
  exists seq, seqnum st !! k = Some seq /\ seq <> 0 /\ i32 seq <> i32 (sh_seq h) /\
    (loopback st = true -> i32 seq <> i32 (i32 (sh_seq h) + 1)).

(** The number that follows; 65535 is not used. *)
Definition next_seq (seq : Z) : Z := if 65535 <=? seq + 1 then 0 else seq + 1.
Definition after_frame (st : stream_ethernet) (k : nat) (h : send_header) (ps : list cap_header) : stream_ethernet :=
  let st := st <| recv := u64 (recv st + Z.of_nat (length ps)) |> <| seqnum := <[k := next_seq (sh_seq h)]> (seqnum st) |> in
  if has_flag (sh_flags h) SENDER_FLUSH then st <| eth_flushed := 1 |> else st.

(** What the socket delivers, foreign and damaged frames in between. *)
Inductive eth_delivers (size : Z) : stream_ethernet -> list (list cap_header) -> Prop :=
  | deliver_nothing st : net st = [] -> eth_frame_size st = size -> eth_delivers size st []
  | deliver_skip st late data rest inc : net st = (late, Received data) :: rest -> eth_frame_size st = size ->
      foreign st data \/ damaged st data -> eth_delivers size (st <| net := rest |>) inc -> eth_delivers size st inc
  | deliver_frame st late data rest k h ps inc : net st = (late, Received data) :: rest -> eth_frame_size st = size ->
      frame_for st data k h ps -> eth_delivers size (after_frame (st <| net := rest |>) k h ps) inc ->
      eth_delivers size st (ps :: inc).

(** ** Lemmas *)
Lemma match_frame st dest source proto body rest : blen dest = 6 -> blen source = 6 -> is_u16 proto ->
  match_ma_pkt st (eth_frame dest source proto body ++ rest) =
    Ok (if proto =? ETHERTYPE_MP then match_address (address st) dest 0 else None).
Proof.
  intros Hd Hs Hp. unfold match_ma_pkt, eth_frame. rewrite <- !(assoc_L (++)).
  assert (E1 : be16 (dest ++ source ++ wr16be proto ++ body ++ rest) 12 = Ok proto).
  { rewrite (assoc_L (++) dest). apply be16_at; [lens|done]. }
  assert (E2 : slice (dest ++ source ++ wr16be proto ++ body ++ rest) 0 6 = Ok dest) by (by apply (slice_app [])).
  rewrite E1, E2. cbn [mbind res_bind]. by destruct (proto =? ETHERTYPE_MP).
Qed.

Lemma sendheader_sum_ok ps a rest expected : Forall packet_ok ps -> Forall (fun p => caplen p <> 0) ps ->
  sendheader_sum (length ps) (a ++ contents ps rest) (blen a) expected = Ok (expected + blen (contents ps [])).
Proof.
  intros Hok Hc. revert a expected. induction ps as [|p ps IH]; intros a expected; cbn [sendheader_sum length].
  { f_equal. change (blen (contents [] [])) with 0. lia. }
  apply Forall_cons_1 in Hok as [Hp Hok], Hc as [Hcp Hc]. rewrite contents_cons, caplen_at by done. cbn [mbind res_bind].
  rewrite (proj2 (Z.eqb_neq _ _)) by done. rewrite (assoc_L (++) a).
  replace (blen a + (sizeof_cap_header + caplen p)) with (blen (a ++ packet_image p)) by (rewrite blen_app, blen_packet by done; done).
  rewrite IH by done. f_equal. rewrite (contents_cons p ps []), (blen_app (packet_image p)), blen_packet by done. lia.
Qed.

(** The fields of a measurement frame, whatever follows it. *)
Section Fields.
Context (dest source : bytes) (h : send_header) (ps : list cap_header) (rest : bytes).
Hypothesis dest_len : blen dest = 6.
Hypothesis source_len : blen source = 6.
Hypothesis count : Z.of_nat (length ps) < 2147483648.
Hypothesis fields : is_u32 (sh_seq h) /\ is_u32 (sh_flags h) /\ is_u16 (sh_major h) /\ is_u16 (sh_minor h).
Let link := dest ++ source ++ wr16be ETHERTYPE_MP.

Lemma ma_frame_split : ma_frame dest source h ps ++ rest =
  (link ++ wr32be (sh_seq h) ++ wr32be (Z.of_nat (length ps)) ++ wr32be (sh_flags h) ++ wr16be (sh_major h) ++ wr16be (sh_minor h))
  ++ contents ps rest.
Proof. unfold ma_frame, eth_frame, link, contents. rewrite app_nil_r. by rewrite <- !(assoc_L (++)). Qed.
Lemma link_len : blen link = 14.
Proof. unfold link. rewrite !blen_app, dest_len, source_len. done. Qed.

Lemma frame_fields : let m := ma_frame dest source h ps ++ rest in
  rd32 m 14 = Ok (htonl (sh_seq h)) /\ be32 m 14 = Ok (sh_seq h) /\ be32 m 18 = Ok (Z.of_nat (length ps)) /\
  be32 m 22 = Ok (sh_flags h) /\ be16 m 26 = Ok (sh_major h) /\ be16 m 28 = Ok (sh_minor h).
Proof.
  destruct fields as (H1 & H2 & H3 & H4). cbn zeta. rewrite ma_frame_split. rewrite <- !(assoc_L (++)). pose proof link_len.
  assert (Hn : is_u32 (Z.of_nat (length ps))) by (ints; lia).
  set (seq := wr32be (sh_seq h)). set (n := wr32be _). set (fl := wr32be (sh_flags h)). set (mj := wr16be (sh_major h)).
  assert (E : be32 (link ++ seq ++ n ++ fl ++ mj ++ wr16be (sh_minor h) ++ contents ps rest) 14 = Ok (sh_seq h)) by (by apply be32_at).
  assert (Ls : blen seq = 4) by done. assert (Ln : blen n = 4) by done. assert (Lf : blen fl = 4) by done. assert (Lm : blen mj = 2) by done.
  split_and!.
  - unfold seq, wr32be. apply rd32_at; [lia|apply ntohl_range].
  - done.
  - rewrite (assoc_L (++) link). apply be32_at; [rewrite !blen_app; lia|done].
  - rewrite (assoc_L (++) seq), (assoc_L (++) link). apply be32_at; [rewrite !blen_app; lia|done].
  - rewrite (assoc_L (++) n), (assoc_L (++) seq), (assoc_L (++) link). apply be16_at; [rewrite !blen_app; lia|done].
  - rewrite (assoc_L (++) fl), (assoc_L (++) n), (assoc_L (++) seq), (assoc_L (++) link).
    apply be16_at; [rewrite !blen_app; lia|done].
Qed.

Lemma frame_holds : holds_frame sizeof_ethhdr (ma_frame dest source h ps ++ rest) ps.
Proof.
  exists link, (wr32be (sh_seq h)), (wr32be (sh_flags h) ++ wr16be (sh_major h) ++ wr16be (sh_minor h)), rest.
  rewrite ma_frame_split. split_and!; [done|exact link_len|done|done].
Qed.

Lemma frame_valid : Forall packet_ok ps -> Forall (fun p => caplen p <> 0) ps ->
  valid_framesize (blen (ma_frame dest source h ps)) (ma_frame dest source h ps ++ rest) sizeof_ethhdr = Ok true.
Proof.
  intros Hok Hc. unfold valid_framesize, sendheader_bytes. destruct frame_fields as (_ & _ & Hn & _).
  change (sizeof_ethhdr + 4) with 18. rewrite Hn. cbn [mbind res_bind].
  rewrite i32_id, Nat2Z.id by lia.
  assert (Hlen : forall c, blen (link ++ wr32be (sh_seq h) ++ wr32be (Z.of_nat (length ps)) ++ wr32be (sh_flags h) ++ wr16be (sh_major h) ++ c) = 28 + blen c).
  { intros c. pose proof link_len. rewrite !blen_app. change (blen (wr32be _)) with 4. change (blen (wr16be _)) with 2. lia. }
  assert (Hall : blen (ma_frame dest source h ps) = 30 + blen (contents ps [])).
  { unfold ma_frame, eth_frame. fold link. rewrite <- !(assoc_L (++)). rewrite (assoc_L (++) source), (assoc_L (++) dest). fold link.
    rewrite Hlen, blen_app. change (blen (wr16be _)) with 2. lia. }
  rewrite ma_frame_split, Hall. change (sizeof_ethhdr + sizeof_sendhead) with (28 + blen (wr16be (sh_minor h))) at 1.
  rewrite <- Hlen, sendheader_sum_ok by done. cbn [mbind res_bind]. f_equal. apply Z.eqb_eq. done.
Qed.
End Fields.

(** The expected sequence number, which cannot be taken for a repetition. *)
Lemma match_inc_expected l seq : is_u32 seq -> match_inc_seqnr l seq (htonl seq) = Ok (next_seq seq).
Proof.
  intros Hu. unfold match_inc_seqnr, htonl. rewrite ntohl_ntohl by done.
  assert (Hne : i32 seq <> i32 (i32 seq + 1)) by ilia. rewrite (proj2 (Z.eqb_neq _ _) Hne), andb_false_r, Z.eqb_refl.
  cbn [negb]. by rewrite u64_id by (ints; lia).
Qed.

(** Accepting a frame with the sequence number that is expected. *)
Lemma accept_frame_ok st data k h ps rest : frame_for st data k h ps ->
  accept_frame st k (data ++ rest) = Ok (after_frame st k h ps, true).
Proof.
  intros [[(dest & source & -> & Hd & Hs & _) _ _ _ Hn Hh] (seq & Hseq & Hcase)]. pose proof Hh as (Hu & _).
  destruct (frame_fields dest source h ps rest Hd Hs Hn Hh) as (E1 & E2 & E3 & E4 & E5 & E6).
  pose proof (match_inc_expected (loopback st) (sh_seq h) Hu) as Hm.
  unfold accept_frame, sizeof_ethhdr. change (14 + 4) with 18. change (14 + 12) with 26. change (14 + 14) with 28. change (14 + 8) with 22.
  rewrite E3. cbn [mbind res_bind seqnum field_set]. rewrite Hseq.
  destruct Hcase as [[-> Hne]|[-> Hv]]; [rewrite (proj2 (Z.eqb_neq _ _)) by done|rewrite E5, E6, E2; cbn [Z.eqb mbind res_bind]; rewrite Hv];
    cbn [negb mbind res_bind]; rewrite E1; cbn [mbind res_bind loopback field_set]; rewrite Hm, E4; cbn [mbind res_bind]; done.
Qed.

(** A frame with another number stops the program. *)
Lemma accept_frame_gap st data k h ps rest : frame_to st data k h ps -> out_of_sequence st k h ->
  accept_frame st k (data ++ rest) = Abort.
Proof.
  intros [(dest & source & -> & Hd & Hs & _) _ _ _ Hn Hh] (seq & Hseq & Hne & Hgap & Hdup). pose proof Hh as (Hu & _).
  destruct (frame_fields dest source h ps rest Hd Hs Hn Hh) as (E1 & _ & E3 & _).
  unfold accept_frame, sizeof_ethhdr. change (14 + 4) with 18. rewrite E3. cbn [mbind res_bind seqnum field_set]. rewrite Hseq.
  rewrite (proj2 (Z.eqb_neq _ _)) by done. cbn [mbind res_bind]. rewrite E1. cbn [mbind res_bind loopback field_set].
  unfold match_inc_seqnr, htonl. rewrite ntohl_ntohl by done. rewrite (proj2 (Z.eqb_neq (i32 seq) (i32 (sh_seq h)))) by done.
  assert (Hl : loopback st && (i32 seq =? i32 (i32 (sh_seq h) + 1)) = false); [|by rewrite Hl].
  apply andb_false_iff. destruct (loopback st); [right; by apply Z.eqb_neq, Hdup|by left].
Qed.

Lemma delivers_late size st inc late a rest :
  net st = (late, a) :: rest -> eth_delivers size st inc -> eth_delivers size (st <| net := (false, a) :: rest |>) inc.
Proof.
  intros Hn H. inversion H as [? E|? ? data ? ? E Hs Hf Hd|? ? data ? k h ps ? E Hs Hf Hd]; subst; rewrite Hn in E; simplify_eq.
  - eapply deliver_skip; [reflexivity|done|exact Hf|exact Hd].
  - eapply (deliver_frame _ _ _ _ _ k h); [reflexivity|done| |exact Hd]. by destruct Hf as [[] ?].
Qed.

(** The source keeps its promise. *)
Definition frame_read (size : Z) (inc : list (list cap_header)) (timeout : option timeval) (r : res (stream_ethernet * bytes * bool)) : Prop :=
  exists st' dst' got, r = Ok (st', dst', got) /\ blen dst' = size /\
    if (got : bool) then exists ps inc', inc = ps :: inc' /\ eth_delivers size st' inc' /\ good_frame ps /\ holds_frame sizeof_ethhdr dst' ps
    else eth_delivers size st' inc /\ (inc = [] \/ timeout = Some {| tval_sec := 0; tval_usec := 0 |}).

(** A frame for one of the addresses is received and passes the checks of its
    destination and size. *)
Lemma frame_checked st data k h ps dst : frame_to st data k h ps -> blen dst = eth_frame_size st ->
  exists r, recvfrom dst (eth_frame_size st) data = Ok (data ++ r, blen data) /\ blen (data ++ r) = blen dst /\
    (blen data =? 0) = false /\ match_ma_pkt st (data ++ r) = Ok (Some k) /\
    valid_framesize (blen data) (data ++ r) sizeof_ethhdr = Ok true.
Proof.
  intros [(d & s & -> & H1 & H2 & Hm) Hsz Hg Hc Hcnt Hh] Hdst.
  destruct (recvfrom_ok dst (eth_frame_size st) (ma_frame d s h ps)) as (r & E & Hr); [done|cbn; lia|].
  exists r. split_and!; [done|by rewrite Hr| | |].
  - apply Z.eqb_neq. unfold ma_frame, eth_frame. rewrite !blen_app. change (blen (wr16be ETHERTYPE_MP)) with 2.
    match goal with |- _ + (_ + (_ + ?b)) <> _ => assert (0 <= b) by (repeat apply Z.add_nonneg_nonneg; apply blen_nonneg) end. lia.
  - unfold ma_frame. rewrite match_frame by done. rewrite Z.eqb_refl. by rewrite <- Hm.
  - apply frame_valid; try done. by destruct Hg as (_ & ? & _).
Qed.

(** The next arrival is a frame out of sequence, and it is there or waited for. *)
Lemma read_frame_gap st late data rest k h ps dst timeout :
  net st = (late, Received data) :: rest -> late && negb (waits timeout) = false -> blen dst = eth_frame_size st ->
  frame_to st data k h ps -> out_of_sequence st k h -> stream_ethernet_read_frame st dst timeout = Abort.
Proof.
  intros Hn Hl Hdst Hto Hgap. unfold stream_ethernet_read_frame. cbn [read_frame_loop]. rewrite Hn. cbn [select]. rewrite Hl.
  destruct (frame_checked (st <| net := rest |>) data k h ps dst) as (r & -> & _ & E0 & Em & Ev); [by destruct Hto|done|].
  cbn [mbind res_bind]. rewrite E0, Em. cbn [mbind res_bind]. rewrite Ev. cbn [mbind res_bind negb]. by rewrite (accept_frame_gap _ _ k h ps) by (done || by destruct Hto).
Qed.

Lemma read_frame_loop_ok fuel size st inc dst timeout :
  eth_delivers size st inc -> blen dst = size -> (length (net st) < fuel)%nat ->
  frame_read size inc timeout (read_frame_loop fuel st dst timeout).
Proof.
  revert st inc dst. induction fuel as [|fuel IH]; intros st inc dst Hd Hb Hf; [lia|]. cbn [read_frame_loop].
  destruct (net st) as [|[late a] rest] eqn:Hn.
  { inversion Hd as [? E Hs|? ? ? ? ? E|? ? ? ? ? ? ? ? E]; subst; rewrite Hn in E; try discriminate.
    cbn [select]. eexists _, _, false. split; [reflexivity|]. split; [done|]. split; [by constructor|by left]. }
  cbn [select]. destruct (late && negb (waits timeout)) eqn:El.
  { eexists _, _, false. split; [reflexivity|]. split; [done|]. split; [by eapply delivers_late|]. right.
    apply andb_true_iff in El as [_ El]. by apply waits_not. }
  inversion Hd as [? E|? ? data ? ? E Hs Hfor Hd'|? ? data ? k h ps ? E Hs Hfor Hd']; subst;
    rewrite Hn in E; [discriminate|injection E as <- -> <-|injection E as <- -> <-].
  - (* skipped *)
    assert (Hl : blen data <= eth_frame_size st /\ 14 <= blen data).
    { destruct Hfor as [(d & s & p & body & -> & H1 & H2 & _ & H3 & _)|(d & s & body & -> & H1 & H2 & H3 & _)]; split; [done| |done|];
        unfold eth_frame; rewrite !blen_app; change (blen (wr16be _)) with 2; pose proof (blen_nonneg body); lia. }
    change (eth_frame_size (st <| net := rest |>)) with (eth_frame_size st).
    destruct (recvfrom_ok dst (eth_frame_size st) data) as (r & -> & Hr); [done|cbn; lia|]. cbn [mbind res_bind].
    rewrite (proj2 (Z.eqb_neq _ _)) by lia.
    assert (Hskip : frame_read (blen dst) inc timeout (read_frame_loop fuel (st <| net := rest |>) (data ++ r) timeout)).
    { apply IH; [done|by rewrite Hr|cbn in *; lia]. }
    destruct Hfor as [(d & s & p & body & -> & H1 & H2 & Hp & _ & Hno)|(d & s & body & -> & H1 & H2 & ? & Hbad)].
    + rewrite match_frame by done. cbn [mbind res_bind address field_set].
      destruct (Z.eqb_spec p ETHERTYPE_MP) as [->|]; [|done]. destruct Hno as [? | ->]; [done|]. done.
    + rewrite match_frame by done. cbn [mbind res_bind]. rewrite Z.eqb_refl. cbn [address field_set].
      destruct (match_address _ _ _); [|done]. rewrite Hbad by (by rewrite Hr). cbn [mbind res_bind negb]. done.
  - (* a frame *)
    destruct Hfor as [Hto Hin].
    destruct (frame_checked (st <| net := rest |>) data k h ps dst) as (r & -> & Hr & E0 & Em & Ev); [by destruct Hto|done|].
    cbn [mbind res_bind]. rewrite E0, Em. cbn [mbind res_bind]. rewrite Ev. cbn [mbind res_bind negb].
    rewrite (accept_frame_ok _ _ k h ps) by (split; [by destruct Hto|done]). cbn [mbind res_bind].
    eexists _, _, true. split; [reflexivity|]. split; [by rewrite Hr|]. eexists ps, _. split; [done|]. split; [exact Hd'|].
    destruct Hto as [(d & s & -> & H1 & H2 & Hm) Hsz Hg Hc Hcnt Hh]. split; [done|]. by apply frame_holds.
Qed.

#[export, program] Instance ethernet_laws size : FrameSourceLaws stream_ethernet sizeof_ethhdr size := { delivers := eth_delivers size }.
Next Obligation. intros size st inc dst timeout Hd Hb. apply read_frame_loop_ok; [done|done|lia]. Qed.

(** ** Opening *)
Section Open.
Variable sys : system.
Variable socket bind : option Z.
Variable add_membership : ether_addr -> option Z.
Variable arrivals : list (bool * arrival).
Variable addr : ether_addr.
Hypothesis addr_len : blen addr = 6.

(** The size of the buffer in frames' bytes, by default 250 frames. *)
Definition frame_bytes (ifs : iface) : Z := iface_mtu ifs + sizeof_ethhdr.
Definition wanted_buffer (ifs : iface) (buffer_size : Z) : Z := if buffer_size =? 0 then 250 * frame_bytes ifs else buffer_size.
Definition fits_interface (ifs : iface) (buffer_size : Z) : Prop :=
  frame_bytes ifs <= wanted_buffer ifs buffer_size /\ (frame_bytes ifs | wanted_buffer ifs buffer_size).
Definition multicast (a : ether_addr) : Prop := forall b, rd8 a 0 = Ok b -> Z.odd b = true.

Definition reasonable (ifs : iface) (buffer_size : Z) : Prop :=
  0 <= iface_mtu ifs <= 16777216 /\ 0 <= buffer_size < 4294967295.

Lemma add_first st : address st = [] ->
  stream_ethernet_add add_membership st addr =
    (b ← rd8 addr 0; if Z.odd b then match add_membership addr with
                                     | Some errno => Ok (st, errno) | None => Ok (st <| address := [addr] |>, 0) end
                     else Ok (st, ERROR_INVALID_MULTICAST)).
Proof.
  intros Ha. unfold stream_ethernet_add. rewrite Ha. cbn [length Z.of_nat Z.eqb MAX_ADDRESS app].
  destruct (rd8 addr 0) as [b| | |]; cbn [mbind res_bind]; try done.
  change 1 with (Z.ones 1). rewrite Z.land_ones, Zmod_odd by lia. by destruct (Z.odd b).
Qed.

(** What is left of the function once the sizes have been checked. *)
Lemma init_sizes name ifs size : iface_get sys name = Ok (inl ifs) -> reasonable ifs size ->
  let wanted := wanted_buffer ifs size in
  let n := wanted / frame_bytes ifs in
  (~ fits_interface ifs size -> exists e, e <> 0 /\
     stream_ethernet_init sys socket bind add_membership arrivals addr (Some name) size = Ok (None, e)) /\
  (fits_interface ifs size -> exists fb, fb_wf fb /\ num_frames fb = n /\ frame_size fb = frame_bytes ifs /\ read_ptr fb = None /\
     let base := stream_alloc PROTOCOL_ETHERNET_MULTICAST (stream_frame_buffer_size n (frame_bytes ifs)) (iface_mtu ifs) in
     let st := {| net := arrivals; address := []; seqnum := replicate (Z.to_nat MAX_ADDRESS) 0; loopback := false;
                  eth_frame_size := frame_bytes ifs; recv := 0; eth_flushed := 0 |} in
     stream_ethernet_init sys socket bind add_membership arrivals addr (Some name) size =
       match socket with
       | Some e => Ok (Some (base, fb, st), e)
       | None =>
           let fb := fb <| fb_header_offset := sizeof_ethhdr |> in
           let base := base <| if_loopback := Z.b2z (if_is_loopback ifs) |> in
           let st := st <| loopback := if_is_loopback ifs |> in
           match bind with
           | Some e => Ok (Some (base, fb, st), e)
           | None =>
               '(st, ret) ← stream_ethernet_add add_membership st addr;
               Ok (Some (base <| num_addresses := Z.of_nat (length (address st)) |>, fb, st), ret)
           end
       end).
Proof.
  intros Hi [Hm Hs]. cbn zeta. unfold stream_ethernet_init. rewrite Hi. cbn [mbind res_bind].
  assert (Hfr : u32 (iface_mtu ifs + sizeof_ethhdr) = frame_bytes ifs) by (apply u32_id; unfold frame_bytes, sizeof_ethhdr; ints; lia).
  assert (Hfb : 14 <= frame_bytes ifs <= 16777230) by (unfold frame_bytes, sizeof_ethhdr; lia). rewrite Hfr.
  assert (Hw : (if size =? 0 then u32 (250 * frame_bytes ifs) else size) = wanted_buffer ifs size).
  { unfold wanted_buffer. destruct (size =? 0); [|done]. apply u32_id. ints. lia. }
  assert (Hwb : 0 <= wanted_buffer ifs size < 4294967295) by (unfold wanted_buffer; case_match; lia). rewrite Hw.
  set (wanted := wanted_buffer ifs size) in *. set (frame := frame_bytes ifs) in *. rewrite (proj2 (Z.eqb_neq frame 0)) by lia. split.
  - intros Hno. unfold fits_interface in Hno. fold wanted frame in Hno. destruct (Z.ltb_spec wanted frame); [by exists ERROR_BUFFER_LENGTH|].
    destruct (Z.eqb_spec (wanted mod frame) 0) as [E|]; [|by exists ERROR_BUFFER_MULTIPLE].
    destruct Hno. split; [done|]. apply Z.mod_divide; [lia|done].
  - intros [Hle Hdiv]. fold wanted frame in Hle, Hdiv. rewrite (proj2 (Z.ltb_ge wanted frame)) by lia.
    rewrite (proj2 (Z.mod_divide wanted frame ltac:(lia)) Hdiv).
    cbn [Z.eqb negb].
    assert (Hn : 1 <= wanted / frame <= wanted) by (split; [apply Z.div_le_lower_bound; lia|apply Z.div_le_upper_bound; [lia|]; clearbody wanted frame; nia]).
    destruct (stream_frame_init_ok (wanted / frame) frame) as (fb & Hf & Hwf & H1 & H2 & H3); [lia|lia|].
    assert (Hbuf : stream_frame_buffer_size (wanted / frame) frame = wanted / frame * frame + sizeof_ptr * (wanted / frame)).
    { unfold stream_frame_buffer_size. apply u64_id. ints. unfold sizeof_ptr. nia. }
    assert (Hrep : forall p mtu, buffer (stream_alloc p (stream_frame_buffer_size (wanted / frame) frame) mtu) =
      replicate (Z.to_nat (wanted / frame * frame + sizeof_ptr * (wanted / frame))) 0).
    { intros p mtu. rewrite Hbuf. unfold stream_alloc. cbn [buffer]. rewrite (proj2 (Z.eqb_neq _ 0)) by (unfold sizeof_ptr; nia). done. }
    exists fb. split_and!; [done..|]. rewrite Hrep, Hf. done.
Qed.

(** The conditions under which a stream is opened. *)
Record openable (name : option bytes) (size : Z) (ifs : iface) : Prop := {
  op_iface : exists n, name = Some n /\ iface_get sys n = Ok (inl ifs);
  op_sizes : fits_interface ifs size;
  op_socket : socket = None;
  op_bind : bind = None;
  op_multicast : multicast addr;
  op_member : add_membership addr = None;
}.

Lemma first_octet : exists b, rd8 addr 0 = Ok b /\ (multicast addr <-> Z.odd b = true).
Proof.
  destruct (rd8_in addr 0) as [b Hb]; [lia|]. exists b. split; [done|]. unfold multicast. rewrite Hb. split; [auto|].
  intros H ? [= <-]. done.
Qed.

(** The stream behind a socket that was just opened. *)
Definition eth_opened (ifs : iface) : stream_ethernet :=
  {| net := arrivals; address := [addr]; seqnum := replicate (Z.to_nat MAX_ADDRESS) 0; loopback := if_is_loopback ifs;
     eth_frame_size := frame_bytes ifs; recv := 0; eth_flushed := 0 |}.

Lemma ethernet_open_ok name size ifs : reasonable ifs size -> openable name size ifs ->
  exists base fb, stream_ethernet_open sys socket bind add_membership arrivals addr name size = Ok (Some (base, fb, eth_opened ifs), 0) /\
    fb_rep (off := sizeof_ethhdr) (size := frame_bytes ifs) base fb [] [] /\
    num_frames fb * frame_bytes ifs = wanted_buffer ifs size /\ num_addresses base = 1.
Proof.
  intros Hr [(n & -> & Hi) Hfit Hso Hbi Hmu Hme]. destruct (proj2 (init_sizes n ifs size Hi Hr) Hfit) as (fb & Hwf & Hn & Hsz & Hp & E).
  cbn zeta in E. rewrite Hso, Hbi in E at 2. rewrite add_first in E by done. unfold stream_ethernet_open. rewrite E. destruct first_octet as (b & -> & Hodd). pose proof (proj1 Hodd Hmu) as Hb.
  cbn [mbind res_bind]. rewrite Hb, Hme. cbn [mbind res_bind]. eexists _, _. split; [reflexivity|].
  pose proof (wf_num fb Hwf). split_and!; [|cbn; rewrite Hn|done].
  - constructor; cbn; try done; try lia. destruct Hwf. by constructor.
  - destruct Hfit as [_ [q ->]]. assert (frame_bytes ifs <> 0) by (destruct Hr; unfold frame_bytes, sizeof_ethhdr; lia).
    by rewrite Z.div_mul.
Qed.

(** C29: Opening an Ethernet stream exits the program when the interface is there
    but its hardware address cannot be had (SIOCGIFHWADDR fails), and otherwise
    always gives a result: success exactly when the interface is known, the buffer
    is a positive multiple of its frames, the address is a multicast address and
    the socket can be set up, and else the code of an error.  Calls that fail are
    taken to set [errno]; the MTU is at most 16 MiB and the size asked for below
    4 GiB - 1, so that the sizes do not wrap ([reasonable]). *)
Theorem ethernet_open_total name size :
  sane_system sys -> (forall n ifs, iface_get sys n = Ok (inl ifs) -> reasonable ifs size) ->
  socket <> Some 0 -> bind <> Some 0 -> add_membership addr <> Some 0 ->
  (stream_ethernet_open sys socket bind add_membership arrivals addr name size = Abort /\
     exists n, name = Some n /\ hwaddr_fails sys n) \/
  (~ (exists n, name = Some n /\ hwaddr_fails sys n)) /\
  exists s code, stream_ethernet_open sys socket bind add_membership arrivals addr name size = Ok (s, code) /\
    (code = 0 <-> exists ifs, openable name size ifs).
Proof.
  intros Hsane Hall Hso Hbi Hme.
  assert (Hfail : forall s code, code <> 0 -> stream_ethernet_init sys socket bind add_membership arrivals addr name size = Ok (s, code) ->
    (forall ifs, ~ openable name size ifs) -> exists s code,
    stream_ethernet_open sys socket bind add_membership arrivals addr name size = Ok (s, code) /\ (code = 0 <-> exists ifs, openable name size ifs)).
  { intros s code Hc E Hno. exists s, code. unfold stream_ethernet_open. rewrite E. cbn [mbind res_bind].
    rewrite (proj2 (Z.eqb_neq code 0)) by done. split; [done|]. split; [done|]. intros [ifs H]. by destruct (Hno ifs). }
  destruct name as [n|].
  2: { right. split; [by intros (? & ? & _)|]. by eapply (Hfail None EINVAL); [| |intros ? [(? & ? & _)]]. }
  destruct (iface_get_total sys n Hsane) as [Hx|Hi].
  { left. split; [|by exists n]. unfold stream_ethernet_open, stream_ethernet_init.
    by rewrite (proj2 (iface_get_exits sys n) Hx). }
  right. split.
  { intros (? & [= <-] & Hx%iface_get_exits). destruct Hi as [[? Hi]|(? & Hi & _)]; congruence. }
  destruct Hi as [[ifs Hi]|(e & Hi & He)].
  2: { eapply (Hfail None e); [done|unfold stream_ethernet_init; by rewrite Hi|]. intros ? [(? & [= <-] & ?)]. congruence. }
  assert (Hsame : forall ifs', openable (Some n) size ifs' -> ifs' = ifs) by (intros ? [(? & [= <-] & ?)]; congruence).
  destruct (init_sizes n ifs size Hi (Hall _ _ Hi)) as [Hbad Hgood].
  assert (Hdec : fits_interface ifs size \/ ~ fits_interface ifs size).
  { unfold fits_interface. assert (frame_bytes ifs <> 0) by (destruct (Hall _ _ Hi); unfold frame_bytes, sizeof_ethhdr; lia).
    rewrite <- Z.mod_divide by done. lia. }
  destruct Hdec as [Hfit|Hfit].
  2: { destruct (Hbad Hfit) as (e & He & E). eapply Hfail; [exact He|exact E|]. intros ? H. rewrite (Hsame _ H) in H. by destruct H. }
  destruct (Hgood Hfit) as (fb & _ & _ & _ & _ & E). cbn zeta in E. destruct first_octet as (b & Hb & Hodd).
  destruct socket as [e|] eqn:Es; [eapply Hfail; [|exact E|intros ? []; congruence]; congruence|].
  destruct bind as [e|] eqn:Eb; [eapply Hfail; [|exact E|intros ? []; congruence]; congruence|].
  rewrite add_first, Hb in E by done. cbn [mbind res_bind] in E.
  destruct (Z.odd b) eqn:Eo; [|eapply Hfail; [|exact E|intros ? []; intuition congruence]; done].
  destruct (add_membership addr) as [e|] eqn:Em; [eapply Hfail; [|exact E|intros ? []; congruence]; congruence|].
  assert (Hop : openable (Some n) size ifs) by (constructor; [eauto|done|done|done|tauto|done]).
  destruct (ethernet_open_ok (Some n) size ifs (Hall _ _ Hi) Hop) as (base & fb' & Ho & _). rewrite Es, Eb in Ho. rewrite Ho.
  eexists _, 0. split; [reflexivity|]. split; [eauto|done].
Qed.


End Open.

(** ** Witnesses *)
Definition ex_group : ether_addr := [1; 0; 94; 0; 0; 1].
Definition ex_iface : iface :=
  {| if_name := interface_name (B "eth0"); if_hwaddr := replicate 6 2; if_index := 3; iface_mtu := 114; if_up := true;
     if_is_loopback := false; if_multicast := true |}.
Definition ex_system : system :=
  {| sys_socket := None; sys_index n := if bool_decide (n = interface_name (B "eth0")) then inl 3 else inr EINVAL; sys_mtu _ := inl 114;
     sys_hwaddr _ := inl (replicate 14 2); sys_flags _ := inl (IFF_UP + IFF_MULTICAST) |}.
Definition ex_no_error (_ : ether_addr) : option Z := None.
Definition ex_sent : send_header := {| sh_seq := 7; sh_flags := 0; sh_major := 0; sh_minor := 7 |}.

(** A frame of another protocol, one for another group, one with a byte too much,
    and one with two packets. *)
Definition ex_arrivals : list (bool * arrival) :=
  [(false, Received (eth_frame ex_group (replicate 6 2) 0x0800 [1; 2; 3]));
   (true, Received (ma_frame (replicate 6 1) (replicate 6 2) ex_sent ex_fr));
   (false, Received (ma_frame ex_group (replicate 6 2) ex_sent [] ++ [0]));
   (true, Received (ma_frame ex_group (replicate 6 2) ex_sent ex_fr))].

Lemma ex_delivers : eth_delivers 128 (eth_opened ex_arrivals ex_group ex_iface) [ex_fr].
Proof.
  eapply deliver_skip; [reflexivity|reflexivity|left|].
  { eexists _, _, 0x0800, _. split; [reflexivity|]. repeat split; try done. by left. }
  eapply deliver_skip; [reflexivity|reflexivity|left|].
  { eexists _, _, ETHERTYPE_MP, _. split; [reflexivity|]. repeat split; try done. by right. }
  eapply deliver_skip; [reflexivity|reflexivity|right|].
  { eexists ex_group, (replicate 6 2), _. split; [unfold ma_frame, eth_frame; rewrite <- !(assoc_L (++)); reflexivity|].
    repeat split; done. }
  eapply (deliver_frame _ _ _ _ _ 0%nat ex_sent); [reflexivity|reflexivity| |by constructor].
  split; [constructor; try done; [by eexists _, _|apply ex_good_frame|by repeat constructor]|by exists 0; auto].
Qed.

Lemma ex_openable : reasonable ex_iface 256 /\ openable ex_system None None ex_no_error ex_group (Some (B "eth0")) 256 ex_iface.
Proof.
  split; [split; cbn; lia|]. constructor; try done; [by eexists|split; [by vm_compute|by exists 2]|by intros b [= <-]].
Qed.

(** A stream that expects the number 9 gets 7. *)
Definition ex_expecting : stream_ethernet :=
  (eth_opened [(false, Received (ma_frame ex_group (replicate 6 2) ex_sent ex_fr))] ex_group ex_iface) <| seqnum := [9] |>.


Lemma ethernet_open_total_witness :
  (stream_ethernet_open ex_system None None ex_no_error [] ex_group (Some (B "eth0")) 200 = Abort /\
     exists n, Some (B "eth0") = Some n /\ hwaddr_fails ex_system n) \/
  (~ (exists n, Some (B "eth0") = Some n /\ hwaddr_fails ex_system n)) /\
  exists s code,
  stream_ethernet_open ex_system None None ex_no_error [] ex_group (Some (B "eth0")) 200 = Ok (s, code) /\
    (code = 0 <-> exists ifs, openable ex_system None None ex_no_error ex_group (Some (B "eth0")) 200 ifs).
Proof.
  apply (ethernet_open_total ex_system None None ex_no_error [] ex_group eq_refl); try done.
  - constructor; try done. intros n. cbn. by case_match.
  - intros n ifs. unfold iface_get. cbn. case_match; [|discriminate]. intros [= <-]. unfold reasonable. change (iface_mtu _) with 114. lia.
Defined.
