(* ===== verification/StreamUdp.v ===== *)
(** * Streams over UDP (src/stream_udp.c)

    Measurement frames as datagrams, unicast or to a multicast group.  They are handed
    to the ring of [StreamBuffer] as they come. *)

From S2P Require Import Prelude CLib Picotime Utils Address Packet Filter Stream StreamBuffer Interface.

Definition MAX_ADDRESS : Z := 100.
Definition EBUSY : Z := 16.
Definition PROTOCOL_UDP_MULTICAST : Z := 2.
Definition udp_frames : Z := 250.

(** [struct stream_udp]: what arrives, with its sender; [address] has the
    [num_addresses] entries in use, [udp_mtu] is [if_mtu] of the base stream.  The
    sequence numbers are never looked at. *)
Record stream_udp := {
  net : list (bool * (arrival * Z));
  address : list Z;
  udp_mtu : Z;
}.
#[export] Instance stream_udp_rebuild : Rebuild stream_udp := fun s =>
  {| net := net s; address := address s; udp_mtu := udp_mtu s |}.

(** Addresses are in network order. *)
Definition is_multicast (s_addr : Z) : bool := Z.land s_addr (htonl 0xf0000000) =? htonl 0xe0000000.

(** The first entry from [i] on that is the sender. *)
Fixpoint match_address (addresses : list Z) (src : Z) (i : Z) : Z :=
  match addresses with
  | [] => -1
  | a :: addresses => if src =? a then i else match_address addresses src (i + 1)
  end.
Definition match_ma_pkt (st : stream_udp) (src : Z) : Z := match_address (address st) src 0.

(** ** Reading and writing *)
Definition stream_udp_read_frame (st : stream_udp) (dst : bytes) (timeout : option timeval) : res (stream_udp * bytes * Z) :=
  let '(rest, r) := select (net st) timeout in
  let st := st <| net := rest |> in
  match r with
  | Some (Received data, src) =>
      '(dst, n) ← recvfrom dst (udp_mtu st) data;
      if n =? 0 then Ok (st, dst, 0)
      else if match_ma_pkt st src =? -1 then Ok (st, dst, EAGAIN)
      else Ok (st, dst, 1)
  | _ => Ok (st, dst, 0)
  end.

(** The ring takes any result but zero for a frame. *)
#[export] Instance udp_source : FrameSource stream_udp := fun st dst timeout =>
  '(st, dst, ret) ← stream_udp_read_frame st dst timeout; Ok (st, dst, negb (ret =? 0)).

Definition stream_udp_read (bpf_filter : list bpf_insn -> bytes -> Z -> Z -> Z) (fuel : nat) (base : stream)
    (fb : stream_frame_buffer) (st : stream_udp) (f : option filter) (timeout : option timeval) : res (frame_result stream_udp) :=
  stream_frame_buffer_read bpf_filter fuel base fb st f timeout.

(** [send] gives the error, if there is one; the result is what was sent. *)
Definition stream_udp_write (send : bytes -> option Z) (if_mtu : Z) (data : bytes) : Z * list bytes :=
  if if_mtu <? blen data then (EINVAL, [])
  else match send data with Some errno => (errno, []) | None => (0, [data]) end.

(** ** Setting up *)
Section Setup.
Variable sys : system.
(** The error of socket(), of bind() and connect() to an address and port (their
    result, not [errno], is returned) and of setsockopt(); the MTU of the path. *)
Variable socket : option Z.
Variable bind connect : Z -> Z -> bool.
Variable add_membership : Z -> option Z.
Variable path_mtu : Z -> Z -> option Z.

Definition stream_udp_add (st : stream_udp) (a : Z) : stream_udp * Z :=
  if Z.of_nat (length (address st)) =? MAX_ADDRESS then (st, EBUSY)
  else if negb (is_multicast a) then (st, ERROR_INVALID_MULTICAST)
  else match add_membership a with
       | Some errno => (st, errno)
       | None => (st <| address := address st ++ [a] |>, 0)
       end.

Definition estimate_mtu (s_addr sin_port : Z) (name : option bytes) : res Z :=
  match name with
  | Some name =>
      found ← iface_get sys name;
      Ok (match found : iface + Z with inl ifstat => iface_mtu ifstat | inr _ => 1500 end)
  | None => Ok (match path_mtu s_addr sin_port with Some mtu => mtu | None => 1500 end)
  end.

Definition stream_udp_init (arrivals : list (bool * (arrival * Z))) (mtu : Z) : res ((stream * stream_frame_buffer * stream_udp) + Z) :=
  match socket with
  | Some errno => Ok (inr errno)
  | None =>
      let buffer_size := stream_frame_buffer_size udp_frames mtu in
      let base := stream_alloc PROTOCOL_UDP_MULTICAST buffer_size mtu in
      fb ← stream_frame_init (buffer base) udp_frames mtu;
      Ok (inl (base, fb, {| net := arrivals; address := []; udp_mtu := mtu |}))
  end.

(** The stream, when it was allocated and not freed again, and the result. *)
Definition stream_udp_create (s_addr sin_port : Z) (name : option bytes) : res (option (stream * stream_frame_buffer * stream_udp) * Z) :=
  mtu ← estimate_mtu s_addr sin_port name;
  r ← stream_udp_init [] mtu;
  match r : (stream * stream_frame_buffer * stream_udp) + Z with
  | inr ret => Ok (None, ret)
  | inl st => if negb (connect s_addr sin_port) then Ok (None, -1) else Ok (Some st, 0)
  end.

Definition stream_udp_open (arrivals : list (bool * (arrival * Z))) (s_addr sin_port : Z) (name : option bytes)
    : res (option (stream * stream_frame_buffer * stream_udp) * Z) :=
  if is_multicast s_addr && bool_decide (name = None) then Ok (None, EINVAL)
  else
    mtu ← estimate_mtu s_addr sin_port name;
    r ← stream_udp_init arrivals mtu;
    match r : (stream * stream_frame_buffer * stream_udp) + Z with
    | inr ret => Ok (None, ret)
    | inl (base, fb, st) =>
        let base := base <| if_mtu := mtu |> in
        if negb (bind (if is_multicast s_addr then 0 else s_addr) sin_port) then Ok (None, -1)
        else if is_multicast s_addr then
          let '(st, ret) := stream_udp_add st s_addr in
          Ok (Some (base <| num_addresses := Z.of_nat (length (address st)) |>, fb, st), ret)
        else Ok (Some (base, fb, st), 0)
    end.
End Setup.

(** ** Multicast addresses *)

(** The groups are those whose first octet is 224 to 239. *)
Lemma is_multicast_spec a : is_multicast a = true <-> 224 <= a mod 256 < 240.
Proof.
  unfold is_multicast. change (htonl 0xf0000000) with 240. change (htonl 0xe0000000) with 224.
  assert (E : Z.land a 240 = Z.land (a mod 256) 240).
  { change 256 with (2 ^ 8). rewrite <- Z.land_ones by lia. rewrite <- Z.land_assoc. done. }
  rewrite E. set (b := a mod 256). assert (Hb : b ∈ seqZ 0 256) by (apply elem_of_seqZ; apply Z.mod_pos_bound; lia).
  assert (Hall : Forall (fun b => Z.land b 240 = 224 <-> 224 <= b < 240) (seqZ 0 256)).
  { apply (bool_decide_unpack _). vm_compute. exact I. }
  rewrite Z.eqb_eq. rewrite list.Forall_forall in Hall. exact (Hall b Hb).
Qed.

(** ** Datagrams *)
Definition udp_frame (seq flags : bytes) (ps : list cap_header) : bytes := (seq ++ wr32be (Z.of_nat (length ps)) ++ flags) ++ contents ps [].

(** What arrives: a frame that fits, from whatever sender. *)
Definition udp_datagram (size : Z) (a : bool * (arrival * Z)) (ps : list cap_header) : Prop :=
  exists seq flags, a.2.1 = Received (udp_frame seq flags ps) /\ blen seq = 4 /\ blen flags = 8 /\ good_frame ps /\
    blen (udp_frame seq flags ps) <= size.
Definition udp_delivers (size : Z) (st : stream_udp) (inc : list (list cap_header)) : Prop :=
  udp_mtu st = size /\ Forall2 (udp_datagram size) (net st) inc.

#[export, program] Instance udp_laws size : FrameSourceLaws stream_udp 0 size := { delivers := udp_delivers size }.
Next Obligation.
  intros size st inc dst timeout [Hm Hn] Hd. unfold read_frame_cb, udp_source, stream_udp_read_frame.
  inversion Hn as [E|[late [a src]] ps arr inc' (seq & flags & Ha & Hs & Hf & Hg & Hl) Hn' E]; subst inc.
  { cbn. eexists _, _, false. split; [reflexivity|]. split; [done|]. split; [|by left]. split; [done|]. cbn. constructor. }
  cbn in Ha. subst a. cbn [select]. destruct (late && negb (waits timeout)) eqn:El.
  { eexists _, _, false. split; [reflexivity|]. split; [done|]. split.
    - split; [done|]. constructor; [|done]. by exists seq, flags.
    - right. apply andb_true_iff in El as [_ El]. by apply waits_not. }
  cbn [udp_mtu field_set]. destruct (recvfrom_ok dst size (udp_frame seq flags ps)) as (rest & Hr & Hb); [done|done|].
  change (udp_mtu (st <| net := arr |>)) with (udp_mtu st). rewrite Hm, Hr. cbn [mbind res_bind].
  assert (Hne : blen (udp_frame seq flags ps) <> 0).
  { unfold udp_frame. rewrite !blen_app. pose proof (blen_nonneg (contents ps [])). pose proof (blen_nonneg (wr32be (Z.of_nat (length ps)))). lia. }
  rewrite (proj2 (Z.eqb_neq _ _) Hne).
  exists (st <| net := arr |>), (udp_frame seq flags ps ++ rest), true. split; [rewrite <- Hm; by destruct (match_ma_pkt _ src =? -1)|]. split; [done|].
  exists ps, inc'. split_and!; [done|done|done|]. apply holds_frame_app. by exists [], seq, flags, [].
Qed.

(** ** Opening *)
Section Open.
Variable sys : system.
Variable socket : option Z.
Variable bind : Z -> Z -> bool.
Variable add_membership : Z -> option Z.
Variable path_mtu : Z -> Z -> option Z.
Variable arrivals : list (bool * (arrival * Z)).

(** The conditions under which a stream is opened, and the size of its frames. *)
Record openable (s_addr sin_port : Z) (name : option bytes) (mtu : Z) : Prop := {
  op_socket : socket = None;
  op_mtu : estimate_mtu sys path_mtu s_addr sin_port name = Ok mtu;
  op_bind : bind (if is_multicast s_addr then 0 else s_addr) sin_port = true;
  op_group : is_multicast s_addr = true -> name <> None /\ add_membership s_addr = None;
  op_bound : 0 <= mtu < 4294967296;
}.

(** The stream behind the new socket: groups are entered in its list. *)
Definition udp_opened (s_addr mtu : Z) : stream_udp :=
  {| net := arrivals; address := if is_multicast s_addr then [s_addr] else []; udp_mtu := mtu |}.

Lemma udp_buffer mtu : 0 <= mtu < 4294967296 ->
  buffer (stream_alloc PROTOCOL_UDP_MULTICAST (stream_frame_buffer_size udp_frames mtu) mtu) =
    replicate (Z.to_nat (udp_frames * mtu + sizeof_ptr * udp_frames)) 0.
Proof.
  intros Hr. unfold stream_frame_buffer_size. rewrite u64_id by (unfold udp_frames, sizeof_ptr; ints; lia).
  unfold stream_alloc. cbn [buffer]. rewrite (proj2 (Z.eqb_neq _ 0)) by (unfold udp_frames, sizeof_ptr; lia). done.
Qed.

Lemma udp_open_ok s_addr sin_port name mtu : openable s_addr sin_port name mtu ->
  exists base fb, stream_udp_open sys socket bind add_membership path_mtu arrivals s_addr sin_port name =
      Ok (Some (base, fb, udp_opened s_addr mtu), 0) /\
    fb_rep (off := 0) (size := mtu) base fb [] [] /\ num_frames fb = udp_frames /\
    num_addresses base = Z.of_nat (length (address (udp_opened s_addr mtu))).
Proof.
  intros [Hs Hm Hb Hg Hr]. destruct (stream_frame_init_ok udp_frames mtu) as (fb & Hf & Hwf & H1 & H2 & H3); [done|lia|].
  pose proof (udp_buffer mtu Hr) as Hrep.
  assert (Hname : is_multicast s_addr && bool_decide (name = None) = false).
  { destruct (is_multicast s_addr); [|done]. apply bool_decide_eq_false. by destruct Hg. }
  assert (Hfb : forall base, readPos base = 0 -> writePos base = 0 -> fb_rep (off := 0) (size := mtu) base fb [] []).
  { intros base Hr0 Hw0. pose proof (wf_num fb Hwf). constructor; rewrite ?Hr0, ?Hw0, ?H1; try done; unfold udp_frames; try lia.
    by rewrite (stream_frame_init_offset _ _ _ _ Hf). }
  unfold stream_udp_open, stream_udp_init, udp_opened. rewrite Hname, Hm, Hs. cbn [mbind res_bind]. rewrite Hrep, Hf. cbn [mbind res_bind].
  rewrite Hb. cbn [negb]. destruct (is_multicast s_addr) eqn:Em.
  - unfold stream_udp_add. cbn [address length Z.of_nat Z.eqb MAX_ADDRESS]. rewrite Em. destruct Hg as [_ ->]; [done|]. cbn.
    eexists _, _. split; [reflexivity|]. split_and!; [by apply Hfb|done|done].
  - eexists _, _. split; [reflexivity|]. split_and!; [by apply Hfb|done|done].
Qed.

(** The MTU of a named interface can only be had with its hardware address. *)
Lemma estimate_mtu_total s_addr sin_port name :
  (estimate_mtu sys path_mtu s_addr sin_port name = Abort /\ exists n, name = Some n /\ hwaddr_fails sys n) \/
  (~ exists n, name = Some n /\ hwaddr_fails sys n) /\ exists mtu, estimate_mtu sys path_mtu s_addr sin_port name = Ok mtu.
Proof.
  unfold estimate_mtu. destruct name as [n|]; [|right; split; [by intros (? & ? & _)|eauto]].
  destruct (iface_get sys n) as [found| | |] eqn:E.
  - right. split; [|cbn; eauto]. intros (? & [= <-] & Hx%iface_get_exits). congruence.
  - exfalso. revert E. unfold iface_get. repeat (case_match; try discriminate).
  - left. split; [done|]. exists n. split; [done|]. by apply iface_get_exits.
  - exfalso. revert E. unfold iface_get. repeat (case_match; try discriminate).
Qed.

(** C30: Opening a UDP stream exits the program when the named interface is there but
    its hardware address cannot be had, and otherwise always gives a result: success
    exactly when the socket can be had and bound (to the address, or to any address
    when the address is a multicast group) and, for a group, an interface is named
    and the group can be joined.  The stream then has an empty ring of 250 frames of
    the size of the MTU, and the group, if there is one, as its only address.  Calls
    that fail are taken to set [errno], and the MTU is not negative. *)
Theorem udp_open_total s_addr sin_port name :
  socket <> Some 0 -> add_membership s_addr <> Some 0 ->
  (forall mtu, estimate_mtu sys path_mtu s_addr sin_port name = Ok mtu -> 0 <= mtu < 4294967296) ->
  let opening := stream_udp_open sys socket bind add_membership path_mtu arrivals s_addr sin_port name in
  (opening = Abort /\ exists n, name = Some n /\ hwaddr_fails sys n) \/
  (~ exists n, name = Some n /\ hwaddr_fails sys n) /\
  exists s code, opening = Ok (s, code) /\ (code = 0 <-> exists mtu, openable s_addr sin_port name mtu) /\
    (code = 0 -> exists base fb mtu, s = Some (base, fb, udp_opened s_addr mtu) /\ openable s_addr sin_port name mtu /\
       fb_rep (off := 0) (size := mtu) base fb [] [] /\ num_frames fb = 250 /\
       num_addresses base = if is_multicast s_addr then 1 else 0).
Proof.
  intros Hso Hme Hb. cbn zeta. set (opening := stream_udp_open _ _ _ _ _ _ _ _ _).
  assert (Hfail : forall s code, code <> 0 -> opening = Ok (s, code) -> (forall mtu, ~ openable s_addr sin_port name mtu) ->
    exists s code, opening = Ok (s, code) /\ (code = 0 <-> exists mtu, openable s_addr sin_port name mtu) /\
    (code = 0 -> exists base fb mtu, s = Some (base, fb, udp_opened s_addr mtu) /\ openable s_addr sin_port name mtu /\
       fb_rep (off := 0) (size := mtu) base fb [] [] /\ num_frames fb = 250 /\
       num_addresses base = if is_multicast s_addr then 1 else 0)).
  { intros s code Hc E Hno. exists s, code. split_and!; [done|split; [done|intros [mtu H]; by destruct (Hno mtu)]|done]. }
  assert (Hearly : is_multicast s_addr && bool_decide (name = None) = true ->
    (~ exists n, name = Some n /\ hwaddr_fails sys n) /\ opening = Ok (None, EINVAL) /\ forall mtu, ~ openable s_addr sin_port name mtu).
  { intros Hm. pose proof Hm as [Hg Hn%bool_decide_eq_true]%andb_true_iff. split_and!.
    - intros (? & ? & _). congruence.
    - unfold opening, stream_udp_open. by rewrite Hm.
    - intros mtu [_ _ _ H _]. by destruct (H Hg). }
  destruct (is_multicast s_addr && bool_decide (name = None)) eqn:Em.
  { right. destruct (Hearly eq_refl) as (H1 & H2 & H3). split; [done|]. by apply (Hfail None EINVAL). }
  destruct (estimate_mtu_total s_addr sin_port name) as [[E Hx]|[Hx [mtu E]]].
  { left. split; [|done]. unfold opening, stream_udp_open. by rewrite Em, E. }
  right. split; [done|]. pose proof (Hb mtu E) as Hmtu.
  destruct (stream_frame_init_ok udp_frames mtu) as (fb & Hf & _); [done|lia|].
  assert (Hinit : opening = match socket with Some e => Ok (None, e) | None =>
      if negb (bind (if is_multicast s_addr then 0 else s_addr) sin_port) then Ok (None, -1) else opening end).
  { unfold opening, stream_udp_open, stream_udp_init. rewrite Em, E. cbn [mbind res_bind]. destruct socket; [done|].
    rewrite udp_buffer, Hf by lia. cbn [mbind res_bind]. by destruct (bind _ _). }
  destruct socket as [e|] eqn:Es; [apply (Hfail None e); [congruence|exact Hinit|intros ? []; congruence]|].
  destruct (bind (if is_multicast s_addr then 0 else s_addr) sin_port) eqn:Ebi; cbn [negb] in Hinit.
  2:{ apply (Hfail None (-1)); [done|done|]. intros ? []. congruence. }
  assert (Hdec : (is_multicast s_addr = true -> name <> None /\ add_membership s_addr = None) \/
                 is_multicast s_addr = true /\ exists e, add_membership s_addr = Some e).
  { destruct (is_multicast s_addr); [|by left]. apply bool_decide_eq_false in Em.
    destruct (add_membership s_addr) as [e|]; [right; eauto|by left]. }
  destruct Hdec as [Hg|[Hm [e He]]].
  - assert (Hop : openable s_addr sin_port name mtu) by (by constructor).
    destruct (udp_open_ok s_addr sin_port name mtu Hop) as (base & fb' & Ho & Hrep & Hn & Ha). rewrite Es in Ho.
    exists (Some (base, fb', udp_opened s_addr mtu)), 0. split_and!; [exact Ho|split; [eauto|done]|].
    intros _. exists base, fb', mtu. split_and!; try done. rewrite Ha. unfold udp_opened. cbn [address]. by destruct (is_multicast s_addr).
  - assert (Ho : exists s, opening = Ok (s, e)).
    { unfold opening, stream_udp_open, stream_udp_init. rewrite Em, E, Ebi. cbn [mbind res_bind]. rewrite udp_buffer, Hf by lia.
      cbn [mbind res_bind negb]. rewrite Hm. unfold stream_udp_add. cbn [address length Z.of_nat Z.eqb MAX_ADDRESS]. rewrite Hm, He. cbn. eauto. }
    destruct Ho as [s Ho]. apply (Hfail s e); [congruence|done|]. intros ? [_ _ _ H _]. destruct (H Hm). congruence.
Qed.

(** From opening to the first packet over UDP: once the socket is bound, and the
    group joined when the address is one, a call returns the first packet the filter
    accepts of the datagrams that the socket delivers, in their order.  The check of
    the sender has no effect on that (see [udp_stranger_accepted]). *)
Theorem udp_open_read bpf_filter s_addr sin_port name mtu : openable s_addr sin_port name mtu ->
  exists base fb, stream_udp_open sys socket bind add_membership path_mtu arrivals s_addr sin_port name =
      Ok (Some (base, fb, udp_opened s_addr mtu), 0) /\
    forall inc fuel f timeout f' r, udp_delivers mtu (udp_opened s_addr mtu) inc -> timeout <> Some {| tval_sec := 0; tval_usec := 0 |} ->
      selects bpf_filter f (concat inc) f' r -> (length (concat inc) < fuel)%nat ->
      frame_post (off := 0) (size := mtu) f' r (stream_udp_read bpf_filter fuel base fb (udp_opened s_addr mtu) f timeout).
Proof.
  intros Hop. destruct (udp_open_ok s_addr sin_port name mtu Hop) as (base & fb & E & Hrep & _). exists base, fb.
  split; [done|]. intros inc fuel f timeout f' r Hd Ht Hs Hf.
  by apply (frame_read_spec (off := 0) (size := mtu)) with (inc := inc) (cur := []) (qs := []).
Qed.
End Open.

(** ** Witnesses *)

(** The group 239.0.0.1 in network order, and frames of two senders. *)
Definition ex_udp_group : Z := 0x010000ef.
Definition ex_udp_system : system :=
  {| sys_socket := None; sys_index _ := inl 3; sys_mtu _ := inl 128; sys_hwaddr _ := inl (replicate 14 2); sys_flags _ := inl IFF_UP |}.
Definition ex_udp_arrivals : list (bool * (arrival * Z)) :=
  [(false, (Received (udp_frame (wr32be 1) (replicate 8 0) ex_fr), 0x0100000a));
   (true, (Received (udp_frame (wr32be 9) (replicate 8 0) ex_fr), 0x0200000a))].
Definition ex_no_path (_ _ : Z) : option Z := None.
Definition ex_join (_ : Z) : option Z := None.
Definition ex_bind (_ _ : Z) : bool := true.

Lemma ex_udp_delivers : udp_delivers 128 (udp_opened ex_udp_arrivals ex_udp_group 128) [ex_fr; ex_fr].
Proof.
  split; [done|]. assert (H : forall late seq src, udp_datagram 128 (late, (Received (udp_frame (wr32be seq) (replicate 8 0) ex_fr), src)) ex_fr).
  { intros late seq src. exists (wr32be seq), (replicate 8 0). split_and!; [done|done|done|apply ex_good_frame|].
    unfold udp_frame. rewrite !blen_app. change (blen (wr32be _)) with 4. by vm_compute. }
  constructor; [apply H|]. constructor; [apply H|]. constructor.
Qed.

Lemma udp_open_total_witness :
  let opening := stream_udp_open ex_udp_system None ex_bind ex_join ex_no_path [] ex_udp_group 0 (Some (B "eth0")) in
  (opening = Abort /\ exists n, Some (B "eth0") = Some n /\ hwaddr_fails ex_udp_system n) \/
  (~ exists n, Some (B "eth0") = Some n /\ hwaddr_fails ex_udp_system n) /\
  exists s code, opening = Ok (s, code) /\
    (code = 0 <-> exists mtu, openable ex_udp_system None ex_bind ex_join ex_no_path ex_udp_group 0 (Some (B "eth0")) mtu) /\
    (code = 0 -> exists base fb mtu, s = Some (base, fb, udp_opened [] ex_udp_group mtu) /\
       openable ex_udp_system None ex_bind ex_join ex_no_path ex_udp_group 0 (Some (B "eth0")) mtu /\
       fb_rep (off := 0) (size := mtu) base fb [] [] /\ num_frames fb = 250 /\
       num_addresses base = if is_multicast ex_udp_group then 1 else 0).
Proof.
  apply (udp_open_total ex_udp_system None ex_bind ex_join ex_no_path [] ex_udp_group 0 (Some (B "eth0"))); try discriminate.
  intros mtu [= <-]. vm_compute. by split.
Defined.

Lemma udp_open_read_witness : exists base fb,
  stream_udp_open ex_udp_system None ex_bind ex_join ex_no_path ex_udp_arrivals ex_udp_group 0 (Some (B "eth0")) =
    Ok (Some (base, fb, udp_opened ex_udp_arrivals ex_udp_group 128), 0) /\
  frame_post (off := 0) (size := 128) None (Some (ex_pk 1, [ex_pk 2; ex_pk 1; ex_pk 2]))
    (stream_udp_read ex_bpf0 5 base fb (udp_opened ex_udp_arrivals ex_udp_group 128) None None).
Proof.
  assert (Hs : selects ex_bpf0 None (concat [ex_fr; ex_fr]) None (Some (ex_pk 1, [ex_pk 2; ex_pk 1; ex_pk 2]))) by (by constructor).
  destruct (udp_open_read ex_udp_system None ex_bind ex_join ex_no_path ex_udp_arrivals ex_bpf0 ex_udp_group 0 (Some (B "eth0")) 128)
    as (base & fb & E & H); [by constructor|]. exists base, fb. split; [exact E|clear E].
  apply (H [ex_fr; ex_fr] 5%nat None None None _ ex_udp_delivers); [done | exact Hs | cbn; lia].
Defined.

(** A datagram of a sender that is none of the groups gets the result EAGAIN, which the
    ring takes for a frame. *)
Theorem udp_stranger_accepted :
  stream_udp_read_frame (udp_opened ex_udp_arrivals ex_udp_group 128) (replicate 128 0) None =
    Ok ((udp_opened ex_udp_arrivals ex_udp_group 128) <| net := tail ex_udp_arrivals |>,
        udp_frame (wr32be 1) (replicate 8 0) ex_fr ++ replicate 36 0, EAGAIN).
Proof. vm_compute. reflexivity. Qed.
