(* ===== verification/StreamPfring.v ===== *)
(** * Streams over PF_RING (src/stream_pfring.c)

    Measurement frames come out of a ring of the PF_RING library, which is a parameter: the
    result of [pfring_recv], which stores a pointer into the ring, and the memory behind a
    pointer at a given time.  The frames stay where they are; the stream keeps pointers. *)

From S2P Require Import Prelude CLib Picotime Utils Address Packet Filter Stream StreamBuffer Interface StreamEthernet.

(** [pf_recv p block]: the value returned and, when a frame came, the pointer and the captured
    length. *)
Class PfRing (P : Type) := {
  pf_recv : P -> bool -> P * (Z * option (Z * Z));
  pf_mem : P -> Z -> option bytes;
}.

Section Pfring.
Context {P : Type} {ring : PfRing P}.

(** [struct stream_pfring]; [pf_address] has the entries in use, a pointer to a packet is the
    pointer to its frame and an offset. *)
Record stream_pfring := {
  pd : P;
  pf_address : list ether_addr;
  pf_seqnum : list Z;
  pf_num_frames : Z;
  pf_num_packets : Z;
  pf_read_ptr : option (Z * Z);
  pf_frame : list (option Z);
}.
#[export] Instance stream_pfring_rebuild : Rebuild stream_pfring := fun s =>
  {| pd := pd s; pf_address := pf_address s; pf_seqnum := pf_seqnum s; pf_num_frames := pf_num_frames s;
     pf_num_packets := pf_num_packets s; pf_read_ptr := pf_read_ptr s; pf_frame := pf_frame s |}.

(** The memory behind a pointer into the ring, now. *)
Definition ring_memory (st : stream_pfring) (ptr : Z) : res bytes := match pf_mem (pd st) ptr with Some m => Ok m | None => Fault end.
(** [st->frame[i]], read through and assigned. *)
Definition frame_memory (st : stream_pfring) (i : Z) : res (Z * bytes) :=
  if i <? 0 then Fault
  else match pf_frame st !! Z.to_nat i with Some (Some ptr) => m ← ring_memory st ptr; Ok (ptr, m) | _ => Fault end.
Definition set_frame (st : stream_pfring) (i ptr : Z) : res stream_pfring :=
  if (0 <=? i) && (i <? Z.of_nat (length (pf_frame st))) then Ok (st <| pf_frame := <[Z.to_nat i := Some ptr]> (pf_frame st) |>) else Fault.

(** ** Receiving *)
Definition pf_match_ma_pkt (st : stream_pfring) (frame : bytes) : res (option nat) :=
  proto ← be16 frame 12;
  if negb (proto =? ETHERTYPE_MP) then Ok None
  else dest ← slice frame 0 6; Ok (match_address (pf_address st) dest 0).

Definition next_pos (st : stream_pfring) (p : Z) : res Z := if pf_num_frames st =? 0 then Fault else Ok (u32 (p + 1) mod pf_num_frames st).

(** A frame of the right size for the address [k]: whether it is kept. *)
Definition pf_accept (base : stream) (st : stream_pfring) (k : nat) (frame : bytes) : res (stream * stream_pfring * bool) :=
  let sh := sizeof_ethhdr in
  nopkts ← be32 frame (sh + 4);
  let base := base <| stat := (stat base) <| stat_recv := u64 (stat_recv (stat base) + nopkts) |> |> in
  match pf_seqnum st !! k with
  | None => Fault
  | Some seq =>
      first ← (if seq =? 0 then
                 mj ← be16 frame (sh + 12); mn ← be16 frame (sh + 14);
                 if negb (is_valid_version (version_header mj mn)) then Ok None
                 else sq ← be32 frame sh; Ok (Some sq)
               else Ok (Some seq));
      match first with
      | None => Ok (base, st, false)
      | Some seq =>
          sq ← rd32 frame sh;
          seq ← match_inc_seqnr (negb (if_loopback base =? 0)) seq sq;
          let st := st <| pf_seqnum := <[k := seq]> (pf_seqnum st) |> in
          p ← next_pos st (writePos base);
          let base := base <| writePos := p |> in
          flags ← be32 frame (sh + 8);
          Ok (if has_flag flags SENDER_FLUSH then base <| flushed := 1 |> else base, st, true)
      end
  end.

(** Frames are skipped until one is kept or none is there; [fuel] bounds the frames that are
    skipped.  Other values of [pfring_recv] than 0 and -1 count as success. *)
Fixpoint stream_pfring_read_frame (fuel : nat) (base : stream) (st : stream_pfring) (block : bool) : res (stream * stream_pfring * bool) :=
  match fuel with
  | O => OutOfFuel
  | S fuel =>
      let '(p, (code, got)) := pf_recv (pd st) block in
      let st := st <| pd := p |> in
      st ← match got with Some (ptr, _) => set_frame st (writePos base) ptr | None => Ok st end;
      if (code =? 0) || (code =? -1) then Ok (base, st, false)
      else
        '(_, frame) ← frame_memory st (writePos base);
        m ← pf_match_ma_pkt st frame;
        match m, got with
        | None, _ => stream_pfring_read_frame fuel base st block
        | Some _, None => Fault
        | Some k, Some (_, caplen) =>
            valid ← valid_framesize caplen frame sizeof_ethhdr;
            if negb valid then stream_pfring_read_frame fuel base st block
            else pf_accept base st k frame
        end
  end.

(** ** Reading packets *)
Section Read.
Variable bpf_filter : list bpf_insn -> bytes -> Z -> Z -> Z.

(** The frame at the read position becomes the current one. *)
Definition pf_enter (base : stream) (st : stream_pfring) : res stream_pfring :=
  '(ptr, frame) ← frame_memory st (readPos base);
  nopkts ← be32 frame (sizeof_ethhdr + 4);
  Ok (st <| pf_read_ptr := Some (ptr, sizeof_ethhdr + sizeof_sendhead) |> <| pf_num_packets := nopkts |>).

Definition pf_take (base : stream) (st : stream_pfring) : res (stream * stream_pfring * cap_header) :=
  match pf_read_ptr st with
  | None => Fault
  | Some (ptr, off) =>
      m ← ring_memory st ptr;
      cp ← cap_at m off;
      let packet_size := sizeof_cap_header + caplen cp in
      let st := st <| pf_num_packets := pf_num_packets st - 1 |> <| pf_read_ptr := Some (ptr, off + packet_size) |> in
      if pf_num_packets st =? 0 then
        p ← next_pos st (readPos base);
        let base := base <| readPos := p |> in
        if readPos base =? writePos base then Ok (base, st <| pf_read_ptr := None |>, cp)
        else st ← pf_enter base st; Ok (base, st, cp)
      else Ok (base, st, cp)
  end.

(** [fuel] bounds the jumps to [retry] and the frames that are skipped. *)
Fixpoint stream_pfring_read (fuel : nat) (base : stream) (st : stream_pfring) (f : option filter)
    : res (stream * stream_pfring * option filter * (Z * option cap_header)) :=
  match fuel with
  | O => OutOfFuel
  | S fuel =>
      '(base, st, ready) ←
        match pf_read_ptr st with
        | Some _ => Ok (base, st, true)
        | None =>
            '(base, st, got) ← stream_pfring_read_frame (S fuel) base st true;
            if (got : bool) then st ← pf_enter base st; Ok (base, st, true) else Ok (base, st, false)
        end;
      if negb ready then Ok (base, st, f, (EAGAIN, None)) else
      '(base, st, _) ←
        (if negb (writePos base =? readPos base) then stream_pfring_read_frame (S fuel) base st false else Ok (base, st, false));
      if pf_num_packets st =? 0 then Ok (base, st, f, (EAGAIN, None))
      else
        '(base, st, cp) ← pf_take base st;
        if caplen cp =? 0 then Ok (base, st, f, (ERROR_CAPFILE_INVALID, None))
        else
          let base := count_read base in
          '(f, matched) ← filter_status bpf_filter f cp;
          if (matched : bool) then Ok (bump_matched base, st, f, (0, Some cp))
          else stream_pfring_read fuel base st f
  end.
End Read.

(** ** Setting up *)
Definition stream_pfring_add (st : stream_pfring) (addr : ether_addr) : res (stream_pfring * Z) :=
  if Z.of_nat (length (pf_address st)) =? MAX_ADDRESS then Ok (st, EBUSY)
  else
    b ← rd8 addr 0;
    if Z.land b 1 =? 0 then Ok (st, ERROR_INVALID_MULTICAST) else Ok (st <| pf_address := pf_address st ++ [addr] |>, 0).

Definition stream_pfring_create : Z := EINVAL.

Section Open.
Variable sys : system.
Variable pfring_open : bytes -> Z -> P + Z.   (** for an interface and a length, the ring or [errno] *)
Variable pfring_enable_ring : P -> bool.

(** The MTU or [errno]. *)
Definition pf_iface_mtu (name : bytes) : Z + Z :=
  match sys_socket sys with Some e => inr e | None => sys_mtu sys (interface_name name) end.

Definition stream_pfring_open (addr : ether_addr) (name : option bytes) (buffer_size : Z) : res (option (stream * stream_pfring) * Z) :=
  match name with
  | None => Ok (None, EINVAL)
  | Some name =>
      match pf_iface_mtu name with
      | inr e => Ok (None, e)
      | inl mtu =>
          match pfring_open name (mtu + sizeof_ethhdr) with
          | inr e => Ok (None, e)
          | inl p =>
              let buffer_size := if buffer_size =? 0 then 250 * sizeof_ptr else buffer_size in
              let num_frames := buffer_size / sizeof_ptr in
              let base := stream_alloc PROTOCOL_ETHERNET_MULTICAST buffer_size mtu in
              let st := {| pd := p; pf_address := []; pf_seqnum := replicate (Z.to_nat MAX_ADDRESS) 0; pf_num_frames := num_frames; pf_num_packets := 0;
                           pf_read_ptr := None; pf_frame := replicate (Z.to_nat num_frames) None |} in
              if negb (pfring_enable_ring p) then Ok (Some (base, st), -1)
              else
                '(st, ret) ← stream_pfring_add st addr;
                let base := base <| num_addresses := Z.of_nat (length (pf_address st)) |> in
                if negb (ret =? 0) then Ok (Some (base, st), ret)
                else Ok (Some (base <| st_type := PROTOCOL_ETHERNET_MULTICAST |> <| FH := (FH base) <| comment_size := 0 |> |> <| comment := None |>, st), 0)
          end
      end
  end.
End Open.

(** libpcap: whether a handle can be had, and the result of the compilation. *)
Definition pcap_compile_nopcap (pcap_open_dead : bool) (pcap_compile : bytes -> Z) (buf : bytes) : Z := if negb pcap_open_dead then -1 else pcap_compile buf.
End Pfring.
Arguments stream_pfring P : clear implicits.

(** ** Limits *)
Section Limits.
Context {P : Type} {ring : PfRing P}.
Variable bpf_filter : list bpf_insn -> bytes -> Z -> Z -> Z.

Lemma read_frame_keeps fuel base (st : stream_pfring P) block base' st' got : stream_pfring_read_frame fuel base st block = Ok (base', st', got) ->
  pf_read_ptr st' = pf_read_ptr st /\ pf_num_packets st' = pf_num_packets st.
Proof.
  revert st. induction fuel as [|fuel IH]; intros st; cbn [stream_pfring_read_frame]; [done|]. destruct (pf_recv (pd st) block) as [p [code slot]].
  set (st0 := st <| pd := p |>).
  assert (Hst : forall r, match slot with Some (ptr, _) => set_frame st0 (writePos base) ptr | None => Ok st0 end = Ok r ->
                  pf_read_ptr r = pf_read_ptr st /\ pf_num_packets r = pf_num_packets st).
  { intros r. destruct slot as [[ptr c]|]; [|by intros [= <-]]. unfold set_frame. by destruct (_ && _); intros [= <-]. }
  destruct (match slot with Some _ => _ | None => _ end) as [st1| | |] eqn:E1; [|discriminate..]. specialize (Hst _ eq_refl). cbn [mbind res_bind].
  destruct ((code =? 0) || (code =? -1)); [by intros [= <- <- <-]|].
  assert (Hagain : stream_pfring_read_frame fuel base st1 block = Ok (base', st', got) -> pf_read_ptr st' = pf_read_ptr st /\ pf_num_packets st' = pf_num_packets st).
  { intros H. destruct Hst as [<- <-]. by apply (IH st1). }
  destruct (frame_memory st1 (writePos base)) as [[q frame]| | |]; cbn [mbind res_bind]; [|discriminate..].
  destruct (pf_match_ma_pkt st1 frame) as [[k|]| | |]; cbn [mbind res_bind]; [|done|discriminate..].
  destruct slot as [[ptr c]|]; [|discriminate]. destruct (valid_framesize c frame sizeof_ethhdr) as [[]| | |]; cbn [mbind res_bind negb]; [|done|discriminate..].
  destruct Hst as [<- <-]. unfold pf_accept, mbind, res_bind. repeat case_match; intros; simplify_eq; done.
Qed.

(** After a frame without packets the stream is stuck: it returns EAGAIN for good, whatever arrives. *)
Lemma empty_frame_stuck fuel base (st : stream_pfring P) f base' st' f' out : pf_read_ptr st <> None -> pf_num_packets st = 0 ->
  stream_pfring_read bpf_filter fuel base st f = Ok (base', st', f', out) -> out = (EAGAIN, None) /\ pf_read_ptr st' <> None /\ pf_num_packets st' = 0.
Proof.
  intros Hp Hn. destruct fuel as [|fuel]; cbn [stream_pfring_read]; [done|]. destruct (pf_read_ptr st) as [ptr|] eqn:Ep; [|done]. cbn [mbind res_bind negb].
  destruct (if negb (writePos base =? readPos base) then _ else _) as [[[base1 st1] g]| | |] eqn:E; cbn [mbind res_bind]; [|discriminate..].
  assert (Hk : pf_read_ptr st1 = Some ptr /\ pf_num_packets st1 = 0).
  { destruct (writePos base =? readPos base); cbn [negb] in E; [by simplify_eq|]. apply read_frame_keeps in E. by rewrite Ep, Hn in E. }
  destruct Hk as [Hk1 Hk2]. rewrite Hk2. cbn [Z.eqb]. intros [= <- <- <- <-]. by rewrite Hk1.
Qed.
End Limits.

(** ** Rings *)

(** A ring with room for one frame, which takes the next one when it is waited for. *)
Definition calm : Type := list bytes * bytes.
#[export] Instance calm_ring : PfRing calm := {
  pf_recv '(ds, m) block :=
    match ds with d :: ds' => if block : bool then ((ds', d), (1, Some (4096, blen d))) else ((ds, m), (0, None)) | [] => ((ds, m), (0, None)) end;
  pf_mem '(_, m) ptr := if ptr =? 4096 then Some m else None;
}.
(** One that takes it at once. *)
Record busy := { busy_left : list bytes; busy_memory : bytes }.
#[export] Instance busy_ring : PfRing busy := {
  pf_recv p block :=
    match busy_left p with
    | d :: ds => ({| busy_left := ds; busy_memory := d |}, (1, Some (4096, blen d)))
    | [] => (p, (0, None))
    end;
  pf_mem p ptr := if ptr =? 4096 then Some (busy_memory p) else None;
}.

Definition ex_ring : list bytes :=
  [eth_frame ex_group (replicate 6 2) 0x0800 [1; 2; 3]; ma_frame ex_group (replicate 6 2) ex_sent ex_fr;
   ma_frame ex_group (replicate 6 2) {| sh_seq := 8; sh_flags := 0; sh_major := 0; sh_minor := 7 |} [ex_pk 3; ex_pk 4]].

(** The first [n] packets of a stream: their seconds. *)
Fixpoint pf_seconds {P} {ring : PfRing P} (n : nat) (base : stream) (st : stream_pfring P) : res (list Z) :=
  match n with
  | O => Ok []
  | S n =>
      '(base, st, _, (ret, cp)) ← stream_pfring_read ex_bpf0 10 base st None;
      match cp with Some cp => l ← pf_seconds n base st; Ok (tv_sec (ts cp) :: l) | None => Ok [- ret] end
  end.
Definition pf_session {P} {ring : PfRing P} (p : P) (n : nat) : res (list Z) :=
  '(s, _) ← stream_pfring_open ex_system (fun _ _ => inl p) (fun _ => true) ex_group (Some (B "eth0")) 0;
  match s with Some (base, st) => pf_seconds n base st | None => Ok [] end.

Lemma pf_session_calm : pf_session ((ex_ring, []) : calm) 5 = Ok [1; 2; 3; 4; - EAGAIN].
Proof. by vm_compute. Qed.
(** The ring writes over the frame that is read: the packets 1 and 2 are lost, 3 and 4 come twice. *)
Lemma pf_session_busy : pf_session {| busy_left := ex_ring; busy_memory := [] |} 5 = Ok [3; 4; 3; 4; - EAGAIN].
Proof. by vm_compute. Qed.
(** A frame without packets, and the packets behind it are not returned. *)
Lemma pf_session_empty :
  pf_session ((ma_frame ex_group (replicate 6 2) {| sh_seq := 6; sh_flags := 0; sh_major := 0; sh_minor := 7 |} [] :: ex_ring, []) : calm) 5 = Ok [- EAGAIN].
Proof. by vm_compute. Qed.
