(* ===== verification/Text.v ===== *)
(** * Text output (src/log.c, src/format.c, src/format/http.c, src/format/mp.c)

    A function that writes to a [FILE] is modelled by the text it writes.  The
    conversions of [printf] that the sources use, the dump of bytes, printable
    text, tables of names, and the checksum of diagnostic packets. *)

From S2P Require Import Prelude CLib Utils Packet.

(** ** Conversions of [printf] *)
Definition nl : bytes := [10].
Definition tab : bytes := [9].

(** [%4d], [%04x]: padding on the left. *)
Definition padl (c : Z) (width : nat) (s : bytes) : bytes := replicate (width - length s) c ++ s.
(** [%-14s] *)
Definition padr (width : nat) (s : bytes) : bytes := s ++ replicate (width - length s) 32.

Definition hexdig (up : bool) (d : Z) : Z := if d <? 10 then 48 + d else (if up then 55 else 87) + d.
Fixpoint hex_aux (up : bool) (fuel : nat) (n : Z) (acc : bytes) : bytes :=
  match fuel with
  | O => acc
  | S fuel =>
      let acc := hexdig up (n mod 16) :: acc in
      if n <? 16 then acc else hex_aux up fuel (n / 16) acc
  end.
(** [%x] and [%X] of a 32-bit value *)
Definition hex (n : Z) : bytes := hex_aux false 8 (u32 n) [].
Definition HEX (n : Z) : bytes := hex_aux true 8 (u32 n) [].
(** [%d] of a value that is converted to [int], [%zd] of a [size_t] *)
Definition i64 (x : Z) : Z := (x + 9223372036854775808) mod 18446744073709551616 - 9223372036854775808.
Definition fmt_d (n : Z) : bytes := dec (i32 n).
Definition fmt_zd (n : Z) : bytes := dec (i64 n).
(** [%s] of a null pointer, as the GNU C library prints it *)
Definition fmt_s (s : option bytes) : bytes := match s with Some s => s | None => B "(null)" end.

(** [inet_ntop(AF_INET6, ...)] of the C library: the first longest run of at least
    two zero groups is shortened, and addresses that embed an IPv4 address end
    in its notation. *)
Fixpoint groups (m : bytes) : list Z :=
  match m with
  | a :: b :: m => 256 * a + b :: groups m
  | _ => []
  end.
Fixpoint zero_prefix (l : list Z) : nat :=
  match l with
  | w :: l => if w =? 0 then S (zero_prefix l) else O
  | [] => O
  end.
Fixpoint best_run (base : nat) (l : list Z) (best : nat * nat) : nat * nat :=
  match l with
  | [] => best
  | _ :: l' =>
      let n := zero_prefix l in
      best_run (S base) l' (if (snd best <? n)%nat then (base, n) else best)
  end.
Definition ntop6_group (m : bytes) (ws : list Z) (run : option (nat * nat)) (i : nat) : bytes :=
  let w := nth i ws 0 in
  let in_run := match run with Some (b, n) => (b <=? i)%nat && (i <? b + n)%nat | None => false end in
  if in_run then (if match run with Some (b, _) => (i =? b)%nat | None => false end then B ":" else [])
  else (if (0 <? i)%nat then B ":" else []) ++ hex w.
Definition inet_ntop6 (m : bytes) : bytes :=
  let ws := groups m in
  let '(b, n) := best_run 0 ws (O, O) in
  let run := if (n <? 2)%nat then None else Some (b, n) in
  let embeds := match run with
                | Some (b, n) => (b =? 0)%nat && ((n =? 6)%nat || ((n =? 5)%nat && (nth 5 ws 0 =? 65535)))
                | None => false
                end in
  let text := concat (map (ntop6_group m ws run) (seq 0 (if embeds then 6 else 8))) in
  if embeds then
    text ++ B ":" ++ inet_ntoa (nth 12 m 0 + 256 * nth 13 m 0 + 65536 * nth 14 m 0 + 16777216 * nth 15 m 0)
  else text ++ match run with Some (b, n) => if (b + n =? 8)%nat then B ":" else [] | None => [] end.

(** ** Printable text (src/format.c) *)
Definition printable_char (c : Z) : bytes :=
  if isprint c && negb (c =? 10) then [c] else B "\x" ++ padl 48 2 (hex (Z.land c 0xff)).

(** [str] is the array from the pointer on: [strlen] looks for its terminator
    whatever [max] is. *)
Definition fputs_printable (str : bytes) (max : Z) : res bytes :=
  s ← arr_str str;
  let n := if 0 <=? max then Z.min max (blen s) else blen s in
  Ok (concat (map printable_char (take (Z.to_nat n) s))).

(** A table ends with an entry without name; without one the search runs behind
    the table. *)
Fixpoint name_lookup (table : list (Z * option bytes)) (value : Z) (def : bytes) : res bytes :=
  match table with
  | [] => Fault
  | (_, None) :: _ => Ok def
  | (v, Some name) :: table => if value =? v then Ok name else name_lookup table value def
  end.

(** ** Dump of bytes (src/log.c) *)
Definition aligned (value n : Z) : Z := n * (value / n + (if 0 <? value mod n then 1 else 0)).

(** [dst += sprintf(dst, ...)] in a buffer of [cap] bytes that holds [acc]. *)
Definition emit (cap : Z) (acc s : bytes) : res bytes :=
  if blen acc + blen s + 1 <=? cap then Ok (acc ++ s) else Fault.

(** The inner loop: the characters of the line that ends at [i]. *)
Fixpoint dump_chars (n : nat) (cap : Z) (data : bytes) (j : Z) (acc : bytes) : res bytes :=
  match n with
  | O => Ok acc
  | S n =>
      if blen data <=? j then Ok acc
      else
        c ← rd8 data j;
        acc ← emit cap acc [if isprint c then c else 46];
        dump_chars n cap data (j + 1) acc
  end.

Definition dump_step (cap : Z) (data : bytes) (align i : Z) (acc : bytes) : res bytes :=
  acc ← (if i <? blen data then
           c ← rd8 data i; emit cap acc (padl 48 2 (HEX (Z.land c 0xff)) ++ B " ")
         else emit cap acc (B "   "));
  acc ← (if i mod 4 =? 3 then emit cap acc (B "  ") else Ok acc);
  if i mod 16 =? 15 then
    acc ← emit cap acc (B "    |");
    acc ← dump_chars 16 cap data (i - 15) acc;
    acc ← emit cap acc (B "|");
    if i + 1 <? align then emit cap acc (nl ++ B "[" ++ padl 48 4 (HEX (i + 1)) ++ B "]  ") else Ok acc
  else Ok acc.

Fixpoint dump_loop (n : nat) (cap : Z) (data : bytes) (align i : Z) (acc : bytes) : res bytes :=
  match n with
  | O => Ok acc
  | S n => acc ← dump_step cap data align i acc; dump_loop n cap data align (i + 1) acc
  end.

Definition hexdump_str (data : bytes) : res bytes :=
  let size := blen data in
  let cap := size * 10 + 80 in
  let align := aligned size 16 in
  acc ← emit cap [] (B "[0000]  ");
  acc ← dump_loop (Z.to_nat align) cap data align 0 acc;
  acc ← emit cap acc nl;
  emit cap acc (B "[" ++ padl 48 4 (HEX size) ++ B "]" ++ nl).

(** [fputs(hexdump_str(...))] *)
Definition hexdump (data : bytes) : res bytes := hexdump_str data.

(** ** The tag of a log message (src/log.c)

    [diff] is unsigned: for a tag longer than the width it is huge, and the
    comparison with zero does not exclude it. *)
Definition write_tag (tag : bytes) : bytes :=
  let tag_width := 7 in
  let len := blen tag in
  let diff := if negb (u64 (tag_width - len) =? 0) then u64 (tag_width - len) else 0 in
  let half := diff / 2 in
  let left := i32 (half + diff mod 2) in
  let right := i32 half in
  B "[" ++ replicate (Z.to_nat left) 32 ++ tag ++ replicate (Z.to_nat right) 32 ++ B "]" ++ B " ".

(** ** Requests (src/format/http.c) *)
Definition methods : list bytes :=
  [B "GET"; B "HEAD"; B "POST"; B "PUT"; B "DELETE"; B "TRACE"; B "OPTIONS"; B "PATCH"; B "HTTP/"].

(** [strncmp] on memory: it stops at the first difference, and at a zero. *)
Fixpoint mem_strncmp (m : bytes) (o : Z) (s : bytes) (n : nat) : res bool :=
  match n with
  | O => Ok true
  | S n =>
      c ← rd8 m o;
      match s with
      | [] => Ok (c =? 0)
      | x :: s => if negb (c =? x) then Ok false else mem_strncmp m (o + 1) s n
      end
  end.

(** [strndup]: at most [n] bytes, up to a zero. *)
Fixpoint mem_strndup (m : bytes) (o : Z) (n : nat) : res bytes :=
  match n with
  | O => Ok []
  | S n =>
      c ← rd8 m o;
      if c =? 0 then Ok [] else s ← mem_strndup m (o + 1) n; Ok (c :: s)
  end.

(** [strtok] with the delimiters of a line end: the token and what follows it. *)
Definition is_eol (c : Z) : bool := (c =? 13) || (c =? 10).
Fixpoint skip_eol (s : bytes) : bytes :=
  match s with
  | c :: s' => if is_eol c then skip_eol s' else s
  | [] => []
  end.
Fixpoint span_line (s : bytes) : bytes * bytes :=
  match s with
  | [] => ([], [])
  | c :: s' => if is_eol c then ([], s') else let '(a, b) := span_line s' in (c :: a, b)
  end.
Definition strtok_line (s : bytes) : option (bytes * bytes) :=
  match skip_eol s with
  | [] => None
  | s => Some (span_line s)
  end.

(** The methods from [cur] on.  The smaller of the lengths is an [int] that is
    converted back to an unsigned size, and more characters than the method and its
    terminator are never compared; nor can more than the memory be copied. *)
Fixpoint print_http_from (cur : list bytes) (m : bytes) (o size : Z) : res bytes :=
  match cur with
  | [] => Ok []
  | meth :: cur =>
      same ← mem_strncmp m o meth (Z.to_nat (Z.min (u64 (Z.min (blen meth) (i32 size))) (blen meth + 1)));
      if negb (same : bool) then print_http_from cur m o size
      else
        buf ← mem_strndup m o (Z.to_nat (Z.min size (blen m + 1)));
        match strtok_line buf with
        | None => Ok []
        | Some (line, rest) =>
            match strtok_line rest with
            | None => Ok []
            | Some _ => Ok (B " " ++ line)
            end
        end
  end.
Definition print_http (m : bytes) (payload size : Z) : res bytes := print_http_from methods m payload size.

(** ** Measurement packets (src/format/mp.c) *)
Definition MOD_ADLER : Z := 65521.
Fixpoint adler_loop (data : bytes) (a b : Z) : Z * Z :=
  match data with
  | [] => (a, b)
  | c :: data =>
      let a := u32 (a + c) mod MOD_ADLER in
      let b := u32 (b + a) mod MOD_ADLER in
      adler_loop data a b
  end.
Definition adler32 (data : bytes) : Z :=
  let '(a, b) := adler_loop data 1 0 in Z.lor (u32 (Z.shiftl b 16)) a.

Definition print_mp (m : bytes) (send : Z) : res bytes :=
  seq ← be32 m send; nopkts ← be32 m (send + 4);
  Ok (B " MP packet [seqnum=" ++ padl 48 4 (hex seq) ++ B ", nopkts: " ++ fmt_d nopkts ++ B "]").

Definition print_mp_diagnostic (m : bytes) (data : Z) : res bytes :=
  len ← be32 m (data + 12);
  expected ← be32 m (data + 16);
  pl ← slice m (data + 20) len;
  let actual := adler32 pl in
  version ← rd8 m data;
  Ok (B " MP diagnostic packet v" ++ dec version ++ B ": data size: " ++ fmt_d len ++ B ", checksum " ++
      if expected =? actual then B "OK"
      else B "FAILED (got " ++ padl 48 8 (hex actual) ++ B ", expected " ++ padl 48 8 (hex expected) ++ B ")").

(** ** Lemmas *)
Lemma length_hex_aux up fuel n acc : (length (hex_aux up fuel n acc) <= fuel + length acc)%nat.
Proof.
  revert n acc. induction fuel as [|fuel IH]; intros n acc; cbn [hex_aux]; [lia|]. cbv zeta.
  case_match; [cbn [length]; lia|]. etrans; [apply IH|]. cbn [length]. lia.
Qed.
Lemma length_padl c w s n : (length s <= n)%nat -> (w <= n)%nat -> (length (padl c w s) <= n)%nat.
Proof. intros. unfold padl. rewrite length_app, length_replicate. lia. Qed.
Lemma blen_HEX4 n : blen (padl 48 4 (HEX n)) <= 8.
Proof.
  unfold blen. assert (length (padl 48 4 (HEX n)) <= 8)%nat; [|lia].
  apply length_padl; [|lia]. unfold HEX. pose proof (length_hex_aux true 8 (u32 n) []). cbn [length] in *. lia.
Qed.
Lemma hex_aux_small up fuel n : (2 <= fuel)%nat -> 0 <= n < 256 -> (length (hex_aux up fuel n []) <= 2)%nat.
Proof.
  intros Hf Hn. destruct fuel as [|[|fuel]]; [lia..|]. cbn [hex_aux]. cbv zeta.
  destruct (Z.ltb_spec n 16); [cbn; lia|]. rewrite (proj2 (Z.ltb_lt (n / 16) 16)) by (Z.div_mod_to_equations; lia).
  cbn. lia.
Qed.
Lemma land_255 c : 0 <= Z.land c 0xff < 256.
Proof. change 0xff with (Z.ones 8). rewrite Z.land_ones by lia. apply Z.mod_pos_bound. lia. Qed.
Lemma blen_HEX2 c : blen (padl 48 2 (HEX (Z.land c 0xff)) ++ B " ") <= 3.
Proof.
  pose proof (land_255 c). rewrite blen_app. change (blen (B " ")) with 1.
  assert (length (padl 48 2 (HEX (Z.land c 255))) <= 2)%nat; [|unfold blen; lia].
  apply length_padl; [|lia]. unfold HEX. apply hex_aux_small; [lia|]. by rewrite u32_id by (ints; lia).
Qed.

Lemma emit_Ok cap acc s n :
  blen acc + blen s <= n -> n + 1 <= cap -> exists a, emit cap acc s = Ok a /\ blen a <= n.
Proof.
  intros Hl Hc. unfold emit. rewrite (proj2 (Z.leb_le _ _)) by lia. eexists. split; [done|]. rewrite blen_app. lia.
Qed.

Lemma dump_chars_Ok n cap data j acc b :
  0 <= j -> blen acc <= b -> b + Z.min (Z.of_nat n) (Z.max 0 (blen data - j)) + 1 <= cap ->
  exists a, dump_chars n cap data j acc = Ok a /\ blen a <= b + Z.min (Z.of_nat n) (Z.max 0 (blen data - j)).
Proof.
  revert j acc b. induction n as [|n IH]; intros j acc b Hj Hl Hc; cbn [dump_chars]; [exists acc; split; [done|lia]|].
  destruct (Z.leb_spec (blen data) j); [exists acc; split; [done|lia]|].
  destruct (rd8_in data j) as [c ->]; [lia|]. cbn [mbind res_bind].
  destruct (emit_Ok cap acc [if isprint c then c else 46] (b + 1)) as (a & -> & Ha); [change (blen [_]) with 1; lia|lia|].
  cbn [mbind res_bind]. destruct (IH (j + 1) a (b + 1)) as (a' & -> & Ha'); [lia..|]. exists a'. split; [done|lia].
Qed.

(** The length of the dump in front of byte [i]: 75 characters for each complete
    line besides its text column, and what the current line has. *)
Definition dump_len (size i : Z) : Z :=
  8 + 75 * (i / 16) + Z.min size (16 * (i / 16)) + 3 * (i mod 16) + 2 * (i mod 16 / 4).
Definition dump_bound (size align i : Z) : Z := if i <? align then dump_len size i else dump_len size i - 13.

Lemma aligned_bounds size : 0 <= size -> size <= aligned size 16 < size + 16 /\ aligned size 16 mod 16 = 0.
Proof. intros. unfold aligned. case_match; Z.div_mod_to_equations; lia. Qed.

Lemma dump_step_Ok data i acc :
  let size := blen data in let cap := size * 10 + 80 in let align := aligned size 16 in
  0 <= i < align -> blen acc <= dump_bound size align i ->
  exists a, dump_step cap data align i acc = Ok a /\ blen a <= dump_bound size align (i + 1).
Proof.
  intros size cap align Hi Hacc. destruct (aligned_bounds size (blen_nonneg data)) as [Hal Hm]. fold align in Hal, Hm.
  unfold dump_bound in *. rewrite (proj2 (Z.ltb_lt i align)) in Hacc by lia. unfold dump_step. fold size.
  assert (Hcap : dump_len size i + 3 * (15 - i mod 16) + 2 * (3 - i mod 16 / 4)
    + Z.min 16 (size - Z.min size (16 * (i / 16))) + 12 <= cap) by (unfold dump_len, cap; Z.div_mod_to_equations; lia).
  assert (H1 : exists a, (if i <? size then c ← rd8 data i; emit cap acc (padl 48 2 (HEX (Z.land c 0xff)) ++ B " ")
                          else emit cap acc (B "   ")) = Ok a /\ blen a <= dump_len size i + 3).
  { destruct (Z.ltb_spec i size); [destruct (rd8_in data i) as [c ->]; [lia|]; cbn [mbind res_bind]; pose proof (blen_HEX2 c)|];
      (apply emit_Ok; [try change (blen (B "   ")) with 3; lia|Z.div_mod_to_equations; lia]). }
  destruct H1 as (a1 & -> & Ha1). cbn [mbind res_bind].
  set (d2 := if i mod 4 =? 3 then 2 else 0).
  assert (H2 : exists a, (if i mod 4 =? 3 then emit cap a1 (B "  ") else Ok a1) = Ok a /\ blen a <= dump_len size i + 3 + d2).
  { unfold d2. destruct (i mod 4 =? 3); [|exists a1; split; [done|lia]].
    apply emit_Ok; [change (blen (B "  ")) with 2; lia|Z.div_mod_to_equations; lia]. }
  destruct H2 as (a2 & -> & Ha2). cbn [mbind res_bind].
  destruct (Z.eqb_spec (i mod 16) 15) as [Hr|Hr]; cycle 1.
  { exists a2. split; [done|]. rewrite (proj2 (Z.ltb_lt (i + 1) align)) by (Z.div_mod_to_equations; lia).
    unfold d2, dump_len in *. destruct (Z.eqb_spec (i mod 4) 3); Z.div_mod_to_equations; lia. }
  assert (d2 = 2) as Hd2 by (unfold d2; rewrite (proj2 (Z.eqb_eq _ _)); [done|Z.div_mod_to_equations; lia]).
  rewrite Hd2 in Ha2. clear d2 Hd2.
  destruct (emit_Ok cap a2 (B "    |") (dump_len size i + 10)) as (a3 & -> & Ha3);
    [change (blen (B "    |")) with 5; lia|Z.div_mod_to_equations; lia|]. cbn [mbind res_bind].
  destruct (dump_chars_Ok 16 cap data (i - 15) a3 (dump_len size i + 10)) as (a4 & -> & Ha4);
    [Z.div_mod_to_equations; lia|lia|fold size; Z.div_mod_to_equations; lia|]. cbn [mbind res_bind]. fold size in Ha4.
  set (d := Z.min (Z.of_nat 16) (Z.max 0 (size - (i - 15)))) in *.
  assert (Hd : d = Z.min size (16 * ((i + 1) / 16)) - Z.min size (16 * (i / 16))) by (unfold d; Z.div_mod_to_equations; lia).
  destruct (emit_Ok cap a4 (B "|") (dump_len size i + 11 + d)) as (a5 & -> & Ha5);
    [change (blen (B "|")) with 1; lia|Z.div_mod_to_equations; lia|]. cbn [mbind res_bind].
  assert (Hnext : dump_len size (i + 1) = dump_len size i + 11 + d + 13)
    by (rewrite Hd; unfold dump_len; Z.div_mod_to_equations; lia).
  destruct (Z.ltb_spec (i + 1) align); [|exists a5; split; [done|lia]].
  pose proof (blen_HEX4 (i + 1)). apply emit_Ok; rewrite ?blen_app;
    [change (blen nl) with 1; change (blen (B "[")) with 1; change (blen (B "]  ")) with 3; lia|].
  rewrite Hnext. unfold cap, dump_len. Z.div_mod_to_equations; lia.
Qed.

Lemma dump_loop_Ok n data i acc :
  let size := blen data in let cap := size * 10 + 80 in let align := aligned size 16 in
  0 <= i -> i + Z.of_nat n = align -> blen acc <= dump_bound size align i ->
  exists a, dump_loop n cap data align i acc = Ok a /\ blen a <= dump_bound size align align.
Proof.
  intros size cap align. revert i acc. induction n as [|n IH]; intros i acc Hi Hn Hl; cbn [dump_loop].
  - exists acc. split; [done|]. by replace align with i at 2 by lia.
  - destruct (dump_step_Ok data i acc) as (a & Ha & Hl'); [fold size align; lia|done|]. fold size cap align in Ha, Hl'. rewrite Ha.
    cbn [mbind res_bind]. apply IH; [lia..|done].
Qed.

(** ** Claims *)

(** The buffer that [hexdump_str] allocates is large enough for the dump of
    any data of less than four gigabytes: no store is outside it, and no load
    outside the data. *)
Theorem hexdump_str_fits (data : bytes) :
  blen data < 4294967296 -> exists text, hexdump_str data = Ok text /\ blen text < 10 * blen data + 80.
Proof.
  intros Hmax. destruct data as [|c0 data']; [eexists; split; [vm_compute; reflexivity|vm_compute; reflexivity]|].
  set (data := c0 :: data') in *. unfold hexdump_str.
  set (size := blen data). set (cap := size * 10 + 80). set (align := aligned size 16).
  assert (Hs : 0 < size) by (unfold size, data; rewrite blen_cons; pose proof (blen_nonneg data'); lia).
  destruct (aligned_bounds size ltac:(lia)) as [Hal Hm]. fold align in Hal, Hm.
  destruct (emit_Ok cap [] (B "[0000]  ") 8) as (a & -> & Ha); [done|unfold cap; lia|]. cbn [mbind res_bind].
  assert (Hend : dump_bound size align align + 11 + 1 + 1 <= cap)
    by (unfold dump_bound, dump_len, cap; rewrite Z.ltb_irrefl; Z.div_mod_to_equations; lia).
  destruct (dump_loop_Ok (Z.to_nat align) data 0 a) as (a1 & Hd & Ha1); [lia|fold size align; lia| |].
  { fold size align. unfold dump_bound. rewrite (proj2 (Z.ltb_lt 0 align)) by lia. unfold dump_len.
    change (0 / 16) with 0. change (0 mod 16) with 0. change (0 / 4) with 0. lia. }
  fold size cap align in Hd, Ha1. rewrite Hd. cbn [mbind res_bind].
  destruct (emit_Ok cap a1 nl (dump_bound size align align + 1)) as (a2 & -> & Ha2); [change (blen nl) with 1; lia|lia|].
  cbn [mbind res_bind]. pose proof (blen_HEX4 size).
  destruct (emit_Ok cap a2 (B "[" ++ padl 48 4 (HEX size) ++ B "]" ++ nl) (cap - 1)) as (a3 & -> & Ha3);
    [|lia|exists a3; split; [done|unfold cap in *; lia]].
  rewrite !blen_app. change (blen nl) with 1. change (blen (B "[")) with 1. change (blen (B "]")) with 1. lia.
Qed.

(** The sums of the checksum: of the bytes, and of the bytes weighted by the
    number of bytes from them to the end. *)
Fixpoint byte_sum (data : bytes) : Z := match data with [] => 0 | c :: data => c + byte_sum data end.
Fixpoint weighted_sum (data : bytes) : Z :=
  match data with [] => 0 | c :: data => blen (c :: data) * c + weighted_sum data end.

Lemma adler_loop_spec data a b :
  is_bytes data -> 0 <= a < MOD_ADLER -> 0 <= b < MOD_ADLER ->
  adler_loop data a b =
    ((a + byte_sum data) mod MOD_ADLER, (b + blen data * a + weighted_sum data) mod MOD_ADLER).
Proof.
  intros Hd. revert a b. induction Hd as [|c data Hc _ IH]; intros a b Ha Hb; cbn [adler_loop byte_sum weighted_sum].
  - change (blen []) with 0. rewrite Z.mul_0_l, !Z.add_0_r, !Z.mod_small by done. done.
  - unfold MOD_ADLER in *. ints. rewrite !(Z.mod_small (_ + _) 4294967296) by (Z.div_mod_to_equations; lia).
    rewrite IH by (Z.div_mod_to_equations; lia). rewrite blen_cons. f_equal.
    + rewrite Z.add_mod_idemp_l by lia. f_equal. lia.
    + set (a' := (a + c) mod 65521). set (b' := (b + a') mod 65521).
      assert (Ea : a' = a + c - 65521 * ((a + c) / 65521)) by (apply Z.mod_eq; lia).
      assert (Eb : b' = b + a' - 65521 * ((b + a') / 65521)) by (apply Z.mod_eq; lia).
      rewrite <- (Z.mod_add (b + _ + _) (- ((b + a') / 65521 + (1 + blen data) * ((a + c) / 65521))) 65521) by lia.
      f_equal. rewrite Eb. replace (b + a' - 65521 * ((b + a') / 65521)) with (b + a' + 65521 * - ((b + a') / 65521)) by lia.
      generalize ((b + a') / 65521). intros q2. rewrite Ea. generalize ((a + c) / 65521). intros q. ring.
Qed.

(** The checksum that is computed byte by byte with two reductions for each
    is the one of its definition: the sum of the bytes plus one, and the sum of
    all these partial sums, both modulo 65521, in one 32-bit number; no
    intermediate value overflows. *)
Theorem adler32_spec (data : bytes) :
  is_bytes data ->
  adler32 data = 65536 * ((blen data + weighted_sum data) mod MOD_ADLER) + (1 + byte_sum data) mod MOD_ADLER.
Proof.
  intros Hd. unfold adler32. rewrite adler_loop_spec by (done || (unfold MOD_ADLER; lia)).
  rewrite Z.add_0_l, Z.mul_1_r. set (a := (1 + _) mod _). set (b := _ mod MOD_ADLER).
  assert (Ha : 0 <= a < 65521) by (apply Z.mod_pos_bound; unfold MOD_ADLER; lia).
  assert (Hb : 0 <= b < 65521) by (apply Z.mod_pos_bound; unfold MOD_ADLER; lia).
  rewrite Z.shiftl_mul_pow2, u32_id by (ints; lia). rewrite (Z.mul_comm b). change (2 ^ 16) with 65536.
  rewrite <- Z.add_nocarry_lor; [done|]. apply Z.bits_inj'. intros n Hn. rewrite Z.land_spec, Z.bits_0.
  destruct (Z.lt_ge_cases n 16).
  - change 65536 with (2 ^ 16). by rewrite Z.mul_comm, Z.mul_pow2_bits_low by lia.
  - rewrite (Z.bits_above_log2 a), andb_false_r; [done|lia|]. destruct (decide (a = 0)) as [->|]; [cbn; lia|].
    apply Z.log2_lt_pow2; [lia|]. apply Z.lt_le_trans with (2 ^ 16); [change (2 ^ 16) with 65536; lia|].
    apply Z.pow_le_mono_r; lia.
Qed.

Lemma Z_to_nat_max x : Z.of_nat (Z.to_nat x) = Z.max 0 x.
Proof. lia. Qed.

(** The tag of a log message is padded to seven characters; a longer tag is
    printed without padding, because the huge difference is converted to an [int]
    that is not positive. *)
Lemma write_tag_width (tag : bytes) :
  blen tag < 2147483648 -> blen (write_tag tag) = 3 + Z.max 7 (blen tag).
Proof.
  intros Hl. pose proof (blen_nonneg tag). unfold write_tag. cbv zeta. rewrite !blen_app, !blen_replicate.
  change (blen (B "[")) with 1. change (blen (B "]")) with 1. change (blen (B " ")) with 1.
  rewrite !Z_to_nat_max. destruct (Z.eqb_spec (u64 (7 - blen tag)) 0); cbn [negb]; ilia.
Qed.

(** What is printed is printable. *)
Lemma printable_char_isprint c : 0 <= c < 256 -> Forall (fun x => isprint x = true) (printable_char c).
Proof.
  intros Hc. unfold printable_char. destruct (isprint c && negb (c =? 10)) eqn:E.
  - constructor; [|done]. by apply andb_true_iff in E as [? _].
  - assert (exists k, c = Z.of_nat k /\ (k < 256)%nat) as (k & -> & Hk) by (exists (Z.to_nat c); lia). clear E Hc.
    do 256 (destruct k as [|k]; [vm_compute; repeat constructor|]). lia.
Qed.
Lemma fputs_printable_isprint str max s :
  is_bytes str -> fputs_printable str max = Ok s -> Forall (fun x => isprint x = true) s.
Proof.
  intros Hs H. unfold fputs_printable in H. inv_ok. subst s. unfold arr_str in Hv. case_match; [|discriminate].
  apply Ok_inj in Hv. subst v. apply Forall_concat, Forall_map, Forall_take.
  assert (Hb : Forall is_u8 (cstr str)).
  { clear -Hs. induction Hs as [|c str Hc _ IH]; [done|]. cbn [cstr]. case_match; [done|]. by constructor. }
  eapply Forall_impl; [|exact Hb]. intros c Hc. by apply printable_char_isprint.
Qed.

(** ** Witnesses *)
Lemma hexdump_str_fits_witness : exists text, hexdump_str (B "hexdump") = Ok text /\ blen text < 150.
Proof. apply (hexdump_str_fits (B "hexdump")). vm_compute. reflexivity. Defined.
Lemma adler32_spec_witness : adler32 (B "Wikipedia") = 300286872.
Proof.
  rewrite (adler32_spec (B "Wikipedia")); [vm_compute; reflexivity|].
  vm_compute. repeat (constructor; [split; [discriminate|reflexivity]|]). constructor.
Defined.
