(* ===== verification/Log.v ===== *)
(** * Log messages (src/log.c)

    A message is written in three pieces, the time, the tag and the text, under a mutex.
    Threads that write messages are a step relation over the shared stream and the mutex;
    the theorem is that the lines come out whole. *)

From stdpp Require Import relations.
From S2P Require Import Prelude CLib Utils Packet Text.

(** ** The pieces *)
Record tm := { tm_year : Z; tm_mon : Z; tm_mday : Z; tm_hour : Z; tm_min : Z; tm_sec : Z }.

(** [strftime] with the format of [write_time]. *)
Definition two (n : Z) : bytes := padl 48 2 (dec n).
Definition log_date (t : tm) : bytes :=
  dec (tm_year t + 1900) ++ B "-" ++ two (tm_mon t + 1) ++ B "-" ++ two (tm_mday t) ++ B " " ++ two (tm_hour t) ++ B "." ++ two (tm_min t) ++ B "." ++ two (tm_sec t).

Section Log.
Variable localtime : Z -> option tm.     (** of the C library; it may give a null pointer *)

(** The array has 20 bytes; when the date does not fit its contents are undefined. *)
Definition write_time (now : Z) : res bytes :=
  match localtime now with
  | None => Fault
  | Some t => if blen (log_date t) <? 20 then Ok (B "[" ++ log_date t ++ B "] ") else Fault
  end.

(** A tag and the text that [vfprintf] makes of the format and the arguments. *)
Record message := { m_tag : bytes; m_text : bytes }.

(** What one call writes, and its result. *)
Definition vlogmsg (now : Z) (m : message) : res (bytes * Z) :=
  t ← write_time now;
  Ok (t ++ write_tag (m_tag m) ++ m_text m, blen (m_text m)).
Definition logmsg (now : Z) (m : message) : res (bytes * Z) := vlogmsg now m.

(** ** Threads *)

(** Where a thread is in [vlogmsg]: outside, behind the lock, behind each piece. *)
Inductive place := Outside | Locked | Timed | Tagged | Written.
Record thread := { todo : list message; at_ : place }.
Record system := { threads : list thread; mutex : option nat; out : bytes }.

Definition set_thread (s : system) (k : nat) (t : thread) : list thread := <[k := t]> (threads s).

(** One statement of one thread; the time is read from a clock. *)
Inductive step : system -> system -> Prop :=
  | step_lock s k m ms : threads s !! k = Some {| todo := m :: ms; at_ := Outside |} -> mutex s = None ->
      step s {| threads := set_thread s k {| todo := m :: ms; at_ := Locked |}; mutex := Some k; out := out s |}
  | step_time s k ms now t : threads s !! k = Some {| todo := ms; at_ := Locked |} -> write_time now = Ok t ->
      step s {| threads := set_thread s k {| todo := ms; at_ := Timed |}; mutex := mutex s; out := out s ++ t |}
  | step_tag s k m ms : threads s !! k = Some {| todo := m :: ms; at_ := Timed |} ->
      step s {| threads := set_thread s k {| todo := m :: ms; at_ := Tagged |}; mutex := mutex s; out := out s ++ write_tag (m_tag m) |}
  | step_text s k m ms : threads s !! k = Some {| todo := m :: ms; at_ := Tagged |} ->
      step s {| threads := set_thread s k {| todo := m :: ms; at_ := Written |}; mutex := mutex s; out := out s ++ m_text m |}
  | step_unlock s k m ms : threads s !! k = Some {| todo := m :: ms; at_ := Written |} ->
      step s {| threads := set_thread s k {| todo := ms; at_ := Outside |}; mutex := None; out := out s |}.

Definition start (work : list (list message)) : system :=
  {| threads := map (fun ms => {| todo := ms; at_ := Outside |}) work; mutex := None; out := [] |}.

(** ** Whole lines *)

(** A call that was completed: the thread, the time and the message. *)
Record call := { c_thread : nat; c_now : Z; c_message : message }.
Definition writes (c : call) (line : bytes) : Prop := vlogmsg (c_now c) (c_message c) = Ok (line, blen (m_text (c_message c))).
Definition by_thread (k : nat) (cs : list call) : list message := map c_message (base.filter (fun c => c_thread c = k) cs).

(** The piece of a line that the holder of the mutex has written. *)
Definition piece (now : Z) (m : message) (p : place) (text : bytes) : Prop :=
  match p with
  | Outside => False
  | Locked => text = []
  | Timed => write_time now = Ok text
  | Tagged => exists t, write_time now = Ok t /\ text = t ++ write_tag (m_tag m)
  | Written => exists t, write_time now = Ok t /\ text = t ++ write_tag (m_tag m) ++ m_text m
  end.

Record log_ok (work : list (list message)) (s : system) (cs : list call) (lines : list bytes) : Prop := {
  lo_lines : Forall2 writes cs lines;
  lo_threads : length (threads s) = length work;
  lo_order : forall k t, threads s !! k = Some t -> exists ms, work !! k = Some ms /\ by_thread k cs ++ todo t = ms;
  lo_out : match mutex s with
           | None => out s = concat lines /\ Forall (fun t => at_ t = Outside) (threads s)
           | Some k => exists m ms p now text, threads s !! k = Some {| todo := m :: ms; at_ := p |} /\ piece now m p text /\
                         out s = concat lines ++ text /\ forall j t, j <> k -> threads s !! j = Some t -> at_ t = Outside
           end;
}.

Lemma start_ok work : log_ok work (start work) [] [].
Proof.
  constructor; cbn; [constructor|by rewrite length_map| |].
  - intros k t H. rewrite list_lookup_fmap in H. destruct (work !! k) as [ms|]; [|done]. injection H as <-. by exists ms.
  - split; [done|]. by apply Forall_fmap, list.Forall_true.
Qed.

Lemma by_thread_snoc k cs c : by_thread k (cs ++ [c]) = by_thread k cs ++ (if decide (c_thread c = k) then [c_message c] else []).
Proof. unfold by_thread. rewrite list.filter_app, map_app. f_equal. cbn. by destruct (decide _). Qed.

(** Only the holder of the mutex is inside. *)
Lemma holder work s cs lines k t : log_ok work s cs lines -> threads s !! k = Some t -> at_ t <> Outside ->
  mutex s = Some k /\ exists m ms now text, todo t = m :: ms /\ piece now m (at_ t) text /\ out s = concat lines ++ text /\
    forall j t', j <> k -> threads s !! j = Some t' -> at_ t' = Outside.
Proof.
  intros [_ _ _ Ho] Hk Hin. destruct (mutex s) as [h|].
  - destruct Ho as (m & ms & p & now & text & Hh & Hp & Hout & Hothers). destruct (decide (k = h)) as [->|Hne]; [|by apply Hothers in Hk].
    rewrite Hh in Hk. injection Hk as <-. split; [done|]. by exists m, ms, now, text.
  - destruct Ho as [_ Ho]. by apply (Forall_lookup_1 _ _ _ _ Ho) in Hk.
Qed.

Lemma lookup_set s k t t0 j t' : threads s !! k = Some t0 -> set_thread s k t !! j = Some t' -> j = k /\ t' = t \/ j <> k /\ threads s !! j = Some t'.
Proof.
  intros Hk H. unfold set_thread in H. destruct (decide (j = k)) as [->|Hne]; [left|right].
  - rewrite list_lookup_insert_eq in H by (by eapply lookup_lt_Some). by injection H as <-.
  - by rewrite list_lookup_insert_ne in H.
Qed.
Lemma lookup_set_same s k t t0 : threads s !! k = Some t0 -> set_thread s k t !! k = Some t.
Proof. intros H. apply list_lookup_insert_eq. by eapply lookup_lt_Some. Qed.

(** The next piece of the holder's line. *)
Lemma piece_written work s cs lines k ms p p' more : log_ok work s cs lines -> threads s !! k = Some {| todo := ms; at_ := p |} -> p <> Outside ->
  (forall m now text, head ms = Some m -> piece now m p text -> exists now', piece now' m p' (text ++ more)) ->
  log_ok work {| threads := set_thread s k {| todo := ms; at_ := p' |}; mutex := mutex s; out := out s ++ more |} cs lines.
Proof.
  intros Hok Hk Hin Hmore. destruct (holder _ _ _ _ _ _ Hok Hk Hin) as (Hm & m & ms' & now & text & Htodo & Hp & Hout & Hothers).
  cbn in Htodo, Hp. subst ms. destruct (Hmore m now text eq_refl Hp) as (now' & Hp'). destruct Hok as [Hl Hlen Hord _]. constructor; cbn; [done| | |].
  - unfold set_thread. by rewrite length_insert.
  - intros j t [[-> ->]|[_ Hj]]%(lookup_set _ _ _ _ _ _ Hk); [by apply (Hord _ _ Hk)|by apply Hord].
  - rewrite Hm. exists m, ms', p', now', (text ++ more). split; [by eapply lookup_set_same|]. split; [done|]. split; [by rewrite Hout, (assoc_L (++))|].
    intros j t Hne [[-> _]|[_ Hj]]%(lookup_set _ _ _ _ _ _ Hk); [done|by eapply Hothers].
Qed.

Lemma step_ok work s s' cs lines : log_ok work s cs lines -> step s s' -> exists cs' lines', log_ok work s' cs' lines'.
Proof.
  intros Hok H. destruct H as [s k m ms Hk Hm|s k ms now t Hk Ht|s k m ms Hk|s k m ms Hk|s k m ms Hk].
  - exists cs, lines. destruct Hok as [Hl Hlen Hord Ho]. rewrite Hm in Ho. destruct Ho as [Hout Hall]. constructor; cbn; [done| | |].
    + unfold set_thread. by rewrite length_insert.
    + intros j t [[-> ->]|[_ Hj]]%(lookup_set _ _ _ _ _ _ Hk); [by apply (Hord _ _ Hk)|by apply Hord].
    + exists m, ms, Locked, 0, []. split; [by eapply lookup_set_same|]. split; [done|]. split; [by rewrite app_nil_r|].
      intros j t Hne [[-> _]|[_ Hj]]%(lookup_set _ _ _ _ _ _ Hk); [done|]. by apply (Forall_lookup_1 _ _ _ _ Hall) in Hj.
  - exists cs, lines. eapply (piece_written _ _ _ _ _ _ Locked); [done..|]. intros m now0 text _ Htext. cbn in Htext. subst text. by exists now.
  - exists cs, lines. eapply (piece_written _ _ _ _ _ _ Timed); [done..|]. intros m0 now text [= <-] Htext. exists now. by exists text.
  - exists cs, lines. eapply (piece_written _ _ _ _ _ _ Tagged); [done..|]. intros m0 now text [= <-] (t & Ht & ->). exists now, t. by rewrite <- (assoc_L (++)).
  - destruct (holder _ _ _ _ _ _ Hok Hk) as (Hm & m' & ms' & now & text & [= <- <-] & (t & Ht & ->) & Hout & Hothers); [done|].
    exists (cs ++ [{| c_thread := k; c_now := now; c_message := m |}]), (lines ++ [t ++ write_tag (m_tag m) ++ m_text m]).
    destruct Hok as [Hl Hlen Hord _]. constructor; cbn.
    + apply Forall2_app; [done|]. constructor; [|constructor]. unfold writes, vlogmsg. cbn. by rewrite Ht.
    + unfold set_thread. by rewrite length_insert.
    + intros j t' [[-> ->]|[Hne Hj]]%(lookup_set _ _ _ _ _ _ Hk); rewrite by_thread_snoc; cbn.
      * destruct (Hord _ _ Hk) as (w & Hw & E). exists w. split; [done|]. rewrite decide_True by done. by rewrite <- (assoc_L (++)).
      * rewrite decide_False by done. rewrite app_nil_r. by apply Hord.
    + split; [by rewrite Hout, concat_app; cbn; rewrite app_nil_r|]. apply list.Forall_lookup. intros j t' [[-> ->]|[Hne Hj]]%(lookup_set _ _ _ _ _ _ Hk); [done|by eapply Hothers].
Qed.

Lemma reach_ok work s : rtc step (start work) s -> exists cs lines, log_ok work s cs lines.
Proof.
  intros H. assert (Hgen : forall s0, rtc step s0 s -> (exists cs lines, log_ok work s0 cs lines) -> exists cs lines, log_ok work s cs lines).
  { intros s0 Hr. induction Hr as [|x y z Hxy _ IH]; [done|]. intros (cs & lines & Hx). by apply IH, (step_ok _ _ _ _ _ Hx). }
  apply (Hgen _ H). exists [], []. apply start_ok.
Qed.

(** ** Every message is written *)

(** The statements a thread has left. *)
Definition left_ (t : thread) : nat :=
  5 * length (todo t) - match at_ t with Outside => 0 | Locked => 1 | Timed => 2 | Tagged => 3 | Written => 4 end.
Definition left_all (s : system) : nat := sum_list (map left_ (threads s)).

Lemma left_set s k t t0 : threads s !! k = Some t0 -> left_ t0 = S (left_ t) -> left_all s = S (sum_list (map left_ (set_thread s k t))).
Proof.
  intros Hk Hl. unfold left_all, set_thread. revert k Hk. induction (threads s) as [|x l IH]; intros k Hk; [done|].
  destruct k as [|k]; cbn -[left_] in *; [injection Hk as ->; by rewrite Hl|]. by rewrite (IH k Hk), <- plus_n_Sm.
Qed.

Lemma step_left work s s' cs lines : log_ok work s cs lines -> step s s' -> left_all s = S (left_all s').
Proof.
  intros Hok H. destruct H as [s k m ms Hk _|s k ms now t Hk _|s k m ms Hk|s k m ms Hk|s k m ms Hk]; unfold left_all at 2; cbn [threads];
    (eapply left_set; [exact Hk|]).
  2: { destruct (holder _ _ _ _ _ _ Hok Hk) as (_ & m & ms' & ? & ? & E & _); [done|]. cbn in E. subst ms. unfold left_. cbn. lia. }
  all: unfold left_; cbn; lia.
Qed.

Lemma steps_bound n s s' work cs lines : log_ok work s cs lines -> nsteps step n s s' -> (n + left_all s' = left_all s)%nat.
Proof.
  intros Hok H. revert cs lines Hok. induction H as [s|n s s1 s2 H1 _ IH]; intros cs lines Hok; [done|].
  destruct (step_ok _ _ _ _ _ Hok H1) as (cs' & lines' & Hok1). rewrite (step_left _ _ _ _ _ Hok H1), <- (IH _ _ Hok1). lia.
Qed.

Lemma left_start work : left_all (start work) = (5 * length (concat work))%nat.
Proof.
  unfold left_all, start. cbn [threads]. rewrite map_map. unfold left_. cbn [todo at_].
  induction work as [|ms work IH]; [done|]. cbn -[Nat.mul]. rewrite length_app. cbn -[Nat.mul] in IH. lia.
Qed.

(** The clock gives a date that fits the array. *)
Definition clock_ok : Prop := exists now t, write_time now = Ok t.

(** A state without a next step: nobody is inside and nothing is left to do. *)
Lemma stuck_done work s cs lines : clock_ok -> log_ok work s cs lines -> (forall s', ~ step s s') ->
  mutex s = None /\ Forall (fun t => todo t = []) (threads s).
Proof.
  intros (now & t & Ht) Hok Hstuck. destruct (mutex s) as [k|] eqn:Em.
  - destruct Hok as [_ _ _ Ho]. rewrite Em in Ho. destruct Ho as (m & ms & p & now' & text & Hk & Hp & _). exfalso.
    destruct p; [done|..]; eapply Hstuck; [by eapply step_time|by eapply step_tag|by eapply step_text|by eapply step_unlock].
  - split; [done|]. destruct Hok as [_ _ _ Ho]. rewrite Em in Ho. destruct Ho as [_ Ho]. apply list.Forall_lookup. intros k [ms p] Hk.
    pose proof (Forall_lookup_1 _ _ _ _ Ho Hk) as Hp. cbn in *. subst p. destruct ms as [|m ms]; [done|]. exfalso. eapply Hstuck. by eapply step_lock.
Qed.

(** C12: Threads that log messages at the same time, in any order of their statements: at most five
    statements are executed for each message; whenever the mutex is free, the stream holds whole
    lines, each the time, the tag and the text of one message, and every thread's messages
    are in its own order with none lost or repeated; and as long as a message is left some
    thread can go on, so that a run that ends has written all messages. *)
Theorem log_lines_whole work n s : clock_ok -> nsteps step n (start work) s ->
  (n <= 5 * length (concat work))%nat /\
  (mutex s = None -> exists cs lines, Forall2 writes cs lines /\ out s = concat lines /\
     forall k t, threads s !! k = Some t -> exists ms, work !! k = Some ms /\ by_thread k cs ++ todo t = ms) /\
  ((forall s', ~ step s s') -> exists cs lines, Forall2 writes cs lines /\ out s = concat lines /\
     forall k ms, work !! k = Some ms -> by_thread k cs = ms).
Proof.
  intros Hclock H. pose proof (steps_bound _ _ _ _ _ _ (start_ok work) H) as Hn. rewrite left_start in Hn.
  destruct (reach_ok work s (rtc_nsteps_2 _ _ _ H)) as (cs & lines & Hok). split; [lia|].
  split.
  - intros Hm. destruct Hok as [Hl _ Hord Ho]. rewrite Hm in Ho. exists cs, lines. split; [done|]. split; [by destruct Ho|done].
  - intros Hstuck. destruct (stuck_done _ _ _ _ Hclock Hok Hstuck) as [Hm Hdone]. destruct Hok as [Hl Hlen Hord Ho]. rewrite Hm in Ho.
    exists cs, lines. split; [done|]. split; [by destruct Ho|]. intros k ms Hk.
    destruct (lookup_lt_is_Some_2 (threads s) k) as [t Ht]; [rewrite Hlen; by eapply lookup_lt_Some|].
    destruct (Hord k t Ht) as (ms' & Hk' & E). rewrite Hk in Hk'. injection Hk' as <-. rewrite <- E, (Forall_lookup_1 _ _ _ _ Hdone Ht). by rewrite app_nil_r.
Qed.
End Log.

(** The date of every time in the years 0 to 9999 fits. *)
Lemma two_length n : 0 <= n < 100 -> length (two n) = 2%nat.
Proof.
  intros Hn. pose (f n := bool_decide (length (two n) = 2%nat)). assert (H : forallb f (seqZ 0 100) = true) by (vm_compute; reflexivity).
  rewrite forallb_forall in H. specialize (H n). unfold f in H. rewrite bool_decide_eq_true in H. apply H, list_elem_of_In, elem_of_seqZ. lia.
Qed.
Lemma write_time_fits localtime now t : localtime now = Some t -> 0 <= tm_year t + 1900 < 10000 -> 0 <= tm_mon t < 12 -> 0 <= tm_mday t < 100 ->
  0 <= tm_hour t < 100 -> 0 <= tm_min t < 100 -> 0 <= tm_sec t < 100 -> exists s, write_time localtime now = Ok s /\ blen s <= 22.
Proof.
  intros Ht Hy Hmo Hd Hh Hm Hs. unfold write_time. rewrite Ht.
  assert (Hdec : (length (dec (tm_year t + 1900)) <= 4)%nat).
  { unfold dec. rewrite (proj2 (Z.ltb_ge _ _)) by lia. set (y := tm_year t + 1900) in *. cbn [dec_aux].
    destruct (Z.ltb_spec y 10); [cbn; lia|]. destruct (Z.ltb_spec (y / 10) 10); [cbn; lia|]. destruct (Z.ltb_spec (y / 10 / 10) 10); [cbn; lia|].
    destruct (Z.ltb_spec (y / 10 / 10 / 10) 10); [cbn; lia|]. Z.div_mod_to_equations. lia. }
  assert (Hl : blen (log_date t) <= 19).
  { unfold log_date, blen. rewrite !length_app, !two_length by lia. cbn [length B]. cbn. lia. }
  rewrite (proj2 (Z.ltb_lt _ _)) by lia. eexists. split; [reflexivity|]. rewrite !blen_app. change (blen (B "[")) with 1. change (blen (B "] ")) with 2. lia.
Qed.

(** ** Witnesses *)
Definition ex_localtime (_ : Z) : option tm := Some {| tm_year := 125; tm_mon := 0; tm_mday := 31; tm_hour := 9; tm_min := 5; tm_sec := 0 |}.
Definition ex_message (c : Z) : message := {| m_tag := B "main"; m_text := [c; 10] |}.
Definition ex_line (c : Z) : bytes := B "[2025-01-31 09.05.00] [  main ] " ++ [c; 10].

Example vlogmsg_text : vlogmsg ex_localtime 0 (ex_message 65) = Ok (ex_line 65, 2).
Proof. by vm_compute. Qed.

(** Two threads with one message each; the second is faster. *)
Definition ex_work : list (list message) := [[ex_message 65]; [ex_message 66]].
Definition ex_end : system := {| threads := [{| todo := []; at_ := Outside |}; {| todo := []; at_ := Outside |}]; mutex := None; out := ex_line 66 ++ ex_line 65 |}.
Ltac one_call k :=
  eapply nsteps_l; [by eapply (step_lock _ _ k)|]; eapply nsteps_l; [by eapply (step_time _ _ k _ 0)|]; eapply nsteps_l; [by eapply (step_tag _ _ k)|];
  eapply nsteps_l; [by eapply (step_text _ _ k)|]; eapply nsteps_l; [by eapply (step_unlock _ _ k)|].
Lemma ex_run : nsteps (step ex_localtime) 10 (start ex_work) ex_end.
Proof. one_call 1%nat. one_call 0%nat. vm_compute. constructor. Qed.
Lemma ex_end_stuck s' : ~ step ex_localtime ex_end s'.
Proof. intros H. inversion H as [? k ? ? Hk|? k ? ? ? Hk|? k ? ? Hk|? k ? ? Hk|? k ? ? Hk]; subst; by destruct k as [|[|k]]. Qed.

Lemma log_lines_whole_witness : exists cs lines, Forall2 (writes ex_localtime) cs lines /\ ex_line 66 ++ ex_line 65 = concat lines /\
  by_thread 0 cs = [ex_message 65] /\ by_thread 1 cs = [ex_message 66].
Proof.
  destruct (log_lines_whole ex_localtime ex_work 10 ex_end (ex_intro _ 0 (ex_intro _ _ eq_refl)) ex_run) as (_ & _ & H).
  destruct (H ex_end_stuck) as (cs & lines & Hl & Ho & Hk). exists cs, lines. split; [exact Hl|]. split; [exact Ho|].
  split; [exact (Hk 0%nat _ eq_refl)|exact (Hk 1%nat _ eq_refl)].
Defined.
