(* ===== verification/Overview.v ===== *)
(** * Numbers in the overview of capinfo (tools/capinfo.c)

    Durations in tenths of a second, amounts with a binary prefix, rates.  The code computes
    them with [double] and [float] and prints them with one decimal. *)

From Stdlib Require Import QArith Qabs Qpower Lqa.
From S2P Require Import Prelude CLib Float Picotime Text.
Local Open Scope Z_scope.

(** [%.1f] of a number that is not negative: the nearest tenth, ties to even. *)
Definition tenth (q : Q) : Z := rne (10 * Qnum q) (Zpos (Qden q)).
Definition fmt_f1 (q : Q) : bytes := dec (tenth q / 10) ++ B "." ++ dec (tenth q mod 10).
(** [snprintf] into [size] bytes. *)
Definition snprintf (size : Z) (text : bytes) : bytes := take (Z.to_nat (size - 1)) text.

(** [tv_sec * 10 + tv_psec / (PICODIVIDER / 10)], a [double] converted to [uint64_t]; the
    product is [unsigned int]. *)
Definition hseconds (d : timepico) : Z :=
  d_to_u64 (dadd (dbl (u32 (tv_sec d * 10))) (ddiv (dbl (tv_psec d)) (ddiv PICODIVIDER (dbl 10)))).
(** [(float)hseconds/10] *)
Definition float_tenths (n : Z) : Q := fdiv (flt n) (flt 10).

(** The loop that chooses a prefix; [fuel] bounds the iterations, of which there are at most
    eight. *)
Fixpoint scale (fuel : nat) (value multiplier n : Z) : res (Z * Z) :=
  match fuel with
  | O => OutOfFuel
  | S fuel =>
      if multiplier =? 0 then Fault
      else if (1024 <=? value / multiplier) && (n <? 8) then scale fuel value (u64 (multiplier * 1024)) (n + 1)
      else Ok (multiplier, n)
  end.
Definition prefix_of (names : list bytes) (n : Z) : res bytes := match names !! Z.to_nat n with Some s => Ok s | None => Fault end.

Definition byte_prefix : list bytes := [B ""; B "KiB"; B "MiB"; B "GiB"; B "TiB"; B "PiB"; B "EiB"; B "ZiB"; B "YiB"].
Definition format_bytes (size bytes_ : Z) : res bytes :=
  '(multiplier, n) ← scale 9 bytes_ 1 0;
  if n =? 0 then Ok (snprintf size (dec bytes_ ++ B " (" ++ dec bytes_ ++ B " bytes)"))
  else
    let tmp := fdiv (flt bytes_) (flt multiplier) in
    p ← prefix_of byte_prefix n;
    Ok (snprintf size (fmt_f1 tmp ++ B " " ++ p ++ B " (" ++ dec bytes_ ++ B " bytes)")).

Definition rate_prefix : list bytes := [B "bps"; B "Kbps"; B "Mbps"; B "Gbps"; B "Tbps"; B "Pbps"; B "Ebps"; B "Zbps"; B "Ybps"].
Definition format_rate (size bytes_ seconds : Z) : res bytes :=
  let rate := u64 (bytes_ * 8) / (if 0 <? seconds then seconds else 1) in
  '(multiplier, n) ← scale 9 rate 1 0;
  let tmp := fdiv (flt rate) (flt multiplier) in
  p ← prefix_of rate_prefix n;
  Ok (snprintf size (fmt_f1 tmp ++ B " " ++ p)).

(** [%04.1f] is padded with zeros. *)
Definition format_seconds (size : Z) (first last : timepico) : bytes :=
  let hs := hseconds (timepico_sub last first) in
  let s := i32 (hs mod 600) in
  let hs := hs / 600 in
  let m := i32 (hs mod 60) in
  let h := i32 (hs / 60) in
  snprintf size (padl 48 2 (dec h) ++ B ":" ++ padl 48 2 (dec m) ++ B ":" ++ padl 48 4 (fmt_f1 (if 0 <? s then float_tenths s else 0%Q))).

Example format_seconds_text : format_seconds 128 (mk_timepico 10 500000000000) (mk_timepico 3735 250000000000) = B "01:02:04.7".
Proof. by vm_compute. Qed.
Example format_bytes_text : format_bytes 128 1572864 = Ok (B "1.5 MiB (1572864 bytes)").
Proof. by vm_compute. Qed.
Example format_bytes_small : format_bytes 128 1023 = Ok (B "1023 (1023 bytes)").
Proof. by vm_compute. Qed.
Example format_bytes_border : format_bytes 128 1048575 = Ok (B "1024.0 KiB (1048575 bytes)").
Proof. by vm_compute. Qed.
Example format_rate_text : format_rate 128 1000000 8 = Ok (B "976.6 Kbps").
Proof. by vm_compute. Qed.

(** ** The prefix *)
Lemma scale_ok fuel v n : 0 <= v < 2 ^ 64 -> 0 <= n <= 6 -> n = 0 \/ 2 ^ (10 * n) <= v -> (Z.to_nat (6 - n) < fuel)%nat ->
  exists k, scale fuel v (2 ^ (10 * n)) n = Ok (2 ^ (10 * k), k) /\ n <= k <= 6 /\ v < 2 ^ (10 * k + 10) /\ (k = 0 \/ 2 ^ (10 * k) <= v).
Proof.
  revert n. induction fuel as [|fuel IH]; intros n Hv Hn Hlow Hf; [lia|]. cbn [scale].
  assert (Hp : 0 < 2 ^ (10 * n)) by (apply Z.pow_pos_nonneg; lia). rewrite (proj2 (Z.eqb_neq _ _)) by lia.
  assert (Hnext : 2 ^ (10 * n + 10) = 2 ^ (10 * n) * 1024) by (rewrite Z.pow_add_r by lia; done).
  destruct (Z.leb_spec 1024 (v / 2 ^ (10 * n))) as [Hge|Hlt]; cbn [andb].
  - assert (Hle : 2 ^ (10 * n + 10) <= v) by (rewrite Hnext; pose proof (Z.mul_div_le v (2 ^ (10 * n)) Hp); nia).
    assert (Hn5 : n < 6).
    { destruct (Z.lt_ge_cases n 6) as [|H]; [done|]. assert (2 ^ 70 <= 2 ^ (10 * n + 10)) by (apply Z.pow_le_mono_r; lia). lia. }
    rewrite (proj2 (Z.ltb_lt n 8)) by lia. rewrite u64_id by (unfold is_u64; lia). rewrite <- Hnext.
    replace (10 * n + 10) with (10 * (n + 1)) in * by lia.
    destruct (IH (n + 1)) as (k & -> & Hk & Hrest); [done|lia|by right|lia|]. exists k. split_and!; [done|lia|lia|by apply Hrest..].
  - exists n. split_and!; [done|lia|lia| |done]. rewrite Hnext.  pose proof (Z.mul_succ_div_gt v (2 ^ (10 * n)) Hp). nia.
Qed.

(** ** Printed numbers *)
Lemma tenth_error q : (Qabs (inject_Z (tenth q) * (1 # 10) - q) <= 1 # 20)%Q.
Proof.
  unfold tenth. destruct q as [n d]. cbn [Qnum Qden]. pose proof (rne_bound (10 * n) (Zpos d) ltac:(lia)).
  pose proof (rne_bound_below (10 * n) (Zpos d) ltac:(lia)). set (t := rne _ _) in *. apply Qabs_Qle_condition.
  unfold Qle, Qminus, Qplus, Qopp, Qmult, inject_Z. cbn [Qnum Qden]. rewrite !Pos2Z.inj_mul. lia.
Qed.
Lemma tenth_near q z : (Qabs (q - inject_Z z * (1 # 10)) < 1 # 20)%Q -> tenth q = z.
Proof.
  intros H. apply Qabs_Qlt_condition in H as [H1 H2]. destruct q as [n d]. unfold tenth. cbn [Qnum Qden]. apply rne_near; [lia|].
  unfold Qlt, Qminus, Qplus, Qopp, Qmult, inject_Z in *. cbn [Qnum Qden] in *. rewrite !Pos2Z.inj_mul in *. lia.
Qed.

(** Numbers of tenths below 2^20 seconds are printed exactly. *)
Lemma tenths_exact n : 0 <= n < 10485760 -> tenth (float_tenths n) = n.
Proof.
  intros Hn. apply tenth_near. unfold float_tenths, fdiv. assert (E : (flt n == inject_Z n)%Q) by (unfold flt; apply round_int; [done|done|cbn; lia]).
  assert (E10 : (flt 10 == 10)%Q) by done. rewrite E, E10.
  assert (H0 : (0 <= inject_Z n)%Q) by (rewrite <- (Zle_Qle 0); lia). assert (H1 : (inject_Z n < 10485760)%Q) by (rewrite <- (Zlt_Qlt _ 10485760); lia).
  set (x := inject_Z n) in *. setoid_replace (x * (1 # 10))%Q with (x / 10)%Q using relation Qeq by field.
  eapply Qle_lt_trans; [apply (round_error 24 _ 20); [done| |]|done]; change (2 ^ 20)%Q with 1048576%Q; unfold Qdiv; change (/ 10)%Q with (1 # 10)%Q; lra.
Qed.

(** An amount of [v] units of [2^(10k)], printed with one decimal, is right to half a tenth
    and a little more, which is the error of [float]. *)
Lemma amount_error v k : 0 <= k <= 6 -> 0 <= v < 2 ^ (10 * k + 10) ->
  1000 * Z.abs (tenth (fdiv (flt v) (flt (2 ^ (10 * k)))) * 2 ^ (10 * k) - 10 * v) <= 502 * 2 ^ (10 * k).
Proof.
  intros Hk Hv. set (M := 2 ^ (10 * k)).
  assert (E : (flt M == inject_Z M)%Q) by (assert (k = 0 \/ k = 1 \/ k = 2 \/ k = 3 \/ k = 4 \/ k = 5 \/ k = 6) as H by lia; unfold M; by repeat destruct H as [-> |H]; [..|subst]).
  assert (HM : 0 < M) by (apply Z.pow_pos_nonneg; lia). assert (HMQ : (0 < inject_Z M)%Q) by (rewrite <- (Zlt_Qlt 0); lia).
  assert (EM : (inject_Z M == 2 ^ (10 * k))%Q) by (apply two_Z; lia).
  assert (H0 : (0 <= inject_Z v)%Q) by (rewrite <- (Zle_Qle 0); lia).
  assert (H1 : (inject_Z v < 2 ^ (10 * k + 10))%Q) by (rewrite <- two_Z, <- Zlt_Qlt by lia; lia).
  set (f := flt v). assert (Hf : (Qabs (f - inject_Z v) <= inject_Z M * (1 # 32768))%Q).
  { eapply Qle_trans; [apply (round_error 24 _ (10 * k + 10)); done|]. replace (10 * k + 10 - 24 - 1) with (10 * k + -15) by lia. rewrite two_split, EM. apply Qle_refl. }
  apply Qabs_Qle_condition in Hf as [Hf1 Hf2]. rewrite two_split, <- EM in H1. change (2 ^ 10)%Q with 1024%Q in H1.
  assert (Hf0 : (0 <= f)%Q) by (by apply round_nonneg). unfold fdiv. rewrite E.
  assert (Hx : (0 <= f / inject_Z M)%Q) by (apply Qle_shift_div_l; [done|lra]).
  assert (Hlt : (f / inject_Z M < 2048)%Q) by (apply Qlt_shift_div_r; [done|lra]).
  pose proof (round_error 24 _ 11 eq_refl Hx Hlt) as Hr. change (2 ^ (11 - 24 - 1))%Q with (1 # 16384)%Q in Hr. set (q := rndf _) in *.
  pose proof (tenth_error q) as Ht. apply Qabs_Qle_condition in Hr as [Hr1 Hr2], Ht as [Ht1 Ht2].
  assert (Hd : (f / inject_Z M * inject_Z M == f)%Q) by (field; lra). set (x := (f / inject_Z M)%Q) in *.
  assert (Hz : 1000 * (tenth q * M - 10 * v) <= 502 * M /\ - (502 * M) <= 1000 * (tenth q * M - 10 * v)); [|lia].
  clear E EM. unfold Z.sub. rewrite !Zle_Qle, !inject_Z_opp, !inject_Z_mult, !inject_Z_plus, !inject_Z_opp, !inject_Z_mult.
  change (inject_Z 1000) with 1000%Q. change (inject_Z 502) with 502%Q. change (inject_Z 10) with 10%Q. split; nra.
Qed.

(** ** Durations *)

Lemma hseconds_nonneg d : 0 <= hseconds d.
Proof. unfold hseconds, d_to_u64. apply u64_range. Qed.

(** The tenths of a duration, rounded down, except that one within 25 nanoseconds of the
    next tenth may count as that. *)
Lemma hseconds_ok d : norm d -> tv_sec d < 429496729 ->
  hseconds d * 100000000000 <= val d + 25000 /\ val d < (hseconds d + 1) * 100000000000 /\ 0 <= hseconds d < 4294967296.
Proof.
  intros [Hs Hp] Hlim. unfold hseconds. set (sec := tv_sec d) in *. set (ps := tv_psec d) in *.
  rewrite u32_id by (ints; lia). set (a := sec * 10). assert (Ea : (dbl a == inject_Z a)%Q) by (apply round_int; [done|done|ints; unfold a; lia]).
  assert (Ep : (dbl ps == inject_Z ps)%Q) by (apply round_int; [done|done|unfold PICO in *; lia]).
  assert (Et : (rnd (PICODIVIDER / dbl 10) == 100000000000)%Q) by done. unfold dadd, ddiv. rewrite Ea, Ep, Et.
  assert (Hps : (0 <= inject_Z ps)%Q /\ (inject_Z ps < 1000000000000)%Q) by (rewrite <- (Zle_Qle 0), <- (Zlt_Qlt _ 1000000000000); unfold PICO in *; lia).
  assert (Ha : (0 <= inject_Z a)%Q /\ (inject_Z a <= 4294967280)%Q) by (rewrite <- (Zle_Qle 0), <- (Zle_Qle _ 4294967280); ints; unfold a; lia).
  set (x := (inject_Z ps / 100000000000)%Q). assert (Ex : (x == inject_Z ps * (1 # 100000000000))%Q) by (unfold x; field).
  assert (Hx : (0 <= x)%Q /\ (x < 10)%Q) by lra. set (f := ps / 100000000000).
  assert (Hf : 0 <= f /\ f * 100000000000 <= ps < (f + 1) * 100000000000) by (unfold f, PICO in *; split; [apply Z.div_pos; lia|]; pose proof (Z.div_mod ps 100000000000); pose proof (Z.mod_pos_bound ps 100000000000); lia).
  assert (Hfx : (inject_Z f <= x)%Q).
  { destruct Hf as [_ [Hf _]]. rewrite Zle_Qle, inject_Z_mult in Hf. change (inject_Z 100000000000) with 100000000000%Q in Hf. lra. }
  set (y := rnd x). assert (Hy : (inject_Z f <= y)%Q) by (apply round_ge; [done|lia|exact Hfx|]; change (2 ^ 53)%Q with 9007199254740992%Q; lra).
  pose proof (round_error 53 x 4 eq_refl) as He. change (2 ^ 4)%Q with 16%Q in He. change (2 ^ (4 - 53 - 1))%Q with (1 # 1125899906842624)%Q in He.
  destruct (proj1 (Qabs_Qle_condition _ _) (He ltac:(lra) ltac:(lra))) as [_ He2]. fold y in He2.
  set (s := (inject_Z a + y)%Q). assert (Hfq : (0 <= inject_Z f)%Q) by (rewrite <- (Zle_Qle 0); lia).
  assert (Hs0 : (inject_Z (a + f) <= s)%Q) by (rewrite inject_Z_plus; unfold s; lra).
  assert (Hs2 : (s < 4294967296)%Q) by (unfold s; lra). assert (Hsn : (0 <= s)%Q) by (unfold s; lra).
  assert (Hr0 : (inject_Z (a + f) <= rnd s)%Q) by (apply round_ge; [done|ints; unfold a; lia|exact Hs0|]; change (2 ^ 53)%Q with 9007199254740992%Q; lra).
  pose proof (round_error 53 s 32 eq_refl Hsn Hs2) as Hr. change (2 ^ (32 - 53 - 1))%Q with (1 # 4194304)%Q in Hr.
  apply Qabs_Qle_condition in Hr as [_ Hr2]. pose proof (round_nonneg 53 s Hsn) as Hrn. destruct (dtrunc_floor _ Hrn) as [Ht1 Ht2].
  unfold d_to_u64. set (t := dtrunc (rnd s)) in *.
  assert (Hlow : a + f <= t) by (apply Z.lt_succ_r; rewrite Zlt_Qlt; unfold Z.succ; eapply Qle_lt_trans; [exact Hr0|exact Ht2]).
  assert (Hup : t * 100000000000 <= sec * 1000000000000 + ps + 25000).
  { rewrite Zle_Qle, !inject_Z_plus, !inject_Z_mult. assert (Eaq : (inject_Z a == inject_Z sec * 10)%Q) by (unfold a; by rewrite inject_Z_mult).
    change (inject_Z 100000000000) with 100000000000%Q. change (inject_Z 1000000000000) with 1000000000000%Q. change (inject_Z 25000) with 25000%Q. unfold s in *. lra. }
  unfold val, PICO in *. fold sec ps. assert (0 <= t < 4294967296) by (ints; unfold a in *; lia).
  rewrite u64_id by (ints; lia). unfold a in *. lia.
Qed.

(** ** The texts *)
Definition decimal (t : Z) : bytes := dec (t / 10) ++ B "." ++ dec (t mod 10).

(** [text] is [v] in units of [2^(10k)], to one decimal. *)
Definition amount (v k : Z) (text : bytes) : Prop :=
  (k = 0 \/ 2 ^ (10 * k) <= v) /\ v < 2 ^ (10 * k + 10) /\
  exists t, 1000 * Z.abs (t * 2 ^ (10 * k) - 10 * v) <= 502 * 2 ^ (10 * k) /\ text = decimal t.

Lemma snprintf_short text : (length text <= 127)%nat -> snprintf 128 text = text.
Proof. intros H. unfold snprintf. by apply take_ge. Qed.
Lemma decimal_length t : (length (decimal t) <= 43)%nat.
Proof. unfold decimal. rewrite !length_app. pose proof (length_dec (t / 10)). pose proof (length_dec (t mod 10)). cbn [length B app]. cbn. lia. Qed.
Lemma fmt_f1_decimal q : fmt_f1 q = decimal (tenth q).
Proof. done. Qed.

Lemma fmt_tenths n : 0 <= n < 10485760 -> fmt_f1 (float_tenths n) = decimal n.
Proof. intros Hn. rewrite fmt_f1_decimal, tenths_exact by done. reflexivity. Qed.

(** The prefix and the number of an amount. *)
Lemma scaled_ok v : 0 <= v < 2 ^ 64 -> exists k, 0 <= k <= 6 /\ scale 9 v 1 0 = Ok (2 ^ (10 * k), k) /\ amount v k (fmt_f1 (fdiv (flt v) (flt (2 ^ (10 * k))))).
Proof.
  intros Hv. destruct (scale_ok 9 v 0 Hv) as (k & E & Hk & Hlt & Hge); [lia|by left|lia|]. exists k. split; [done|]. split; [exact E|].
  split; [done|]. split; [done|]. eexists. split; [|reflexivity]. apply amount_error; lia.
Qed.

Lemma format_bytes_ok v : 0 <= v < 2 ^ 64 ->
  (v < 1024 /\ format_bytes 128 v = Ok (dec v ++ B " (" ++ dec v ++ B " bytes)")) \/
  exists k p text, byte_prefix !! Z.to_nat k = Some p /\ 0 < k /\ amount v k text /\ format_bytes 128 v = Ok (text ++ B " " ++ p ++ B " (" ++ dec v ++ B " bytes)").
Proof.
  intros Hv. destruct (scaled_ok v Hv) as (k & Hk & E & Ha). unfold format_bytes. rewrite E. cbn [mbind res_bind].
  pose proof (length_dec v). destruct (Z.eqb_spec k 0) as [->|Hk0].
  - left. split; [by destruct Ha as (_ & ? & _)|]. f_equal. apply snprintf_short. rewrite !length_app. cbn [length]. cbn. lia.
  - right. assert (Hp : exists p, byte_prefix !! Z.to_nat k = Some p /\ (length p <= 3)%nat).
    { assert (k = 1 \/ k = 2 \/ k = 3 \/ k = 4 \/ k = 5 \/ k = 6) as H' by lia. repeat destruct H' as [-> |H']; [..|subst]; eexists; (split; [reflexivity|cbn; lia]). }
    destruct Hp as (p & Hp & Hl). exists k, p. eexists. split_and!; [done|lia|exact Ha|]. unfold prefix_of. rewrite Hp. cbn [mbind res_bind]. f_equal.
    apply snprintf_short. rewrite fmt_f1_decimal, !length_app. pose proof (decimal_length (tenth (fdiv (flt v) (flt (2 ^ (10 * k)))))). cbn [length]. cbn. lia.
Qed.

Lemma format_rate_ok v seconds : 0 <= v < 2 ^ 61 -> 0 <= seconds ->
  exists k p text, rate_prefix !! Z.to_nat k = Some p /\ amount (v * 8 / Z.max 1 seconds) k text /\ format_rate 128 v seconds = Ok (text ++ B " " ++ p).
Proof.
  intros Hv Hs. unfold format_rate. rewrite u64_id by (unfold is_u64; lia).
  replace (if 0 <? seconds then seconds else 1) with (Z.max 1 seconds) by (destruct (Z.ltb_spec 0 seconds); lia). set (rate := v * 8 / _).
  assert (Hr : 0 <= rate < 2 ^ 64) by (unfold rate; split; [apply Z.div_pos; lia|apply Z.div_lt_upper_bound; lia]).
  destruct (scaled_ok rate Hr) as (k & Hk & E & Ha). rewrite E. cbn [mbind res_bind].
  assert (Hp : exists p, rate_prefix !! Z.to_nat k = Some p /\ (length p <= 4)%nat).
  { assert (k = 0 \/ k = 1 \/ k = 2 \/ k = 3 \/ k = 4 \/ k = 5 \/ k = 6) as H' by lia. repeat destruct H' as [-> |H']; [..|subst]; eexists; (split; [reflexivity|cbn; lia]). }
  destruct Hp as (p & Hp & Hl). exists k, p. eexists. split_and!; [done|exact Ha|]. unfold prefix_of. rewrite Hp. cbn [mbind res_bind]. f_equal.
  apply snprintf_short. rewrite fmt_f1_decimal, !length_app. pose proof (decimal_length (tenth (fdiv (flt rate) (flt (2 ^ (10 * k)))))). cbn [length]. cbn. lia.
Qed.

(** Hours, minutes, seconds and tenths of [t] tenths. *)
Definition clock (t : Z) : bytes :=
  padl 48 2 (dec (t / 36000)) ++ B ":" ++ padl 48 2 (dec (t / 600 mod 60)) ++ B ":" ++ padl 48 2 (dec (t mod 600 / 10)) ++ B "." ++ dec (t mod 10).

Lemma seconds_text s : 0 <= s < 600 -> padl 48 4 (fmt_f1 (if 0 <? s then float_tenths s else 0%Q)) = padl 48 2 (dec (s / 10)) ++ B "." ++ dec (s mod 10).
Proof.
  intros Hs. assert (E : fmt_f1 (if 0 <? s then float_tenths s else 0%Q) = decimal s).
  { rewrite fmt_f1_decimal. destruct (Z.ltb_spec 0 s); [by rewrite tenths_exact by lia|]. by assert (s = 0) as -> by lia. }
  rewrite E. pose (f s := bool_decide (padl 48 4 (decimal s) = padl 48 2 (dec (s / 10)) ++ B "." ++ dec (s mod 10))).
  assert (H : forallb f (seqZ 0 600) = true) by (vm_compute; reflexivity).
  rewrite forallb_forall in H. specialize (H s). unfold f in H. rewrite bool_decide_eq_true in H. apply H, list_elem_of_In, elem_of_seqZ. lia.
Qed.

(** The tenths of a second between two times. *)
Definition tenths_of (d t : Z) : Prop := t * 100000000000 <= d + 25000 /\ d < (t + 1) * 100000000000.

Lemma duration_ok first last : norm first -> norm last -> 0 <= val last - val first < 429496729 * PICO ->
  tenths_of (val last - val first) (hseconds (timepico_sub last first)) /\ 0 <= hseconds (timepico_sub last first) < 4294967296.
Proof.
  intros Hf Hl Hd. destruct (timepico_sub_spec last first Hl Hf) as [Hn Hv].
  rewrite Z.mod_small in Hv by (unfold PICO in *; lia). rewrite <- Hv in *. destruct (hseconds_ok _ Hn) as (H1 & H2 & H3).
  { destruct Hn as [_ Hn]. unfold val, PICO in *. lia. }
  done.
Qed.

Lemma format_seconds_clock first last : let t := hseconds (timepico_sub last first) in 0 <= t < 4294967296 -> format_seconds 128 first last = clock t.
Proof.
  intros t Hr. unfold format_seconds. fold t. rewrite !i32_id by (Z.div_mod_to_equations; lia). rewrite seconds_text by (apply Z.mod_pos_bound; lia).
  replace (t / 600 / 60) with (t / 36000) by (by rewrite Z.div_div). replace ((t mod 600) mod 10) with (t mod 10) by (Z.div_mod_to_equations; lia).
  unfold clock. rewrite snprintf_short; [reflexivity|]. unfold padl. rewrite !length_app, !length_replicate.
  pose proof (length_dec (t / 36000)). pose proof (length_dec (t / 600 mod 60)). pose proof (length_dec (t mod 600 / 10)). pose proof (length_dec (t mod 10)).
  cbn [length B]. cbn. lia.
Qed.

(** ** Limits *)

(** Above 2^20 seconds the tenths of the [float] are wrong; fourteen years wrap round; a
    duration just below a tenth may count as that tenth; and packets that are not in the order of
    time give a duration of more than a century. *)
Lemma float_tenths_wrong : tenth (float_tenths 10485763) = 10485762.
Proof. by vm_compute. Qed.
Lemma hseconds_wraps : hseconds (mk_timepico 429496730 0) = 4.
Proof. by vm_compute. Qed.
Lemma hseconds_up : hseconds (mk_timepico 400000000 99999999999) = 4000000001.
Proof. by vm_compute. Qed.
Lemma format_seconds_unordered : format_seconds 128 (mk_timepico 10 0) (mk_timepico 9 0) = B "119304:38:48.6".
Proof. by vm_compute. Qed.
