(* ===== verification/StreamApi.v ===== *)
(** * Streams of any kind (src/stream.c, caputils/stream.h)

    The functions an application calls: opening and creating a stream by its address,
    from the command line too, adding addresses, reading, and what can be asked of a
    stream.  They dispatch to the files, Ethernet and UDP. *)

From S2P Require Import Prelude CLib Picotime Utils Address Packet Filter Stream StreamFile StreamBuffer Interface StreamEthernet StreamUdp Text.

(** [stream_t]: which [struct] is behind the pointer. *)
Inductive stream_t :=
  | FileStream (sf : stream_file)
  | EthernetStream (b : stream) (fb : stream_frame_buffer) (st : stream_ethernet)
  | UdpStream (b : stream) (fb : stream_frame_buffer) (st : stream_udp).

Definition base_of (st : stream_t) : stream :=
  match st with FileStream sf => base sf | EthernetStream b _ _ => b | UdpStream b _ _ => b end.
Definition set_base (st : stream_t) (b : stream) : stream_t :=
  match st with
  | FileStream sf => FileStream (sf <| base := b |>)
  | EthernetStream _ fb st => EthernetStream b fb st
  | UdpStream _ fb st => UdpStream b fb st
  end.

(** ** Questions *)
Definition stream_get_version (st : stream_t) : file_version := version_ (FH (base_of st)).
Definition stream_get_comment (st : stream_t) : option bytes := comment (base_of st).
Definition stream_get_mampid (st : stream_t) : bytes := fh_mpid (FH (base_of st)).
Definition stream_get_stat (st : stream_t) : stream_stat := stat (base_of st).
Definition stream_num_address (st : stream_t) : Z := num_addresses (base_of st).

(** ** The system: files and sockets *)
Record env := {
  e_fopen : bytes -> FILE + Z;              (** for reading *)
  e_fcreate : bytes -> FILE + Z;            (** for writing *)
  e_fp : Z -> FILE;                         (** the stream behind a descriptor *)
  e_mkfifo : bytes -> option Z;
  e_stat_error : bytes -> option Z;         (** why stat() cannot look at a name, ENOENT apart *)
  e_sys : system;
  e_raw_socket : option Z;
  e_raw_bind : option Z;
  e_eth_member : ether_addr -> option Z;
  e_frames : list (bool * arrival);
  e_udp_socket : option Z;
  e_udp_bind : Z -> Z -> bool;
  e_udp_connect : Z -> Z -> bool;
  e_udp_member : Z -> option Z;
  e_path_mtu : Z -> Z -> option Z;
  e_datagrams : list (bool * (arrival * Z));
}.

Definition EEXIST : Z := 17.

(** The union of an address read as the member its type says. *)
Definition local_filename (dest : stream_addr) : res bytes := match addr dest with ULocal p => Ok (p_str p) | _ => Fault end.
Definition filename (dest : stream_addr) : res bytes := match addr dest with UBuffer b => arr_str (take 22 b) | _ => Fault end.
Definition fp_fd (dest : stream_addr) : res Z := match addr dest with UFile fd => Ok fd | _ => Fault end.
Definition ether_of (dest : stream_addr) : res bytes := match addr dest with UBuffer b => slice b 0 6 | _ => Fault end.
Definition ipv4_of (dest : stream_addr) : res (Z * Z) :=
  match addr dest with UBuffer b => port ← rd16 b 2; a ← rd32 b 4; Ok (a, port) | _ => Fault end.

(** Stream, result and the names that were removed. *)
Definition opened_result : Type := option stream_t * Z * list bytes.

Section Open.
Variable e : env.

Definition as_file (r : res (option stream_file * Z)) : res opened_result := '(sf, ret) ← r; Ok (option_map FileStream sf, ret, []).
Definition as_ethernet (r : res (option (stream * stream_frame_buffer * stream_ethernet) * Z)) : res opened_result :=
  '(st, ret) ← r; Ok (option_map (fun '(b, fb, st) => EthernetStream b fb st) st, ret, []).
Definition as_udp (r : res (option (stream * stream_frame_buffer * stream_udp) * Z)) : res opened_result :=
  '(st, ret) ← r; Ok (option_map (fun '(b, fb, st) => UdpStream b fb st) st, ret, []).

(** The FIFO is made first and removed when the stream cannot be opened. *)
Definition with_fifo (dest : stream_addr) (open : bytes -> res (option stream_file * Z)) : res opened_result :=
  name ← local_filename dest;
  match e_mkfifo e name with
  | Some errno => Ok (None, if errno =? EEXIST then ERROR_CAPFILE_FIFO_EXIST else errno, [])
  | None => '(sf, ret) ← open name; Ok (option_map FileStream sf, ret, if ret =? 0 then [] else [name])
  end.

(** The address is stored in the stream when it was opened. *)
Definition keep_addr (dest : stream_addr) (r : opened_result) : opened_result :=
  let '(st, ret, gone) := r in
  (if ret =? 0 then option_map (fun st => set_base st ((base_of st) <| st_addr := dest |>)) st else st, ret, gone).

Definition stream_open (dest : stream_addr) (name : option bytes) (buffer_size : Z) : res opened_result :=
  let t := stream_addr_type dest in
  if t =? STREAM_ADDR_TCP then Ok (None, ERROR_NOT_IMPLEMENTED, [])
  else
    r ← (if t =? STREAM_ADDR_ETHERNET then
           a ← ether_of dest;
           as_ethernet (stream_ethernet_open (e_sys e) (e_raw_socket e) (e_raw_bind e) (e_eth_member e) (e_frames e) a name buffer_size)
         else if t =? STREAM_ADDR_FIFO then
           with_fifo dest (fun name => stream_file_open (e_fopen e) None (Some name) buffer_size)
         else if t =? STREAM_ADDR_CAPFILE then
           name ← (if stream_addr_have_flag dest STREAM_ADDR_LOCAL then local_filename dest else filename dest);
           as_file (stream_file_open (e_fopen e) None (Some name) buffer_size)
         else if t =? STREAM_ADDR_FP then
           fd ← fp_fd dest; as_file (stream_file_open (e_fopen e) (Some (e_fp e fd)) None buffer_size)
         else if t =? STREAM_ADDR_UDP then
           '(a, port) ← ipv4_of dest;
           as_udp (stream_udp_open (e_sys e) (e_udp_socket e) (e_udp_bind e) (e_udp_member e) (e_path_mtu e) (e_datagrams e) a port name)
         else Ok (None, EINVAL, []));
    Ok (keep_addr dest r).

(** [comment] may be missing for a file only. *)
Definition stream_create (dest : stream_addr) (nic : option bytes) (mpid : bytes) (comment_ : option bytes) : res opened_result :=
  let t := stream_addr_type dest in
  let flags := stream_addr_flags dest in
  if t =? STREAM_ADDR_TCP then Ok (None, ERROR_NOT_IMPLEMENTED, [])
  else
    r ← (if t =? STREAM_ADDR_ETHERNET then
           a ← ether_of dest;
           match comment_ with
           | None => Fault
           | Some c => as_ethernet (stream_ethernet_create (e_sys e) (e_raw_socket e) (e_raw_bind e) (e_eth_member e) a nic c)
           end
         else if t =? STREAM_ADDR_FIFO then
           with_fifo dest (fun name => stream_file_create (e_fcreate e) None (Some name) mpid comment_ flags)
         else if t =? STREAM_ADDR_CAPFILE then
           name ← (if stream_addr_have_flag dest STREAM_ADDR_LOCAL then local_filename dest else filename dest);
           as_file (stream_file_create (e_fcreate e) None (Some name) mpid comment_ flags)
         else if t =? STREAM_ADDR_FP then
           fd ← fp_fd dest; as_file (stream_file_create (e_fcreate e) (Some (e_fp e fd)) None mpid comment_ flags)
         else if t =? STREAM_ADDR_UDP then
           '(a, port) ← ipv4_of dest;
           as_udp (stream_udp_create (e_sys e) (e_udp_socket e) (e_udp_connect e) (e_path_mtu e) a port nic)
         else Ok (None, ERROR_NOT_IMPLEMENTED, []));
    Ok (keep_addr dest r).

(** ** Closing

    The names that were removed and the result. *)
Definition stream_close (st : option stream_t) : res (list bytes * Z) :=
  match st with
  | Some (FileStream sf) =>
      if stream_addr_have_flag (st_addr (base sf)) STREAM_ADDR_UNLINK
      then name ← local_filename (st_addr (base sf)); Ok ([name], 0)
      else Ok ([], 0)
  | _ => Ok ([], 0)
  end.

(** ** More addresses

    The kind of the address decides which [struct] the stream is taken for. *)
Definition stream_add (st : option stream_t) (a : stream_addr) : res (option stream_t * Z) :=
  match st with
  | None => Ok (None, EINVAL)
  | Some s =>
      let t := stream_addr_type a in
      if t =? STREAM_ADDR_ETHERNET then
        mac ← ether_of a;
        match s with
        | EthernetStream b fb eth =>
            '(eth, ret) ← stream_ethernet_add (e_eth_member e) eth mac;
            Ok (Some (EthernetStream (b <| num_addresses := Z.of_nat (length (StreamEthernet.address eth)) |>) fb eth), ret)
        | _ => Fault
        end
      else if t =? STREAM_ADDR_UDP then
        '(ip, _) ← ipv4_of a;
        match s with
        | UdpStream b fb udp =>
            let '(udp, ret) := stream_udp_add (e_udp_member e) udp ip in
            Ok (Some (UdpStream (b <| num_addresses := Z.of_nat (length (StreamUdp.address udp)) |>) fb udp), ret)
        | _ => Fault
        end
      else Ok (Some s, ERROR_INVALID_PROTOCOL)
  end.

(** ** The command line

    [args] are the arguments from [optind] on. *)
Variable strdup : bytes -> cptr.
Variable stdin_tty : bool.
Variable dev_stdin : Z.

Fixpoint add_all (st : option stream_t) (args : list cptr) : res (option stream_t * Z) :=
  match args with
  | [] => Ok (st, 0)
  | arg :: args =>
      '(a, ret) ← stream_addr_aton strdup zero_addr arg STREAM_ADDR_GUESS 0;
      if negb (ret =? 0) then Ok (st, ret)
      else
        '(st, ret) ← stream_add st a;
        if negb (ret =? 0) then Ok (st, ret) else add_all st args
  end.

Definition stream_from_getopt (args : list cptr) (name : option bytes) (defaddr : option cptr) (buffer_size : Z) : res opened_result :=
  match (match args with arg :: _ => Some arg | [] => defaddr end) with
  | None => Ok (None, EINVAL, [])
  | Some address =>
      let is_stdin := bool_decide (p_str address = B "-") in
      if is_stdin && stdin_tty then Ok (None, EINVAL, [])
      else
        let address := if is_stdin then {| p_at := dev_stdin; p_str := B "/dev/stdin" |} else address in
        '(a, ret) ← stream_addr_aton strdup zero_addr address STREAM_ADDR_GUESS 0;
        if negb (ret =? 0) then Ok (None, ret, [])
        else
          let t := stream_addr_type a in
          if (t =? STREAM_ADDR_ETHERNET) && bool_decide (name = None) then Ok (None, ret, [])
          else
            '(st, ret, gone) ← stream_open a name buffer_size;
            if negb (ret =? 0) then Ok (st, ret, gone)
            else
              match tail args with
              | [] => Ok (st, 0, gone)
              | more =>
                  if negb ((t =? STREAM_ADDR_ETHERNET) || (t =? STREAM_ADDR_UDP)) then Ok (st, EINVAL, gone)
                  else '(st, ret) ← add_all st more; Ok (st, ret, gone)
              end
  end.
End Open.

(** ** Reading a stream that was opened *)
Definition stream_t_read (bpf_filter : list bpf_insn -> bytes -> Z -> Z -> Z) (fuel : nat) (st : stream_t) (f : option filter)
    (timeout : option timeval) : res (stream_t * option filter * (Z * option cap_header)) :=
  match st with
  | FileStream sf =>
      '(b, fl, f, r) ← stream_read bpf_filter None fuel (base sf) (file sf) f timeout;
      Ok (FileStream (sf <| base := b |> <| file := fl |>), f, r)
  | EthernetStream b fb eth =>
      '(b, fb, eth, f, r) ← stream_ethernet_read bpf_filter fuel b fb eth f timeout; Ok (EthernetStream b fb eth, f, r)
  | UdpStream b fb udp =>
      '(b, fb, udp, f, r) ← stream_udp_read bpf_filter fuel b fb udp f timeout; Ok (UdpStream b fb udp, f, r)
  end.

(** ** Printing *)
Definition stream_print_info (st : stream_t) : res bytes :=
  text ← stream_addr_ntoa (st_addr (base_of st));
  let version := stream_get_version st in
  let mampid := stream_get_mampid st in
  c0 ← rd8 mampid 0;
  mp ← (if c0 =? 0 then fputs_printable (B "(unset)" ++ [0]) (-1) else fputs_printable mampid (-1));
  cm ← fputs_printable (match stream_get_comment st with Some c => c ++ [0] | None => B "(unset)" ++ [0] end) (-1);
  Ok (text ++ B " caputils " ++ dec (major version) ++ B "." ++ dec (minor version) ++ B " stream" ++ nl ++
      B "     mpid: " ++ mp ++ nl ++ B "  comment: " ++ cm ++ nl).

(** ** What is opened *)

(** The kind of stream an address stands for. *)
Definition kind_of (t : Z) (st : stream_t) : Prop :=
  match st with
  | FileStream _ => t = STREAM_ADDR_CAPFILE \/ t = STREAM_ADDR_FIFO \/ t = STREAM_ADDR_FP
  | EthernetStream _ _ _ => t = STREAM_ADDR_ETHERNET
  | UdpStream _ _ _ => t = STREAM_ADDR_UDP
  end.

Lemma file_open_some fopen fp name size sf : stream_file_open fopen fp name size = Ok (sf, 0) -> open_file fopen fp name <> inr 0 -> sf <> None.
Proof.
  unfold stream_file_open. destruct (open_file fopen fp name) as [f|e]; [|intros [= <- ->]; done].
  destruct (load_header f) as [[? [h|?]]| | |]; try discriminate; cbn [mbind res_bind]; [|intros; by simplify_eq].
  destruct (read_extensions _ h) as [[? ?]| | |]; try discriminate. cbn [mbind res_bind].
  repeat (case_match; try discriminate); intros; by simplify_eq.
Qed.

Lemma ethernet_open_some sys so bi me arr a name size st :
  stream_ethernet_open sys so bi me arr a name size = Ok (st, 0) -> st <> None.
Proof.
  unfold stream_ethernet_open. destruct (stream_ethernet_init _ _ _ _ _ _ _ _) as [[[[[b fb] s]|] ret]| | |]; try discriminate; cbn [mbind res_bind].
  - destruct (negb (ret =? 0)); intros; by simplify_eq.
  - destruct (Z.eqb_spec ret 0); cbn [negb]; intros; by simplify_eq.
Qed.

Lemma udp_open_some sys so bi me pm arr a port name st : so <> Some 0 ->
  stream_udp_open sys so bi me pm arr a port name = Ok (st, 0) -> st <> None.
Proof.
  intros Hso. unfold stream_udp_open. destruct (_ && _); [intros; by simplify_eq|].
  destruct (estimate_mtu _ _ _ _ _) as [mtu| | |]; try discriminate. cbn [mbind res_bind].
  unfold stream_udp_init. destruct so as [e|]; [intros [= <- ->]; by destruct Hso|].
  destruct (stream_frame_init _ _ _) as [fb| | |]; try discriminate. cbn [mbind res_bind].
  destruct (bi _ _); cbn [negb]; [|intros; by simplify_eq]. destruct (is_multicast a); [|intros; by simplify_eq].
  destruct (stream_udp_add _ _ _). intros; by simplify_eq.
Qed.

Section Claims.
Variable e : env.

(** Errors have a code. *)
Record sane_env : Prop := {
  env_fopen : forall n, e_fopen e n <> inr 0;
  env_mkfifo : forall n, e_mkfifo e n <> Some 0;
  env_udp_socket : e_udp_socket e <> Some 0;
}.

Lemma open_file_some fp name : sane_env -> (fp <> None \/ name <> None) -> open_file (e_fopen e) fp name <> inr 0.
Proof. intros [H _ _] Hn. destruct fp; [done|]. destruct name as [n|]; [apply H|]. by destruct Hn. Qed.

Lemma keep_some {A} (mk : A -> stream_t) (o : option A) ret g dest st gone t :
  Ok (keep_addr dest (option_map mk o, ret, g)) = Ok (st, 0, gone) ->
  (ret = 0 -> o <> None) -> (ret = 0 -> g = []) -> (forall a, kind_of t (mk a)) ->
  exists s, st = Some s /\ kind_of t s /\ st_addr (base_of s) = dest /\ gone = [].
Proof.
  intros [= H1 -> <-] Ho Hg Hk. cbn in H1. destruct o as [a|]; [|by destruct Ho]. cbn in H1. eexists. split; [by symmetry|].
  rewrite Hg by done. specialize (Hk a). by destruct (mk a).
Qed.

(** C31: A stream that was opened is of the kind its address names and carries that
    address; no file was removed. *)
Theorem stream_open_kind dest name size st gone : sane_env ->
  stream_open e dest name size = Ok (st, 0, gone) ->
  exists s, st = Some s /\ kind_of (stream_addr_type dest) s /\ st_addr (base_of s) = dest /\ gone = [].
Proof.
  intros Hsane. pose proof Hsane as [_ Hfifo Hudp]. unfold stream_open. set (t := stream_addr_type dest).
  destruct (Z.eqb_spec t STREAM_ADDR_TCP); [discriminate|].
  assert (Hfile : forall fp nm s, fp <> None \/ nm <> None -> stream_file_open (e_fopen e) fp nm size = Ok (s, 0) -> s <> None).
  { intros fp nm s Hn E. by eapply file_open_some, open_file_some. }
  destruct (Z.eqb_spec t STREAM_ADDR_ETHERNET) as [Et|].
  { destruct (ether_of dest) as [a| | |]; try discriminate. cbn [mbind res_bind]. unfold as_ethernet.
    destruct (stream_ethernet_open _ _ _ _ _ _ _ _) as [[s ret]| | |] eqn:E; try discriminate. cbn [mbind res_bind]. intros H.
    eapply keep_some; [exact H| |done|by intros [[? ?] ?]]. intros ->. by eapply ethernet_open_some. }
  destruct (Z.eqb_spec t STREAM_ADDR_FIFO) as [Et|].
  { unfold with_fifo. destruct (local_filename dest) as [n'| | |]; try discriminate. cbn [mbind res_bind].
    destruct (e_mkfifo e n') as [errno|] eqn:Em.
    { cbn [mbind res_bind keep_addr]. destruct (Z.eqb_spec errno EEXIST); [discriminate|]. intros [= _ -> _]. by destruct (Hfifo n'). }
    destruct (stream_file_open _ _ _ _) as [[s ret]| | |] eqn:E; try discriminate. cbn [mbind res_bind]. intros H.
    eapply keep_some; [exact H| |by intros ->|by intros; right; left]. intros ->. eapply Hfile, E. by right. }
  destruct (Z.eqb_spec t STREAM_ADDR_CAPFILE) as [Et|].
  { destruct (if _ : bool then _ else _) as [n'| | |]; try discriminate. cbn [mbind res_bind]. unfold as_file.
    destruct (stream_file_open _ _ _ _) as [[s ret]| | |] eqn:E; try discriminate. cbn [mbind res_bind]. intros H.
    eapply keep_some; [exact H| |done|by intros; left]. intros ->. eapply Hfile, E. by right. }
  destruct (Z.eqb_spec t STREAM_ADDR_FP) as [Et|].
  { destruct (fp_fd dest) as [fd| | |]; try discriminate. cbn [mbind res_bind]. unfold as_file.
    destruct (stream_file_open _ _ _ _) as [[s ret]| | |] eqn:E; try discriminate. cbn [mbind res_bind]. intros H.
    eapply keep_some; [exact H| |done|by intros; right; right]. intros ->. eapply Hfile, E. by left. }
  destruct (Z.eqb_spec t STREAM_ADDR_UDP) as [Et|]; [|cbn; discriminate].
  destruct (ipv4_of dest) as [[a port]| | |]; try discriminate. cbn [mbind res_bind]. unfold as_udp.
  destruct (stream_udp_open _ _ _ _ _ _ _ _ _) as [[s ret]| | |] eqn:E; try discriminate. cbn [mbind res_bind]. intros H.
  eapply keep_some; [exact H| |done|by intros [[? ?] ?]]. intros ->. by eapply udp_open_some.
Qed.

(** ** Files by their names *)
Definition file_addr (p : cptr) : stream_addr := {| addr := ULocal p; _type := htons STREAM_ADDR_CAPFILE; _flags := htons STREAM_ADDR_LOCAL |}.

Lemma stream_open_file p name mpid c body f :
  e_fopen e (p_str p) = inl f -> pos f = 0 -> ferror f = None -> blen c < 65536 ->
  content f = file_header_image (new_header mpid c) ++ c ++ body ->
  exists sf, stream_open e (file_addr p) name 0 = Ok (Some (FileStream sf), 0, []) /\ st_addr (base sf) = file_addr p /\
    opened sf (new_header mpid c) c body BUFSIZ.
Proof.
  intros Ho Hp He Hc Hcont.
  destruct (open_current (e_fopen e) None (Some (p_str p)) mpid c body BUFSIZ f) as (sf & E & Hop); try done.
  exists (sf <| base := (base sf) <| st_addr := file_addr p |> |>). split_and!; [|done|].
  - transitivity (r ← as_file (stream_file_open (e_fopen e) None (Some (p_str p)) BUFSIZ); Ok (keep_addr (file_addr p) r)); [done|]. by rewrite E.
  - destruct Hop as [Hi Hsz Hh Hcm Hu Hs Hb Hst]. constructor; try done. destruct Hi. by constructor.
Qed.

Lemma stream_create_file p nic mpid c : e_fcreate e (p_str p) = inl empty_file ->
  exists w, stream_create e (file_addr p) nic mpid (Some c) = Ok (Some (FileStream w), 0, []) /\ at_end (file w) /\
    content (file w) = file_header_image (new_header mpid c) ++ c.
Proof.
  intros Ho. destruct (create_ok (e_fcreate e) None (Some (p_str p)) mpid c 1 empty_file) as (w & Ew & Hend & Hcw); [done..|].
  exists (w <| base := (base w) <| st_addr := file_addr p |> |>). split_and!; [|done|done].
  transitivity (r ← as_file (stream_file_create (e_fcreate e) None (Some (p_str p)) mpid (Some c) 1); Ok (keep_addr (file_addr p) r)); [done|]. by rewrite Ew.
Qed.

(** ** Ethernet groups on the command line *)
(** The argument writes the group as twelve hexadecimal digits. *)
Definition names_group (arg : cptr) (mac : bytes) : Prop :=
  exists digits, mac_digits digits mac /\ p_str arg = B "eth://" ++ digits.
Record group (mac : bytes) : Prop := {
  g_bytes : is_bytes mac;
  g_length : length mac = 6%nat;
  g_multicast : multicast mac;
  g_member : e_eth_member e mac = None;
}.

Variable strdup : bytes -> cptr.

Lemma group_parsed arg mac : names_group arg mac -> group mac ->
  stream_addr_aton strdup zero_addr arg STREAM_ADDR_GUESS 0 = Ok (eth_stream_addr mac 0, 0).
Proof. intros (s & Hd & Hs) _. by apply (aton_eth_text _ _ _ _ s). Qed.
Lemma group_not_dash arg mac : names_group arg mac -> bool_decide (p_str arg = B "-") = false.
Proof. intros (s & _ & Hs). apply bool_decide_eq_false. rewrite Hs. discriminate. Qed.

Lemma ether_of_group mac : length mac = 6%nat -> ether_of (eth_stream_addr mac 0) = Ok mac.
Proof. intros Hl. cbn. unfold ether_image. apply (slice_app [] mac); [done|unfold blen; lia]. Qed.

Lemma add_group b fb eth mac : group mac -> (length (StreamEthernet.address eth) < 100)%nat ->
  stream_add e (Some (EthernetStream b fb eth)) (eth_stream_addr mac 0) =
    Ok (Some (EthernetStream (b <| num_addresses := Z.of_nat (S (length (StreamEthernet.address eth))) |>) fb
                (eth <| StreamEthernet.address := StreamEthernet.address eth ++ [mac] |>)), 0).
Proof.
  intros [Hb Hl Hm Hme] Hn. unfold stream_add. change (stream_addr_type (eth_stream_addr mac 0)) with STREAM_ADDR_ETHERNET. cbn [Z.eqb STREAM_ADDR_ETHERNET].
  rewrite ether_of_group by done. cbn [mbind res_bind]. unfold stream_ethernet_add, StreamEthernet.MAX_ADDRESS.
  rewrite (proj2 (Z.eqb_neq _ _)) by lia. destruct (first_octet mac) as (o & -> & Ho); [unfold blen; lia|]. cbn [mbind res_bind].
  change (Z.land o 1) with (Z.land o (Z.ones 1)). rewrite Z.land_ones, Zmod_odd, (proj1 Ho Hm), Hme by lia. cbn [mbind res_bind Z.eqb].
  replace (Z.of_nat (length _)) with (Z.of_nat (S (length (StreamEthernet.address eth)))); [done|]. cbn. rewrite length_app. cbn. lia.
Qed.

(** Every further group is entered behind the others. *)
Lemma add_groups args macs b fb eth : Forall2 names_group args macs -> Forall group macs ->
  num_addresses b = Z.of_nat (length (StreamEthernet.address eth)) -> (length (StreamEthernet.address eth) + length macs <= 100)%nat ->
  exists b', add_all e strdup (Some (EthernetStream b fb eth)) args =
      Ok (Some (EthernetStream b' fb (eth <| StreamEthernet.address := StreamEthernet.address eth ++ macs |>)), 0) /\
    b' = b <| num_addresses := Z.of_nat (length (StreamEthernet.address eth) + length macs) |>.
Proof.
  intros Hn. revert b eth. induction Hn as [|arg mac args macs Ha Hn IH]; intros b eth Hg Hb Hl; cbn [add_all].
  - exists b. rewrite app_nil_r, Nat.add_0_r, <- Hb. split; [by destruct eth|by destruct b].
  - apply Forall_cons_1 in Hg as [Hg Hgs]. rewrite (group_parsed arg mac) by done. cbn [mbind res_bind Z.eqb negb length] in *.
    rewrite add_group by (done || lia). cbn [mbind res_bind Z.eqb negb].
    destruct (IH (b <| num_addresses := Z.of_nat (S (length (StreamEthernet.address eth))) |>)
      (eth <| StreamEthernet.address := StreamEthernet.address eth ++ [mac] |>)) as (b' & -> & ->); try done.
    + cbn. rewrite length_app. cbn. lia.
    + cbn. rewrite length_app. cbn. lia.
    + eexists. split.
      * cbn. rewrite <- (assoc_L (++)). reflexivity.
      * cbn. rewrite length_app. cbn. f_equal. lia.
Qed.

(** The conditions on the interface and on the sockets. *)
Record ethernet_ready (name : bytes) (size : Z) (ifs : iface) : Prop := {
  er_iface : iface_get (e_sys e) name = Ok (inl ifs);
  er_reasonable : reasonable ifs size;
  er_fits : fits_interface ifs size;
  er_socket : e_raw_socket e = None;
  er_bind : e_raw_bind e = None;
}.

(** C18: From the command line to an open stream: arguments that write out Ethernet
    multicast groups, at most 100 of them, open one stream that receives exactly
    these groups, in their order.  The groups are written as twelve hexadecimal
    digits: the forms with delimiters overrun an array ([aton_ethernet_overflow]). *)
Theorem getopt_ethernet tty dev args macs name ifs size defaddr :
  macs <> [] -> Forall2 names_group args macs -> Forall group macs -> (length macs <= 100)%nat -> ethernet_ready name size ifs ->
  exists b fb, stream_from_getopt e strdup tty dev args (Some name) defaddr size =
      Ok (Some (EthernetStream b fb ((eth_opened (e_frames e) [] ifs) <| StreamEthernet.address := macs |>)), 0, []) /\
    fb_rep (off := sizeof_ethhdr) (size := frame_bytes ifs) b fb [] [] /\ num_addresses b = Z.of_nat (length macs).
Proof.
  intros Hne Hn Hg Hl [Hi Hr Hf Hso Hbi]. destruct Hn as [|arg mac args macs Ha Hn]; [done|]. apply Forall_cons_1 in Hg as [Hg Hgs].
  pose proof Hg as [Hb H6 Hm Hme].
  destruct (ethernet_open_ok (e_sys e) (e_raw_socket e) (e_raw_bind e) (e_eth_member e) (e_frames e) mac) with (name := Some name) (size := size) (ifs := ifs)
    as (b & fb & E & Hrep & _ & Hnum); [unfold blen; lia|done|by constructor; [eauto|..]|].
  unfold stream_from_getopt. rewrite (group_not_dash arg mac Ha). cbn [andb]. rewrite (group_parsed arg mac) by done. cbn [mbind res_bind Z.eqb negb].
  change (stream_addr_type (eth_stream_addr mac 0)) with STREAM_ADDR_ETHERNET. rewrite (bool_decide_eq_false_2 (Some name = None)) by done.
  unfold stream_open. change (stream_addr_type (eth_stream_addr mac 0)) with STREAM_ADDR_ETHERNET. cbn [Z.eqb Pos.eqb STREAM_ADDR_ETHERNET STREAM_ADDR_TCP andb].
  rewrite ether_of_group by done. cbn [mbind res_bind]. rewrite E. cbn [mbind res_bind as_ethernet keep_addr option_map Z.eqb Pos.eqb orb negb set_base base_of tail].
  set (b1 := b <| st_addr := eth_stream_addr mac 0 |>). assert (H1 : num_addresses b1 = 1) by done.
  assert (Hb1 : fb_rep (off := sizeof_ethhdr) (size := frame_bytes ifs) b1 fb [] []) by (by eapply fb_rep_stat; [..|exact Hrep]).
  clearbody b1. destruct args as [|arg2 args].
  { inversion Hn; subst. exists b1, fb. by split_and!. }
  destruct (add_groups (arg2 :: args) macs b1 fb (eth_opened (e_frames e) mac ifs)) as (b' & -> & Hb'); try done.
  cbn [mbind res_bind]. exists b', fb. subst b'. split_and!; [done|by eapply fb_rep_stat; [..|exact Hb1]|done].
Qed.

(** An Ethernet address without an interface is an error to the user, but the result
    says that all went well and there is no stream. *)
Theorem getopt_no_interface tty dev arg mac args defaddr size : names_group arg mac -> group mac ->
  stream_from_getopt e strdup tty dev (arg :: args) None defaddr size = Ok (None, 0, []).
Proof.
  intros Ha Hg. unfold stream_from_getopt. rewrite (group_not_dash arg mac Ha). cbn [andb]. by rewrite (group_parsed arg mac).
Qed.
End Claims.

(** An address of the other kind makes the stream be taken for what it is not. *)
Lemma stream_add_mixed e b fb eth ip port flags : is_u32 ip -> is_u16 port ->
  stream_add e (Some (EthernetStream b fb eth)) (inet_stream_addr STREAM_ADDR_UDP ip port flags) = Fault.
Proof.
  intros Hi Hp. unfold stream_add. change (stream_addr_type _) with STREAM_ADDR_UDP. cbn [Z.eqb Pos.eqb STREAM_ADDR_UDP STREAM_ADDR_ETHERNET].
  assert (E : ipv4_of (inet_stream_addr STREAM_ADDR_UDP ip port flags) = Ok (ip, htons port)); [|by rewrite E].
  unfold ipv4_of, inet_stream_addr, ipv4_image. cbn [addr].
  assert (E2 : forall r, rd16 (le16 AF_INET ++ le16 (htons port) ++ r) 2 = Ok (htons port)) by (intros; apply rd16_at; [done|apply ntohs_range]).
  rewrite E2. cbn [mbind res_bind]. rewrite (assoc_L (++)), rd32_at; [done|done|done].
Qed.

(** ** Witnesses *)
Definition ex_env : env := {|
  e_fopen _ := inl ex_file; e_fcreate _ := inl empty_file; e_fp _ := ex_file; e_mkfifo _ := None; e_stat_error _ := None; e_sys := ex_system; e_raw_socket := None; e_raw_bind := None;
  e_eth_member _ := None; e_frames := ex_arrivals; e_udp_socket := None; e_udp_bind := ex_bind; e_udp_connect := ex_bind;
  e_udp_member := ex_join; e_path_mtu := ex_no_path; e_datagrams := [] |}.
Definition ex_groups : list bytes := [ex_group; [1; 0; 94; 0; 0; 2]].
Definition ex_args : list cptr := map (fun mac => {| p_at := 4096; p_str := B "eth://" ++ concat (map hex2 mac) |}) ex_groups.

Lemma ex_group_ok mac : mac ∈ ex_groups -> group ex_env mac.
Proof.
  intros H. repeat (apply elem_of_cons in H as [->|H]; [constructor; [repeat constructor; done|done|by intros b [= <-]|done]|]).
  by apply not_elem_of_nil in H.
Qed.

Lemma ex_args_name : Forall2 names_group ex_args ex_groups.
Proof.
  repeat (constructor; [eexists; split; [apply mac_digits_hex2; [repeat constructor; done|reflexivity]|reflexivity]|]). constructor.
Qed.

Lemma getopt_ethernet_witness : exists b fb,
  stream_from_getopt ex_env ex_strdup false 0 ex_args (Some (B "eth0")) None 256 =
    Ok (Some (EthernetStream b fb ((eth_opened ex_arrivals [] ex_iface) <| StreamEthernet.address := ex_groups |>)), 0, []) /\
  fb_rep (off := sizeof_ethhdr) (size := frame_bytes ex_iface) b fb [] [] /\ num_addresses b = 2.
Proof.
  apply (getopt_ethernet ex_env ex_strdup false 0 ex_args ex_groups (B "eth0") ex_iface 256 None); [done|exact ex_args_name| |cbn; lia|].
  - apply list.Forall_forall. exact ex_group_ok.
  - destruct ex_openable as [Hr [_ Hf _ _ _ _]]. by constructor.
Defined.

Lemma stream_open_kind_witness : exists s,
  stream_open ex_env (eth_stream_addr ex_group 0) (Some (B "eth0")) 256 = Ok (Some s, 0, []) /\
  kind_of STREAM_ADDR_ETHERNET s /\ st_addr (base_of s) = eth_stream_addr ex_group 0.
Proof.
  assert (E : exists st, stream_open ex_env (eth_stream_addr ex_group 0) (Some (B "eth0")) 256 = Ok (st, 0, [])) by (eexists; vm_compute; reflexivity).
  destruct E as [st E]. destruct (stream_open_kind ex_env (eth_stream_addr ex_group 0) (Some (B "eth0")) 256 st []) as (s & H1 & H2 & H3 & _);
    [by constructor|exact E|]. exists s. rewrite H1 in E. split; [exact E|]. split; [exact H2|exact H3].
Defined.

Lemma getopt_no_interface_witness : stream_from_getopt ex_env ex_strdup false 0 ex_args None None 0 = Ok (None, 0, []).
Proof. apply (getopt_no_interface ex_env ex_strdup false 0 _ ex_group); [by pose proof ex_args_name as H; apply Forall2_cons_1 in H as [H _]|]. apply ex_group_ok. by left. Defined.
