(* ===== verification/Marc.v ===== *)
(** * The control protocol (src/marc.c, src/marc_dstat.c, caputils/marc.h)

    A measurement point (client) and a MArCd (server) exchange datagrams.  A
    message is the byte image of [MPMessage], a union of 1420 bytes; its fields
    are loads and stores at the offsets of the C structs.  The system calls
    (sockets, [select], interface queries) are not part of the program: what they
    return is an argument, and what is sent is a result. *)

From S2P Require Import Prelude CLib.

(** ** Layout of the messages *)
Definition sizeof_MPMessage : Z := 1420.
Definition sizeof_MPinitialization : Z := 256.
Definition sizeof_CIinitialization : Z := 8.
Definition sizeof_MPauth : Z := 24.
Definition sizeof_MPFilterID : Z := 24.
Definition sizeof_MPFilter : Z := 236.
Definition sizeof_MPstatusExtended : Z := 40.
Definition sizeof_CIstats : Z := 24.
Definition sizeof_MPDStat : Z := 24.
Definition sizeof_MPDStatHdr : Z := 4.
Definition off_CIstats : Z := 32.
Definition off_payload : Z := 20.

(** *** [enum MPEvent] *)
Definition MP_LEGACY_INIT_EVENT : Z := 1.
Definition MP_LEGACY_AUTH_EVENT : Z := 1.
Definition MP_LEGACY_STATUS_EVENT : Z := 2.
Definition MP_LEGACY_FILTER_RELOAD_EVENT : Z := 2.
Definition MP_LEGACY_FILTER_ADD_EVENT : Z := 3.
Definition MP_LEGACY_FILTER_DEL_EVENT : Z := 5.
Definition MP_STATUS_EVENT : Z := 64.
Definition MP_FILTER_REQUEST_EVENT : Z := 66.
Definition MP_FILTER_EVENT : Z := 67.
Definition MP_FILTER_RELOAD_EVENT : Z := 68.
Definition MP_FILTER_DEL_EVENT : Z := 69.
Definition MP_FILTER_INVALID_ID : Z := 72.
Definition MP_STATUS3_EVENT : Z := 100.
Definition MP_DSTAT_EVENT : Z := 101.
Definition MP_CONTROL_INIT_EVENT : Z := 1.
Definition MP_CONTROL_AUTHORIZE_EVENT : Z := 128.
Definition MP_CONTROL_TERMINATE_EVENT : Z := 130.
Definition MP_CONTROL_PING_EVENT : Z := 133.
Definition MP_CONTROL_DISTRESS : Z := 256.
Definition MP_CONTROL_STOP_EVENT : Z := 257.
Definition MP_CONTROL_START_EVENT : Z := 258.

(** ** The identifier of a measurement point: 16 characters, not necessarily
    terminated *)
Definition mampid_set (src : option bytes) : bytes :=
  match src with
  | Some s => strncpy s 16
  | None => replicate 16 0
  end.

(** [sprintf(buf, "%.16s", src)] reads at most 16 characters. *)
Definition mampid_get (src : bytes) : res bytes :=
  c ← rd8 src 0;
  if negb (c =? 0) then Ok (cstr (take 16 src)) else Ok (B "(nil)").

(** ** Dynamic status reports: a chain of headers, each with its length *)
Module Dstat.
Definition MP_DSTAT_TRAILER : Z := 0.

Definition mp_dstat_next (m : bytes) (cur : Z) : res (option Z) :=
  t ← be16 m cur;
  if t =? MP_DSTAT_TRAILER then Ok None
  else l ← be16 m (cur + 2); Ok (Some (cur + l)).

Fixpoint mp_dstat_loop (fuel : nat) (m : bytes) (n : Z) (cur : option Z) : res Z :=
  match cur with
  | None => Ok n
  | Some cur =>
      match fuel with
      | O => OutOfFuel
      | S fuel =>
          l ← be16 m (cur + 2);
          next ← mp_dstat_next m cur;
          mp_dstat_loop fuel m (n + l) next
      end
  end.
Definition mp_dstat_size (fuel : nat) (event : bytes) : res Z :=
  n ← mp_dstat_loop fuel event sizeof_MPDStat (Some sizeof_MPDStat);
  Ok (n + sizeof_MPDStatHdr).
End Dstat.
Export Dstat.

(** ** Sizes and types of events *)
Definition strlen_at (m : bytes) (o : Z) : res Z :=
  s ← arr_str (drop (Z.to_nat o) m); Ok (blen s).

(** The [assert] of the default branch stops the program. *)
Definition event_size (fuel : nat) (event : bytes) : res Z :=
  type ← rd32 event 0;
  if type =? MP_CONTROL_INIT_EVENT then
    noCI ← rd16 event 220;
    Ok (sizeof_MPinitialization + ntohs (u16 (sizeof_CIinitialization * noCI)))
  else if type =? MP_CONTROL_AUTHORIZE_EVENT then Ok sizeof_MPauth
  else if type =? MP_STATUS_EVENT then
    l ← strlen_at event off_CIstats; Ok (off_CIstats + l + 1)
  else if type =? MP_STATUS3_EVENT then
    noCI ← rd8 event 38; Ok (sizeof_MPstatusExtended + sizeof_CIstats * noCI)
  else if type =? MP_DSTAT_EVENT then mp_dstat_size fuel event
  else if type =? MP_FILTER_EVENT then Ok sizeof_MPFilter
  else if type =? MP_FILTER_REQUEST_EVENT then Ok sizeof_MPFilterID
  else if type =? MP_FILTER_INVALID_ID then Ok 4
  else if (type =? MP_CONTROL_TERMINATE_EVENT) || (type =? MP_CONTROL_STOP_EVENT)
          || (type =? MP_CONTROL_START_EVENT) || (type =? MP_CONTROL_DISTRESS)
          || (type =? MP_CONTROL_PING_EVENT) then Ok (4 + 16)
  else Abort.

Definition legacy_compat (event : Z) : Z :=
  if event =? MP_CONTROL_INIT_EVENT then MP_LEGACY_INIT_EVENT
  else if event =? MP_STATUS_EVENT then MP_LEGACY_STATUS_EVENT
  else if event =? MP_FILTER_REQUEST_EVENT then 3
  else if event =? MP_LEGACY_FILTER_ADD_EVENT then MP_FILTER_EVENT
  else event.

(** ** Contexts

    [struct client] and [struct server] both begin with the common part; a
    function that casts a context to [struct client] reads and writes behind the
    end of a [struct server], which is smaller. *)
Record sockaddr_in := { sin_family : Z; sin_port : Z; sin_addr : Z }.
Definition zero_sockaddr : sockaddr_in := {| sin_family := 0; sin_port := 0; sin_addr := 0 |}.
Definition AF_INET : Z := 2.

Inductive context_type := CONTEXT_SERVER | CONTEXT_CLIENT.

(** [compat]: whether the pointer is set; its only non-null value is
    [legacy_compat]. *)
Record marc_context := {
  ctx_ip : bytes;
  ctx_port : Z;
  ctx_iface : option bytes;
  ctx_hwaddr : bytes;
  ctx_type : context_type;
  ctx_sd : Z;
  ctx_compat : bool;
  ctx_client_addr : sockaddr_in;
  ctx_relay_addr : sockaddr_in;
  ctx_server_addr : sockaddr_in;
  ctx_server_version : bytes;
}.
#[export] Instance marc_context_rebuild : Rebuild marc_context := fun c =>
  {| ctx_ip := ctx_ip c; ctx_port := ctx_port c; ctx_iface := ctx_iface c; ctx_hwaddr := ctx_hwaddr c;
     ctx_type := ctx_type c; ctx_sd := ctx_sd c; ctx_compat := ctx_compat c;
     ctx_client_addr := ctx_client_addr c; ctx_relay_addr := ctx_relay_addr c;
     ctx_server_addr := ctx_server_addr c; ctx_server_version := ctx_server_version c |}.

(** [((struct client * )ctx)->server_addr] and the store of [server_version]. *)
Definition client_server_addr (ctx : marc_context) : res sockaddr_in :=
  match ctx_type ctx with
  | CONTEXT_CLIENT => Ok (ctx_server_addr ctx)
  | CONTEXT_SERVER => Fault
  end.
Definition store_server_version (ctx : marc_context) (v : bytes) : res marc_context :=
  match ctx_type ctx with
  | CONTEXT_CLIENT => Ok (ctx <| ctx_server_version := v |>)
  | CONTEXT_SERVER => Fault
  end.

(** ** Sending *)

(** A datagram and where it goes. *)
Definition datagram : Type := bytes * sockaddr_in.

(** What [sendto] does with a datagram: [None] when it was sent, else [errno]. *)
Definition send_result : Type := datagram -> option Z.

(** The return value, the caller's message (its type is converted in place) and
    the datagram, when one was sent. *)
Definition marc_push_event (sendto : send_result) (fuel : nat) (ctx : marc_context)
    (event : bytes) (dst : option sockaddr_in) : res (Z * bytes * list datagram) :=
  size ← event_size fuel event;
  type ← rd32 event 0;
  let type := if ctx_compat ctx then legacy_compat type else type in
  event ← wr event 0 (le32 (htonl type));
  dst ← match dst with Some d => Ok d | None => client_server_addr ctx end;
  data ← slice event 0 size;
  match sendto (data, dst) with
  | Some errno => Ok (errno, event, [])
  | None => Ok (0, event, [(data, dst)])
  end.

Definition marc_filter_request (sendto : send_result) (fuel : nat) (ctx : marc_context)
    (MAMPid : option bytes) (filter_id : Z) : res (Z * bytes * list datagram) :=
  let msg := le32 MP_FILTER_REQUEST_EVENT ++ mampid_set MAMPid ++ le32 (htonl filter_id) in
  marc_push_event sendto fuel ctx msg None.

(** [struct marc_client_info]; the two extended versions are their four bytes and
    [CI] is the array of eight interface names. *)
Record marc_client_info := {
  info_client_ip : option bytes;
  info_server_ip : option bytes;
  info_client_port : Z;
  info_max_filters : Z;
  info_noCI : Z;
  info_ma_mtu : Z;
  info_version_caputils : bytes;
  info_version_self : bytes;
  info_drivers : Z;
  info_CI : bytes;
}.
#[export] Instance marc_client_info_rebuild : Rebuild marc_client_info := fun i =>
  {| info_client_ip := info_client_ip i; info_server_ip := info_server_ip i;
     info_client_port := info_client_port i; info_max_filters := info_max_filters i;
     info_noCI := info_noCI i; info_ma_mtu := info_ma_mtu i;
     info_version_caputils := info_version_caputils i; info_version_self := info_version_self i;
     info_drivers := info_drivers i; info_CI := info_CI i |}.

(** The release of the library ([caputils/version.h] is made by the build) and
    the name of the host. *)
Record host := { VERSION_MAJOR : Z; VERSION_MINOR : Z; host_name : bytes }.

Definition marc_client_init_request (sendto : send_result) (h : host) (fuel : nat)
    (ctx : marc_context) (info : marc_client_info) : res (Z * bytes * list datagram) :=
  let msg := replicate 1420 0 in
  msg ← wr msg 0 (le32 MP_CONTROL_INIT_EVENT);
  msg ← wr msg 4 (ctx_hwaddr ctx);
  msg ← wr msg 12 (take 198 (host_name h ++ [0]));
  server ← client_server_addr ctx;
  msg ← wr msg 212 (le32 (sin_addr (ctx_client_addr ctx)));
  msg ← wr msg 216 (le16 (sin_port (ctx_client_addr ctx)));
  msg ← wr msg 218 (le16 (htons (info_max_filters info)));
  msg ← wr msg 220 (le16 (htons (info_noCI info)));
  msg ← wr msg 210 (le16 (htons (info_ma_mtu info)));
  msg ← wr msg 238 (le16 (htons (VERSION_MAJOR h)));
  msg ← wr msg 240 (le16 (htons (VERSION_MINOR h)));
  msg ← wr msg 242 (info_version_caputils info);
  msg ← wr msg 246 (info_version_self info);
  msg ← wr msg 252 (le32 (htonl (info_drivers info)));
  ci ← slice (info_CI info) 0 (sizeof_CIinitialization * info_noCI info);
  msg ← wr msg 256 ci;
  marc_push_event sendto fuel ctx msg (Some server).

(** ** Receiving *)

(** What [select] and, when it reports data, [recvfrom] do. *)
Inductive recv_result :=
| RecvError (errno : Z)
| Received (data : bytes) (from : sockaddr_in).
Inductive select_result :=
| SelectError (errno : Z)
| SelectTimeout
| SelectReady (r : recv_result).

Definition EAGAIN : Z := 11.

(** The bytes of a datagram that fit replace the head of the buffer. *)
Definition recv_into (buf data : bytes) : bytes :=
  take (length buf) data ++ drop (length data) buf.

(** What a caller sees: the return value, its context and message, the length
    ([None]: not written) and the sender. *)
Record poll_outcome := {
  po_ret : Z;
  po_ctx : marc_context;
  po_event : bytes;
  po_size : option Z;
  po_from : option sockaddr_in;
  po_sent : list datagram;
}.

(** [event->filter_id.id = htonl(atoi(event->payload))] *)
Definition store_atoi (event : bytes) : res bytes :=
  s ← arr_str (drop (Z.to_nat off_payload) event);
  wr event 20 (le32 (htonl (u32 (atoi s)))).

Definition set_type (event : bytes) (t : Z) : res bytes := wr event 0 (le32 t).

(** The version fields a message of a 0.6 peer does not have. *)
Definition fill_version (ctx : marc_context) (event : bytes) (n : Z) : res (marc_context * bytes) :=
  type ← rd32 event 0;
  match ctx_type ctx with
  | CONTEXT_CLIENT =>
      if (type =? MP_LEGACY_AUTH_EVENT) && (n <? sizeof_MPauth) then
        event ← set_type event MP_CONTROL_AUTHORIZE_EVENT;
        event ← wr event 20 (le16 0);
        event ← wr event 22 (le16 6);
        Ok (ctx <| ctx_compat := true |>, event)
      else Ok (ctx, event)
  | CONTEXT_SERVER =>
      if (type =? MP_LEGACY_INIT_EVENT) && (n <? sizeof_MPinitialization) then
        event ← set_type event MP_CONTROL_INIT_EVENT;
        event ← wr event 220 (le16 0);
        event ← wr event 238 (le16 (htons 0));
        event ← wr event 240 (le16 (htons 6));
        Ok (ctx, event)
      else Ok (ctx, event)
  end.

(** Messages of the web interface, which do not have a full payload, and the
    translation of types in compatibility mode. *)
Definition translate (ctx : marc_context) (event : bytes) (n : Z) : res bytes :=
  type ← rd32 event 0;
  if (n <? 100) && (type <? 11) then
    if type =? MP_LEGACY_FILTER_ADD_EVENT then
      event ← set_type event MP_FILTER_REQUEST_EVENT; store_atoi event
    else if type =? MP_LEGACY_FILTER_DEL_EVENT then
      event ← set_type event MP_FILTER_DEL_EVENT; store_atoi event
    else if type =? MP_LEGACY_FILTER_RELOAD_EVENT then
      event ← set_type event MP_FILTER_RELOAD_EVENT; wr event 20 (le32 (htonl (u32 (-1))))
    else Ok event
  else if ctx_compat ctx then set_type event (legacy_compat type)
  else Ok event.

(** [errno] is the value the variable has before the call, which an empty
    datagram leaves as it is. *)
Definition marc_poll_event (sendto : send_result) (fuel : nat) (errno : Z) (ctx : marc_context)
    (sel : select_result) : res poll_outcome :=
  let event := replicate 1420 0 in
  let out ret := {| po_ret := ret; po_ctx := ctx; po_event := event; po_size := None;
                    po_from := None; po_sent := [] |} in
  match sel with
  | SelectError e => Ok (out e)
  | SelectTimeout => Ok (out EAGAIN)
  | SelectReady (RecvError e) => Ok (out e)
  | SelectReady (Received data from) =>
      let n := Z.min (blen data) sizeof_MPMessage in
      if n <=? 0 then Ok (out errno)
      else
        let event := recv_into event data in
        type ← rd32 event 0;
        event ← set_type event (ntohl type);
        '(ctx, event) ← fill_version ctx event n;
        type ← rd32 event 0;
        ctx ← (if type =? MP_CONTROL_AUTHORIZE_EVENT then
                 v ← slice event 238 4; store_server_version ctx v
               else Ok ctx);
        if type =? MP_CONTROL_PING_EVENT then
          '(_, event, sent) ← marc_push_event sendto fuel ctx event (Some from);
          Ok {| po_ret := EAGAIN; po_ctx := ctx; po_event := event; po_size := None;
                po_from := Some from; po_sent := sent |}
        else
          event ← translate ctx event n;
          Ok {| po_ret := 0; po_ctx := ctx; po_event := event; po_size := Some n;
                po_from := Some from; po_sent := [] |}
  end.

(** ** Setting up a client and a server *)
#[export] Instance sockaddr_in_rebuild : Rebuild sockaddr_in := fun a =>
  {| sin_family := sin_family a; sin_port := sin_port a; sin_addr := sin_addr a |}.

Definition DEFAULT_CLIENT_PORT : Z := 2000.
Definition DEFAULT_RELAY_PORT : Z := 1500.
Definition DEFAULT_MARCD_PORT : Z := 1600.
Definition INADDR_BROADCAST : Z := 4294967295.
Definition ECANCELED : Z := 125.
Definition ECONNREFUSED : Z := 111.
Definition sizeof_MAINFO : Z := 220.
Definition max_retries : Z := 6.
Definition timeout_factor : Z := 8.

(** What the system answers: an error number or the value that was asked for.
    [net_select n] is the wait of the [n]th try; [net_errno] is the value [errno]
    has when a call that does not set it fails; [net_stack] is what the
    uninitialised reply structure holds. *)
Record net := {
  net_socket : Z + Z;
  net_hwaddr : bytes -> Z + bytes;
  net_addr : bytes -> Z + sockaddr_in;
  net_broadcast : Z -> option Z;
  net_bind : sockaddr_in -> option Z;
  net_sendto : send_result;
  net_select : Z -> select_result;
  net_malloc : option Z;
  net_errno : Z;
  net_stack : bytes;
}.

(** The return value, the context (when [*ctxptr] was written), the caller's
    [info], the datagrams sent and the time-outs, in seconds, of the waits. *)
Record init_outcome := {
  io_ret : Z;
  io_ctx : option marc_context;
  io_info : marc_client_info;
  io_sent : list datagram;
  io_waits : list Z;
}.

(** The [while] loop that waits for the relay: an error to return, or the value
    of [n] at its end and the reply buffer. *)
Fixpoint await_reply (tries : nat) (select : Z -> select_result) (n : Z) (reply : bytes)
    : (Z + Z * bytes) * list Z :=
  match tries with
  | O => (inr (n, reply), [])
  | S tries =>
      match select n with
      | SelectError e => (inl e, [n * timeout_factor])
      | SelectTimeout =>
          let '(r, w) := await_reply tries select (n + 1) reply in (r, n * timeout_factor :: w)
      | SelectReady (RecvError e) => (inl e, [n * timeout_factor])
      | SelectReady (Received data _) => (inr (n, recv_into reply data), [n * timeout_factor])
      end
  end.

(** The address of the client: the interface's.  An address in [info] is written
    to the start of the structure, where the family and the port are, and these
    are set afterwards. *)
Definition client_address (ifaddr : sockaddr_in) (info : marc_client_info) : option sockaddr_in :=
  addr ← match info_client_ip info with
         | None => Some ifaddr
         | Some s => a ← inet_aton s;
                     Some (ifaddr <| sin_family := a mod 65536 |> <| sin_port := a / 65536 |>)
         end;
  Some (addr <| sin_family := AF_INET |> <| sin_port := htons (info_client_port info) |>).

Definition relay_address (info : marc_client_info) : option sockaddr_in :=
  a ← match info_server_ip info with
      | None => Some (htonl INADDR_BROADCAST)
      | Some s => inet_aton s
      end;
  Some {| sin_family := AF_INET; sin_port := htons DEFAULT_RELAY_PORT; sin_addr := a |}.

(** The request: [struct MAINFO], zeroed, then filled. *)
Definition mainfo_request (client_addr : sockaddr_in) : res bytes :=
  m ← wr (replicate 220 0) 0 (le32 (htons 3));
  m ← wr m 20 (le32 (sin_port client_addr));
  wr m 4 (inet_ntoa (sin_addr client_addr) ++ [0]).

(** The address of the MArCd in the reply; an address that is not valid leaves
    zero. *)
Definition server_address (reply : bytes) : res sockaddr_in :=
  portUDP ← rd32 reply 216;
  address ← arr_str (drop 4 reply);
  Ok {| sin_family := AF_INET; sin_port := htons portUDP;
        sin_addr := match inet_aton address with Some a => a | None => 0 end |}.

Definition marc_init_client (env : net) (h : host) (fuel : nat) (iface : bytes)
    (info : marc_client_info) : res init_outcome :=
  let out ret info sent waits := {| io_ret := ret; io_ctx := None; io_info := info;
                                    io_sent := sent; io_waits := waits |} in
  let ifr_name := cstr (strncpy iface 16) in
  match net_socket env with inl e => Ok (out e info [] []) | inr sd =>
  match net_hwaddr env ifr_name with inl e => Ok (out e info [] []) | inr hwaddr =>
  match net_addr env ifr_name with inl e => Ok (out e info [] []) | inr ifaddr =>
  if negb (sin_family ifaddr =? AF_INET) then Ok (out (net_errno env) info [] []) else
  match net_broadcast env 1 with Some e => Ok (out e info [] []) | None =>
  let info := if info_client_port info =? 0
              then info <| info_client_port := DEFAULT_CLIENT_PORT |> else info in
  match client_address ifaddr info with
  | None => Ok (out (net_errno env) info [] [])
  | Some client_addr =>
  match relay_address info with
  | None => Ok (out (net_errno env) info [] [])
  | Some relay_addr =>
  match net_bind env client_addr with Some e => Ok (out e info [] []) | None =>
  mainfo ← mainfo_request client_addr;
  match net_sendto env (mainfo, relay_addr) with Some e => Ok (out e info [] []) | None =>
  let sent := [(mainfo, relay_addr)] in
  match await_reply (Z.to_nat (max_retries - 1)) (net_select env) 1 (net_stack env) with
  | (inl e, waits) => Ok (out e info sent waits)
  | (inr (n, reply), waits) =>
  if negb (n <? max_retries) then Ok (out ECANCELED info sent waits) else
  version ← rd32 reply 0;
  server_addr ← server_address reply;
  if ntohs (u16 version) =? 1 then Ok (out ECONNREFUSED info sent waits) else
  match net_broadcast env 0 with Some e => Ok (out e info sent waits) | None =>
  match net_malloc env with Some e => Ok (out e info sent waits) | None =>
  let ip := inet_ntoa (sin_addr client_addr) in
  let info := info <| info_client_ip := Some ip |> in
  let ctx := {| ctx_ip := ip; ctx_port := info_client_port info; ctx_iface := Some iface;
                ctx_hwaddr := hwaddr; ctx_type := CONTEXT_CLIENT; ctx_sd := sd; ctx_compat := false;
                ctx_client_addr := client_addr; ctx_relay_addr := relay_addr;
                ctx_server_addr := server_addr; ctx_server_version := [] |} in
  '(ret, _, sent') ← marc_client_init_request (net_sendto env) h fuel ctx info;
  Ok {| io_ret := ret; io_ctx := Some ctx; io_info := info; io_sent := sent ++ sent';
        io_waits := waits |}
  end end end end end end end end end end end.

Definition marc_init_server (env : net) (port : Z) : Z * option marc_context :=
  match net_socket env with inl e => (e, None) | inr sd =>
  match net_broadcast env 1 with Some e => (e, None) | None =>
  let server_port := if port =? 0 then DEFAULT_MARCD_PORT else port in
  let server_addr := {| sin_family := AF_INET; sin_port := htons server_port; sin_addr := 0 |} in
  match net_bind env server_addr with Some e => (e, None) | None =>
  match net_malloc env with Some e => (e, None) | None =>
  (0, Some {| ctx_ip := []; ctx_port := 0; ctx_iface := None; ctx_hwaddr := replicate 6 0;
              ctx_type := CONTEXT_SERVER; ctx_sd := sd; ctx_compat := false;
              ctx_client_addr := server_addr; ctx_relay_addr := zero_sockaddr;
              ctx_server_addr := zero_sockaddr; ctx_server_version := [] |})
  end end end end.

(** ** Lemmas *)
Lemma blen_recv_into buf data : blen (recv_into buf data) = blen buf.
Proof.
  unfold recv_into, blen. rewrite length_app, length_take, length_drop. lia.
Qed.

(** A store inside the message keeps its length; a field stored is read back. *)
Lemma set_type_Ok event t : 4 <= blen event -> is_u32 t ->
  exists e, set_type event t = Ok e /\ blen e = blen event /\ rd32 e 0 = Ok t /\
    forall i, 4 <= i -> rd8 e i = rd8 event i.
Proof.
  intros Hl Ht. destruct (wr_Ok event 0 (le32 t)) as (e & He & Hb & Hout & Hin); [lia|rewrite blen_le32; lia|].
  rewrite blen_le32 in *. exists e. split; [done|]. split; [done|]. split; [|intros; apply Hout; lia].
  transitivity (rd32 (le32 t ++ []) 0).
  - apply rd32_ext. intros i Hi. rewrite Hin, app_nil_r by lia. f_equal. lia.
  - by rewrite rd32_le32, u32_id.
Qed.

Lemma mampid_get_set s :
  s <> [] -> Forall (fun c => c <> 0) s -> mampid_get (mampid_set (Some s)) = Ok (take 16 s).
Proof.
  intros Hne Hs. unfold mampid_get, mampid_set.
  assert (Hl : length (strncpy s 16) = 16%nat) by apply length_strncpy.
  rewrite (take_ge (strncpy s 16)), cstr_strncpy by (done || lia).
  destruct s as [|c s]; [done|]. change (rd8 (strncpy (c :: s) 16) 0) with (Ok c).
  cbn [mbind res_bind]. destruct (Z.eqb_spec c 0); [|done]. by inversion Hs.
Qed.

(** *** Dynamic reports *)

(** The image of a chain of headers: type, length (with the four bytes of the
    header) and contents. *)
Record dstat_hdr := { dh_type : Z; dh_data : bytes }.
Definition dh_len (d : dstat_hdr) : Z := 4 + blen (dh_data d).
Definition dh_image (d : dstat_hdr) : bytes :=
  wr16be (dh_type d) ++ wr16be (dh_len d) ++ dh_data d.
Definition dh_ok (d : dstat_hdr) : Prop :=
  0 < dh_type d < 65536 /\ dh_len d < 65536.
Definition trailer (len : Z) : bytes := wr16be MP_DSTAT_TRAILER ++ wr16be len.
Fixpoint dh_total (ds : list dstat_hdr) : Z :=
  match ds with [] => 0 | d :: ds => dh_len d + dh_total ds end.

Lemma blen_dh_image d : blen (dh_image d) = dh_len d.
Proof. unfold dh_image, dh_len. rewrite !blen_app, !blen_wr16be. lia. Qed.

Lemma mp_dstat_loop_chain fuel a ds tl rest n :
  Forall dh_ok ds -> is_u16 tl -> (length ds < fuel)%nat ->
  mp_dstat_loop fuel (a ++ concat (map dh_image ds) ++ trailer tl ++ rest) n (Some (blen a))
  = Ok (n + dh_total ds + tl).
Proof.
  intros Hds Htl. revert fuel a n. induction Hds as [|d ds [Ht Hd] _ IH]; intros fuel a n Hf;
    (destruct fuel as [|fuel]; [cbn in Hf; lia|]); cbn [mp_dstat_loop].
  - cbn [map concat app]. unfold mp_dstat_next, trailer.
    rewrite <- (assoc_L (++)), (be16_at a 0 _ (blen a)) by (done || (ints; lia)).
    rewrite (assoc_L (++) a (wr16be _)), (be16_at (a ++ wr16be _) tl)
      by (rewrite ?blen_app, ?blen_wr16be; done).
    destruct fuel; cbn; f_equal; lia.
  - pose proof (blen_nonneg (dh_data d)). unfold dh_len in *.
    set (tail := concat (map dh_image ds) ++ trailer tl ++ rest).
    assert (E : a ++ concat (map dh_image (d :: ds)) ++ trailer tl ++ rest
                = a ++ wr16be (dh_type d) ++ wr16be (dh_len d) ++ dh_data d ++ tail).
    { unfold tail, dh_image. cbn [map concat]. unfold dh_image. by rewrite <- !(assoc_L (++)). }
    assert (Et : be16 (a ++ concat (map dh_image (d :: ds)) ++ trailer tl ++ rest) (blen a) = Ok (dh_type d)).
    { rewrite E. apply be16_at; [done|ints; lia]. }
    assert (El : be16 (a ++ concat (map dh_image (d :: ds)) ++ trailer tl ++ rest) (blen a + 2) = Ok (dh_len d)).
    { rewrite E, (assoc_L (++) a). apply be16_at; [by rewrite blen_app|ints; unfold dh_len; lia]. }
    unfold mp_dstat_next. rewrite Et, El. cbn [mbind res_bind].
    rewrite (proj2 (Z.eqb_neq _ _)) by (unfold MP_DSTAT_TRAILER; lia).
    replace (blen a + dh_len d) with (blen (a ++ dh_image d)) by (rewrite blen_app, blen_dh_image; done).
    specialize (IH fuel (a ++ dh_image d) (n + dh_len d)). cbn [length] in Hf.
    cbn [map concat]. rewrite <- !(assoc_L (++)) in *.
    cbn [mbind res_bind]. rewrite IH by lia. cbn [dh_total]. f_equal. lia.
Qed.

(** *** Receiving *)
Lemma recv_into_zeros data :
  blen data <= sizeof_MPMessage ->
  recv_into (replicate 1420 0) data = data ++ replicate (1420 - length data) 0.
Proof.
  unfold recv_into, sizeof_MPMessage, blen. intros. rewrite length_replicate, take_ge by lia.
  by rewrite drop_replicate.
Qed.



(** A short message ends with zeros, so the number in it is read inside it. *)
Lemma store_atoi_Ok event i :
  blen event = 1420 -> 20 <= i -> rd8 event i = Ok 0 -> exists e, store_atoi event = Ok e /\ blen e = 1420.
Proof.
  intros Hl Hi H0. unfold store_atoi, arr_str, off_payload.
  rewrite (existsb_zero_at _ (i - 20)); [cbn [mbind res_bind]|rewrite rd8_drop by lia; by replace (20 + (i - 20)) with i by lia].
  match goal with |- context [wr event 20 ?x] => destruct (wr_Ok event 20 x) as (e & -> & He & _) end.
  - lia.
  - rewrite blen_le32. lia.
  - exists e. split; [done|lia].
Qed.


Lemma fill_version_Ok ctx event n :
  blen event = 1420 ->
  exists ctx' e t, fill_version ctx event n = Ok (ctx', e) /\ blen e = 1420 /\
    ctx_type ctx' = ctx_type ctx /\ rd32 e 0 = Ok t /\
    (ctx_type ctx = CONTEXT_SERVER -> rd32 event 0 = Ok t) /\
    (forall t0, rd32 event 0 = Ok t0 -> is_u32 t0 -> is_u32 t) /\
    (forall i, sizeof_MPinitialization <= i -> rd8 e i = rd8 event i).
Proof.
  intros Hl. unfold fill_version, sizeof_MPinitialization. destruct (rd32_in event 0) as [t Ht]; [lia..|].
  rewrite Ht. cbn [mbind res_bind].
  destruct (ctx_type ctx) eqn:Ec; case_match eqn:Eb;
    try (exists ctx, event, t; rewrite Ht; do 5 (split; [by auto|]); split; [by intros t0 [= <-]|done]).
  - apply andb_true_iff in Eb as [->%Z.eqb_eq _].
    destruct (set_type_Ok event MP_CONTROL_INIT_EVENT) as (e0 & -> & Hl0 & Ht0 & Hf0); [lia|done|].
    cbn [mbind res_bind]. do 3 wr_step. eexists _, _, MP_LEGACY_INIT_EVENT. split; [done|].
    split; [lia|]. split; [done|]. split; [|split; [done|split; [done|intros i Hi; by rewrite Hout1, Hout0, Hout, Hf0 by lia]]].
    transitivity (rd32 e0 0); [|exact Ht0]. apply rd32_ext. intros i Hi. by rewrite Hout1, Hout0, Hout by lia.
  - destruct (set_type_Ok event MP_CONTROL_AUTHORIZE_EVENT) as (e0 & -> & Hl0 & Ht0 & Hf0); [lia|done|].
    cbn [mbind res_bind]. do 2 wr_step. eexists _, _, MP_CONTROL_AUTHORIZE_EVENT. split; [done|].
    split; [lia|]. split; [done|]. split; [|split; [done|split; [done|intros i Hi; by rewrite Hout0, Hout, Hf0 by lia]]].
    transitivity (rd32 e0 0); [|exact Ht0]. apply rd32_ext. intros i Hi. by rewrite Hout0, Hout by lia.
Qed.

Lemma translate_Ok ctx event n i t :
  blen event = 1420 -> rd32 event 0 = Ok t -> is_u32 t -> (n < 100 -> rd8 event i = Ok 0) -> 20 <= i ->
  exists e, translate ctx event n = Ok e /\ blen e = 1420.
Proof.
  intros Hl Ht Hu Hz Hi. unfold translate. rewrite Ht. cbn [mbind res_bind].
  assert (Hst : forall v, is_u32 v -> n < 100 -> exists e, (set_type event v ≫= store_atoi) = Ok e /\ blen e = 1420).
  { intros v Hv Hn. destruct (set_type_Ok event v) as (e & -> & He & _ & Hf); [lia|done|]. cbn [mbind res_bind].
    apply (store_atoi_Ok e i); [lia..|]. rewrite Hf by lia. auto. }
  destruct (Z.ltb_spec n 100), (Z.ltb_spec t 11); cbn [andb]; cycle 1.
  1-3: destruct (ctx_compat ctx); [|by exists event].
  1-3: destruct (set_type_Ok event (legacy_compat t)) as (e & -> & He & _); [lia|unfold legacy_compat; repeat case_match; done|];
       exists e; split; [done|lia].
  repeat case_match; [by apply Hst..| |by exists event].
  destruct (set_type_Ok event MP_FILTER_RELOAD_EVENT) as (e & -> & He & _); [lia|done|]. cbn [mbind res_bind].
  wr_step. eexists. split; [done|lia].
Qed.

(** Of the types below 11 only the initialisation has a size, at least that of
    its fixed part. *)
Lemma event_size_small fuel event t size :
  rd32 event 0 = Ok t -> event_size fuel event = Ok size -> t < 11 ->
  t = MP_CONTROL_INIT_EVENT /\ sizeof_MPinitialization <= size.
Proof.
  intros Ht. unfold event_size. rewrite Ht. cbn [mbind res_bind]. intros H Hlt.
  destruct (Z.eqb_spec t MP_CONTROL_INIT_EVENT) as [->|Hne].
  - apply bind_Ok_inv in H as (c & _ & [= <-]).
    pose proof (ntohs_range (u16 (sizeof_CIinitialization * c))). split; [done|]. ints; lia.
  - exfalso. repeat match type of H with (if ?b then _ else _) = _ => destruct b eqn:?E end;
      rewrite ?orb_true_iff, ?Z.eqb_eq in *;
      unfold MP_CONTROL_AUTHORIZE_EVENT, MP_STATUS_EVENT, MP_STATUS3_EVENT, MP_DSTAT_EVENT, MP_FILTER_EVENT,
        MP_FILTER_REQUEST_EVENT, MP_FILTER_INVALID_ID, MP_CONTROL_TERMINATE_EVENT, MP_CONTROL_STOP_EVENT,
        MP_CONTROL_START_EVENT, MP_CONTROL_DISTRESS, MP_CONTROL_PING_EVENT in *; try lia. discriminate H.
Qed.

Lemma set_type_head t t' body : set_type (le32 t ++ body) t' = Ok (le32 t' ++ body).
Proof. unfold set_type. by apply (wr_mid [] (le32 t) body 0 (le32 t')). Qed.

(** What a sender puts on the wire. *)
Lemma marc_push_event_eq sendto fuel ctx t body dst size :
  is_u32 t -> event_size fuel (le32 t ++ body) = Ok size -> 4 <= size <= 4 + blen body ->
  let t' := if ctx_compat ctx then legacy_compat t else t in
  let data := le32 (htonl t') ++ take (Z.to_nat (size - 4)) body in
  marc_push_event sendto fuel ctx (le32 t ++ body) (Some dst) =
    Ok (match sendto (data, dst) with Some e => (e, le32 (htonl t') ++ body, [])
        | None => (0, le32 (htonl t') ++ body, [(data, dst)]) end).
Proof.
  intros Ht Hs Hl t' data. unfold marc_push_event. rewrite Hs, rd32_le32_head by done. cbn [mbind res_bind].
  fold t'. pose proof (set_type_head t (htonl t') body) as Hw. unfold set_type in Hw. rewrite Hw.
  cbn [mbind res_bind]. rewrite slice_0_app by (rewrite ?blen_le32; lia). cbn [mbind res_bind].
  change (size - blen (le32 (htonl t'))) with (size - 4). fold data. by destruct (sendto _).
Qed.

(** The head of a received message is its type in host order; the rest is what
    was sent, then zeros. *)
Lemma poll_head data body t n :
  data = le32 (htonl t) ++ body -> is_u32 t -> blen body <= 1416 -> n = Z.min (blen data) sizeof_MPMessage ->
  n = 4 + blen body /\ recv_into (replicate 1420 0) data = le32 (htonl t) ++ body ++ replicate (1416 - length body) 0.
Proof.
  intros -> Ht Hb ->. rewrite blen_app, blen_le32. pose proof (blen_nonneg body). unfold sizeof_MPMessage.
  split; [lia|]. rewrite recv_into_zeros by (unfold sizeof_MPMessage; rewrite blen_app, blen_le32; lia).
  rewrite length_app. change (length (le32 (htonl t))) with 4%nat. rewrite <- (assoc_L (++)).
  by replace (1420 - (4 + length body))%nat with (1416 - length body)%nat by lia.
Qed.

(** A type that [fill_version] and [translate] leave alone. *)
Lemma fill_version_id ctx event n t :
  rd32 event 0 = Ok t -> (t = 1 -> sizeof_MPinitialization <= n) -> fill_version ctx event n = Ok (ctx, event).
Proof.
  intros Ht Hn. unfold fill_version. rewrite Ht. cbn [mbind res_bind].
  unfold MP_LEGACY_AUTH_EVENT, MP_LEGACY_INIT_EVENT, sizeof_MPauth, sizeof_MPinitialization in *.
  destruct (Z.eqb_spec t 1) as [->|]; [|by destruct (ctx_type ctx)]. specialize (Hn eq_refl).
  rewrite !(proj2 (Z.ltb_ge _ _)) by lia. by destruct (ctx_type ctx).
Qed.
Lemma translate_id ctx event n t :
  rd32 event 0 = Ok t -> (t < 11 -> sizeof_MPinitialization <= n) -> ctx_compat ctx = false ->
  translate ctx event n = Ok event.
Proof.
  intros Ht Hn Hc. unfold translate, sizeof_MPinitialization in *. rewrite Ht. cbn [mbind res_bind].
  destruct (Z.ltb_spec t 11); [rewrite (proj2 (Z.ltb_ge n 100)) by lia|rewrite andb_false_r];
    cbn [andb]; by rewrite Hc.
Qed.

(** ** Claims *)

(** C27: A message that one side pushes arrives at the other side as it was: the
    receiver's poll returns 0 with the type in host order, the bytes that the
    size of the type covers, zeros behind them, and the exact length.  (Pings are
    answered by the library, and neither side is in compatibility mode.)  The
    version a client keeps from an authorisation is however always zero. *)
Theorem marc_push_poll (sendto : send_result) (fuel : nat) (errno : Z) (snd rcv : marc_context)
    (dst from : sockaddr_in) (t : Z) (body : bytes) (size : Z) :
  is_u32 t -> blen body <= 1416 ->
  event_size fuel (le32 t ++ body) = Ok size -> 4 <= size <= 4 + blen body ->
  ctx_compat snd = false -> ctx_compat rcv = false -> t <> MP_CONTROL_PING_EVENT ->
  (t = MP_CONTROL_AUTHORIZE_EVENT -> ctx_type rcv = CONTEXT_CLIENT) ->
  let payload := take (Z.to_nat (size - 4)) body in
  exists event' data,
    marc_push_event (fun _ => None) fuel snd (le32 t ++ body) (Some dst) = Ok (0, event', [(data, dst)]) /\
    marc_poll_event sendto fuel errno rcv (SelectReady (Received data from)) =
      Ok {| po_ret := 0;
            po_ctx := if t =? MP_CONTROL_AUTHORIZE_EVENT
                      then rcv <| ctx_server_version := replicate 4 0 |> else rcv;
            po_event := le32 t ++ payload ++ replicate (1416 - length payload) 0;
            po_size := Some size; po_from := Some from; po_sent := [] |}.
Proof.
  intros Ht Hb Hs Hsz Hc Hc' Hping Hauth payload.
  do 2 eexists. split; [rewrite (marc_push_event_eq _ _ _ _ _ _ size) by done; rewrite Hc; reflexivity|].
  assert (Hp : blen payload = size - 4) by (unfold payload; rewrite blen_take; lia).
  unfold marc_poll_event. change (take (Z.to_nat (size - 4)) body) with payload.
  set (data := le32 (htonl t) ++ payload).
  destruct (poll_head data payload t _ eq_refl Ht ltac:(lia) eq_refl) as [Hn Hr]. rewrite Hn, Hr.
  rewrite (proj2 (Z.leb_gt _ _)) by lia. rewrite rd32_le32_head by apply ntohl_range.
  cbn [mbind res_bind]. rewrite set_type_head. cbn [mbind res_bind]. unfold htonl. rewrite ntohl_ntohl by done.
  set (event := le32 t ++ _). assert (He : rd32 event 0 = Ok t) by (by apply rd32_le32_head).
  assert (Hsmall : t < 11 -> sizeof_MPinitialization <= 4 + blen payload).
  { intros H. destruct (event_size_small fuel (le32 t ++ body) t size) as [_ ?]; [by apply rd32_le32_head|done..|]. lia. }
  rewrite (fill_version_id rcv event _ t) by (done || (intros ->; apply Hsmall; lia)).
  cbn [mbind res_bind]. rewrite He. cbn [mbind res_bind].
  rewrite (proj2 (Z.eqb_neq t MP_CONTROL_PING_EVENT)) by done.
  replace (4 + blen payload) with size in * by lia.
  destruct (Z.eqb_spec t MP_CONTROL_AUTHORIZE_EVENT) as [->|Hna].
  - assert (size = 24) as -> by (change (Ok 24 = Ok size) in Hs; congruence).
    assert (slice event 238 4 = Ok (replicate 4 0)) as ->.
    { assert (length payload = 20%nat) as Hl by (unfold blen in Hp; lia). unfold event. rewrite Hl.
      change (1416 - 20)%nat with (214 + (4 + 1178))%nat. rewrite !replicate_add, !(assoc_L (++)), <- (assoc_L (++) _ (replicate 4 0)).
      apply slice_app; [|done]. rewrite !blen_app, blen_replicate, blen_le32, Hp. done. }
    cbn [mbind res_bind]. unfold store_server_version. rewrite Hauth by done. cbn [mbind res_bind].
    rewrite (translate_id _ event _ MP_CONTROL_AUTHORIZE_EVENT) by done. reflexivity.
  - cbn [mbind res_bind]. rewrite (translate_id rcv event _ t) by done. reflexivity.
Qed.

(** The message is an authorisation and the receiver is a server, whose context
    has no room for the version the code stores. *)
Definition server_authorised (ctx : marc_context) (sel : select_result) : bool :=
  match ctx_type ctx, sel with
  | CONTEXT_SERVER, SelectReady (Received data _) =>
      (0 <? blen data) &&
      match be32 (recv_into (replicate 1420 0) data) 0 with Ok t => t =? MP_CONTROL_AUTHORIZE_EVENT | _ => false end
  | _, _ => false
  end.

Lemma push_ping_Ok sendto fuel ctx event dst :
  blen event = 1420 -> rd32 event 0 = Ok MP_CONTROL_PING_EVENT ->
  exists r e sent, marc_push_event sendto fuel ctx event (Some dst) = Ok (r, e, sent) /\ blen e = 1420.
Proof.
  intros Hl Ht. unfold marc_push_event.
  assert (event_size fuel event = Ok 20) as -> by (unfold event_size; by rewrite Ht).
  rewrite Ht. cbn [mbind res_bind]. wr_step.
  destruct (slice_in e 0 20) as [d ->]; [lia..|]. cbn [mbind res_bind].
  destruct (sendto _); do 3 eexists; (split; [reflexivity|lia]).
Qed.

(** C28: Whatever arrives, waiting for a message neither aborts nor runs out of
    bounds, and the caller's message is complete; the one exception is an
    authorisation sent to a server, which overwrites memory behind its context. *)
Theorem marc_poll_safe (sendto : send_result) (fuel : nat) (errno : Z) (ctx : marc_context) (sel : select_result) :
  if server_authorised ctx sel then marc_poll_event sendto fuel errno ctx sel = Fault
  else exists o, marc_poll_event sendto fuel errno ctx sel = Ok o /\ blen (po_event o) = sizeof_MPMessage.
Proof.
  unfold marc_poll_event, server_authorised.
  destruct sel as [e| |[e|data from]];
    [destruct (ctx_type ctx); (eexists; split; [reflexivity|apply blen_replicate])..|].
  cbv zeta. set (n := Z.min (blen data) sizeof_MPMessage). set (buf := recv_into _ data).
  assert (Hbuf : blen buf = 1420) by (unfold buf; by rewrite blen_recv_into, blen_replicate).
  destruct (Z.ltb_spec 0 (blen data)) as [Hd|Hd]; cycle 1.
  { rewrite (proj2 (Z.leb_le n 0)) by (subst n; lia). cbn [andb].
    destruct (ctx_type ctx); (eexists; split; [reflexivity|apply blen_replicate]). }
  rewrite (proj2 (Z.leb_gt n 0)) by (subst n; unfold sizeof_MPMessage; lia). cbn [andb].
  unfold be32. destruct (rd32_in buf 0) as [t0 Ht0]; [lia..|]. rewrite Ht0. cbn [mbind res_bind].
  destruct (set_type_Ok buf (ntohl t0)) as (e1 & -> & Hl1 & Ht1 & Hf1); [lia|apply ntohl_range|].
  cbn [mbind res_bind].
  destruct (fill_version_Ok ctx e1 n) as (ctx' & e2 & t & -> & Hl2 & Hc & Ht & Hserver & Hu & Hf2); [lia|].
  cbn [mbind res_bind]. rewrite Ht. cbn [mbind res_bind].
  destruct (slice_in e2 238 4) as [v ->]; [lia..|]. cbn [mbind res_bind].
  assert (Htail : n < 100 -> rd8 e2 1419 = Ok 0).
  { intros Hn. rewrite Hf2, Hf1 by (unfold sizeof_MPinitialization; lia). subst buf n. unfold sizeof_MPMessage in *.
    rewrite recv_into_zeros by (unfold sizeof_MPMessage; lia). rewrite rd8_app_r by lia.
    apply rd8_Ok. split; [lia|]. apply lookup_replicate_2. unfold blen in *. lia. }
  assert (Hrest : forall c, exists o,
    (if t =? MP_CONTROL_PING_EVENT then
       '(_, event, sent) ← marc_push_event sendto fuel c e2 (Some from);
       Ok {| po_ret := EAGAIN; po_ctx := c; po_event := event; po_size := None; po_from := Some from; po_sent := sent |}
     else
       event ← translate c e2 n;
       Ok {| po_ret := 0; po_ctx := c; po_event := event; po_size := Some n; po_from := Some from; po_sent := [] |})
    = Ok o /\ blen (po_event o) = sizeof_MPMessage).
  { intros c. destruct (Z.eqb_spec t MP_CONTROL_PING_EVENT) as [->|_].
    - destruct (push_ping_Ok sendto fuel c e2 from Hl2 Ht) as (r & e & sent & -> & He). eexists. by split.
    - destruct (translate_Ok c e2 n 1419 t Hl2 Ht) as (e & -> & He);
        [apply (Hu _ Ht1), ntohl_range|exact Htail|lia|].
      eexists. by split. }
  destruct (ctx_type ctx) eqn:Ec.
  - specialize (Hserver eq_refl). rewrite Hserver in Ht1. injection Ht1 as ->.
    destruct (Z.eqb_spec (ntohl t0) MP_CONTROL_AUTHORIZE_EVENT).
    + unfold store_server_version. by rewrite Hc.
    + cbn [mbind res_bind]. apply Hrest.
  - unfold store_server_version. rewrite Hc. destruct (Z.eqb_spec t MP_CONTROL_AUTHORIZE_EVENT); cbn [mbind res_bind]; apply Hrest.
Qed.

Lemma init_event_size_eq fuel event n :
  rd32 event 0 = Ok MP_CONTROL_INIT_EVENT -> rd16 event 220 = Ok (htons n) -> 0 <= n <= 145 ->
  event_size fuel event = Ok (sizeof_MPinitialization + 8 * (n mod 32)).
Proof.
  intros Ht Hn H0. unfold event_size. rewrite Ht. cbn [mbind res_bind]. rewrite Z.eqb_refl, Hn.
  cbn [mbind res_bind]. unfold sizeof_CIinitialization, htons, ntohs in *. f_equal. ilia.
Qed.

(** The size the library computes for an initialisation is that of the fixed
    part and one entry for each interface, for every number of interfaces that
    fits a message, exactly when there are fewer than 32: the number is multiplied
    before its byte order is converted. *)
Theorem init_event_size (fuel : nat) (event : bytes) (n : Z) :
  rd32 event 0 = Ok MP_CONTROL_INIT_EVENT -> rd16 event 220 = Ok (htons n) ->
  0 <= n -> sizeof_MPinitialization + sizeof_CIinitialization * n <= sizeof_MPMessage ->
  event_size fuel event = Ok (sizeof_MPinitialization + sizeof_CIinitialization * n) <-> n < 32.
Proof.
  unfold sizeof_MPinitialization, sizeof_CIinitialization, sizeof_MPMessage. intros Ht Hn H0 Hmax.
  rewrite (init_event_size_eq _ _ n) by (done || lia). unfold sizeof_MPinitialization.
  split; [intros H%Ok_inj|intros H; f_equal]; ilia.
Qed.

(** The size of a dynamic report is its fixed part, the lengths of its
    headers, the length in its trailer, and four bytes more; a trailer that counts
    itself is therefore counted twice. *)
Theorem dstat_size (fuel : nat) (fixed rest : bytes) (ds : list dstat_hdr) (tl : Z) :
  blen fixed = sizeof_MPDStat -> Forall dh_ok ds -> is_u16 tl -> (length ds < fuel)%nat ->
  let report := fixed ++ concat (map dh_image ds) ++ trailer tl in
  mp_dstat_size fuel (report ++ rest) = Ok (blen report + tl).
Proof.
  intros Hf Hds Htl Hl report. unfold mp_dstat_size, report. rewrite <- Hf at 2.
  rewrite <- !(assoc_L (++)), mp_dstat_loop_chain by done. cbn [mbind res_bind]. f_equal.
  assert (E : blen (concat (map dh_image ds)) = dh_total ds).
  { clear. induction ds as [|d ds IH]; [done|]. cbn [map concat dh_total]. by rewrite blen_app, IH, blen_dh_image. }
  rewrite !blen_app, E, Hf. change (blen (trailer tl)) with 4. unfold sizeof_MPDStatHdr. lia.
Qed.

(** A header of length zero is its own successor. *)
Lemma dstat_size_diverges (fuel : nat) (event : bytes) (t : Z) :
  be16 event 24 = Ok t -> t <> MP_DSTAT_TRAILER -> be16 event 26 = Ok 0 ->
  mp_dstat_size fuel event = OutOfFuel.
Proof.
  intros Ht Hne Hl. unfold mp_dstat_size, sizeof_MPDStat.
  assert (forall n, mp_dstat_loop fuel event n (Some 24) = OutOfFuel) as ->; [|done].
  induction fuel as [|fuel IH]; intros n; [done|]. cbn [mp_dstat_loop]. change (24 + 2) with 26. rewrite Hl.
  cbn [mbind res_bind]. unfold mp_dstat_next. change (24 + 2) with 26. rewrite Ht, Hl. cbn [mbind res_bind].
  rewrite (proj2 (Z.eqb_neq _ _)) by done. apply IH.
Qed.

(** *** The initialisation request *)
Lemma split_head e t :
  4 <= blen e -> (forall i, 0 <= i < 0 + 4 -> rd8 e i = rd8 (le32 t) (i - 0)) -> e = le32 t ++ drop 4 e.
Proof.
  intros Hl H. change 4%nat with (Z.to_nat 4). apply rd8_list_eq; [rewrite blen_app, blen_drop, blen_le32; lia|].
  intros i Hi. destruct (decide (i < 4)).
  - rewrite rd8_app_l by (rewrite blen_le32; lia). rewrite H by lia. f_equal. lia.
  - rewrite rd8_app_r, rd8_drop by (rewrite ?blen_le32; lia). rewrite blen_le32. f_equal. lia.
Qed.


(** Looking up a byte through the stores that do not touch it, then in the store
    that does. *)
Ltac through :=
  repeat match goal with
  | H : forall i, i < _ \/ _ <= i -> rd8 ?e i = _ |- context [rd8 ?e ?j] => rewrite (H j) by lia
  end.
Ltac stored :=
  through; match goal with
  | H : forall i, _ <= i < _ -> rd8 ?e i = rd8 ?b (i - _) |- rd8 ?e ?j = rd8 ?b ?k =>
      rewrite (H j) by lia; f_equal; lia
  end.

Record info_ok (h : host) (ctx : marc_context) (info : marc_client_info) : Prop := {
  io_client : ctx_type ctx = CONTEXT_CLIENT;
  io_hwaddr : blen (ctx_hwaddr ctx) = 6;
  io_host : blen (host_name h) < 198;
  io_caputils : blen (info_version_caputils info) = 4;
  io_self : blen (info_version_self info) = 4;
  io_CI : blen (info_CI info) = 64;
  io_noCI : 0 <= info_noCI info;
}.

(** A client with at most eight interfaces sends one initialisation to its
    server, of exactly the fixed part and its interfaces, whose fields are those
    of the client in network order; with more interfaces the names are read
    behind the array that holds them. *)
Theorem init_request_sent (h : host) (fuel : nat) (ctx : marc_context) (info : marc_client_info) :
  info_ok h ctx info ->
  if info_noCI info <=? 8 then
    exists event data,
      marc_client_init_request (fun _ => None) h fuel ctx info = Ok (0, event, [(data, ctx_server_addr ctx)]) /\
      blen data = sizeof_MPinitialization + sizeof_CIinitialization * info_noCI info /\
      be32 data 0 = Ok MP_CONTROL_INIT_EVENT /\ slice data 4 6 = Ok (ctx_hwaddr ctx) /\
      be16 data 210 = Ok (u16 (info_ma_mtu info)) /\ be16 data 218 = Ok (u16 (info_max_filters info)) /\
      be16 data 220 = Ok (info_noCI info) /\ be16 data 238 = Ok (u16 (VERSION_MAJOR h)) /\
      be16 data 240 = Ok (u16 (VERSION_MINOR h)) /\
      slice data 256 (sizeof_CIinitialization * info_noCI info)
        = Ok (take (Z.to_nat (sizeof_CIinitialization * info_noCI info)) (info_CI info))
  else marc_client_init_request (fun _ => None) h fuel ctx info = Fault.
Proof.
  intros [Hc Hhw Hh Hv Hv' HCI Hn0]. unfold marc_client_init_request, client_server_addr, sizeof_CIinitialization.
  rewrite Hc. assert (Hm : blen (replicate 1420 0) = 1420) by apply blen_replicate.
  assert (Hname : blen (take 198 (host_name h ++ [0])) <= 198) by (unfold blen; rewrite length_take; lia).
  pose proof (blen_nonneg (take 198 (host_name h ++ [0]))).
  do 13 wr_step. destruct (Z.leb_spec (info_noCI info) 8) as [H8|H8]; cycle 1.
  { unfold slice. by rewrite (proj2 (Z.ltb_lt (blen (info_CI info)) _)), !orb_true_r by lia. }
  set (k := 8 * info_noCI info). set (ci := take (Z.to_nat k) (info_CI info)).
  assert (Hk : blen ci = k) by (apply blen_take; lia).
  assert (slice (info_CI info) 0 k = Ok ci) as -> by (unfold slice; rewrite !(proj2 (Z.ltb_ge _ _)) by lia; done).
  cbn [mbind res_bind]. wr_step. set (msg := e12) in *.
  assert (Hhead : msg = le32 MP_CONTROL_INIT_EVENT ++ drop 4 msg) by (apply split_head; [lia|]; intros i Hi; stored).
  assert (Hno : rd16 msg 220 = Ok (htons (info_noCI info))).
  { rewrite (rd16_ext (le16 (htons (info_noCI info)) ++ []) msg 0 220).
    - by rewrite rd16_le16, u16_id by apply ntohs_range.
    - intros i Hi. rewrite app_nil_r. stored. }
  assert (Hsize : event_size fuel (le32 MP_CONTROL_INIT_EVENT ++ drop 4 msg) = Ok (256 + k)).
  { rewrite <- Hhead, (init_event_size_eq fuel msg (info_noCI info)), Z.mod_small; try lia; [done| |done].
    rewrite Hhead. by apply rd32_le32_head. }
  assert (Hd : blen (drop 4 msg) = 1416) by (change 4%nat with (Z.to_nat 4); rewrite blen_drop; lia).
  rewrite Hhead, (marc_push_event_eq _ _ _ _ _ _ (256 + k)) by (done || lia). cbv zeta.
  assert (Ht : (if ctx_compat ctx then legacy_compat MP_CONTROL_INIT_EVENT else MP_CONTROL_INIT_EVENT) = 1)
    by (by destruct (ctx_compat ctx)). rewrite Ht.
  set (data := le32 (htonl 1) ++ take _ _). do 2 eexists. split; [reflexivity|].
  assert (Hdata : blen data = 256 + k) by (unfold data; rewrite blen_app, blen_le32, blen_take; lia).
  assert (Hrd : forall i, 4 <= i < 256 + k -> rd8 data i = rd8 msg i).
  { intros i Hi. unfold data. rewrite rd8_app_r by (rewrite blen_le32; lia). rewrite blen_le32, rd8_take by lia.
    change 4%nat with (Z.to_nat 4). rewrite rd8_drop by lia. f_equal. lia. }
  split; [done|]. split; [unfold be32, data; by rewrite rd32_le32_head|].
  split. { rewrite <- Hhw. apply slice_field; [lia..|]. intros i Hi. rewrite Hrd by lia. stored. }
  assert (Hf : forall o x, 4 <= o -> o + 2 <= 256 ->
    (forall i, 0 <= i < 2 -> rd8 msg (o + i) = rd8 (le16 (htons x)) i) -> be16 data o = Ok (u16 x)).
  { intros o x Ho Ho' Hx. apply be16_field. intros i Hi. rewrite Hrd by lia. auto. }
  rewrite <- (u16_id (info_noCI info)) at 1 by (ints; lia).
  do 5 (split; [apply Hf; [lia..|]; intros i Hi; stored|]).
  rewrite <- Hk. apply slice_field; [lia..|]. intros i Hi. rewrite Hrd by lia. stored.
Qed.

(** *** Setting up a client *)

(** Everything works up to the wait for the relay. *)
Record net_reaches_relay (env : net) (iface : bytes) (info : marc_client_info) (ifaddr client relay : sockaddr_in)
    : Prop := {
  nr_socket : exists sd, net_socket env = inr sd;
  nr_hwaddr : exists a, net_hwaddr env (cstr (strncpy iface 16)) = inr a;
  nr_addr : net_addr env (cstr (strncpy iface 16)) = inr ifaddr;
  nr_family : sin_family ifaddr = AF_INET;
  nr_range : is_u32 (sin_addr ifaddr);
  nr_broadcast : net_broadcast env 1 = None;
  nr_client : client_address ifaddr info = Some client;
  nr_relay : relay_address info = Some relay;
  nr_port : info_client_port info <> 0;
  nr_bind : net_bind env client = None;
  nr_send : forall d, net_sendto env (d, relay) = None;
}.

Lemma client_address_addr ifaddr info a :
  client_address ifaddr info = Some a ->
  sin_addr a = sin_addr ifaddr /\ sin_port a = htons (info_client_port info) /\ sin_family a = AF_INET.
Proof.
  unfold client_address. destruct (info_client_ip info) as [s|]; [destruct (inet_aton s)|]; cbn; [|done|];
    intros [= <-]; done.
Qed.

Lemma mainfo_request_Ok a : is_u32 (sin_addr a) -> exists m, mainfo_request a = Ok m /\ blen m = sizeof_MAINFO.
Proof.
  intros Ha. unfold mainfo_request. pose proof (length_inet_ntoa _ Ha).
  assert (Hm : blen (replicate 220 0) = 220) by apply blen_replicate. do 2 wr_step.
  destruct (wr_Ok e0 4 (inet_ntoa (sin_addr a) ++ [0])) as (m & -> & Hl & _); [lia| |exists m; split; [done|unfold sizeof_MAINFO; lia]].
  unfold blen in *. rewrite length_app. cbn [length]. lia.
Qed.

Lemma await_reply_timeouts tries select n reply :
  (forall k, select k = SelectTimeout) ->
  await_reply tries select n reply =
    (inr (n + Z.of_nat tries, reply), map (fun i => (n + Z.of_nat i) * timeout_factor) (seq 0 tries)).
Proof.
  intros H. revert n. induction tries as [|tries IH]; intros n; cbn [await_reply]; [cbn; by rewrite Z.add_0_r|].
  rewrite H, IH. cbn [seq map]. rewrite Z.add_0_r. f_equal; [f_equal; f_equal; lia|].
  f_equal. rewrite <- seq_shift, map_map. apply map_ext. intros i. f_equal. lia.
Qed.

(** When the relay does not answer, the set-up of a client ends: it has sent
    one request, waited 8, 16, 24, 32 and 40 seconds, and reports that it was
    cancelled without giving out a context.  (The log announces a new request
    before each wait; none is sent.) *)
Theorem marc_init_client_gives_up (env : net) (h : host) (fuel : nat) (iface : bytes) (info : marc_client_info)
    (ifaddr client relay : sockaddr_in) :
  net_reaches_relay env iface info ifaddr client relay -> (forall n, net_select env n = SelectTimeout) ->
  exists request, blen request = sizeof_MAINFO /\
    marc_init_client env h fuel iface info =
      Ok {| io_ret := ECANCELED; io_ctx := None; io_info := info; io_sent := [(request, relay)];
            io_waits := [8; 16; 24; 32; 40] |}.
Proof.
  intros [[sd Hs] [hw Hhw] Ha Hfam Hrange Hbc Hcl Hrl Hport Hbind Hsend] Hsel.
  destruct (client_address_addr _ _ _ Hcl) as (Haddr & _).
  destruct (mainfo_request_Ok client) as (m & Hm & Hl); [by rewrite Haddr|]. exists m. split; [done|].
  unfold marc_init_client. rewrite Hs, Hhw, Ha, Hfam, Z.eqb_refl. cbn [negb]. rewrite Hbc.
  rewrite (proj2 (Z.eqb_neq _ _)) by done. rewrite Hcl, Hrl, Hbind, Hm. cbn [mbind res_bind].
  rewrite Hsend, await_reply_timeouts by done. done.
Qed.

(** A context that the set-up of a client gives out has the address of the
    interface, whatever address the caller asked for, the caller's port or 2000,
    and the caller is told this address. *)
Theorem marc_init_client_address (env : net) (h : host) (fuel : nat) (iface : bytes) (info : marc_client_info)
    (o : init_outcome) (ctx : marc_context) :
  marc_init_client env h fuel iface info = Ok o -> io_ctx o = Some ctx ->
  exists ifaddr, net_addr env (cstr (strncpy iface 16)) = inr ifaddr /\
    ctx_ip ctx = inet_ntoa (sin_addr ifaddr) /\ sin_addr (ctx_client_addr ctx) = sin_addr ifaddr /\
    ctx_port ctx = (if info_client_port info =? 0 then DEFAULT_CLIENT_PORT else info_client_port info) /\
    info_client_ip (io_info o) = Some (ctx_ip ctx) /\ ctx_type ctx = CONTEXT_CLIENT.
Proof.
  unfold marc_init_client. intros H Hctx.
  repeat match type of H with
  | (match ?x with _ => _ end) = _ => destruct x eqn:?; try (injection H as <-; discriminate Hctx)
  | (_ ≫= _) = _ => apply bind_Ok_inv in H as (? & ? & H)
  end.
  injection H as <-. injection Hctx as <-.
  match goal with H : client_address ?a ?i = Some _ |- _ => destruct (client_address_addr a i _ H) as (E & _); exists a end.
  cbn. rewrite E. repeat split; trivial.
  all: by destruct (info_client_port info =? 0).
Qed.

(** An interface without an Internet address, or an address that is not valid, is
    reported with whatever [errno] holds: with zero the caller is told that the
    client was set up, and gets no context. *)
Lemma marc_init_client_silent (env : net) (h : host) (fuel : nat) (iface hw : bytes) (info : marc_client_info)
    (sd : Z) (ifaddr : sockaddr_in) :
  net_socket env = inr sd -> net_hwaddr env (cstr (strncpy iface 16)) = inr hw ->
  net_addr env (cstr (strncpy iface 16)) = inr ifaddr -> sin_family ifaddr <> AF_INET -> net_errno env = 0 ->
  exists o, marc_init_client env h fuel iface info = Ok o /\ io_ret o = 0 /\ io_ctx o = None.
Proof.
  intros Hs Hh Ha Hf He. unfold marc_init_client. rewrite Hs, Hh, Ha, (proj2 (Z.eqb_neq _ _)) by done.
  eexists. split; [reflexivity|]. by rewrite He.
Qed.

(** The same for an empty datagram: the caller is told that a message arrived,
    and its length is not set. *)
Lemma marc_poll_empty (sendto : send_result) (fuel : nat) (ctx : marc_context) (from : sockaddr_in) :
  exists o, marc_poll_event sendto fuel 0 ctx (SelectReady (Received [] from)) = Ok o /\
    po_ret o = 0 /\ po_size o = None.
Proof. eexists. split; [reflexivity|done]. Qed.

(** Without a destination a client sends to its server. *)
Lemma marc_push_event_server sendto fuel ctx event :
  ctx_type ctx = CONTEXT_CLIENT ->
  marc_push_event sendto fuel ctx event None = marc_push_event sendto fuel ctx event (Some (ctx_server_addr ctx)).
Proof. intros Hc. unfold marc_push_event, client_server_addr. by rewrite Hc. Qed.

(** A 0.6 MArCd authorises with a short message of the old type: the client
    sees an authorisation with version 0.6, and from then on sends the old types,
    in particular filter requests as type 3. *)
Theorem marc_legacy_authorise (sendto : send_result) (fuel : nat) (errno : Z) (ctx : marc_context)
    (mampid : bytes) (from : sockaddr_in) (id : Z) :
  ctx_type ctx = CONTEXT_CLIENT -> blen mampid = 16 -> is_u32 id ->
  exists o, marc_poll_event sendto fuel errno ctx
      (SelectReady (Received (wr32be MP_LEGACY_AUTH_EVENT ++ mampid) from)) = Ok o /\
    po_ret o = 0 /\ ctx_compat (po_ctx o) = true /\ rd32 (po_event o) 0 = Ok MP_CONTROL_AUTHORIZE_EVENT /\
    slice (po_event o) 4 16 = Ok mampid /\ rd16 (po_event o) 20 = Ok 0 /\ rd16 (po_event o) 22 = Ok 6 /\
    exists event', marc_filter_request (fun _ => None) fuel (po_ctx o) (Some mampid) id =
      Ok (0, event', [(wr32be 3 ++ strncpy mampid 16 ++ wr32be id, ctx_server_addr ctx)]).
Proof.
  intros Hc Hm Hid. destruct ctx; cbn in Hc; subst.
  do 16 (destruct mampid as [|? mampid]; [discriminate Hm|]). destruct mampid; [|rewrite !blen_cons in Hm; pose proof (blen_nonneg mampid); lia].
  eexists. split; [vm_compute; reflexivity|]. do 6 (split; [vm_compute; reflexivity|]).
  eexists. unfold marc_filter_request. rewrite marc_push_event_server by done.
  reflexivity.
Qed.

(** ** Witnesses *)
Definition ex_addr : sockaddr_in := {| sin_family := AF_INET; sin_port := htons 2000; sin_addr := 16777226 |}.
Definition ex_client : marc_context :=
  {| ctx_ip := B "10.0.0.1"; ctx_port := 2000; ctx_iface := Some (B "eth0"); ctx_hwaddr := [1; 2; 3; 4; 5; 6];
     ctx_type := CONTEXT_CLIENT; ctx_sd := 3; ctx_compat := false; ctx_client_addr := ex_addr;
     ctx_relay_addr := ex_addr; ctx_server_addr := ex_addr; ctx_server_version := [] |}.
Definition ex_server : marc_context := ex_client <| ctx_type := CONTEXT_SERVER |>.
Definition ex_info : marc_client_info :=
  {| info_client_ip := Some (B "10.0.0.7"); info_server_ip := None; info_client_port := 4000; info_max_filters := 10;
     info_noCI := 2; info_ma_mtu := 1500; info_version_caputils := [0; 7; 14; 0]; info_version_self := [0; 7; 0; 0];
     info_drivers := 1; info_CI := strncpy (B "eth0") 8 ++ strncpy (B "eth1") 8 ++ replicate 48 0 |}.
Definition ex_host : host := {| VERSION_MAJOR := 0; VERSION_MINOR := 7; host_name := B "mp" |}.
Definition ex_body : bytes := strncpy (B "mp01") 16 ++ wr32be 7.

Lemma marc_push_poll_witness :
  exists event' data,
    marc_push_event (fun _ => None) 0 ex_client (le32 MP_FILTER_REQUEST_EVENT ++ ex_body) (Some ex_addr)
      = Ok (0, event', [(data, ex_addr)]) /\
    marc_poll_event (fun _ => None) 0 0 ex_server (SelectReady (Received data ex_addr)) =
      Ok {| po_ret := 0; po_ctx := ex_server;
            po_event := le32 MP_FILTER_REQUEST_EVENT ++ ex_body ++ replicate 1396 0;
            po_size := Some 24; po_from := Some ex_addr; po_sent := [] |}.
Proof.
  exact (marc_push_poll (fun _ => None) 0 0 ex_client ex_server ex_addr ex_addr MP_FILTER_REQUEST_EVENT ex_body 24
    ltac:(done) ltac:(vm_compute; discriminate) eq_refl ltac:(done) eq_refl eq_refl ltac:(discriminate) ltac:(discriminate)).
Defined.

Lemma init_event_size_witness :
  event_size 0 (le32 1 ++ replicate 216 0 ++ le16 (htons 5) ++ replicate 34 0) = Ok (256 + 8 * 5) <-> 5 < 32.
Proof. apply (init_event_size 0 _ 5); [reflexivity|reflexivity|lia|vm_compute; discriminate]. Defined.

Lemma dstat_size_witness :
  mp_dstat_size 3 ((replicate 24 0 ++ dh_image {| dh_type := 1; dh_data := replicate 20 7 |} ++ trailer 0) ++ [9])
  = Ok (24 + 24 + 4).
Proof.
  apply (dstat_size 3 (replicate 24 0) [9] [{| dh_type := 1; dh_data := replicate 20 7 |}] 0);
    [reflexivity|repeat constructor|done|cbn; lia].
Defined.

Lemma init_request_sent_witness :
  exists event data,
    marc_client_init_request (fun _ => None) ex_host 0 ex_client ex_info = Ok (0, event, [(data, ex_addr)]) /\
    blen data = 272.
Proof.
  destruct (init_request_sent ex_host 0 ex_client ex_info) as (e & d & H & Hl & _).
  - constructor; vm_compute; done || discriminate.
  - exists e, d. split; [exact H|exact Hl].
Defined.

Definition ex_net : net :=
  {| net_socket := inr 3; net_hwaddr := fun _ => inr [1; 2; 3; 4; 5; 6]; net_addr := fun _ => inr ex_addr;
     net_broadcast := fun _ => None; net_bind := fun _ => None; net_sendto := fun _ => None;
     net_select := fun _ => SelectTimeout; net_malloc := None; net_errno := 0; net_stack := replicate 220 0 |}.
Definition ex_reply : bytes :=
  le32 (htons 2) ++ strncpy (B "10.0.0.2") 16 ++ le32 0 ++ replicate 192 0 ++ le32 1600.
Definition ex_net_reply : net :=
  {| net_socket := inr 3; net_hwaddr := fun _ => inr [1; 2; 3; 4; 5; 6]; net_addr := fun _ => inr ex_addr;
     net_broadcast := fun _ => None; net_bind := fun _ => None; net_sendto := fun _ => None;
     net_select := fun _ => SelectReady (Received ex_reply ex_addr); net_malloc := None; net_errno := 0;
     net_stack := replicate 220 0 |}.

Lemma marc_init_client_gives_up_witness :
  exists request, blen request = 220 /\
    marc_init_client ex_net ex_host 0 (B "eth0") ex_info =
      Ok {| io_ret := ECANCELED; io_ctx := None; io_info := ex_info;
            io_sent := [(request, {| sin_family := AF_INET; sin_port := htons 1500; sin_addr := INADDR_BROADCAST |})];
            io_waits := [8; 16; 24; 32; 40] |}.
Proof.
  apply (marc_init_client_gives_up ex_net ex_host 0 (B "eth0") ex_info ex_addr (ex_addr <| sin_port := htons 4000 |>)).
  - constructor; try (eexists; reflexivity); vm_compute; done.
  - done.
Defined.

Lemma marc_init_client_address_witness :
  exists o ctx, marc_init_client ex_net_reply ex_host 0 (B "eth0") ex_info = Ok o /\ io_ctx o = Some ctx /\
    ctx_ip ctx = B "10.0.0.1".
Proof.
  destruct (marc_init_client ex_net_reply ex_host 0 (B "eth0") ex_info) as [o| | |] eqn:E; [|vm_compute in E; discriminate E..].
  destruct (io_ctx o) as [ctx|] eqn:Ec.
  - destruct (marc_init_client_address ex_net_reply ex_host 0 (B "eth0") ex_info o ctx E Ec)
      as (a & Ha & Hip & _). injection Ha as <-. exists o, ctx. repeat split; trivial.
  - vm_compute in E. injection E as <-. discriminate Ec.
Defined.

Lemma marc_legacy_authorise_witness :
  exists o, marc_poll_event (fun _ => None) 0 0 ex_client
      (SelectReady (Received (wr32be 1 ++ strncpy (B "mp01") 16) ex_addr)) = Ok o /\ ctx_compat (po_ctx o) = true.
Proof.
  destruct (marc_legacy_authorise (fun _ => None) 0 0 ex_client (strncpy (B "mp01") 16) ex_addr 7) as (o & H & _ & Hc & _);
    [done|done|vm_compute; split; discriminate || reflexivity|]. exists o. by split.
Defined.
