(* ===== verification/Marker.v ===== *)
(** * Marker packets (src/marker.c, caputils/marker.h, fallback/be64toh.c)

    An experiment marks its traffic with UDP packets that carry a magic number,
    identifiers and a sequence number; [is_marker] recognises them in captured
    frames, [is_marker_udp] in the payload of a socket. *)

From S2P Require Import Prelude Packet Filter.

Definition MARKERPORT : Z := 0x0811.
Definition MARKER_MAGIC : Z := 0x9f7a3c83.
Definition MARKER_TERMINATE : Z := 1.

(** [struct marker], without the comment, which the functions do not copy. *)
Record marker := {
  magic : Z;
  marker_version : Z;
  marker_flags : Z;
  reserved : Z;
  exp_id : Z;
  run_id : Z;
  key_id : Z;
  seq_num : Z;
  timestamp : Z;
}.

(** ** Byte order of 64-bit integers, where the C library has no functions for it *)
Definition _int_htobe64 (host_64bits : Z) : Z :=
  let in0 := u32 host_64bits in
  let in1 := u32 (host_64bits / 4294967296) in
  let out1 := htonl in0 in
  let out0 := htonl in1 in
  out0 + 4294967296 * out1.
Definition _int_be64toh (big_endian_64bits : Z) : Z :=
  let in0 := u32 big_endian_64bits in
  let in1 := u32 (big_endian_64bits / 4294967296) in
  let out1 := ntohl in0 in
  let out0 := ntohl in1 in
  out0 + 4294967296 * out1.

(** The fields of the structure at offset [o], in host order. *)
Definition marker_fields (m : bytes) (o : Z) : res marker :=
  magic ← be32 m o;
  version ← rd8 m (o + 4);
  flags ← rd8 m (o + 5);
  reserved ← be16 m (o + 6);
  exp_id ← be32 m (o + 8);
  run_id ← be32 m (o + 12);
  key_id ← be32 m (o + 16);
  seq_num ← be32 m (o + 20);
  timestamp ← rd64 m (o + 24);
  Ok {| magic := magic; marker_version := version; marker_flags := flags; reserved := reserved;
        exp_id := exp_id; run_id := run_id; key_id := key_id; seq_num := seq_num;
        timestamp := _int_be64toh timestamp |}.

(** The return value and, when the caller passed a structure ([want]) and the
    packet is a marker, its contents. *)
Definition is_marker (m : bytes) (want : bool) (port : Z) : res (Z * option marker) :=
  ip ← find_ipv4_header m 0;
  match ip with
  | None => Ok (0, None)
  | Some (ip, _) =>
      udp ← find_udp_header m 0 0 (Some ip) true;
      match udp with
      | None => Ok (0, None)
      | Some (udp, (src, dst)) =>
          if negb ((src =? MARKERPORT) && ((dst =? port) || (port =? 0))) then Ok (0, None)
          else
            mg ← be32 m (udp + 8);
            if negb (mg =? MARKER_MAGIC) then Ok (0, None)
            else if want then k ← marker_fields m (udp + 8); Ok (dst, Some k)
            else Ok (dst, None)
      end
  end.

Definition is_marker_udp (payload : bytes) (want : bool) (port : Z) : res (Z * option marker) :=
  mg ← be32 payload 0;
  if negb (mg =? MARKER_MAGIC) then Ok (0, None)
  else if want then k ← marker_fields payload 0; Ok (1, Some k)
  else Ok (1, None).

(** ** What a sender builds *)
Definition wr64be (x : Z) : bytes := le64 (_int_htobe64 x).
Definition marker_image (k : marker) : bytes :=
  wr32be (magic k) ++ le8 (marker_version k) ++ le8 (marker_flags k) ++ wr16be (reserved k) ++
  wr32be (exp_id k) ++ wr32be (run_id k) ++ wr32be (key_id k) ++ wr32be (seq_num k) ++ wr64be (timestamp k).
Record marker_ok (k : marker) : Prop := {
  k_magic : magic k = MARKER_MAGIC; k_version : is_u8 (marker_version k); k_flags : is_u8 (marker_flags k);
  k_reserved : is_u16 (reserved k); k_exp : is_u32 (exp_id k); k_run : is_u32 (run_id k);
  k_key : is_u32 (key_id k); k_seq : is_u32 (seq_num k); k_time : is_u64 (timestamp k);
}.

(** ** Byte order *)
Lemma le32_bytes a b c d q :
  is_u8 a -> is_u8 b -> is_u8 c -> is_u8 d ->
  le32 (a + 256 * b + 65536 * c + 16777216 * d + 4294967296 * q) = [a; b; c; d].
Proof.
  intros. set (x := a + _ + _ + _ + _). unfold le32, le16, app. ints.
  assert (x / 256 = b + 256 * c + 65536 * d + 16777216 * q) as -> by (subst x; Z.div_mod_to_equations; lia).
  assert (x / 65536 = c + 256 * d + 65536 * q) as -> by (subst x; Z.div_mod_to_equations; lia).
  subst x. repeat f_equal; Z.div_mod_to_equations; lia.
Qed.
Lemma le32_ntohl x : is_u32 x -> le32 (ntohl x) = rev (le32 x).
Proof.
  intros (a & b & c & d & Ha & Hb & Hc & Hd & ->)%u32_bytes. rewrite ntohl_bytes by done.
  pose proof (le32_bytes d c b a 0) as E1. pose proof (le32_bytes a b c d 0) as E2.
  rewrite Z.mul_0_r, Z.add_0_r in E1, E2. by rewrite E1, E2.
Qed.

Lemma le32_u32 x : le32 (u32 x) = le32 x.
Proof.
  destruct (u32_bytes (u32 x) (u32_range x)) as (a & b & c & d & Ha & Hb & Hc & Hd & E).
  assert (x = a + 256 * b + 65536 * c + 16777216 * d + 4294967296 * (x / 4294967296)) as Ex by (unfold u32 in E; Z.div_mod_to_equations; lia).
  pose proof (le32_bytes a b c d 0) as E0. rewrite Z.mul_0_r, Z.add_0_r in E0.
  rewrite E, E0, Ex by done. by rewrite le32_bytes.
Qed.

Lemma int_be64toh_inv x : is_u64 x -> _int_be64toh (_int_htobe64 x) = x.
Proof.
  intros Hx. pose proof (ntohl_range (u32 x)) as H1. pose proof (ntohl_range (u32 (x / 4294967296))) as H2.
  unfold _int_be64toh, _int_htobe64, htonl. cbv zeta. set (a := ntohl (u32 x)) in *. set (b := ntohl (u32 (x / 4294967296))) in *.
  assert (u32 (b + 4294967296 * a) = b) as -> by ilia.
  assert (u32 ((b + 4294967296 * a) / 4294967296) = a) as -> by ilia.
  subst a b. rewrite !ntohl_ntohl by apply u32_range. ilia.
Qed.

(** The functions that stand in for [be64toh] and [htobe64] reverse the eight
    bytes of their argument, and are the same function as the one used
    elsewhere; each undoes the other. *)
Theorem int_be64toh_reverse (x : Z) :
  is_u64 x ->
  le64 (_int_be64toh x) = rev (le64 x) /\ _int_be64toh x = be64toh x /\
  _int_htobe64 x = _int_be64toh x /\ _int_be64toh (_int_htobe64 x) = x.
Proof.
  intros Hx. split; [|split; [|split; [done|by apply int_be64toh_inv]]].
  - pose proof (ntohl_range (u32 x)) as H1. pose proof (ntohl_range (u32 (x / 4294967296))) as H2.
    unfold le64. set (y := _int_be64toh x).
    assert (u32 y = ntohl (u32 (x / 4294967296))) as Hlo by (subst y; unfold _int_be64toh; cbv zeta; ilia).
    assert (u32 (y / 4294967296) = ntohl (u32 x)) as Hhi by (subst y; unfold _int_be64toh; cbv zeta; ilia).
    rewrite <- (le32_u32 y), <- (le32_u32 (y / _)), Hlo, Hhi, !le32_ntohl by apply u32_range.
    by rewrite !le32_u32, rev_app_distr.
  - unfold _int_be64toh, be64toh, u32. lia.
Qed.

(** ** Markers *)
Lemma rd8_at a x m o : o = blen a -> is_u8 x -> rd8 (a ++ le8 x ++ m) o = Ok x.
Proof. intros -> Hx. by rewrite rd8_app_r, Z.sub_diag, rd8_le8, u8_id by (done || lia). Qed.

Lemma be32_app_r m m' o : blen m <= o -> be32 (m ++ m') o = be32 m' (o - blen m).
Proof. intros. unfold be32. by rewrite rd32_app_r. Qed.

Lemma marker_fields_shift a m k : 0 <= k -> marker_fields (a ++ m) (blen a + k) = marker_fields m k.
Proof.
  intros Hk. unfold marker_fields.
  rewrite !be32_app_r, !rd8_app_r, be16_app_r, rd64_app_r by lia.
  by replace (blen a + k - blen a) with k by lia;
    repeat match goal with |- context [blen a + k + ?i - blen a] => replace (blen a + k + i - blen a) with (k + i) by lia end.
Qed.

Lemma marker_fields_image k rest : marker_ok k -> marker_fields (marker_image k ++ rest) 0 = Ok k.
Proof.
  intros [Hmg Hv Hf Hr He Hu Hk Hs Ht]. unfold marker_fields. rewrite !Z.add_0_l.
  assert (is_u32 (magic k)) as Hm by (by rewrite Hmg).
  assert (is_u64 (_int_htobe64 (timestamp k))) as Ht'
    by (unfold _int_htobe64, htonl; pose proof (ntohl_range (u32 (timestamp k)));
        pose proof (ntohl_range (u32 (timestamp k / 4294967296))); ints; lia).
  pose (p0 := wr32be (magic k)). pose (p1 := p0 ++ le8 (marker_version k)). pose (p2 := p1 ++ le8 (marker_flags k)).
  pose (p3 := p2 ++ wr16be (reserved k)). pose (p4 := p3 ++ wr32be (exp_id k)).
  pose (p5 := p4 ++ wr32be (run_id k)). pose (p6 := p5 ++ wr32be (key_id k)). pose (p7 := p6 ++ wr32be (seq_num k)).
  rewrite (be32_at [] (magic k) (drop 4 (marker_image k) ++ rest) 0 eq_refl Hm : be32 (marker_image k ++ rest) 0 = _).
  rewrite (rd8_at p0 (marker_version k) (drop 5 (marker_image k) ++ rest) 4 eq_refl Hv : rd8 (marker_image k ++ rest) 4 = _).
  rewrite (rd8_at p1 (marker_flags k) (drop 6 (marker_image k) ++ rest) 5 eq_refl Hf : rd8 (marker_image k ++ rest) 5 = _).
  rewrite (be16_at p2 (reserved k) (drop 8 (marker_image k) ++ rest) 6 eq_refl Hr : be16 (marker_image k ++ rest) 6 = _).
  rewrite (be32_at p3 (exp_id k) (drop 12 (marker_image k) ++ rest) 8 eq_refl He : be32 (marker_image k ++ rest) 8 = _).
  rewrite (be32_at p4 (run_id k) (drop 16 (marker_image k) ++ rest) 12 eq_refl Hu : be32 (marker_image k ++ rest) 12 = _).
  rewrite (be32_at p5 (key_id k) (drop 20 (marker_image k) ++ rest) 16 eq_refl Hk : be32 (marker_image k ++ rest) 16 = _).
  rewrite (be32_at p6 (seq_num k) (drop 24 (marker_image k) ++ rest) 20 eq_refl Hs : be32 (marker_image k ++ rest) 20 = _).
  rewrite (rd64_at p7 _ (drop 32 (marker_image k) ++ rest) 24 eq_refl Ht' : rd64 (marker_image k ++ rest) 24 = _).
  cbn [mbind res_bind]. rewrite int_be64toh_inv by done. by destruct k.
Qed.

(** The UDP header of a frame with at most one tag. *)
Lemma find_udp_frame macs tcis hdr sport dport rest total :
  blen macs = 12 -> (length tcis <= 1)%nat -> ipv4_hdr hdr IPPROTO_UDP total -> is_u16 sport -> is_u16 dport ->
  let pre := macs ++ tags tcis ETHERTYPE_IP ++ hdr in
  let m := pre ++ wr16be sport ++ wr16be dport ++ rest in
  exists ip pl, find_ipv4_header m 0 = Ok (Some (ip, pl)) /\
    find_udp_header m 0 0 (Some ip) true = Ok (Some (blen pre, (sport, dport))).
Proof.
  intros Hm Ht Hip Hs Hd pre m.
  assert (Em : m = ipv4_frame macs tcis (hdr ++ wr16be sport ++ wr16be dport ++ rest))
    by (unfold m, pre, ipv4_frame; by rewrite <- !(assoc_L (++))).
  destruct (ip_fields (macs ++ tags tcis ETHERTYPE_IP) hdr (wr16be sport ++ wr16be dport ++ rest)
              _ _ _ Hip eq_refl) as ((hl & Hhl & E4) & _ & Hp).
  rewrite <- !(assoc_L (++)) in Hhl, Hp. fold (ipv4_frame macs tcis (hdr ++ wr16be sport ++ wr16be dport ++ rest)) in Hhl, Hp.
  rewrite <- Em in Hhl, Hp.
  assert (Hpre : blen (macs ++ tags tcis ETHERTYPE_IP) = 14 + 4 * Z.of_nat (length tcis))
    by (rewrite blen_app, blen_tags; lia). rewrite Hpre in Hhl, Hp.
  assert (Hlen : blen pre = 14 + 4 * Z.of_nat (length tcis) + blen hdr)
    by (unfold pre; rewrite (assoc_L (++)), blen_app, Hpre; lia).
  destruct hdr as [|b hdr]; [by destruct Hip as (H20 & _)|].
  do 2 eexists. split; [rewrite Em; by apply (find_ipv4_frame macs tcis _ b (hdr ++ wr16be sport ++ wr16be dport ++ rest))|].
  unfold find_udp_header, find_tp_header, find_ipproto_header. rewrite Hp. cbn [mbind res_bind negb Z.eqb Pos.eqb IPPROTO_UDP].
  assert (Ho : h_proto m 0 = Ok (match tcis with [] => ETHERTYPE_IP | _ => ETHERTYPE_VLAN end)).
  { unfold h_proto. rewrite Em. unfold ipv4_frame. destruct tcis as [|tci tcis]; cbn [tags]; rewrite <- ?(assoc_L (++));
      (apply be16_at; [by rewrite Hm|ints; unfold ETHERTYPE_IP, ETHERTYPE_VLAN; lia]). }
  rewrite Ho, Hhl. cbn [mbind res_bind].
  assert (0 + sizeof_ethhdr + (if (match tcis with [] => ETHERTYPE_IP | _ => ETHERTYPE_VLAN end) =? 33024 then 4 else 0) + 4 * hl
    = blen pre) as ->.
  { rewrite E4, Hlen. destruct tcis as [|? [|? ?]]; cbn [length] in *; [reflexivity| |lia].
    change (ETHERTYPE_VLAN =? 33024) with true. unfold sizeof_ethhdr. cbv iota. lia. }
  unfold m. rewrite (be16_at pre sport _ (blen pre)) by done. cbn [mbind res_bind].
  rewrite (assoc_L (++) pre), (be16_at (pre ++ wr16be sport) dport) by (rewrite ?blen_app; done). done.
Qed.

(** C40: A marker in a UDP frame, with at most one VLAN tag and any IP options, is
    recognised when the caller asks for its port or for any: the result is the
    port and the fields are those the sender put in. *)
Theorem is_marker_frame (macs : bytes) (tcis : list Z) (hdr udp rest : bytes) (total dport port : Z) (k : marker) :
  blen macs = 12 -> (length tcis <= 1)%nat -> ipv4_hdr hdr IPPROTO_UDP total -> is_u16 dport ->
  blen udp = 4 -> marker_ok k ->
  let dgram := hdr ++ wr16be MARKERPORT ++ wr16be dport ++ udp ++ marker_image k ++ rest in
  is_marker (ipv4_frame macs tcis dgram) true port =
    if (dport =? port) || (port =? 0) then Ok (dport, Some k) else Ok (0, None).
Proof.
  intros Hm Ht Hip Hd Hu Hk dgram.
  destruct (find_udp_frame macs tcis hdr MARKERPORT dport (udp ++ marker_image k ++ rest) total)
    as (ip & pl & Hf & Hudp); try done.
  unfold is_marker, dgram, ipv4_frame. rewrite <- !(assoc_L (++)) in Hf, Hudp. rewrite Hf. cbn [mbind res_bind].
  rewrite Hudp. cbn [mbind res_bind]. rewrite Z.eqb_refl. cbn [andb].
  destruct ((dport =? port) || (port =? 0)); [|done]. cbn [negb].
  set (pre := macs ++ tags tcis ETHERTYPE_IP ++ hdr). set (a := pre ++ wr16be MARKERPORT ++ wr16be dport ++ udp).
  assert (Ha : blen pre + 8 = blen a + 0) by (unfold a; rewrite !blen_app, !blen_wr16be, Hu; lia).
  assert (Em : macs ++ tags tcis ETHERTYPE_IP ++ hdr ++ wr16be MARKERPORT ++ wr16be dport ++ udp ++ marker_image k ++ rest
    = a ++ marker_image k ++ rest) by (unfold a, pre; by rewrite <- !(assoc_L (++))).
  rewrite Em, Ha, marker_fields_shift, marker_fields_image by (done || lia).
  destruct Hk as [Hmg _]. unfold marker_image at 1. rewrite Hmg, <- !(assoc_L (++)), be32_at by (done || lia). done.
Qed.

(** A packet is reported as a marker only when it is a UDP packet from the
    marker port to the port asked for and carries the magic number. *)
Theorem is_marker_sound (m : bytes) (want : bool) (port r : Z) (k : option marker) :
  is_marker m want port = Ok (r, k) -> r <> 0 ->
  exists ip pl udp, find_ipv4_header m 0 = Ok (Some (ip, pl)) /\
    find_udp_header m 0 0 (Some ip) true = Ok (Some (udp, (MARKERPORT, r))) /\
    be32 m (udp + 8) = Ok MARKER_MAGIC /\ (port = 0 \/ r = port) /\ (want = true -> is_Some k).
Proof.
  unfold is_marker. intros H Hr. inv_ok. destruct v as [[ip pl]|]; inv_ok; [|congruence].
  destruct v as [[udp [src dst]]|]; inv_ok; [|congruence].
  destruct (Z.eqb_spec src MARKERPORT) as [->|]; cbn [andb negb] in H; [|inv_ok; congruence].
  destruct (_ || _) eqn:Ep; cbn [negb] in H; inv_ok; [|congruence].
  destruct (Z.eqb_spec v MARKER_MAGIC) as [->|]; cbn [negb] in H; inv_ok; [|congruence].
  apply orb_true_iff in Ep. rewrite !Z.eqb_eq in Ep.
  destruct want; inv_ok; injection H as <- <-; exists ip, pl, udp; repeat split; eauto; tauto || done.
Qed.

(** ** Witnesses *)
Definition ex_marker : marker :=
  {| magic := MARKER_MAGIC; marker_version := 2; marker_flags := MARKER_TERMINATE; reserved := 0; exp_id := 17;
     run_id := 3; key_id := 1; seq_num := 4000000000; timestamp := 1366000000123456789 |}.
Definition ex_udp_ip : bytes := [69; 0; 0; 60; 0; 0; 0; 0; 64; 17; 0; 0; 10; 0; 0; 1; 10; 0; 0; 2].

Lemma int_be64toh_reverse_witness : le64 (_int_be64toh 81985529216486895) = rev (le64 81985529216486895).
Proof. apply (int_be64toh_reverse 81985529216486895). ints; lia. Defined.

Lemma is_marker_frame_witness :
  is_marker (ipv4_frame ex_macs [5] (ex_udp_ip ++ wr16be MARKERPORT ++ wr16be 4000 ++ [0; 40; 0; 0] ++
    marker_image ex_marker ++ replicate 64 0)) true 4000 = Ok (4000, Some ex_marker).
Proof.
  apply (is_marker_frame ex_macs [5] ex_udp_ip [0; 40; 0; 0] (replicate 64 0) 60 4000 4000 ex_marker);
    [done|cbn; lia|repeat split; vm_compute; done|ints; lia|done|].
  constructor; vm_compute; done || (split; discriminate || reflexivity).
Defined.

Lemma is_marker_sound_witness :
  let m := ipv4_frame ex_macs [] (ex_udp_ip ++ wr16be MARKERPORT ++ wr16be 4000 ++ [0; 40; 0; 0] ++
    marker_image ex_marker) in
  be32 m 42 = Ok MARKER_MAGIC.
Proof.
  intros m. destruct (is_marker_sound m true 0 4000 (Some ex_marker)) as (ip & pl & udp & Hf & Hu & Hm & _);
    [vm_compute; reflexivity|discriminate|].
  vm_compute in Hf. injection Hf as <- <-. vm_compute in Hu. injection Hu as <-. exact Hm.
Defined.

(** The header search accepts any number of tags, but the transport header is
    located as if there were at most one: a marker behind two tags is missed. *)
Lemma is_marker_two_tags :
  is_marker (ipv4_frame ex_macs [5; 6] (ex_udp_ip ++ wr16be MARKERPORT ++ wr16be 4000 ++ [0; 40; 0; 0] ++
    marker_image ex_marker)) true 4000 = Ok (0, None).
Proof. vm_compute. reflexivity. Qed.
