(* ===== verification/Dns.v ===== *)
(** * Names and messages of the domain name system (src/protocols/dns.c)

    A name is a sequence of labels, each with its length, that may end in a
    reference to another place of the message.  [dns_name] writes the text of a
    name into a fixed buffer; the printing functions walk the sections.  Pointers
    are offsets into the captured bytes, [end] is the offset behind them. *)

From S2P Require Import Prelude CLib Packet Protocols Text.

Definition MAX_LABEL_REFERENCES : nat := 32.

(** ** Tables, after [dns_initialize] *)
Definition dns_type_lut (t : Z) : option bytes :=
  if t =? 1 then Some (B "A") else if t =? 2 then Some (B "NS")
  else if t =? 5 then Some (B "CNAME") else if t =? 6 then Some (B "SOA")
  else if t =? 12 then Some (B "PTR") else if t =? 15 then Some (B "MX")
  else if t =? 16 then Some (B "TXT") else if t =? 28 then Some (B "AAAA")
  else if t =? 99 then Some (B "SPF") else if t =? 251 then Some (B "IXFR")
  else if t =? 252 then Some (B "AXFR") else if t =? 255 then Some (B "ANY") else None.
Definition dns_class_lut (c : Z) : option bytes :=
  if c =? 1 then Some (B "IN") else if c =? 2 then Some (B "CS")
  else if c =? 3 then Some (B "CH") else if c =? 4 then Some (B "HS") else None.
Definition dns_opcode_lut (o : Z) : option bytes :=
  if o =? 0 then Some (B "Query") else if o =? 1 then Some (B "Inverse query")
  else if o =? 2 then Some (B "Status") else if o =? 4 then Some (B "Notify")
  else if o =? 5 then Some (B "Update") else None.
Definition TYPE_ANY : Z := 255.
Definition CLASS_MAX : Z := 5.
Definition CLASS_IN : Z := 1.

Definition dns_class_name (c : Z) : option bytes :=
  if c <? CLASS_MAX then dns_class_lut c else Some (B "INVALID").

(** ** Names *)

(** The destination: the array, the position of [*dst] in it and [*size]. *)
Record label_out := { lo_buf : bytes; lo_pos : Z; lo_size : Z }.

(** [copy_label]: the new array and position, and the return value. *)
Definition copy_label (out : label_out) (m : bytes) (src len : Z) : res (bytes * Z * Z) :=
  let size := lo_size out in
  if size =? 0 then Ok (lo_buf out, lo_pos out, 0)
  else
    s ← mem_strndup m src (Z.to_nat (Z.min size len));
    let text := s ++ B "." in
    let n := blen text in
    buf ← wr (lo_buf out) (lo_pos out) (take (Z.to_nat (size - 1)) text ++ [0]);
    let pos := lo_pos out + Z.min n size in
    if size <? n then
      buf ← wr buf (pos - 1) (B "..." ++ [0]);
      Ok (buf, pos, size)
    else Ok (buf, pos, n).

(** The search for a reference among those visited: [None] for a malformed name. *)
Fixpoint check_visited (visited : list Z) (offset : Z) : option (list Z) :=
  match visited with
  | [] => None
  | v :: visited =>
      if (offset =? 0) || (v =? offset) then None
      else if v =? 0 then Some (offset :: visited)
      else cons v <$> check_visited visited offset
  end.

Definition malformed : bytes := B "[malformed]".

(** The [do] loop with the length [len] just read in front of [src]. *)
Fixpoint dns_name_loop (fuel : nat) (m : bytes) (fin payload src len : Z) (out : label_out) (visited : list Z)
    : res (option Z * label_out) :=
  match fuel with
  | O => OutOfFuel
  | S fuel =>
      if Z.land len 0xc0 =? 0xc0 then
        b ← rd8 m src;
        let src := src + 1 in
        let offset := Z.shiftl (Z.land len 0x3f) 8 + b in
        match check_visited visited offset with
        | None =>
            '(buf, pos, _) ← copy_label out malformed 0 (blen malformed);
            Ok (Some src, {| lo_buf := buf; lo_pos := pos; lo_size := lo_size out |})
        | Some visited =>
            let p := payload + offset in
            out ← (if (p <? payload) || (fin <=? p) then Ok out
                   else
                     len ← rd8 m p;
                     '(_, out) ← dns_name_loop fuel m fin payload (p + 1) len out visited;
                     Ok out);
            Ok (Some src, out)
        end
      else
        '(buf, pos, n) ← copy_label out m src len;
        let out := {| lo_buf := buf; lo_pos := pos; lo_size := u64 (lo_size out - n) |} in
        let src := src + len in
        if fin <=? src then Ok (None, out)
        else
          len ← rd8 m src;
          if 0 <? len then dns_name_loop fuel m fin payload (src + 1) len out visited
          else Ok (Some (src + 1), out)
  end.

Definition dns_name_int (fuel : nat) (m : bytes) (fin payload src : Z) (out : label_out) (visited : list Z)
    : res (option Z * label_out) :=
  if (src <? payload) || (fin <=? src) then Ok (None, out)
  else
    len ← rd8 m src;
    dns_name_loop fuel m fin payload (src + 1) len out visited.

(** Every turn of the loop moves forward and every reference is followed once. *)
Definition dns_fuel (fin : Z) : nat := Z.to_nat (33 * (fin + 2)).

(** [dst] is the whole array, empty when the caller passes none. *)
Definition dns_name (m dst : bytes) (src fin payload : Z) : res (option Z * bytes) :=
  let size := blen dst in
  let size := if negb (size =? 0) then u64 (size - 3) else size in
  '(r, out) ← dns_name_int (dns_fuel fin) m fin payload src
    {| lo_buf := dst; lo_pos := 0; lo_size := size |} (replicate MAX_LABEL_REFERENCES 0);
  Ok (r, lo_buf out).

(** ** Messages *)
Record dns_header := { dns_id : Z; dns_flags : Z; qdcount : Z; ancount : Z; nscount : Z; arcount : Z }.
Definition read_dns_header (m : bytes) (ptr : Z) : res dns_header :=
  id ← be16 m ptr; flags ← be16 m (ptr + 2);
  qd ← be16 m (ptr + 4); an ← be16 m (ptr + 6); ns ← be16 m (ptr + 8); ar ← be16 m (ptr + 10);
  Ok {| dns_id := id; dns_flags := flags; qdcount := qd; ancount := an; nscount := ns; arcount := ar |}.
Definition sizeof_dns_header : Z := 12.

(** The bit fields of the flags in host order. *)
Definition rcode (h : dns_header) : Z := dns_flags h mod 16.
Definition dns_z (h : dns_header) : Z := dns_flags h / 16 mod 8.
Definition dns_ra (h : dns_header) : Z := dns_flags h / 128 mod 2.
Definition dns_rd (h : dns_header) : Z := dns_flags h / 256 mod 2.
Definition dns_tc (h : dns_header) : Z := dns_flags h / 512 mod 2.
Definition dns_aa (h : dns_header) : Z := dns_flags h / 1024 mod 2.
Definition opcode (h : dns_header) : Z := dns_flags h / 2048 mod 16.
Definition qr (h : dns_header) : Z := dns_flags h / 32768 mod 2.

Definition size_limited : bytes := B " [Packet size limited during capture]".
Definition type_text (t : Z) : option bytes := if t <=? TYPE_ANY then dns_type_lut t else None.

(** A question at [ptr] behind its name: type and class. *)
Fixpoint print_questions (n : nat) (i : Z) (m qname : bytes) (ptr fin payload : Z) : res bytes :=
  match n with
  | O => Ok []
  | S n =>
      '(r, qname) ← dns_name m qname ptr fin payload;
      let sep := if 1 <? i then B ", " else [] in
      match r with
      | None => Ok (sep ++ size_limited)
      | Some ptr =>
          if fin <=? ptr + 4 then Ok (sep ++ size_limited)
          else
            qtype ← be16 m ptr; qclass ← be16 m (ptr + 2);
            name ← fputs_printable qname (-1);
            rest ← print_questions n (i + 1) m qname (ptr + 4) fin payload;
            Ok (sep ++ fmt_s (dns_class_name qclass) ++ B " " ++
                match type_text qtype with Some t => t | None => B "(" ++ dec qtype ++ B ")" end ++
                B " " ++ name ++ rest)
      end
  end.
Definition print_query (m stack : bytes) (h : dns_header) (ptr fin payload : Z) : res bytes :=
  let n := qdcount h in
  text ← print_questions (Z.to_nat n) 0 m stack ptr fin payload;
  Ok (B " Standard query 0x" ++ padl 48 4 (hex (dns_id h)) ++ B " [qdcount=" ++ dec n ++ B "] " ++ text).

(** The questions of a response are skipped. *)
Fixpoint skip_questions (n : nat) (m : bytes) (ptr fin packet : Z) : res (option Z) :=
  match n with
  | O => Ok (Some ptr)
  | S n =>
      '(r, _) ← dns_name m [] ptr fin packet;
      match r with
      | None => Ok None
      | Some ptr => if fin <=? ptr + 4 then Ok None else skip_questions n m (ptr + 4) fin packet
      end
  end.

(** Record types whose data is printed as a name. *)
Definition name_type (t : Z) : bool :=
  (t =? 15) || (t =? 2) || (t =? 5) || (t =? 6) || (t =? 12) || (t =? 16) || (t =? 99).

(** The data of a record of class IN at [ptr]: the text, the buffer, and how far
    the pointer and the length have moved. *)
Definition print_rdata (m name : bytes) (type ptr fin packet : Z) (show : bytes -> res bytes) (sep : bytes)
    : res (bytes * bytes * Z) :=
  if type =? 1 then a ← rd32 m ptr; Ok (inet_ntoa a ++ sep, name, 0)
  else if type =? 28 then a ← slice m ptr 16; Ok (inet_ntop6 a ++ sep, name, 0)
  else if name_type type then
    '(pre, skip) ← (if type =? 15 then p ← be16 m ptr; Ok (dec p ++ B " ", 2) else Ok ([], 0));
    '(_, name) ← dns_name m name (ptr + skip) fin packet;
    text ← show name;
    Ok (pre ++ text ++ sep, name, skip)
  else Ok ([], name, 0).

Fixpoint print_answers (n : nat) (m name : bytes) (ptr fin packet : Z) : res bytes :=
  match n with
  | O => Ok []
  | S n =>
      '(r, name) ← dns_name m name ptr fin packet;
      match r with
      | None => Ok size_limited
      | Some ptr =>
          if fin <=? ptr + 10 then Ok size_limited
          else
            type ← be16 m ptr; class ← be16 m (ptr + 2); ttl ← be32 m (ptr + 4); rdlen ← be16 m (ptr + 8);
            let ptr := ptr + 10 in
            let head := match type_text type with Some t => t ++ B " " | None => B "(" ++ dec type ++ B ") " end in
            '(text, name, skip) ←
              (if class =? CLASS_IN
               then print_rdata m name type ptr fin packet (fun nm => fputs_printable nm (-1)) (B " ")
               else Ok (fmt_s (dns_class_name class) ++ B " ", name, 0));
            rest ← print_answers n m name (ptr + skip + u16 (rdlen - skip)) fin packet;
            Ok (head ++ B "[ttl=" ++ dec ttl ++ B "d] " ++ text ++ rest)
      end
  end.
Definition print_response (m stack : bytes) (h : dns_header) (ptr fin packet : Z) : res bytes :=
  let head := B " Standard query response 0x" ++ padl 48 4 (hex (dns_id h)) ++ B " " in
  r ← skip_questions (Z.to_nat (qdcount h)) m ptr fin packet;
  match r with
  | None => Ok (head ++ size_limited)
  | Some ptr =>
      text ← print_answers (Z.to_nat (ancount h)) m stack ptr fin packet;
      Ok (head ++ (if ancount h =? 0 then B "(no answer section)" else []) ++ text)
  end.

(** The response codes that end the description. *)
Definition rcode_text (r : Z) : option bytes :=
  if r =? 1 then Some (B " Format error") else if r =? 2 then Some (B " Server failure")
  else if r =? 3 then Some (B " No such name") else if r =? 4 then Some (B " Not implemented")
  else if r =? 5 then Some (B " Refused") else if r =? 6 then Some (B " Name Exists when it should not")
  else if r =? 7 then Some (B " RR Set Exists when it should not")
  else if r =? 8 then Some (B " RR Set that should exist does not")
  else if r =? 9 then Some (B " Not Authoritative") else if r =? 10 then Some (B " Name not contained in zone")
  else None.

Definition FORMAT_HEADER : Z := 16.
Definition dns_header_text (h : dns_header) (full_size : Z) : bytes :=
  B "(HDR[12]DATA[" ++ fmt_zd (u64 (full_size - sizeof_dns_header)) ++ B "])[id=0x" ++ hex (dns_id h) ++
  B ":qr=" ++ dec (qr h) ++ B ":opcode=" ++ dec (opcode h) ++ B ",aa=" ++ dec (dns_aa h) ++
  B ",tc=" ++ dec (dns_tc h) ++ B ",rd=" ++ dec (dns_rd h) ++ B ",ra=" ++ dec (dns_ra h) ++
  B ",z=" ++ dec (dns_z h) ++ B ",rcode=" ++ dec (rcode h) ++ B "]".

(** [stack] is the uninitialised array for names. *)
Definition dns_format (stack : bytes) (hc : header_chunk) (ptr flags : Z) : res bytes :=
  let m := mem hc in
  h ← read_dns_header m ptr;
  let full_size := u64 (len (cp hc) - ptr) in
  let captured_size := u64 (caplen (cp hc) - ptr) in
  let head := B " DNS" ++ (if has_flag flags FORMAT_HEADER then dns_header_text h full_size else []) in
  if negb (dns_tc h =? 0) then Ok (head ++ B " message truncated")
  else
    match rcode_text (rcode h) with
    | Some t => Ok (head ++ t)
    | None =>
        let head := head ++ (if rcode h =? 0 then [] else B " rcode: " ++ dec (rcode h)) in
        if captured_size <? full_size then Ok (head ++ size_limited)
        else
          let payload := ptr + sizeof_dns_header in
          let fin := caplen (cp hc) in
          text ← (if opcode h =? 0 then
                    (if qr h =? 0 then print_query m stack h payload fin ptr
                     else print_response m stack h payload fin ptr)
                  else if opcode h =? 1 then Ok (B " inverse query")
                  else if opcode h =? 2 then Ok (B " status")
                  else Ok (B " reserved opcode " ++ dec (opcode h)));
          Ok (head ++ text)
    end.

(** ** All fields of a message *)
Definition dns_dump_question (m stack prefix : bytes) (i payload ptr fin : Z) : res (bytes * Z) :=
  '(r, qname) ← dns_name m stack ptr fin payload;
  match r with
  | None => Fault
  | Some ptr =>
      qtype ← be16 m ptr; qclass ← be16 m (ptr + 2);
      name ← arr_str qname;
      Ok (prefix ++ B "qd[" ++ dec i ++ B "]:" ++ nl ++
          B "  " ++ prefix ++ B "qclass:           " ++ fmt_s (dns_class_name qclass) ++ B " (" ++ dec qclass ++ B ")" ++ nl ++
          B "  " ++ prefix ++ B "qtype:            " ++
          match type_text qtype with Some t => t ++ B " (" ++ dec qtype ++ B ")" | None => B "(" ++ dec qtype ++ B ")" end ++ nl ++
          B "  " ++ prefix ++ B "qname:            " ++ name ++ nl, ptr + 4)
  end.

Definition dns_dump_answer (m stack prefix section : bytes) (i payload ptr fin : Z) : res (bytes * Z) :=
  '(r, name) ← dns_name m stack ptr fin payload;
  match r with
  | None => Fault
  | Some ptr =>
      type ← be16 m ptr; class ← be16 m (ptr + 2); ttl ← be32 m (ptr + 4); rdlen ← be16 m (ptr + 8);
      let ptr := ptr + 10 in
      text ← arr_str name;
      '(rdata, _, skip) ←
        (if class =? CLASS_IN then print_rdata m name type ptr fin payload arr_str nl
         else Ok (fmt_s (dns_class_name class) ++ nl, name, 0));
      Ok (prefix ++ section ++ B "[" ++ dec i ++ B "]:" ++ nl ++
          B "  " ++ prefix ++ B "class:            " ++ fmt_s (dns_class_name class) ++ B " (" ++ dec class ++ B ")" ++ nl ++
          B "  " ++ prefix ++ B "type:             " ++
          match type_text type with Some t => t ++ B " (" ++ dec type ++ B ")" | None => B "(" ++ dec type ++ B ")" end ++ nl ++
          B "  " ++ prefix ++ B "ttl:              " ++ fmt_d ttl ++ B " sec" ++ nl ++
          B "  " ++ prefix ++ B "rdlen:            " ++ dec rdlen ++ B " octets" ++ nl ++
          B "  " ++ prefix ++ B "name:             " ++ text ++ nl ++
          B "  " ++ prefix ++ B "rdata:            " ++ rdata,
          ptr + skip + u16 (rdlen - skip))
  end.

(** The four loops over the sections. *)
Fixpoint dump_section (n : nat) (f : Z -> Z -> res (bytes * Z)) (i cur : Z) : res (bytes * Z) :=
  match n with
  | O => Ok ([], cur)
  | S n =>
      '(text, cur) ← f i cur;
      '(rest, cur) ← dump_section n f (i + 1) cur;
      Ok (text ++ rest, cur)
  end.

Definition dns_dump (stack : bytes) (hc : header_chunk) (ptr : Z) (prefix : bytes) : res bytes :=
  let m := mem hc in
  h ← read_dns_header m ptr;
  let cur := ptr + sizeof_dns_header in
  let fin := caplen (cp hc) in
  let field name v := prefix ++ name ++ v ++ nl in
  let head :=
    field (B "id:                 ") (B "0x" ++ padl 48 4 (HEX (dns_id h))) ++
    field (B "flags:              ") (B "0x" ++ padl 48 4 (HEX (dns_flags h))) ++
    B "  " ++ field (B "qr:               ") (dec (qr h)) ++
    B "  " ++ field (B "opcode:           ") (fmt_s (dns_opcode_lut (opcode h)) ++ B " (" ++ dec (opcode h) ++ B ")") ++
    B "  " ++ field (B "aa:               ") (dec (dns_aa h)) ++
    B "  " ++ field (B "tc:               ") (dec (dns_tc h)) ++
    B "  " ++ field (B "rd:               ") (dec (dns_rd h)) ++
    B "  " ++ field (B "ra:               ") (dec (dns_ra h)) ++
    B "  " ++ field (B "z:                ") (dec (dns_z h)) ++
    B "  " ++ field (B "rcode:            ") (dec (rcode h)) ++
    field (B "qdcount:            ") (dec (qdcount h)) ++
    field (B "ancount:            ") (dec (ancount h)) ++
    field (B "nscount:            ") (dec (nscount h)) ++
    field (B "arcount:            ") (dec (arcount h)) in
  if caplen (cp hc) <? len (cp hc) then Ok (head ++ prefix ++ B "[Packet size limited during capture]")
  else
    '(t1, cur) ← dump_section (Z.to_nat (qdcount h)) (fun i cur => dns_dump_question m stack prefix i ptr cur fin) 0 cur;
    '(t2, cur) ← dump_section (Z.to_nat (ancount h)) (fun i cur => dns_dump_answer m stack prefix (B "an") i ptr cur fin) 0 cur;
    '(t3, cur) ← dump_section (Z.to_nat (nscount h)) (fun i cur => dns_dump_answer m stack prefix (B "ns") i ptr cur fin) 0 cur;
    '(t4, cur) ← dump_section (Z.to_nat (arcount h)) (fun i cur => dns_dump_answer m stack prefix (B "ar") i ptr cur fin) 0 cur;
    Ok (head ++ t1 ++ t2 ++ t3 ++ t4).

(** ** Lemmas *)

(** The array holds a string. *)
Definition terminated (buf : bytes) : Prop := exists i, rd8 buf i = Ok 0.

(** Room for the label and the dots that mark a name that was cut. *)
Record out_ok (out : label_out) : Prop := {
  oo_pos : 0 <= lo_pos out;
  oo_size : 0 <= lo_size out < 18446744073709551616;
  oo_room : lo_size out = 0 \/ lo_pos out + lo_size out + 3 <= blen (lo_buf out);
}.

Lemma mem_strndup_Ok m o n :
  0 <= o -> o + Z.of_nat n <= blen m -> exists s, mem_strndup m o n = Ok s /\ blen s <= Z.of_nat n.
Proof.
  revert o. induction n as [|n IH]; intros o Ho Hl; cbn [mem_strndup]; [by exists []|].
  destruct (rd8_in m o) as [c ->]; [lia|]. cbn [mbind res_bind]. case_match; [exists []; split; [done|change (blen []) with 0; lia]|].
  destruct (IH (o + 1)) as (s & -> & Hs); [lia..|]. exists (c :: s). split; [done|]. rewrite blen_cons. lia.
Qed.

(** A store that ends with a zero leaves a string. *)
Lemma wr_terminated m o s :
  0 <= o -> o + blen s + 1 <= blen m -> exists m', wr m o (s ++ [0]) = Ok m' /\ blen m' = blen m /\ terminated m'.
Proof.
  intros Ho Hl. pose proof (blen_nonneg s).
  destruct (wr_Ok m o (s ++ [0])) as (m' & -> & Hl' & _ & Hin); [done|rewrite blen_app; change (blen [0]) with 1; lia|].
  exists m'. split; [done|]. split; [done|]. exists (o + blen s). rewrite blen_app in Hin. change (blen [0]) with 1 in Hin.
  rewrite Hin by lia. rewrite rd8_app_r by lia. by replace (o + blen s - o - blen s) with 0 by lia.
Qed.

Lemma copy_label_Ok out m src len :
  out_ok out -> 0 <= src -> 0 <= len -> src + len <= blen m ->
  exists buf pos n, copy_label out m src len = Ok (buf, pos, n) /\ blen buf = blen (lo_buf out) /\
    0 <= n <= lo_size out /\ pos = lo_pos out + n /\
    (terminated (lo_buf out) \/ lo_size out <> 0 -> terminated buf).
Proof.
  intros [Hp Hs Hr] Hsrc Hlen Hm. unfold copy_label. destruct (Z.eqb_spec (lo_size out) 0) as [E|E].
  { do 3 eexists. split; [reflexivity|]. split_and!; [done|lia|lia|lia|]. by intros [?|?]. }
  destruct Hr as [?|Hr]; [done|].
  destruct (mem_strndup_Ok m src (Z.to_nat (Z.min (lo_size out) len))) as (s & -> & Hl); [lia..|]. cbn [mbind res_bind].
  set (text := s ++ B "."). assert (Ht : blen text = blen s + 1) by (unfold text; rewrite blen_app; done).
  pose proof (blen_nonneg s).
  assert (Hcut : blen (take (Z.to_nat (lo_size out - 1)) text) <= lo_size out - 1)
    by (unfold blen in *; rewrite length_take; lia).
  destruct (wr_terminated (lo_buf out) (lo_pos out) (take (Z.to_nat (lo_size out - 1)) text)) as (b1 & -> & Hb1 & Ht1); [lia..|].
  cbn [mbind res_bind]. destruct (Z.ltb_spec (lo_size out) (blen text)).
  - destruct (wr_terminated b1 (lo_pos out + Z.min (blen text) (lo_size out) - 1) (B "...")) as (b2 & -> & Hb2 & Ht2);
      [lia|change (blen (B "...")) with 3; lia|].
    cbn [mbind res_bind]. do 3 eexists. split; [reflexivity|]. split_and!; try done; lia.
  - do 3 eexists. split; [reflexivity|]. split_and!; try done; lia.
Qed.

Definition free_slots (visited : list Z) : nat := length (filter (fun v => v = 0) visited).
Lemma check_visited_free visited offset v' :
  check_visited visited offset = Some v' -> (free_slots visited = S (free_slots v'))%nat.
Proof.
  revert v'. induction visited as [|v visited IH]; intros v'; cbn [check_visited]; [done|].
  destruct (Z.eqb_spec offset 0); [done|]. destruct (Z.eqb_spec v offset); [done|]. cbn [orb].
  destruct (Z.eqb_spec v 0) as [->|Hv].
  - intros [= <-]. unfold free_slots. rewrite filter_cons_True, filter_cons_False by done. done.
  - intros H. destruct (check_visited visited offset) as [w|] eqn:E; [|discriminate]. injection H as <-.
    unfold free_slots in *. rewrite !filter_cons_False by done. by apply IH.
Qed.

(** The margin behind the captured data: a label that starts at its end may be
    191 bytes long. *)
Definition dns_margin : Z := 192.

(** What a call leaves: the array keeps its length, a result lies behind the
    start, at most one byte behind the data. *)
Definition name_result (fin src : Z) (out : label_out) (r : res (option Z * label_out)) : Prop :=
  exists q out', r = Ok (q, out') /\ blen (lo_buf out') = blen (lo_buf out) /\
    (terminated (lo_buf out) -> terminated (lo_buf out')) /\
    match q with Some q => src <= q <= fin + 1 | None => True end.

Lemma land_c0 len : is_u8 len -> Z.land len 0xc0 <> 0xc0 -> len < 192.
Proof.
  intros Hl H. destruct (Z.lt_ge_cases len 192); [done|]. exfalso. apply H. ints.
  assert (exists k, len = Z.of_nat (192 + k) /\ (k < 64)%nat) as (k & -> & Hk) by (exists (Z.to_nat (len - 192)); lia).
  clear -Hk. do 64 (destruct k as [|k]; [reflexivity|]). lia.
Qed.

Lemma dns_name_loop_Ok fuel m fin payload src len out visited :
  is_bytes m -> 0 <= payload -> 0 <= src <= fin -> fin + dns_margin <= blen m -> is_u8 len -> out_ok out ->
  Z.of_nat (free_slots visited) * (fin + 2) + (fin - src) + 1 <= Z.of_nat fuel ->
  name_result fin src out (dns_name_loop fuel m fin payload src len out visited).
Proof.
  intros Hb Hpl. revert src len out visited. unfold dns_margin.
  induction fuel as [|fuel IH]; intros src len out visited Hsrc Hm Hlen Hout Hf; [exfalso; nia|]. cbn [dns_name_loop].
  destruct (Z.eqb_spec (Z.land len 192) 192) as [Hc|Hc].
  - destruct (rd8_in m src) as [b Hb']; [lia|]. rewrite Hb'. cbn [mbind res_bind].
    destruct (check_visited visited _) as [v'|] eqn:Ev.
    + apply check_visited_free in Ev. set (p := payload + _).
      destruct ((p <? payload) || (fin <=? p)) eqn:Er; cbn [mbind res_bind].
      { do 2 eexists. split; [reflexivity|]. split_and!; try done; lia. }
      apply orb_false_iff in Er as [Ep%Z.ltb_ge Er%Z.leb_gt].
      destruct (rd8_in m p) as [l Hl]; [lia|]. rewrite Hl. cbn [mbind res_bind].
      destruct (IH (p + 1) l out v') as (q & out' & -> & Hbl & Ht & _);
        [lia|lia|by apply (rd8_range m p)|done|nia|]. cbn [mbind res_bind].
      do 2 eexists. split; [reflexivity|]. split_and!; try done; lia.
    + destruct (copy_label_Ok out malformed 0 (blen malformed)) as (buf & pos & n & -> & Hbl & Hn & -> & Ht); [done|lia|done|done|].
      cbn [mbind res_bind]. do 2 eexists. split; [reflexivity|]. split_and!; [done|tauto|lia|lia].
  - pose proof (land_c0 len Hlen Hc). assert (0 <= len) by (ints; lia).
    destruct (copy_label_Ok out m src len) as (buf & pos & n & -> & Hbl & Hn & -> & Ht); [done|lia..|].
    cbn [mbind res_bind]. destruct Hout as [Ho1 Ho2 Ho3].
    assert (Hout' : out_ok {| lo_buf := buf; lo_pos := lo_pos out + n; lo_size := u64 (lo_size out - n) |})
      by (constructor; cbn; rewrite ?u64_id by (ints; lia); lia).
    destruct (Z.leb_spec fin (src + len)); [do 2 eexists; split; [reflexivity|]; split_and!; try done; tauto|].
    destruct (rd8_in m (src + len)) as [l Hl]; [lia|]. rewrite Hl. cbn [mbind res_bind].
    destruct (Z.ltb_spec 0 l).
    + destruct (IH (src + len + 1) l {| lo_buf := buf; lo_pos := lo_pos out + n; lo_size := u64 (lo_size out - n) |} visited)
        as (q & out' & -> & Hbl' & Ht' & Hq); [lia|lia|by apply (rd8_range m (src + len))|done|lia|].
      cbn in Hbl', Ht'. exists q, out'. split; [done|]. split_and!; [lia|tauto|]. destruct q; [lia|done].
    + do 2 eexists. split; [reflexivity|]. split_and!; try done; [tauto|lia..].
Qed.

Lemma dns_name_Ok m dst src fin payload :
  is_bytes m -> 0 <= payload -> 0 <= fin -> fin + dns_margin <= blen m ->
  blen dst = 0 \/ 4 <= blen dst < 4294967296 ->
  exists r buf, dns_name m dst src fin payload = Ok (r, buf) /\ blen buf = blen dst /\
    (terminated dst -> terminated buf) /\ match r with Some q => src < q <= fin + 1 /\ payload <= src < fin | None => True end.
Proof.
  intros Hb Hpl Hfin Hm Hd. unfold dns_name, dns_name_int.
  set (out := {| lo_buf := dst; lo_pos := 0; lo_size := if negb (blen dst =? 0) then u64 (blen dst - 3) else blen dst |}).
  destruct ((src <? payload) || (fin <=? src)) eqn:Er; cbn [mbind res_bind]; [by do 2 eexists|].
  apply orb_false_iff in Er as [Ep%Z.ltb_ge Er%Z.leb_gt].
  destruct (rd8_in m src) as [l Hl]; [unfold dns_margin in *; lia|]. rewrite Hl. cbn [mbind res_bind].
  assert (Hout : out_ok out).
  { constructor; cbn; destruct (Z.eqb_spec (blen dst) 0); cbn [negb]; rewrite ?u64_id by (ints; lia); lia. }
  destruct (dns_name_loop_Ok (dns_fuel fin) m fin payload (src + 1) l out (replicate MAX_LABEL_REFERENCES 0))
    as (q & out' & -> & Hbl & Ht & Hq); try done; [lia|by apply (rd8_range m src)| |].
  - change (Z.of_nat (free_slots (replicate MAX_LABEL_REFERENCES 0))) with 32. unfold dns_fuel. lia.
  - cbn [mbind res_bind]. do 2 eexists. split; [reflexivity|]. split_and!; try done. destruct q; [|done]. split; lia.
Qed.

Lemma arr_str_terminated buf : terminated buf -> arr_str buf = Ok (cstr buf).
Proof. intros [i Hi]. unfold arr_str. by rewrite (existsb_zero_at buf i). Qed.
Lemma fputs_terminated buf : terminated buf -> exists s, fputs_printable buf (-1) = Ok s.
Proof. intros Ht. unfold fputs_printable. rewrite arr_str_terminated by done. cbn [mbind res_bind]. eauto. Qed.

(** An array for names, and the memory the printing functions rely on. *)
Definition name_array (buf : bytes) : Prop := blen buf = 128 /\ terminated buf.

Section Safe.
Context (m : bytes) (fin payload : Z).
Hypothesis Hbytes : is_bytes m.
Hypothesis Hpayload : 0 <= payload.
Hypothesis Hfin : 0 <= fin.
Hypothesis Hmargin : fin + dns_margin <= blen m.

Lemma dns_name_array buf src :
  name_array buf -> exists r buf', dns_name m buf src fin payload = Ok (r, buf') /\ name_array buf' /\
    match r with Some q => src < q <= fin + 1 | None => True end.
Proof.
  intros [Hl Ht]. destruct (dns_name_Ok m buf src fin payload) as (r & buf' & E & Hl' & Ht' & Hr); try done; [lia|].
  exists r, buf'. split; [done|]. split; [split; [lia|auto]|]. destruct r; [tauto|done].
Qed.

(** The two loads behind a name, and the ten bytes of a record. *)
Ltac load16 := match goal with |- context [be16 m ?o ≫= _] =>
  let v := fresh "v" in let E := fresh "Ev" in destruct (be16_in m o) as [v E]; [unfold dns_margin in *; lia..|]; rewrite E; cbn [mbind res_bind] end.

Lemma print_questions_Ok n i qname ptr :
  0 <= ptr -> name_array qname -> exists s, print_questions n i m qname ptr fin payload = Ok s.
Proof.
  revert i qname ptr. induction n as [|n IH]; intros i qname ptr Hp Hq; cbn [print_questions]; [eauto|].
  destruct (dns_name_array qname ptr Hq) as (r & buf & -> & Hbuf & Hr). cbn [mbind res_bind].
  destruct r as [q|]; [|eauto]. destruct (Z.leb_spec fin (q + 4)); [eauto|]. load16. load16.
  destruct (fputs_terminated buf (proj2 Hbuf)) as [s ->]. cbn [mbind res_bind].
  destruct (IH (i + 1) buf (q + 4)) as [t ->]; [lia|done|]. cbn [mbind res_bind]. eauto.
Qed.

Lemma skip_questions_Ok n ptr : 0 <= ptr ->
  exists r, skip_questions n m ptr fin payload = Ok r /\ match r with Some q => 0 <= q | None => True end.
Proof.
  revert ptr. induction n as [|n IH]; intros ptr Hp; cbn [skip_questions]; [eauto|].
  destruct (dns_name_Ok m [] ptr fin payload) as (r & buf & -> & _ & _ & Hr); try done; [by left|]. cbn [mbind res_bind].
  destruct r as [q|]; [|by exists None]. destruct (Z.leb_spec fin (q + 4)); [by exists None|]. apply IH. lia.
Qed.

Lemma print_rdata_Ok name type ptr show sep :
  name_array name -> (forall b, name_array b -> exists s, show b = Ok s) -> 0 <= ptr <= fin ->
  exists t name' k, print_rdata m name type ptr fin payload show sep = Ok (t, name', k) /\ name_array name' /\ 0 <= k.
Proof.
  intros Hn Hshow Hp. unfold print_rdata.
  destruct (type =? 1). { destruct (rd32_in m ptr) as [a ->]; [unfold dns_margin in *; lia..|]. cbn. by do 3 eexists. }
  destruct (type =? 28). { destruct (slice_in m ptr 16) as [a ->]; [unfold dns_margin in *; lia..|]. cbn. by do 3 eexists. }
  destruct (name_type type); [|by do 3 eexists].
  assert (exists pre k, (if type =? 15 then p ← be16 m ptr; Ok (dec p ++ B " ", 2) else Ok ([], 0)) = Ok (pre, k) /\ 0 <= k)
    as (pre & k & -> & Hk).
  { destruct (type =? 15); [load16|]; do 2 eexists; (split; [reflexivity|lia]). }
  cbn [mbind res_bind]. destruct (dns_name_array name (ptr + k) Hn) as (r & buf & -> & Hbuf & _). cbn [mbind res_bind].
  destruct (Hshow buf Hbuf) as [s ->]. cbn [mbind res_bind]. by do 3 eexists.
Qed.

Lemma print_answers_Ok n name ptr :
  0 <= ptr -> name_array name -> exists s, print_answers n m name ptr fin payload = Ok s.
Proof.
  revert name ptr. induction n as [|n IH]; intros name ptr Hp Hn; cbn [print_answers]; [eauto|].
  destruct (dns_name_array name ptr Hn) as (r & buf & -> & Hbuf & Hr). cbn [mbind res_bind].
  destruct r as [q|]; [|eauto]. destruct (Z.leb_spec fin (q + 10)); [eauto|]. load16. load16.
  destruct (be32_in m (q + 4)) as [ttl ->]; [unfold dns_margin in *; lia..|]. cbn [mbind res_bind]. load16.
  assert (exists t name' k, (if v0 =? CLASS_IN
      then print_rdata m buf v (q + 10) fin payload (fun nm => fputs_printable nm (-1)) (B " ")
      else Ok (fmt_s (dns_class_name v0) ++ B " ", buf, 0)) = Ok (t, name', k) /\ name_array name' /\ 0 <= k)
    as (t & name' & k & -> & Hn' & Hk).
  { destruct (v0 =? CLASS_IN); [|by do 3 eexists]. apply print_rdata_Ok; [done| |lia].
    intros b [_ Hb]. by apply fputs_terminated. }
  cbn [mbind res_bind]. pose proof (u16_range (v1 - k)) as Hu. unfold is_u16 in Hu.
  destruct (IH name' (q + 10 + k + u16 (v1 - k))) as [s ->]; [lia|done|]. cbn [mbind res_bind]. eauto.
Qed.
End Safe.

Lemma dns_format_Ok (stack : bytes) (hc : header_chunk) (ptr flags : Z) :
  is_bytes (mem hc) -> 0 <= ptr -> ptr + sizeof_dns_header <= caplen (cp hc) ->
  caplen (cp hc) + dns_margin <= blen (mem hc) -> name_array stack ->
  exists text, dns_format stack hc ptr flags = Ok text.
Proof.
  intros Hb Hp Hl Hm Hs. unfold sizeof_dns_header in Hl. unfold dns_format, read_dns_header.
  do 6 (match goal with |- context [be16 (mem hc) ?o] =>
    let E := fresh "E" in destruct (be16_in (mem hc) o) as [? E]; [unfold dns_margin in *; lia..|]; rewrite E; cbn [mbind res_bind] end).
  set (h := {| dns_id := _ |}). set (head := B " DNS" ++ _). cbv zeta.
  destruct (negb (dns_tc h =? 0)); [eauto|]. destruct (rcode_text _); [eauto|]. destruct (_ <? _); [eauto|].
  match goal with |- exists _, (?t ≫= _) = _ => assert (exists s, t = Ok s) as [s ->] end.
  { destruct (opcode h =? 0); [|repeat case_match; eauto]. destruct (qr h =? 0).
    - unfold print_query. destruct (print_questions_Ok (mem hc) (caplen (cp hc)) ptr) with (n := Z.to_nat (qdcount h)) (i := 0)
        (qname := stack) (ptr := ptr + sizeof_dns_header) as [s ->]; try done; unfold sizeof_dns_header; try lia.
      cbn [mbind res_bind]. eauto.
    - unfold print_response. destruct (skip_questions_Ok (mem hc) (caplen (cp hc)) ptr) with (n := Z.to_nat (qdcount h))
        (ptr := ptr + sizeof_dns_header) as (r & -> & Hr); try done; unfold sizeof_dns_header; try lia.
      cbn [mbind res_bind]. destruct r as [q|]; [|eauto].
      destruct (print_answers_Ok (mem hc) (caplen (cp hc)) ptr) with (n := Z.to_nat (ancount h)) (name := stack) (ptr := q)
        as [s ->]; try done; try lia. cbn [mbind res_bind]. eauto. }
  cbn [mbind res_bind]. eauto.
Qed.

(** ** Claims *)

(** C25: Reading a name ends and stays inside its array, whatever the packet
    contains, reference loops included: the array keeps its length, a string stays
    a string, and the position behind the name is at most one byte behind the
    captured data.  Up to 192 bytes behind the captured data may be read. *)
Theorem dns_name_safe (m dst : bytes) (src fin payload : Z) :
  is_bytes m -> 0 <= payload -> 0 <= fin -> fin + dns_margin <= blen m -> blen dst = 128 -> terminated dst ->
  exists r buf, dns_name m dst src fin payload = Ok (r, buf) /\ blen buf = 128 /\ terminated buf /\
    match r with Some q => src < q <= fin + 1 /\ payload <= src < fin | None => True end.
Proof.
  intros Hb Hp Hf Hm Hd Ht. destruct (dns_name_Ok m dst src fin payload) as (r & buf & E & Hl & Ht' & Hr); try done; [lia|].
  exists r, buf. split_and!; [done|lia|auto|done].
Qed.

(** C26: Describing any captured DNS message ends, without an abort, whatever it
    contains, and reads at most 192 bytes behind the captured data (the names and
    the fixed fields are not checked against its end).  The local array for the
    names, which the code does not initialise, is assumed to hold a zero. *)
Theorem dns_format_safe (stack : bytes) (hc : header_chunk) (ptr flags : Z) :
  is_bytes (mem hc) -> 0 <= ptr -> ptr + sizeof_dns_header <= caplen (cp hc) ->
  caplen (cp hc) + dns_margin <= blen (mem hc) -> name_array stack ->
  exists text, dns_format stack hc ptr flags = Ok text.
Proof. apply dns_format_Ok. Qed.

(** *** Names without references *)
Definition label_ok (l : bytes) : Prop := 1 <= blen l <= 63 /\ Forall (fun c => c <> 0) l.
Definition encode_name (ls : list bytes) : bytes := concat (map (fun l => blen l :: l) ls) ++ [0].
Definition name_text (ls : list bytes) : bytes := concat (map (fun l => l ++ B ".") ls).

Lemma land_short len : 0 <= len <= 63 -> (Z.land len 0xc0 =? 0xc0) = false.
Proof.
  intros Hl. assert (exists k, len = Z.of_nat k /\ (k < 64)%nat) as (k & -> & Hk) by (exists (Z.to_nat len); lia).
  clear Hl. do 64 (destruct k as [|k]; [reflexivity|]). lia.
Qed.

Lemma mem_strndup_label a l b :
  Forall (fun c => c <> 0) l -> mem_strndup (a ++ l ++ b) (blen a) (length l) = Ok l.
Proof.
  intros Hl. revert a. induction Hl as [|c l Hc _ IH]; intros a; cbn [mem_strndup length app]; [done|].
  rewrite rd8_app_r, Z.sub_diag by lia. change (rd8 (c :: l ++ b) 0) with (Ok c). cbn [mbind res_bind].
  rewrite (proj2 (Z.eqb_neq c 0)) by done. specialize (IH (a ++ [c])). rewrite blen_app in IH.
  change (blen [c]) with 1 in IH. rewrite <- (assoc_L (++)) in IH. cbn [app] in IH. by rewrite IH.
Qed.

Lemma copy_label_append a l b t junk :
  label_ok l -> blen t + blen l + 2 <= 125 -> blen t + blen junk = 128 ->
  exists junk', copy_label {| lo_buf := t ++ junk; lo_pos := blen t; lo_size := 125 - blen t |} (a ++ l ++ b) (blen a) (blen l)
    = Ok ((t ++ l ++ B ".") ++ 0 :: junk', blen t + blen l + 1, blen l + 1) /\ blen t + blen l + 2 + blen junk' = 128.
Proof.
  intros [Hl Hz] Hroom Hj. unfold copy_label. cbn [lo_buf lo_pos lo_size].
  rewrite (proj2 (Z.eqb_neq _ 0)) by lia. rewrite Z.min_r by lia.
  replace (Z.to_nat (blen l)) with (length l) by (unfold blen; lia). rewrite mem_strndup_label by done. cbn [mbind res_bind].
  assert (Hd : blen (l ++ B ".") = blen l + 1) by (by rewrite blen_app). rewrite Hd.
  rewrite take_ge by (unfold blen in *; rewrite length_app in *; cbn [B length] in *; lia).
  assert (exists j1 j2, junk = j1 ++ j2 /\ blen j1 = blen l + 2) as (j1 & j2 & -> & Hj1).
  { exists (take (Z.to_nat (blen l + 2)) junk), (drop (Z.to_nat (blen l + 2)) junk).
    rewrite take_drop. split; [done|]. rewrite blen_take; lia. }
  rewrite (wr_mid t j1 j2 (blen t) ((l ++ B ".") ++ [0])); [|done|].
  2:{ apply Nat2Z.inj. change (blen j1 = blen ((l ++ B ".") ++ [0])). rewrite !blen_app. change (blen (B ".")) with 1.
      change (blen [0]) with 1. lia. }
  cbn [mbind res_bind]. rewrite Z.min_l, (proj2 (Z.ltb_ge _ _)) by lia. rewrite blen_app in Hj.
  exists j2. split; [|lia]. f_equal. f_equal. f_equal; [by rewrite <- !(assoc_L (++))|lia].
Qed.

Lemma name_text_cons l ls : name_text (l :: ls) = (l ++ B ".") ++ name_text ls.
Proof. done. Qed.
Lemma encode_name_cons l ls : encode_name (l :: ls) = blen l :: l ++ encode_name ls.
Proof. unfold encode_name. cbn [map concat]. by rewrite <- (assoc_L (++)). Qed.

Lemma dns_name_loop_labels fuel a l ls rest t junk fin payload visited :
  Forall label_ok (l :: ls) -> (length (l :: ls) <= fuel)%nat ->
  blen t + blen (name_text (l :: ls)) < 125 -> blen t + blen junk = 128 ->
  let m := a ++ l ++ encode_name ls ++ rest in
  blen a + blen l + blen (encode_name ls) <= fin ->
  exists pos size junk', dns_name_loop fuel m fin payload (blen a) (blen l)
    {| lo_buf := t ++ junk; lo_pos := blen t; lo_size := 125 - blen t |} visited
    = Ok (Some (blen a + blen l + blen (encode_name ls)),
          {| lo_buf := (t ++ name_text (l :: ls)) ++ 0 :: junk'; lo_pos := pos; lo_size := size |}).
Proof.
  revert fuel a l t junk. induction ls as [|l' ls IH]; intros fuel a l t junk Hls Hf Ht Hj m Hfin;
    (destruct fuel as [|fuel]; [cbn in Hf; lia|]); apply Forall_cons_1 in Hls as [Hl Hls];
    cbn [dns_name_loop]; rewrite land_short by (destruct Hl; lia);
    rewrite name_text_cons, !blen_app in Ht; change (blen (B ".")) with 1 in Ht.
  - destruct (copy_label_append a l (encode_name [] ++ rest) t junk Hl) as (j' & E & Hj'); [change (blen (name_text [])) with 0 in Ht; lia|done|].
    fold m in E. rewrite E. cbn [mbind res_bind]. change (blen (encode_name [])) with 1 in *.
    rewrite (proj2 (Z.leb_gt _ _)) by lia.
    assert (rd8 m (blen a + blen l) = Ok 0) as ->.
    { unfold m. rewrite (assoc_L (++)), rd8_app_r by (rewrite blen_app; lia). by rewrite blen_app, Z.sub_diag. }
    cbn [mbind res_bind]. rewrite Z.ltb_irrefl. exists (blen t + blen l + 1), (u64 (125 - blen t - (blen l + 1))), j'.
    cbn [lo_size]. rewrite name_text_cons, app_nil_r. done.
  - pose proof (blen_nonneg (name_text (l' :: ls))).
    destruct (copy_label_append a l (encode_name (l' :: ls) ++ rest) t junk Hl) as (j' & E & Hj');
      [rewrite name_text_cons, !blen_app in Ht; change (blen (B ".")) with 1 in Ht; destruct (Forall_inv Hls);
       pose proof (blen_nonneg (name_text ls)); lia|done|].
    fold m in E. rewrite E. cbn [mbind res_bind lo_size]. rewrite encode_name_cons, blen_cons, blen_app in Hfin |- *.
    pose proof (blen_nonneg (encode_name ls)). destruct (Forall_inv Hls) as [Hl' _].
    rewrite (proj2 (Z.leb_gt _ _)) by lia.
    assert (Em : m = (a ++ l ++ [blen l']) ++ l' ++ encode_name ls ++ rest)
      by (unfold m; rewrite encode_name_cons, <- !(assoc_L (++)); cbn [app]; by rewrite <- (assoc_L (++))).
    assert (Hrd : rd8 m (blen a + blen l) = Ok (blen l')).
    { rewrite Em, <- !(assoc_L (++)), (assoc_L (++) a l), rd8_app_r by (rewrite blen_app; lia).
      by rewrite blen_app, Z.sub_diag. }
    rewrite Hrd. cbn [mbind res_bind]. rewrite (proj2 (Z.ltb_lt 0 _)) by lia.
    destruct (IH fuel (a ++ l ++ [blen l']) l' (t ++ l ++ B ".") (0 :: j')) as (pos & size & j2 & E2);
      [done|cbn in *; lia|rewrite (blen_app t), (blen_app l); change (blen (B ".")) with 1; lia
      |rewrite (blen_app t), (blen_app l), blen_cons; change (blen (B ".")) with 1; lia
      |rewrite (blen_app a), (blen_app l); change (blen [blen l']) with 1; lia|].
    rewrite <- Em, (blen_app t), (blen_app a), !(blen_app l) in E2. change (blen [blen l']) with 1 in E2. change (blen (B ".")) with 1 in E2.
    exists pos, size, j2. rewrite (u64_id (125 - blen t - (blen l + 1))) by (ints; pose proof (blen_nonneg t); destruct Hl as [Hl0 _]; lia).
    replace (blen a + blen l + 1) with (blen a + (blen l + 1)) by lia.
    replace (blen t + blen l + 1) with (blen t + (blen l + 1)) by lia.
    replace (125 - blen t - (blen l + 1)) with (125 - (blen t + (blen l + 1))) by lia.
    rewrite E2. f_equal. f_equal; [f_equal; lia|]. f_equal. rewrite (name_text_cons l). by rewrite <- !(assoc_L (++)).
Qed.

(** A name of ordinary labels, anywhere in a message, is read as its labels
    with a dot behind each, up to the 124 characters that the buffer has room
    for, and reading goes on behind it. *)
Theorem dns_name_plain (a rest dst : bytes) (ls : list bytes) (fin payload : Z) :
  Forall label_ok ls -> ls <> [] -> blen (name_text ls) < 125 -> blen dst = 128 ->
  0 <= payload <= blen a -> blen a + blen (encode_name ls) <= fin ->
  exists junk, dns_name (a ++ encode_name ls ++ rest) dst (blen a) fin payload =
    Ok (Some (blen a + blen (encode_name ls)), name_text ls ++ 0 :: junk).
Proof.
  intros Hls Hne Ht Hd Hp Hfin. destruct ls as [|l ls]; [done|]. rewrite encode_name_cons in Hfin |- *.
  rewrite blen_cons, blen_app in Hfin |- *. pose proof (blen_nonneg (encode_name ls)). pose proof (blen_nonneg l).
  unfold dns_name, dns_name_int. rewrite Hd. cbn [Z.eqb Pos.eqb negb]. change (u64 (128 - 3)) with (125 - blen []).
  rewrite (proj2 (Z.ltb_ge (blen a) payload)), (proj2 (Z.leb_gt fin _)) by lia. cbn [orb].
  rewrite rd8_app_r, Z.sub_diag by lia.
  destruct (dns_name_loop_labels (dns_fuel fin) (a ++ [blen l]) l ls rest [] dst fin payload (replicate MAX_LABEL_REFERENCES 0))
    as (pos & size & j & E); try done.
  - assert (Hlen : Z.of_nat (length ls) <= blen (encode_name ls)).
    { clear. induction ls as [|x xs IH]; [done|]. rewrite encode_name_cons, blen_cons, blen_app. cbn [length].
      pose proof (blen_nonneg x). lia. }
    unfold dns_fuel. cbn [length]. lia.
  - rewrite blen_app. change (blen [blen l]) with 1. lia.
  - rewrite <- !(assoc_L (++)), (blen_app a) in E. change (blen [blen l]) with 1 in E. cbn [app] in E |- *.
    change (blen []) with 0 in E |- *. rewrite <- (assoc_L (++) l).
    change (rd8 (blen l :: l ++ encode_name ls ++ rest) 0) with (Ok (blen l)). cbn [mbind res_bind]. rewrite E. cbn [mbind res_bind lo_buf]. exists j. do 3 f_equal. lia.
Qed.

(** The root name is one zero byte; reading it takes a byte of what follows. *)
Lemma dns_name_root :
  dns_name ([0; 0; 2; 0; 1] ++ replicate 200 0) (replicate 128 0) 0 5 0 = Ok (Some 2, B "." ++ replicate 127 0).
Proof. vm_compute. reflexivity. Qed.

(** A reference behind the message leaves the array as it was: what is printed is
    what the stack held. *)
Lemma dns_name_stale :
  dns_name ([193; 0; 0; 1; 0; 1] ++ replicate 200 0) (B "stale" ++ replicate 123 0) 0 6 0
  = Ok (Some 2, B "stale" ++ replicate 123 0).
Proof. vm_compute. reflexivity. Qed.

Definition ex_dns (m : bytes) : header_chunk :=
  {| cp := {| nic := []; head_mampid := []; ts := Picotime.mk_timepico 0 0; len := blen m; caplen := blen m;
              payload := m ++ replicate 200 0 |};
     protocol := Some PROTOCOL_DNS; last_net := {| net_src := NetNone; net_dst := NetNone; plen := 0 |};
     truncated := false; ptr := Some 0 |}.
Definition ex_query : bytes :=
  [18; 52; 1; 0; 0; 1; 0; 0; 0; 0; 0; 0] ++ encode_name [B "www"; B "example"; B "com"] ++ [0; 1; 0; 1].

(** A complete query that ends with its question is described as one that was
    cut by the capture: the test for its last four bytes is off by one. *)
Theorem dns_query_reported_limited :
  dns_format (replicate 128 0) (ex_dns ex_query) 0 0
  = Ok (B " DNS Standard query 0x1234 [qdcount=1]  [Packet size limited during capture]") /\
  dns_format (replicate 128 0) (ex_dns (ex_query ++ [0])) 0 0
  = Ok (B " DNS Standard query 0x1234 [qdcount=1] IN A www.example.com.").
Proof. split; vm_compute; reflexivity. Qed.

(** The dump of a message whose question is missing uses the null pointer
    that the reading of its name returns. *)
Theorem dns_dump_null (stack prefix : bytes) :
  dns_dump stack (ex_dns [18; 52; 1; 0; 0; 1; 0; 0; 0; 0; 0; 0]) 0 prefix = Fault.
Proof. reflexivity. Qed.

(** ** Witnesses *)
Definition ex_stack : bytes := replicate 128 0.

Lemma dns_name_safe_witness :
  exists r buf, dns_name ([192; 0; 193; 4] ++ replicate 200 7) ex_stack 2 4 0 = Ok (r, buf) /\ blen buf = 128.
Proof.
  destruct (dns_name_safe ([192; 0; 193; 4] ++ replicate 200 7) ex_stack 2 4 0) as (r & buf & E & Hl & _).
  - vm_compute. repeat (constructor; [split; [discriminate|reflexivity]|]). constructor.
  - lia.
  - lia.
  - vm_compute. discriminate.
  - reflexivity.
  - by exists 0.
  - by exists r, buf.
Defined.

Lemma dns_format_safe_witness : exists text, dns_format ex_stack (ex_dns ex_query) 0 16 = Ok text.
Proof.
  apply (dns_format_safe ex_stack (ex_dns ex_query) 0 16).
  - vm_compute. repeat (constructor; [split; [discriminate|reflexivity]|]). constructor.
  - lia.
  - vm_compute. discriminate.
  - vm_compute. discriminate.
  - split; [reflexivity|by exists 0].
Defined.

Lemma dns_name_plain_witness :
  exists junk, dns_name ([9] ++ encode_name [B "www"; B "example"; B "com"] ++ [5]) ex_stack 1 40 0 =
    Ok (Some 18, B "www.example.com." ++ 0 :: junk).
Proof.
  apply (dns_name_plain [9] [5] ex_stack [B "www"; B "example"; B "com"] 40 0).
  - repeat constructor; vm_compute; discriminate.
  - discriminate.
  - vm_compute. reflexivity.
  - reflexivity.
  - split; vm_compute; discriminate.
  - vm_compute. discriminate.
Defined.
