(* ===== verification/Format.v ===== *)
(** * Descriptions of packets (src/format.c, [header_format] of src/packet.c, the
      format functions of src/protocols/ and src/format/)

    Each protocol describes one header; [format_pkg] describes a packet: its
    number, where and when it was captured, its connection, and its headers.  The
    calendar of the C library is a parameter. *)

From S2P Require Import Prelude CLib Picotime Utils Packet Filter Protocols ConnectionId Text Dns.

Definition FORMAT_DATE_BIT : Z := 1.
Definition FORMAT_LOCAL_BIT : Z := 2.
Definition FORMAT_REL_TIMESTAMP : Z := 4.
Definition FORMAT_HEXDUMP : Z := 8.
Definition FORMAT_LAYER_BIT : Z := 29.
Definition FORMAT_LAYER_APPLICATION : Z := 2147483648.
Definition FORMAT_LAYER_LINK : Z := 1073741824.

(** The addresses of the last network header; the arrays of a walk that has not
    met one are not initialised. *)
Definition net_text (a : net_addr) : bytes :=
  match a with
  | NetNone => []
  | Net4 a => inet_ntoa a
  | Net6 m => inet_ntop6 m
  end.
Definition src_text (h : header_chunk) : bytes := net_text (net_src (last_net h)).
Definition dst_text (h : header_chunk) : bytes := net_text (net_dst (last_net h)).
Definition arrow : bytes := B " --> ".

(** ** Link layer *)
Definition ethernet_format (h : header_chunk) (p flags : Z) : res bytes :=
  t ← h_proto (mem h) p;
  if t =? STPBRIDGES then Ok []
  else if t <? 0x05DC then
    src ← slice (mem h) (p + 6) 6;
    dst ← slice (mem h) p 6;
    dsap ← rd8 (mem h) (p + 14); ssap ← rd8 (mem h) (p + 15);
    c1 ← rd8 (mem h) (p + 16); c2 ← rd8 (mem h) (p + 17);
    Ok (B ": IEEE802.3 [0x" ++ padl 48 4 (hex t) ++ B "] " ++ hexdump_address src ++ B " -> " ++
        hexdump_address dst ++ B " " ++ B "dsap=" ++ padl 48 2 (hex dsap) ++ B " ssap=" ++ padl 48 2 (hex ssap) ++
        B " ctrl1 = " ++ padl 48 2 (hex c1) ++ B " ctrl2 = " ++ padl 48 2 (hex c2))
  else if decide (ethertype_next t = PROTOCOL_DATA) then Ok (B ": Ethernet [h_proto=0x" ++ padl 48 4 (hex t) ++ B "]")
  else Ok [].

Definition vlan_format (h : header_chunk) (p flags : Z) : res bytes :=
  tci ← be16 (mem h) p;
  Ok (B ": 802.1Q vlan# " ++ dec (Z.land 0x0FFF tci)).

(** The fields of an MPLS header and of a pseudo-wire control word. *)
Definition mpls_label (val : Z) : Z := val / 4096 mod 1048576.
Definition mpls_experimental (val : Z) : Z := val / 512 mod 8.
Definition mpls_ttl (val : Z) : Z := val mod 256.
Definition mpls_format (h : header_chunk) (p flags : Z) : res bytes :=
  val ← be32 (mem h) p;
  Ok (B ": MPLS(label: " ++ dec (mpls_label val) ++ B ", Exp: " ++ dec (mpls_experimental val) ++
      B ", S: " ++ dec (Z.b2z (mpls_bottom val)) ++ B ", TTL: " ++ dec (mpls_ttl val) ++ B ")").
Definition pw_format (h : header_chunk) (p flags : Z) : res bytes :=
  val ← be32 (mem h) p;
  Ok (B ": PW(seq: " ++ dec (val mod 65536) ++ B ")").

Definition stp_format (h : header_chunk) (p flags : Z) : res bytes := Ok (B ": STP").
Definition cdp_format (h : header_chunk) (p flags : Z) : res bytes := Ok (B ": Cisco-Discovery-Protocol").
Definition data_format (h : header_chunk) (p flags : Z) : res bytes := Ok [].

Definition sizeof_ether_arp : Z := 28.
Definition arp_format (h : header_chunk) (p flags : Z) : res bytes :=
  let m := mem h in
  if limited_caplen (cp h) (Some p) sizeof_ether_arp then Ok (B ": ARP [Packet size limited during capture]")
  else
    format ← be16 m p;
    op ← be16 m (p + 6);
    text ← (if format =? 1 then
              spa ← rd32 m (p + 14);
              tpa ← rd32 m (p + 24);
              if op =? 1 then Ok (B "Request who-has " ++ inet_ntoa tpa ++ B " tell " ++ inet_ntoa spa)
              else if op =? 2 then
                sha ← slice m (p + 8) 6;
                Ok (B "Reply " ++ inet_ntoa spa ++ B " is-at " ++ hexdump_address sha)
              else if op =? 3 then Ok (B "RARP request")
              else if op =? 4 then Ok (B "RARP reply")
              else Ok (B "Unknown op: " ++ dec op)
            else Ok (B "Unknown format: " ++ dec format));
    Ok (B ": ARP: " ++ text ++ B ", length " ++ fmt_zd (u64 (len (cp h) - sizeof_ethhdr))).

(** ** Network layer *)
Definition ipv4_format (h : header_chunk) (p flags : Z) : res bytes :=
  hl ← ip_hl (mem h) p;
  if hl <? 5 then Ok (B ": IPv4" ++ B " [corrupt]")
  else
    proto ← ip_p (mem h) p;
    Ok (B ": IPv4" ++ if decide (ipproto_next proto = PROTOCOL_DATA)
                      then B " [ip_p=0x" ++ padl 48 2 (hex proto) ++ B "]" else []).

(** [proto] stays zero when the headers are not complete. *)
Definition ipv6_format (h : header_chunk) (p flags : Z) : res bytes :=
  '(header_size, found) ← ipv6_total_header_size (cp h) p;
  let proto := match found with Some (_, proto) => proto | None => 0 end in
  text ← (if has_flag flags FORMAT_HEADER then
            plen ← be16 (mem h) (p + 4); hops ← rd8 (mem h) (p + 7);
            Ok (B "(HDR[" ++ fmt_zd header_size ++ B "])[plen=" ++ dec plen ++ B ",hops=" ++ dec hops ++ B "]")
          else Ok []);
  Ok (B " IPv6" ++ text ++ if decide (ipproto_next proto = PROTOCOL_DATA)
                           then B " [ip6_next=0x" ++ padl 48 2 (hex proto) ++ B "]" else []).

Definition gre_format (h : header_chunk) (p flags : Z) : res bytes :=
  val ← be32 (mem h) p;
  Ok (B ": GRE(0x" ++ padl 48 2 (hex (Z.land val 0xff)) ++ B ")").

(** The table has no last entry: a code that is not in it is looked for behind it. *)
Definition icmp_unreachable_table : list (Z * option bytes) :=
  [(0, Some (B "Destination network unreachable")); (1, Some (B "Destination host unreachable"));
   (2, Some (B "Destination protocol unreachable")); (3, Some (B "Destination port unreachable"));
   (4, Some (B "Fragmentation required")); (5, Some (B "Source route failed"));
   (6, Some (B "Destination network unknown")); (7, Some (B "Destination host unknown"));
   (8, Some (B "Source host isolated")); (9, Some (B "Network administratively prohibited"));
   (10, Some (B "Host administratively prohibited")); (11, Some (B "Network unreachable for TOS"));
   (12, Some (B "Host unreachable for TOS")); (13, Some (B "Communication administratively prohibited"));
   (14, Some (B "Host Precedence Violation")); (15, Some (B "Precedence cutoff in effect"))].

Definition icmp_text (m : bytes) (p : Z) : res bytes :=
  type ← rd8 m p;
  if type =? 0 then
    id ← be16 m (p + 4); seq ← be16 m (p + 6);
    Ok (B "echo reply: " ++ dec id ++ B " SEQNR = " ++ dec seq ++ B " ")
  else if type =? 3 then
    code ← rd8 m (p + 1); name_lookup icmp_unreachable_table code (B "Destination Unreachable")
  else if type =? 4 then Ok (B "source quench")
  else if type =? 5 then Ok (B "redirect")
  else if type =? 8 then
    id ← be16 m (p + 4); seq ← be16 m (p + 6);
    Ok (B "echo reqest: " ++ dec id ++ B " SEQNR = " ++ dec seq ++ B " ")
  else if type =? 11 then Ok (B "time exceeded")
  else if type =? 13 then Ok (B "timestamp request")
  else if type =? 14 then Ok (B "timestamp reply")
  else Ok (B "Type " ++ dec type ++ nl).

Definition icmp_format (h : header_chunk) (p flags : Z) : res bytes :=
  type ← rd8 (mem h) p;
  code ← rd8 (mem h) (p + 1);
  let head := B ": ICMP" ++
    (if has_flag flags FORMAT_HEADER then B "[Type=" ++ dec (ntohs type) ++ B ", code=" ++ dec (ntohs code) ++ B "]" else []) ++
    B ": " ++ src_text h ++ arrow ++ dst_text h in
  if flags <? FORMAT_LAYER_APPLICATION then Ok head
  else text ← icmp_text (mem h) p; Ok (head ++ B ": " ++ text).

Definition igmp_type_name (type : Z) : bytes :=
  if type =? 0x11 then B "Group Membership Query" else if type =? 0x12 then B "V1 Membership Report"
  else if type =? 0x13 then B "DVMRP" else if type =? 0x14 then B "PIMv1" else if type =? 0x15 then B "Cisco Trace"
  else if type =? 0x16 then B "V2 Membership Report" else if type =? 0x17 then B "V2 Leave Group"
  else if type =? 0x1e then B "Multicast Traceroute Report" else if type =? 0x1f then B "Multicast Traceroute"
  else if type =? 0x22 then B "V3 Membership Report" else if type =? 0x30 then B "Multicast Router Advertisement"
  else if type =? 0x31 then B "Multicast Router Solicitation" else if type =? 0x32 then B "Multicast Router Termination"
  else B "Unknown".
Definition igmp_format (h : header_chunk) (p flags : Z) : res bytes :=
  if limited_caplen (cp h) (Some p) 1 then Ok (B ": IGMP" ++ size_limited)
  else type ← rd8 (mem h) p; Ok (B ": IGMP" ++ B " " ++ dst_text h ++ B " " ++ igmp_type_name type).

(** The condition of the table look-up is always true: a type behind the table is
    an invalid load. *)
Definition ospf_type_name (type : Z) : res (option bytes) :=
  if (0 <? type) || (type <? 6) then
    match [None; Some (B "Hello"); Some (B "Database Description"); Some (B "Link State Request");
           Some (B "Link State Update"); Some (B "Link State Acknowledgement")] !! Z.to_nat type with
    | Some name => Ok name
    | None => Fault
    end
  else Ok (Some (B "Unknown")).
Definition ospf_format (h : header_chunk) (p flags : Z) : res bytes :=
  if limited_caplen (cp h) (Some p) 1 then Ok (B ": OSPF" ++ size_limited)
  else
    version ← rd8 (mem h) p; type ← rd8 (mem h) (p + 1);
    name ← ospf_type_name type;
    Ok (B ": OSPF" ++ B " v" ++ dec version ++ B " " ++ fmt_s name ++ B " " ++ src_text h ++ arrow ++ dst_text h).

(** ** Transport layer *)
Definition ports_text (h : header_chunk) (sport dport : Z) : bytes :=
  src_text h ++ B ":" ++ dec sport ++ arrow ++ dst_text h ++ B ":" ++ dec dport.

Definition udp_format (h : header_chunk) (p flags : Z) : res bytes :=
  sport ← be16 (mem h) p; dport ← be16 (mem h) (p + 2);
  l ← be16 (mem h) (p + 4); check ← be16 (mem h) (p + 6);
  Ok (B ": UDP" ++ B ": " ++ ports_text h sport dport ++ B " len=" ++ dec l ++ B " check=" ++ dec check ++ B " ").

Definition tcp_flags (b : Z) : bytes :=
  (if Z.testbit b 1 then B "S" else []) ++ (if Z.testbit b 0 then B "F" else []) ++
  (if Z.testbit b 4 then B "A" else []) ++ (if Z.testbit b 3 then B "P" else []) ++
  (if Z.testbit b 5 then B "U" else []) ++ (if Z.testbit b 2 then B "R" else []).

(** The size of the option at [p]; the size byte is read only when there is one. *)
Definition tcp_option_size (m : bytes) (p : Z) : res Z :=
  kind ← rd8 m p;
  if (kind =? 0) || (kind =? 1) then Ok 1 else rd8 m (p + 1).

(** The part of the loop condition that looks at the captured length, in the
    order of its tests. *)
Definition option_truncated (c : cap_header) (p : Z) : res bool :=
  if caplen c <? p + 1 then Ok true
  else
    kind ← rd8 (payload c) p;
    if caplen c <? p + (if 1 <? kind then 2 else 1) then Ok true
    else size ← tcp_option_size (payload c) p; Ok (caplen c <? p + size).

Fixpoint tcp_option_loop (fuel : nat) (c : cap_header) (doff p optlen : Z) : res bytes :=
  match fuel with
  | O => OutOfFuel
  | S fuel =>
      let m := payload c in
      kind ← rd8 m p;
      if negb (negb (kind =? 0) && (optlen <? 4 * doff)) then Ok []
      else
        cut ← option_truncated c p;
        if (cut : bool) then Ok (B "tcp option truncated (caplen)")
        else
          size ← tcp_option_size m p;
          if size =? 0 then Ok (B "invalid flag size 0 (kind: " ++ dec kind ++ B "), aborting" ++ nl)
          else if kind =? 1 then
            rest ← tcp_option_loop fuel c doff (p + 1) (optlen + 1);
            Ok (B "NOP|" ++ rest)
          else
            text ← (if kind =? 2 then mss ← be16 m (p + 2); Ok (B "MSS(" ++ dec mss ++ B ")|")
                    else if kind =? 3 then wf ← rd8 m (p + 2); Ok (B "WS(" ++ dec wf ++ B ")|")
                    else if (kind =? 4) || (kind =? 5) then Ok (B "SAC|")
                    else if kind =? 8 then Ok (B "TSS|")
                    else Ok (dec kind ++ B "|"));
            size ← rd8 m (p + 1);
            rest ← tcp_option_loop fuel c doff (p + size) (optlen + size);
            Ok (text ++ rest)
  end.

(** The option lengths add up to less than 60, and each is at least one. *)
Definition tcp_options (c : cap_header) (tcp doff : Z) : res bytes :=
  if doff <=? 5 then Ok []
  else
    text ← tcp_option_loop 41 c doff (tcp + 20) 20;
    Ok (B "|" ++ text).

Definition PORT_HTTP : Z := 80.
Definition tcp_format (h : header_chunk) (p flags : Z) : res bytes :=
  let m := mem h in
  if limited_caplen (cp h) (Some p) 20 then Ok (B ": TCP" ++ size_limited)
  else
    doff ← tcp_doff m p;
    let header_size := 4 * doff in
    let payload_size := u64 (plen (last_net h) - header_size) in
    sport ← be16 m p; dport ← be16 m (p + 2);
    fl ← rd8 m (p + 13);
    window ← be16 m (p + 14); seq ← be32 m (p + 4); ack ← be32 m (p + 8);
    options ← tcp_options (cp h) p doff;
    http ← (if negb (payload_size =? 0) && ((sport =? PORT_HTTP) || (dport =? PORT_HTTP))
            then print_http m (p + header_size) payload_size else Ok []);
    Ok (B ": TCP" ++
        (if has_flag flags FORMAT_HEADER
         then B "(HDR[" ++ fmt_zd header_size ++ B "]DATA[" ++ fmt_zd payload_size ++ B "])" else []) ++
        B ": [" ++ tcp_flags fl ++ B "] " ++ ports_text h sport dport ++
        B " ws=" ++ dec window ++ B " seq=" ++ dec seq ++ B " ack=" ++ dec ack ++ B " " ++ options ++ http).

(** The type, one byte, has its byte order converted as if it were two, so only
    data chunks are recognised; the length is used as it was loaded. *)
Definition sctp_chunk_text (type length : Z) : bytes :=
  let named s := s ++ B " " ++ dec (ntohs length) ++ B " bytes, " in
  let t := ntohs type in
  if t =? 0 then named (B "DATA") else if t =? 1 then named (B "INIT") else if t =? 2 then named (B "INIT ACK")
  else if t =? 3 then named (B "SACK") else if t =? 4 then named (B "HEARTBEAT")
  else if t =? 5 then named (B "HEARTBEAT ACK") else if t =? 6 then named (B "ABORT")
  else if t =? 7 then named (B "SHUTDOWN") else if t =? 8 then named (B "SHUTDOWN ACK")
  else if t =? 9 then named (B "ERROR") else if t =? 10 then named (B "COOKIE ECHO")
  else if t =? 11 then named (B "COOKIE ACK") else if t =? 12 then named (B "ECNE")
  else if t =? 13 then named (B "CWR") else if t =? 14 then named (B "SHUTDOWN COMPLETE")
  else B "Type=" ++ dec (u8 t) ++ B ", length=" ++ dec (ntohs length) ++ B " bytes ".

Fixpoint sctp_chunk_loop (fuel : nat) (m : bytes) (p chunkread chunksize : Z) : res bytes :=
  match fuel with
  | O => OutOfFuel
  | S fuel =>
      type ← rd8 m p;
      length ← rd16 m (p + 2);
      let chunkread := chunkread + 4 + length in
      rest ← (if chunksize <=? chunkread then Ok []
              else sctp_chunk_loop fuel m (p + 4 + length) chunkread chunksize);
      Ok (sctp_chunk_text type length ++ rest)
  end.
Definition sctp_chunks (m : bytes) (sctp chunksize : Z) : res bytes :=
  text ← sctp_chunk_loop (S (length m)) m (sctp + 12) 0 (i32 chunksize);
  Ok (B ": (in development) " ++ text).
Definition sctp_format (h : header_chunk) (p flags : Z) : res bytes :=
  let m := mem h in
  if limited_caplen (cp h) (Some p) 12 then Ok (B ": SCTP" ++ size_limited)
  else
    let payload_size := u64 (plen (last_net h) - 12) in
    sport ← be16 m p; dport ← be16 m (p + 2);
    text ← sctp_chunks m p payload_size;
    Ok (B ": SCTP" ++
        (if has_flag flags FORMAT_HEADER then B "(HDR[12]DATA[" ++ fmt_zd payload_size ++ B "])" else []) ++
        B ": " ++ ports_text h sport dport ++ text).

(** ** Above *)
Definition gtp_version_str (m : bytes) (p : Z) : res bytes :=
  v ← gtp_version m p;
  Ok (match v with GTPv1 => B "GTPv1" | GTPv2 => B "GTPv2" | GTPvP => B "GTP'" end).
Definition gtp_format (h : header_chunk) (p flags : Z) : res bytes :=
  v ← gtp_version_str (mem h) p;
  size ← gtp_header_size (mem h) p;
  Ok (B ": " ++ v ++ B "[" ++ fmt_zd size ++ B "]").

Definition sizeof_ptpv2hdr : Z := 30.
Definition ptpv2_options (m : bytes) (p : Z) : res bytes :=
  tSpec ← rd8 m p; Ok (B ": (in development) " ++ B " " ++ hex tSpec ++ B " ").
Definition ptpv2_format (h : header_chunk) (p flags : Z) : res bytes :=
  if limited_caplen (cp h) (Some p) sizeof_ptpv2hdr then Ok (B ": PTPv" ++ size_limited)
  else
    let payload_size := u64 (plen (last_net h) - 34) in
    ver ← rd8 (mem h) (p + 1);
    options ← ptpv2_options (mem h) p;
    Ok (B ": PTPv" ++
        (if has_flag flags FORMAT_HEADER then B "(HDR[34]DATA[" ++ fmt_zd payload_size ++ B "])" else []) ++
        dec ver ++ B "  " ++ options).

(** ** One header *)
Definition format_callback (stack : bytes) (t : ptype) : option (header_chunk -> Z -> Z -> res bytes) :=
  match t with
  | PROTOCOL_UNKNOWN | PROTOCOL_DONE => None
  | PROTOCOL_DATA => Some data_format
  | PROTOCOL_ARP => Some arp_format
  | PROTOCOL_CDP => Some cdp_format
  | PROTOCOL_DNS => Some (dns_format stack)
  | PROTOCOL_ETHERNET => Some ethernet_format
  | PROTOCOL_GRE => Some gre_format
  | PROTOCOL_GTP => Some gtp_format
  | PROTOCOL_ICMP => Some icmp_format
  | PROTOCOL_IGMP => Some igmp_format
  | PROTOCOL_IPV4 => Some ipv4_format
  | PROTOCOL_IPV6 => Some ipv6_format
  | PROTOCOL_MPLS => Some mpls_format
  | PROTOCOL_OSPF => Some ospf_format
  | PROTOCOL_PTPv2 => Some ptpv2_format
  | PROTOCOL_PW => Some pw_format
  | PROTOCOL_SCTP => Some sctp_format
  | PROTOCOL_STP => Some stp_format
  | PROTOCOL_TCP => Some tcp_format
  | PROTOCOL_UDP => Some udp_format
  | PROTOCOL_VLAN => Some vlan_format
  end.

(** No protocol sets [partial_print]. *)
Definition header_format (stack : bytes) (h : header_chunk) (flags : Z) : res bytes :=
  pr ← current h;
  if truncated h then Ok (B ": " ++ pr_name pr ++ B " [Packet size limited during capture]")
  else
    match protocol h with
    | None => Fault
    | Some t =>
        match format_callback stack t, ptr h with
        | None, _ => Ok (B ": " ++ pr_name pr)
        | Some f, p =>
            _ ← ptr_sanity (cp h) p;
            match p with Some p => f h p flags | None => Fault end
        end
    end.

(** ** One packet *)
Record format := { pktcount : Z; ref : timepico; format_first : bool; format_flags : Z }.
#[export] Instance format_rebuild : Rebuild format := fun f =>
  {| pktcount := pktcount f; ref := ref f; format_first := format_first f; format_flags := format_flags f |}.

Definition format_setup (state : format) (flags : Z) : format :=
  let state := state <| pktcount := 0 |> <| format_first := true |> <| format_flags := flags |> in
  if Z.shiftr (format_flags state) FORMAT_LAYER_BIT =? 0
  then state <| format_flags := Z.lor (format_flags state) FORMAT_LAYER_APPLICATION |> else state.

Section Packet.
(** [strftime] with the date and with the zone, in local time or not. *)
Context (date zone : bool -> Z -> bytes).

Definition print_timestamp (state : format) (c : cap_header) : bytes :=
  let flags := format_flags state in
  if negb (has_flag flags FORMAT_DATE_BIT) then
    let '(t, sign) :=
      if has_flag flags FORMAT_REL_TIMESTAMP then
        (if 0 <=? timecmp (ts c) (ref state) then (timepico_sub (ts c) (ref state), false)
         else (timepico_sub (ref state) (ts c), true))
      else (ts c, false) in
    (if (sign : bool) then B "-" else []) ++ dec (tv_sec t) ++ B "." ++ padl 48 12 (dec (tv_psec t))
  else
    let local := has_flag flags FORMAT_LOCAL_BIT in
    date local (tv_sec (ts c)) ++ B "." ++ padl 48 12 (dec (tv_psec (ts c))) ++ B " " ++ zone local (tv_sec (ts c)).

(** [while ( header_walk(&header) ) header_format(...)] *)
Fixpoint format_headers (fuel : nat) (stack : bytes) (h : header_chunk) (flags : Z) : res bytes :=
  match fuel with
  | O => OutOfFuel
  | S fuel =>
      '(h, more) ← header_walk h;
      if (more : bool) then
        text ← header_format stack h flags;
        rest ← format_headers fuel stack h flags;
        Ok (text ++ rest)
      else Ok []
  end.

Definition print_pkt (stack : bytes) (state : format) (db : conn_db) (c : cap_header) : res (conn_db * bytes) :=
  let flags := format_flags state in
  '(db, id) ← connection_id db c;
  let id_text := if 0 <? id then B ":ID(" ++ padl 32 4 (fmt_d id) ++ B ")" else B ":ID(   -)" in
  headers ← (if (0 <? caplen c) && (FORMAT_LAYER_LINK <=? flags)
             then format_headers (S (S (S (Z.to_nat (caplen c))))) stack (header_init c) flags
             else Ok []);
  dump ← (if has_flag flags FORMAT_HEXDUMP
          then data ← slice (payload c) 0 (Z.min (caplen c) (len c)); hexdump data
          else Ok []);
  Ok (db, print_timestamp state c ++ B ":LINK(" ++ padl 32 4 (fmt_d (len c)) ++ B "):CAPLEN(" ++
          padl 32 4 (fmt_d (caplen c)) ++ B ")" ++ id_text ++ headers ++ nl ++ dump).

(** The bytes of the capture header from its first field on: a name of eight
    characters has no terminator of its own. *)
Definition cap_image (c : cap_header) : bytes :=
  nic c ++ head_mampid c ++ le32 (tv_sec (ts c)) ++ le64 (tv_psec (ts c)) ++ le32 (len c) ++ le32 (caplen c) ++ payload c.

(** The first packet sets the time reference. *)
Definition note_first (state : format) (c : cap_header) : format :=
  if format_first state then state <| ref := ts c |> <| format_first := false |> else state.

Definition format_pkg (stack : bytes) (state : format) (db : conn_db) (c : cap_header)
    : res (format * conn_db * bytes) :=
  let state := state <| pktcount := u64 (pktcount state + 1) |> in
  iface ← fputs_printable (cap_image c) 8;
  mp ← fputs_printable (drop 8 (cap_image c)) 8;
  let head := B "[" ++ padl 32 4 (dec (pktcount state)) ++ B "]:" ++ iface ++ B ":" ++ mp ++ B ":" in
  let state := note_first state c in
  '(db, text) ← print_pkt stack state db c;
  Ok (state, db, head ++ text).

Definition format_ignore (state : format) (c : cap_header) : format :=
  note_first (state <| pktcount := u64 (pktcount state + 1) |>) c.
End Packet.

(** ** Lemmas *)

(** Every option moves the position and stays inside the captured data. *)
Lemma tcp_option_loop_Ok fuel c doff p optlen :
  caplen c + 2 <= blen (payload c) -> is_bytes (payload c) -> doff < 16 -> 0 <= p <= caplen c -> 61 - optlen <= Z.of_nat fuel -> optlen <= 60 + 255 ->
  fuel <> O -> exists s, tcp_option_loop fuel c doff p optlen = Ok s.
Proof.
  intros Hm Hb Hd. revert p optlen. induction fuel as [|fuel IH]; intros p optlen Hp Hf Hmax Hne; [done|].
  cbn [tcp_option_loop]. destruct (rd8_in (payload c) p) as [kind Hk]; [lia|]. rewrite Hk. cbn [mbind res_bind].
  destruct (Z.eqb_spec kind 0); [by exists []|]. destruct (Z.ltb_spec optlen (4 * doff)) as [Ho|]; [|by exists []].
  cbn [negb andb]. assert (Hfuel : fuel <> O) by lia.
  unfold option_truncated, tcp_option_size. destruct (Z.ltb_spec (caplen c) (p + 1)); [by eexists|].
  rewrite Hk. cbn [mbind res_bind]. destruct (Z.ltb_spec 1 kind) as [H1|H1]; cycle 1.
  - (* no operation *)
    assert (kind = 1) as -> by (pose proof (rd8_range _ _ _ Hb Hk); ints; lia). cbn [Z.eqb orb Pos.eqb mbind res_bind].
    destruct (Z.ltb_spec (caplen c) (p + 1)); [lia|]. cbn [mbind res_bind].
    destruct (Z.ltb_spec (caplen c) (p + 1)); [lia|]. cbn [mbind res_bind]. cbn [Z.eqb Pos.eqb].
    destruct (IH (p + 1) (optlen + 1)) as [s ->]; [lia..|done|]. cbn [mbind res_bind]. eauto.
  - rewrite (proj2 (Z.eqb_neq kind 0)), (proj2 (Z.eqb_neq kind 1)) by lia. cbn [orb].
    destruct (Z.ltb_spec (caplen c) (p + 2)); [by eexists|].
    destruct (rd8_in (payload c) (p + 1)) as [size Hsz]; [lia|]. rewrite Hsz. cbn [mbind res_bind].
    pose proof (rd8_range _ _ _ Hb Hsz) as Hr. unfold is_u8 in Hr.
    destruct (Z.ltb_spec (caplen c) (p + size)); [by eexists|]. cbn [mbind res_bind].
    destruct (Z.eqb_spec size 0); [by eexists|].
    match goal with |- exists _, (?t ≫= _) = _ => assert (exists s, t = Ok s) as [text ->] end.
    { destruct (be16_in (payload c) (p + 2)) as [mss ->]; [lia..|]. destruct (rd8_in (payload c) (p + 2)) as [wf ->]; [lia|].
      cbn [mbind res_bind]. repeat case_match; eauto. }
    cbn [mbind res_bind]. destruct (IH (p + size) (optlen + size)) as [s ->]; [lia..|done|]. cbn [mbind res_bind]. eauto.
Qed.

Lemma tcp_options_Ok c tcp doff :
  caplen c + 2 <= blen (payload c) -> is_bytes (payload c) -> doff < 16 -> 0 <= tcp -> tcp + 20 <= caplen c ->
  exists s, tcp_options c tcp doff = Ok s.
Proof.
  intros Hc Hb Hd Ht Hl. unfold tcp_options. case_match; [eauto|].
  destruct (tcp_option_loop_Ok 41 c doff (tcp + 20) 20) as [s ->]; [done..|lia|lia|lia|done|]. cbn [mbind res_bind]. eauto.
Qed.

(** Headers that can be described: not an unreachable code behind its table, not
    an OSPF type behind its table, not SCTP, and not a web request (whose length
    is taken from the network header).  DNS messages are the subject of
    [dns_format_safe]. *)
Definition describable (h : header_chunk) (t : ptype) (p : Z) : Prop :=
  match t with
  | PROTOCOL_ICMP => forall code, rd8 (mem h) p = Ok 3 -> rd8 (mem h) (p + 1) = Ok code -> code <= 15
  | PROTOCOL_OSPF => forall type, rd8 (mem h) (p + 1) = Ok type -> type <= 5
  | PROTOCOL_SCTP | PROTOCOL_DNS => False
  | PROTOCOL_TCP => be16 (mem h) p <> Ok PORT_HTTP /\ be16 (mem h) (p + 2) <> Ok PORT_HTTP
  | _ => True
  end.

(** How far behind the captured data a description may read: the four bytes of a
    802.3 header behind an Ethernet header, the value of the last TCP option, and
    the type of an OSPF packet of which one byte was captured.  No other protocol
    reads behind the captured data. *)
Definition format_margin (t : ptype) : Z :=
  match t with
  | PROTOCOL_ETHERNET => 4
  | PROTOCOL_TCP => 2
  | PROTOCOL_OSPF => 1
  | _ => 0
  end.

Lemma name_lookup_icmp code : 0 <= code <= 15 ->
  exists s, name_lookup icmp_unreachable_table code (B "Destination Unreachable") = Ok s.
Proof.
  intros Hc. assert (exists k, code = Z.of_nat k /\ (k < 16)%nat) as (k & -> & Hk) by (exists (Z.to_nat code); lia).
  clear Hc. do 16 (destruct k as [|k]; [eexists; reflexivity|]). lia.
Qed.
Lemma icmp_text_Ok m p :
  is_bytes m -> 0 <= p -> p + 8 <= blen m ->
  (forall code, rd8 m p = Ok 3 -> rd8 m (p + 1) = Ok code -> code <= 15) -> exists s, icmp_text m p = Ok s.
Proof.
  intros Hb Hp Hl Hd. unfold icmp_text. destruct (rd8_in m p) as [type Ht]; [lia|]. rewrite Ht. cbn [mbind res_bind].
  destruct (be16_in m (p + 4)) as [id ->]; [lia..|]. destruct (be16_in m (p + 6)) as [sq ->]; [lia..|]. cbn [mbind res_bind].
  destruct (Z.eqb_spec type 0); [eauto|]. destruct (Z.eqb_spec type 3) as [->|]; [|repeat case_match; eauto].
  destruct (rd8_in m (p + 1)) as [code Hc]; [lia|]. rewrite Hc. cbn [mbind res_bind].
  apply name_lookup_icmp. pose proof (rd8_range _ _ _ Hb Hc). ints. split; [lia|]. by apply Hd.
Qed.

Lemma ospf_type_name_Ok type : 0 <= type <= 5 -> exists s, ospf_type_name type = Ok s.
Proof.
  intros Ht. assert (exists k, type = Z.of_nat k /\ (k < 6)%nat) as (k & -> & Hk) by (exists (Z.to_nat type); lia).
  clear Ht. do 6 (destruct k as [|k]; [eexists; reflexivity|]). lia.
Qed.

Lemma ipv6_total_Ok c p : caplen c <= blen (payload c) -> is_bytes (payload c) -> 0 <= p -> p + 20 <= caplen c ->
  exists hs found, ipv6_total_header_size c p = Ok (hs, found).
Proof.
  intros Hm Hb Hp Hl. unfold ipv6_total_header_size. case_match; [eauto|].
  destruct (rd8_in (payload c) (p + 6)) as [nxt ->]; [lia|]. cbn [mbind res_bind]. case_match; [eauto|].
  destruct (ipv6_ext_loop_ok c (S (Z.to_nat (caplen c))) (p + sizeof_ip6_hdr) sizeof_ip6_hdr) as (hs & found & -> & _);
    unfold sizeof_ip6_hdr; try done; try lia. eauto.
Qed.

(** A load of a description succeeds. *)
Ltac fload :=
  rewrite ?bind_assoc;
  match goal with
  | |- exists _, (?e ≫= _) = _ =>
      lazymatch e with
      | rd8 ?m ?o => destruct (rd8_in m o) as [? ->]; [lia|]
      | be16 ?m ?o => destruct (be16_in m o) as [? ->]; [lia..|]
      | be32 ?m ?o => destruct (be32_in m o) as [? ->]; [lia..|]
      | rd32 ?m ?o => destruct (rd32_in m o) as [? ->]; [lia..|]
      | slice ?m ?o ?n => destruct (slice_in m o n) as [? ->]; [lia..|]
      end
  end; cbn [mbind res_bind].
Ltac fif := match goal with |- exists _, (if ?b then _ else _) = _ => destruct b end.
Ltac flimited :=
  match goal with |- context [limited_caplen ?c ?p ?n] =>
    let E := fresh "El" in destruct (limited_caplen c p n) eqn:E; [by eexists|];
    unfold limited_caplen in E; apply orb_false_iff in E as [_ E%Z.ltb_ge] end.

Lemma arp_format_Ok h p flags :
  0 <= p -> caplen (cp h) <= blen (mem h) -> exists s, arp_format h p flags = Ok s.
Proof.
  intros Hp Hm. unfold arp_format, sizeof_ether_arp. flimited. fload. fload.
  match goal with |- exists _, (?t ≫= _) = _ => assert (exists s, t = Ok s) as [text ->] end; [|cbn [mbind res_bind]; eauto].
  match goal with |- context [if ?b then _ ≫= _ else _] => destruct b end; [|eauto].
  fload. fload. destruct (slice_in (mem h) (p + 8) 6) as [sha ->]; [lia..|]. cbn [mbind res_bind]. repeat case_match; eauto.
Qed.

Lemma tcp_format_Ok h p flags :
  caplen (cp h) + 2 <= blen (mem h) -> is_bytes (mem h) -> 0 <= p -> p + 20 <= caplen (cp h) ->
  be16 (mem h) p <> Ok PORT_HTTP -> be16 (mem h) (p + 2) <> Ok PORT_HTTP -> exists s, tcp_format h p flags = Ok s.
Proof.
  intros Hm Hb Hp Hl H1 H2. unfold mem in *. unfold tcp_format, tcp_doff, mem. flimited.
  destruct (rd8_in (payload (cp h)) (p + 12)) as [b Eb]; [lia|]. rewrite Eb. cbn [mbind res_bind].
  destruct (be16_in (payload (cp h)) p) as [sp Es]; [lia..|]. destruct (be16_in (payload (cp h)) (p + 2)) as [dp Ed]; [lia..|].
  rewrite Es, Ed. cbn [mbind res_bind]. do 4 fload.
  destruct (tcp_options_Ok (cp h) p (b / 16)) as [o ->]; try done.
  { pose proof (rd8_range _ _ _ Hb Eb). ints. Z.div_mod_to_equations; lia. }
  cbn [mbind res_bind]. rewrite (proj2 (Z.eqb_neq sp _)), (proj2 (Z.eqb_neq dp _)), andb_false_r by congruence.
  cbn [mbind res_bind]. eauto.
Qed.

Lemma gtp_format_Ok h p flags s : gtp_header_size (mem h) p = Ok s -> exists t, gtp_format h p flags = Ok t.
Proof.
  intros Hs. unfold gtp_format, gtp_version_str. rewrite Hs. unfold gtp_header_size in Hs. inv_ok. rewrite Hv.
  cbn [mbind res_bind]. eauto.
Qed.

(** ** Claims *)

(** C37: The description of every header that the walk of a packet delivers is made,
    without an abort, and reads at most [format_margin] bytes behind the captured
    data: four for Ethernet, two for TCP, one for OSPF and none for any other
    protocol.  The exceptions are named by [describable]: DNS messages, SCTP
    packets, TCP segments of port 80, and ICMP codes and OSPF types that are not
    in their tables. *)
Theorem header_format_safe (stack : bytes) (h : header_chunk) (t : ptype) (p flags : Z) :
  caplen (cp h) + format_margin t <= blen (mem h) -> is_bytes (mem h) ->
  delivered h t p -> describable h t p -> exists text, header_format stack h flags = Ok text.
Proof.
  intros Hm Hb [Ht Hptr Hin Hk Hcomp] Hdesc.
  unfold header_format, current. rewrite Ht. destruct (protocol_get t) as [pr|] eqn:Hpr; [|by destruct t].
  cbn [mbind res_bind]. destruct (truncated h); [eauto|]. specialize (Hcomp eq_refl). rewrite Hptr.
  destruct (format_callback stack t) as [f|] eqn:Hf; [|eauto]. unfold ptr_sanity.
  rewrite (proj2 (Z.ltb_ge p 0)), (proj2 (Z.ltb_ge (caplen (cp h)) p)) by lia. cbn [orb mbind res_bind].
  destruct t; try discriminate Hf; injection Hf as <-;
    cbn [complete protocol_get pr_size mk_protocol describable] in Hcomp, Hdesc; cbn in Hcomp; cbn [format_margin] in Hm;
    try done.
  - by eexists.
  - apply arp_format_Ok; lia.
  - by eexists.
  - unfold ethernet_format, h_proto. fload. fif; [eauto|]. fif; [do 6 fload; eauto|]. fif; eauto.
  - unfold gre_format. fload. eauto.
  - destruct Hcomp as (s & Hs & _). by eapply gtp_format_Ok.
  - unfold icmp_format. fload. fload. fif; [eauto|].
    destruct (icmp_text_Ok (mem h) p) as [s ->]; try done; [lia..|]. cbn [mbind res_bind]. eauto.
  - unfold igmp_format. flimited. fload. eauto.
  - unfold ipv4_format, ip_hl, ip_p. fload. fif; [eauto|]. fload. eauto.
  - unfold ipv6_format. destruct (ipv6_total_Ok (cp h) p) as (hs & found & ->); try done; [unfold mem in *; lia..|]. cbn [mbind res_bind].
    destruct (has_flag _ _); [do 2 fload|]; cbn [mbind res_bind]; eauto.
  - unfold mpls_format. fload. eauto.
  - unfold ospf_format. flimited. fload. destruct (rd8_in (mem h) (p + 1)) as [ty Ety]; [lia|]. rewrite Ety.
    cbn [mbind res_bind]. destruct (ospf_type_name_Ok ty) as [s ->]; [|cbn [mbind res_bind]; eauto].
    pose proof (rd8_range _ _ _ Hb Ety). ints. split; [lia|auto].
  - unfold ptpv2_format, ptpv2_options. flimited. do 2 fload. eauto.
  - unfold pw_format. fload. eauto.
  - by eexists.
  - apply tcp_format_Ok; tauto || lia || done.
  - unfold udp_format. do 4 fload. eauto.
  - unfold vlan_format. fload. eauto.
Qed.

(** Printing the options of a TCP header ends whatever they contain (sizes of
    zero and options cut by the capture are reported) and reads at most two bytes
    behind the captured data. *)
Theorem tcp_options_total (c : cap_header) (tcp doff : Z) :
  caplen c + 2 <= blen (payload c) -> is_bytes (payload c) -> 0 <= doff < 16 -> 0 <= tcp -> tcp + 20 <= caplen c ->
  exists text, tcp_options c tcp doff = Ok text.
Proof. intros Hc Hb Hd Ht Hl. apply tcp_options_Ok; [done|done|lia|done|done]. Qed.

(** A header with [pad] readable bytes behind the captured data. *)
Definition ex_margin (pad : nat) (t : ptype) (m : bytes) : header_chunk :=
  {| cp := {| nic := []; head_mampid := []; ts := mk_timepico 0 0; len := blen m; caplen := blen m;
              payload := m ++ replicate pad 0 |};
     protocol := Some t; last_net := {| net_src := Net4 16777226; net_dst := Net4 33554442; plen := blen m |};
     truncated := false; ptr := Some 0 |}.
Definition ex_header : ptype -> bytes -> header_chunk := ex_margin 200.

(** No smaller margin is enough: a frame of a captured Ethernet header, a TCP
    segment that ends in an option without its value, and one byte of OSPF are
    read as far as [format_margin] says. *)
Theorem format_margin_needed (stack : bytes) :
  let tcp := replicate 12 0 ++ [96] ++ replicate 7 0 ++ [1; 1; 2; 2] in
  header_format stack (ex_margin 3 PROTOCOL_ETHERNET (replicate 14 0)) 0 = Fault /\
  header_format stack (ex_margin 1 PROTOCOL_TCP tcp) 0 = Fault /\
  header_format stack (ex_margin 0 PROTOCOL_OSPF [2]) 0 = Fault.
Proof. repeat split; vm_compute; reflexivity. Qed.

(** What [describable] excludes does go wrong: a code or a type behind the end
    of its table is an invalid load; of the chunks of an SCTP packet only data is
    recognised, and because the length is used in the wrong byte order the second
    chunk is not found. *)
Theorem header_format_overreads (stack : bytes) :
  let data := [0; 3; 0; 16] ++ replicate 12 0 in
  let init := [1; 0; 0; 16] ++ replicate 12 0 in
  header_format stack (ex_header PROTOCOL_ICMP [3; 16; 0; 0; 0; 0; 0; 0]) FORMAT_LAYER_APPLICATION = Fault /\
  header_format stack (ex_header PROTOCOL_OSPF [2; 6; 0; 0]) FORMAT_LAYER_APPLICATION = Fault /\
  header_format stack (ex_header PROTOCOL_SCTP (replicate 12 0 ++ data ++ data)) 0 =
    Ok (B ": SCTP: 10.0.0.1:0 --> 10.0.0.2:0: (in development) DATA 16 bytes, ") /\
  header_format stack (ex_header PROTOCOL_SCTP (replicate 12 0 ++ init)) 0 =
    Ok (B ": SCTP: 10.0.0.1:0 --> 10.0.0.2:0: (in development) Type=0, length=16 bytes ").
Proof. repeat split; vm_compute; reflexivity. Qed.

(** ** State of a formatter over a sequence of packets *)
Lemma format_pkg_state date zone stack st db c st' db' text :
  format_pkg date zone stack st db c = Ok (st', db', text) -> st' = format_ignore st c.
Proof. unfold format_pkg, format_ignore. intros H. inv_ok. destruct v1. inv_ok. congruence. Qed.

(** Packets that are printed and packets that are passed over. *)
Fixpoint format_run (date zone : bool -> Z -> bytes) (stack : bytes) (st : format) (db : conn_db)
    (pkts : list (bool * cap_header)) : res (format * conn_db * list bytes) :=
  match pkts with
  | [] => Ok (st, db, [])
  | (true, c) :: pkts =>
      '(st, db, text) ← format_pkg date zone stack st db c;
      '(st, db, rest) ← format_run date zone stack st db pkts;
      Ok (st, db, text :: rest)
  | (false, c) :: pkts => format_run date zone stack (format_ignore st c) db pkts
  end.

(** One packet more, printed or not. *)
Lemma format_run_cons date zone stack st db b c pkts st' db' texts :
  format_run date zone stack st db ((b, c) :: pkts) = Ok (st', db', texts) ->
  exists db1 texts1, format_run date zone stack (format_ignore st c) db1 pkts = Ok (st', db', texts1) /\
    length texts = (length texts1 + if (b : bool) then 1 else 0)%nat.
Proof.
  cbn [format_run]. destruct b; intros H; [|exists db, texts; split; [done|lia]]. inv_ok.
  destruct v as [[st2 db2] text]. apply format_pkg_state in Hv. subst st2. inv_ok. destruct v as [[st3 db3] rest].
  inv_ok. injection H as <- <- <-. exists db2, rest. split; [done|cbn; lia].
Qed.

Lemma format_run_count date zone stack pkts st db st' db' texts :
  format_run date zone stack st db pkts = Ok (st', db', texts) -> format_first st = false -> 0 <= pktcount st ->
  pktcount st + Z.of_nat (length pkts) < 18446744073709551616 ->
  pktcount st' = pktcount st + Z.of_nat (length pkts) /\ ref st' = ref st /\ length texts = length (List.filter fst pkts).
Proof.
  revert st db texts. induction pkts as [|[b c] pkts IH]; intros st db texts H Hf H0 Hl.
  - cbn in H. injection H as <- <- <-. cbn. repeat split; lia.
  - cbn [length] in *. apply format_run_cons in H as (db1 & texts1 & H & Ht). apply IH in H as (Hc & Hr & Hn).
    + unfold format_ignore, note_first in Hc, Hr. cbn in Hc, Hr. rewrite Hf in Hc, Hr. cbn in Hc, Hr.
      rewrite u64_id in Hc by (ints; lia). split; [lia|]. split; [done|]. destruct b; cbn; lia.
    + unfold format_ignore, note_first. cbn. by rewrite Hf.
    + unfold format_ignore, note_first. cbn. rewrite Hf. cbn. pose proof (u64_range (pktcount st + 1)). ints; lia.
    + unfold format_ignore, note_first. cbn. rewrite Hf. cbn. rewrite u64_id by (ints; lia). lia.
Qed.

(** Over any sequence of packets, printed or ignored, the counter of a
    formatter is the number of packets, its time reference is the time of the
    first of them, and one text is made for each packet that is printed. *)
Theorem format_run_state (date zone : bool -> Z -> bytes) (stack : bytes) (st st' : format) (db db' : conn_db)
    (flags : Z) (shown : bool) (c : cap_header) (pkts : list (bool * cap_header)) (texts : list bytes) :
  format_run date zone stack (format_setup st flags) db ((shown, c) :: pkts) = Ok (st', db', texts) ->
  Z.of_nat (length pkts) < 4294967296 ->
  pktcount st' = Z.of_nat (length ((shown, c) :: pkts)) /\ ref st' = ts c /\
  length texts = length (List.filter fst ((shown, c) :: pkts)).
Proof.
  intros H Hl. apply format_run_cons in H as (db1 & texts1 & H & Ht).
  set (st1 := format_ignore (format_setup st flags) c) in *.
  assert (H1 : format_first st1 = false /\ pktcount st1 = 1 /\ ref st1 = ts c)
    by (unfold st1, format_ignore, format_setup; destruct (_ =? 0); done).
  destruct H1 as (Hf & Hc & Hr). apply format_run_count in H as (Hc' & Hr' & Hn); [|done|lia|lia].
  cbn [length]. split; [lia|]. split; [congruence|]. destruct shown; cbn; lia.
Qed.

(** ** Witnesses *)
Lemma header_format_safe_witness :
  exists text, header_format ex_stack (ex_header PROTOCOL_ICMP [3; 1; 0; 0; 0; 0; 0; 0]) FORMAT_LAYER_APPLICATION = Ok text.
Proof.
  apply (header_format_safe ex_stack (ex_header PROTOCOL_ICMP [3; 1; 0; 0; 0; 0; 0; 0]) PROTOCOL_ICMP 0 FORMAT_LAYER_APPLICATION).
  - vm_compute. discriminate.
  - vm_compute. repeat (constructor; [split; [discriminate|reflexivity]|]). constructor.
  - constructor; [reflexivity|reflexivity|split; vm_compute; discriminate|discriminate|vm_compute; discriminate].
  - intros code _ [= <-]. lia.
Defined.

Definition ex_options : cap_header :=
  {| nic := []; head_mampid := []; ts := mk_timepico 0 0; len := 32; caplen := 32;
     payload := replicate 20 0 ++ [2; 4; 5; 180; 1; 3; 3; 7; 9; 0; 0; 0] ++ replicate 20 0 |}.
Lemma tcp_options_total_witness : exists text, tcp_options ex_options 0 8 = Ok text.
Proof.
  apply (tcp_options_total ex_options 0 8); [vm_compute; discriminate| |lia|lia|vm_compute; discriminate].
  vm_compute. repeat (constructor; [split; [discriminate|reflexivity]|]). constructor.
Defined.

Definition ex_format : format := {| pktcount := 7; ref := mk_timepico 1 1; format_first := false; format_flags := 0 |}.
Lemma format_run_state_witness :
  exists st db texts,
    format_run (fun _ _ => []) (fun _ _ => []) ex_stack (format_setup ex_format 0) initial_db
      [(true, ex_frame); (false, ex_frame); (true, ex_frame)] = Ok (st, db, texts) /\
    pktcount st = 3 /\ ref st = ts ex_frame /\ length texts = 2%nat.
Proof.
  destruct (format_run (fun _ _ => []) (fun _ _ => []) ex_stack (format_setup ex_format 0) initial_db
    [(true, ex_frame); (false, ex_frame); (true, ex_frame)]) as [[[st db] texts]| | |] eqn:E; [|vm_compute in E; discriminate E..].
  exists st, db, texts. split; [reflexivity|].
  exact (format_run_state _ _ _ _ _ _ _ 0 true ex_frame [(false, ex_frame); (true, ex_frame)] texts E eq_refl).
Defined.
