(* ===== verification/Dump.v ===== *)
(** * Field by field output (the dump functions of src/protocols/ and
      src/format/stp.c, [header_dump] of src/packet.c, [filter_print] of
      src/filter.c)

    A dump function writes a line for each field of a header; the result is what
    it writes.  DNS messages are dumped in [Dns]. *)

From S2P Require Import Prelude CLib Picotime Utils Packet Address Filter Protocols Text Dns Format.

Definition yes_no (b : bool) : bytes := if b then B "yes" else B "no".

(** One line: the prefix, the name with its padding, and the value. *)
Definition line (prefix : bytes) (name : String.string) (value : bytes) : bytes := prefix ++ B name ++ value ++ nl.

(** ** Link layer *)
Definition ethernet_dump (h : header_chunk) (p : Z) (prefix : bytes) : res bytes :=
  src ← slice (mem h) (p + 6) 6;
  dst ← slice (mem h) p 6;
  t ← h_proto (mem h) p;
  Ok (line prefix "h_source:           " (hexdump_address src) ++
      line prefix "h_dest:             " (hexdump_address dst) ++
      line prefix "h_proto:            0x" (padl 48 4 (hex t))).

Definition vlan_dump (h : header_chunk) (p : Z) (prefix : bytes) : res bytes :=
  tci ← be16 (mem h) p;
  let pcp := Z.shiftr (Z.land 0xE000 tci) 13 in
  let dei := Z.shiftr (Z.land 0x1000 tci) 12 in
  let vid := Z.land 0x0FFF tci in
  Ok (line prefix "TCI:                0x" (padl 48 2 (hex tci)) ++
      line prefix "PCP:                " (fmt_d pcp) ++
      line prefix "DEI/CFI:            " (fmt_d dei) ++
      line prefix "VID:                " (fmt_d vid)).

Definition mpls_dump (h : header_chunk) (p : Z) (prefix : bytes) : res bytes :=
  val ← be32 (mem h) p;
  Ok (line prefix "label:              " (dec (mpls_label val)) ++
      line prefix "experimental:       " (dec (mpls_experimental val)) ++
      line prefix "bottom:             " (yes_no (mpls_bottom val)) ++
      line prefix "TTL:                " (dec (mpls_ttl val))).

Definition pw_dump (h : header_chunk) (p : Z) (prefix : bytes) : res bytes :=
  val ← be32 (mem h) p;
  Ok (line prefix "sequence:           " (dec (val mod 65536))).

Definition stp_dump (h : header_chunk) (p : Z) (prefix : bytes) : res bytes := Ok [].
Definition cdp_dump (h : header_chunk) (p : Z) (prefix : bytes) : res bytes := Ok [].
Definition data_dump (h : header_chunk) (p : Z) (prefix : bytes) : res bytes := Ok [].

Definition arp_format_table : list (Z * option bytes) := [(1, Some (B "Ethernet")); (0, None)].
Definition arp_op_table : list (Z * option bytes) :=
  [(1, Some (B "ARP Request")); (2, Some (B "ARP Reply")); (3, Some (B "RARP Request")); (4, Some (B "RARP Reply"));
   (8, Some (B "InARP Request")); (9, Some (B "InARP Reply")); (10, Some (B "ARP NAK")); (0, None)].

(** The size that is checked is that of an Ethernet header; the fields that are
    shown lie in the first eight bytes. *)
Definition arp_dump (h : header_chunk) (p : Z) (prefix : bytes) : res bytes :=
  let m := mem h in
  if limited_caplen (cp h) (Some p) sizeof_ethhdr then Ok (prefix ++ B "[Packet size limited during capture]" ++ nl)
  else
    format ← be16 m p;
    op ← be16 m (p + 6);
    fname ← name_lookup arp_format_table format (B "unknown");
    pro ← be16 m (p + 2);
    hln ← rd8 m (p + 4);
    pln ← rd8 m (p + 5);
    oname ← name_lookup arp_op_table op (B "unknown");
    Ok (line prefix "ar_hrd:             " (dec format ++ B " (" ++ fname ++ B ")") ++
        line prefix "ar_pro:             " (dec pro) ++
        line prefix "ar_hln:             " (dec hln ++ B " bytes") ++
        line prefix "ar_pln:             " (dec pln ++ B " bytes") ++
        line prefix "ar_op:              0x" (padl 48 4 (hex op) ++ B " (" ++ oname ++ B ")")).

(** ** Network layer *)
Definition IP_RF : Z := 0x8000.
Definition IP_DF : Z := 0x4000.
Definition IP_MF : Z := 0x2000.
Definition IP_OFFMASK : Z := 0x1fff.

Definition ipv4_dump (h : header_chunk) (p : Z) (prefix : bytes) : res bytes :=
  let m := mem h in
  src ← rd32 m (p + 12);
  dst ← rd32 m (p + 16);
  b ← rd8 m p;
  let hl := b mod 16 in
  tos ← rd8 m (p + 1);
  l ← be16 m (p + 2);
  id ← be16 m (p + 4);
  off ← be16 m (p + 6);
  ttl ← rd8 m (p + 8);
  proto ← rd8 m (p + 9);
  sum ← be16 m (p + 10);
  Ok (line prefix "ip_v:               " (dec (b / 16)) ++
      line prefix "ip_hl:              " (dec hl ++ B " (" ++ dec (4 * hl) ++ B " octets)") ++
      line prefix "ip_tos:             " (dec tos) ++
      line prefix "ip_len:             " (dec l) ++
      line prefix "ip_id:              " (dec id) ++
      line prefix "ip_off:             0x" (padl 48 4 (dec off)) ++
      line prefix "  RF:               " (yes_no (has_flag off IP_RF)) ++
      line prefix "  DF:               " (yes_no (has_flag off IP_DF)) ++
      line prefix "  MF:               " (yes_no (has_flag off IP_MF)) ++
      line prefix "  bits:             0x" (padl 48 4 (hex (Z.land off IP_OFFMASK))) ++
      line prefix "ip_ttl:             " (dec ttl) ++
      line prefix "ip_p:               " (dec proto) ++
      line prefix "ip_sum:             " (dec sum) ++
      line prefix "ip_src:             " (inet_ntoa src) ++
      line prefix "ip_dst:             " (inet_ntoa dst)).

Definition ipv6_dump (h : header_chunk) (p : Z) (prefix : bytes) : res bytes :=
  let m := mem h in
  src ← slice m (p + 8) 16;
  dst ← slice m (p + 24) 16;
  vfc ← rd8 m p;
  flow ← be32 m p;
  pl ← be16 m (p + 4);
  nxt ← rd8 m (p + 6);
  hops ← rd8 m (p + 7);
  Ok (line prefix "ip6_vfc:            " (dec vfc) ++
      line prefix "ip6_flow:           0x" (padl 48 4 (hex flow)) ++
      line prefix "ip6_plen:           " (dec pl ++ B " octets") ++
      line prefix "ip6_nxt             " (dec nxt) ++
      line prefix "ip6_hops:           " (dec hops) ++
      line prefix "ip6_src:            " (inet_ntop6 src) ++
      line prefix "ip6_dst:            " (inet_ntop6 dst)).

(** The names are followed by blanks and two tabulators. *)
Definition gre_line (prefix : bytes) (name : String.string) (value : Z) : bytes :=
  prefix ++ padr 15 (B name) ++ tab ++ tab ++ B " " ++ dec value ++ nl.
Definition gre_dump (h : header_chunk) (p : Z) (prefix : bytes) : res bytes :=
  val ← be32 (mem h) p;
  let bit i := Z.b2z (Z.testbit val i) in
  Ok (gre_line prefix "checksum" (bit 31) ++ gre_line prefix "routing" (bit 30) ++
      gre_line prefix "key" (bit 29) ++ gre_line prefix "sequence" (bit 28) ++
      gre_line prefix "strict" (bit 27) ++ gre_line prefix "recursion" (val / 16777216 mod 8) ++
      gre_line prefix "reserved" (val / 524288 mod 32) ++ gre_line prefix "version" (val / 65536 mod 8) ++
      gre_line prefix "proto" (val mod 65536)).

Definition icmp_dump (h : header_chunk) (p : Z) (prefix : bytes) : res bytes :=
  type ← rd8 (mem h) p;
  code ← rd8 (mem h) (p + 1);
  Ok (line prefix "type:               " (dec type) ++ line prefix "code:               " (dec code)).

Definition limited_line (prefix : bytes) : bytes := prefix ++ B "[Packet size limited during capture]".
Definition sizeof_tcphdr : Z := 20.

(** The size that is checked is that of a TCP header, although the header has
    eight bytes. *)
Definition igmp_dump (h : header_chunk) (p : Z) (prefix : bytes) : res bytes :=
  if limited_caplen (cp h) (Some p) sizeof_tcphdr then Ok (limited_line prefix)
  else
    type ← rd8 (mem h) p;
    time ← rd8 (mem h) (p + 1);
    group ← be32 (mem h) (p + 4);
    Ok (line prefix "type:                " (igmp_type_name type ++ B " (" ++ dec type ++ B ")") ++
        line prefix "max response time:   " (dec time) ++
        line prefix "group address:       0x" (padl 48 4 (hex group))).

Definition ospf_dump (h : header_chunk) (p : Z) (prefix : bytes) : res bytes :=
  let m := mem h in
  if limited_caplen (cp h) (Some p) sizeof_tcphdr then Ok (limited_line prefix)
  else
    version ← rd8 m p;
    type ← rd8 m (p + 1);
    name ← ospf_type_name type;
    l ← be16 m (p + 2);
    router ← be32 m (p + 4);
    area ← be32 m (p + 8);
    sum ← be16 m (p + 12);
    au ← be16 m (p + 14);
    Ok (line prefix "version:             " (dec version) ++
        line prefix "type:                " (fmt_s name ++ B " (" ++ dec type ++ B ")") ++
        line prefix "len:                 " (dec l ++ B " bytes") ++
        line prefix "router id:           0x" (padl 48 4 (hex router)) ++
        line prefix "area id:             0x" (padl 48 4 (hex area)) ++
        line prefix "checksum:            0x" (padl 48 2 (hex sum)) ++
        line prefix "autype:              " (dec au)).

(** ** Transport layer *)
Definition udp_dump (h : header_chunk) (p : Z) (prefix : bytes) : res bytes :=
  let m := mem h in
  sport ← be16 m p;
  dport ← be16 m (p + 2);
  l ← be16 m (p + 4);
  check ← be16 m (p + 6);
  Ok (line prefix "source:             " (dec sport) ++ line prefix "dest:               " (dec dport) ++
      line prefix "len:                " (dec l) ++ line prefix "check:              " (dec check)).

Definition tcp_dump (h : header_chunk) (p : Z) (prefix : bytes) : res bytes :=
  let m := mem h in
  if limited_caplen (cp h) (Some p) sizeof_tcphdr then Ok (limited_line prefix)
  else
    sport ← be16 m p;
    dport ← be16 m (p + 2);
    seq ← be32 m (p + 4);
    ack ← be32 m (p + 8);
    b ← rd8 m (p + 12);
    fl ← rd8 m (p + 13);
    window ← be16 m (p + 14);
    check ← be16 m (p + 16);
    urg ← be16 m (p + 18);
    let bit i := dec (Z.b2z (Z.testbit fl i)) in
    Ok (line prefix "source:             " (dec sport) ++ line prefix "dest:               " (dec dport) ++
        line prefix "seq:                " (dec seq) ++ line prefix "seq_ack:            " (dec ack) ++
        line prefix "doff:               " (dec (b / 16)) ++ line prefix "doff:               " (dec (b / 16)) ++
        line prefix "res1:               0x" (hex (b mod 16)) ++ line prefix "res2:               0x" (hex (fl / 64)) ++
        line prefix "urg:                " (bit 5) ++ line prefix "ack:                " (bit 4) ++
        line prefix "psh:                " (bit 3) ++ line prefix "rst:                " (bit 2) ++
        line prefix "syn:                " (bit 1) ++ line prefix "fin:                " (bit 0) ++
        line prefix "window:             " (dec window) ++ line prefix "check:              0x" (padl 48 4 (hex check)) ++
        line prefix "urg:                " (dec urg)).

Definition sctp_dump (h : header_chunk) (p : Z) (prefix : bytes) : res bytes :=
  let m := mem h in
  if limited_caplen (cp h) (Some p) 12 then Ok (limited_line prefix)
  else
    sport ← be16 m p;
    dport ← be16 m (p + 2);
    vtag ← be32 m (p + 4);
    sum ← be32 m (p + 8);
    Ok (line prefix "source:             " (dec sport) ++ line prefix "dest:               " (dec dport) ++
        line prefix "seq:                " (dec vtag) ++ line prefix "seq_ack:            " (dec sum)).

(** ** Above *)
Definition gtp_message_type_name (type : Z) : bytes :=
  let within a b := (a <=? type) && (type <=? b) in
  let from a names := match names !! Z.to_nat (type - a) with Some s => B s | None => B "Unknown" end in
  if within 0 7 then
    from 0 ["Reserved"; "Echo Request"; "Echo Response"; "Version Not Supported"; "Node Alive Request";
            "Node Alive Response"; "Redirection Request"; "Redirection Response"]%string
  else if within 16 21 then
    from 16 ["Create PDP Context Request"; "Create PDP Context Response"; "Update PDP Context Request";
             "Update PDP Context Response"; "Delete PDP Context Request"; "Delete PDP Context Response"]%string
  else if within 26 37 then
    from 26 ["Error Indication"; "PDU Notification Request"; "PDU Notification Response";
             "PDU Notification Reject Request"; "PDU Notification Reject Response";
             "Supported Extension Headers Notification"; "Send Routeing Information for GPRS Request";
             "Send Routeing Information for GPRS Response"; "Failure Report Request"; "Failure Report Response";
             "Note MS GPRS Present Request"; "Note MS GPRS Present Response"]%string
  else if within 48 60 then
    from 48 ["Identification Request"; "Identification Response"; "SGSN Context Request"; "SGSN Context Response";
             "SGSN Context Acknowledge"; "Forward Relocation Request"; "Forward Relocation Response";
             "Forward Relocation Complete"; "Relocation Cancel Request"; "Relocation Cancel Response";
             "Forward SRNS Context"; "Forward Relocation Complete Acknowledge";
             "Forward SRNS Context Acknowledge"]%string
  else if type =? 240 then B "Data Record Transfer Request"
  else if type =? 241 then B "Data Record Transfer Response"
  else if type =? 255 then B "T-PDU"
  else B "Unknown".
Definition gtp_message_type_str (m : bytes) (p : Z) : res bytes :=
  type ← gtp_message_type m p; Ok (gtp_message_type_name type).

Definition gtp_dump (h : header_chunk) (p : Z) (prefix : bytes) : res bytes :=
  let m := mem h in
  b ← rd8 m p;
  name ← gtp_message_type_str m p;
  type ← gtp_message_type m p;
  version ← gtp_version m p;
  rest ← match version with
         | GTPv1 =>
             seq ← (if Z.testbit b 1 then s ← be16 m (p + 8); Ok (B "0x" ++ padl 48 4 (dec s)) else Ok (B "no"));
             npdu ← (if Z.testbit b 0 then s ← rd8 m (p + 10); Ok (B "0x" ++ padl 48 2 (dec s)) else Ok (B "no"));
             total ← be16 m (p + 2);
             teid ← be32 m (p + 4);
             Ok (line prefix "pt:                 " (dec (Z.b2z (Z.testbit b 4))) ++
                 line prefix "extensions:         " (if Z.testbit b 2 then B "yes (not shown)" else B "no") ++
                 line prefix "sequence num.:      " seq ++ line prefix "npdu:               " npdu ++
                 line prefix "length:             " (dec total ++ B " octets") ++
                 line prefix "teid:               0x" (padl 48 8 (hex teid)))
         | GTPv2 | GTPvP => Ok []
         end;
  Ok (line prefix "version:            0x" (padl 48 2 (hex (b / 32))) ++
      line prefix "message type:       " (name ++ B " (0x" ++ padl 48 2 (hex type) ++ B ")") ++ rest).

(** [domainNumber], one byte, has its byte order converted as if it were two. *)
Definition ptpv2_dump (h : header_chunk) (p : Z) (prefix : bytes) : res bytes :=
  if limited_caplen (cp h) (Some p) sizeof_ptpv2hdr then Ok (limited_line prefix)
  else
    tSpec ← rd8 (mem h) p;
    ver ← rd8 (mem h) (p + 1);
    l ← be16 (mem h) (p + 2);
    domain ← rd8 (mem h) (p + 4);
    Ok (line prefix "tSpec:              " (dec tSpec) ++ line prefix "version:            " (dec ver) ++
        line prefix "length:             " (dec l) ++ line prefix "domain:             " (dec (ntohs domain))).

(** ** One header *)
Definition dump_callback (stack : bytes) (t : ptype) : option (header_chunk -> Z -> bytes -> res bytes) :=
  match t with
  | PROTOCOL_UNKNOWN | PROTOCOL_DONE => None
  | PROTOCOL_DATA => Some data_dump
  | PROTOCOL_ARP => Some arp_dump
  | PROTOCOL_CDP => Some cdp_dump
  | PROTOCOL_DNS => Some (dns_dump stack)
  | PROTOCOL_ETHERNET => Some ethernet_dump
  | PROTOCOL_GRE => Some gre_dump
  | PROTOCOL_GTP => Some gtp_dump
  | PROTOCOL_ICMP => Some icmp_dump
  | PROTOCOL_IGMP => Some igmp_dump
  | PROTOCOL_IPV4 => Some ipv4_dump
  | PROTOCOL_IPV6 => Some ipv6_dump
  | PROTOCOL_MPLS => Some mpls_dump
  | PROTOCOL_OSPF => Some ospf_dump
  | PROTOCOL_PTPv2 => Some ptpv2_dump
  | PROTOCOL_PW => Some pw_dump
  | PROTOCOL_SCTP => Some sctp_dump
  | PROTOCOL_STP => Some stp_dump
  | PROTOCOL_TCP => Some tcp_dump
  | PROTOCOL_UDP => Some udp_dump
  | PROTOCOL_VLAN => Some vlan_dump
  end.

Definition header_dump (stack : bytes) (h : header_chunk) (prefix : bytes) : res bytes :=
  match protocol h with
  | None => Fault
  | Some t =>
      match dump_callback stack t with
      | None => Ok (prefix ++ B "(not implemented)" ++ nl)
      | Some f =>
          if truncated h then Ok (prefix ++ B "[Packet size limited during capture]" ++ nl)
          else
            _ ← ptr_sanity (cp h) (ptr h);
            match ptr h with Some p => f h p prefix | None => Fault end
      end
  end.

(** ** A filter *)
Definition quote : bytes := [34].
Definition print_if (b verbose : bool) (text otherwise : res bytes) : res bytes :=
  if b then text else if verbose then otherwise else Ok [].

Definition row (name : String.string) (text : bytes) : bytes := tab ++ padr 14 (B name) ++ B ": " ++ text.
Definition null (name : String.string) : res bytes := Ok (row name (B "NULL") ++ nl).

Definition filter_print (f : filter) (verbose : bool) : res bytes :=
  let set n := has_flag (index f) n in
  let mask n := B " (MASK: 0x" ++ padl 48 4 (HEX n) ++ B ")" in
  let pair a b := a ++ B " (MASK: " ++ b ++ B ")" in
  d ← stream_addr_ntoa (dest f);
  mp ← print_if (verbose || set FILTER_MAMPID) verbose (s ← arr_str (mampid f); Ok (row "MAMPid" s ++ nl)) (null "MAMPid");
  ci ← print_if (verbose || set 512) verbose (s ← arr_str (iface f); Ok (row "CI_ID" s ++ nl)) (null "CI_ID");
  vlan ← print_if (set 256) verbose
           (Ok (row "VLAN_TCI" (dec (vlan_tci f) ++ B " MASK (" ++ dec (vlan_tci_mask f) ++ B ")"))) (null "VLAN_TCI");
  et ← print_if (set 128) verbose (Ok (row "ETH_TYPE" (dec (eth_type f) ++ mask (eth_type_mask f)) ++ nl)) (null "ETH_TYPE");
  es ← print_if (set 64) verbose
         (Ok (row "ETH_SRC" (pair (hexdump_address_r (eth_src f)) (hexdump_address_r (eth_src_mask f))) ++ nl)) (null "ETH_SRC");
  ed ← print_if (set 32) verbose
         (Ok (row "ETH_DST" (pair (hexdump_address_r (eth_dst f)) (hexdump_address_r (eth_dst_mask f))) ++ nl)) (null "ETH_DST");
  ipp ← print_if (set 16) verbose (Ok (row "IP_PROTO" (dec (ip_proto f)) ++ nl)) (null "IP_PROTO");
  ips ← print_if (set 8) verbose
          (Ok (row "IP_SRC" (pair (inet_ntoa (ip_src f)) (inet_ntoa (ip_src_mask f))) ++ nl)) (null "IP_SRC");
  ipd ← print_if (set 4) verbose
          (Ok (row "IP_DST" (pair (inet_ntoa (ip_dst f)) (inet_ntoa (ip_dst_mask f))) ++ nl)) (null "IP_DST");
  po ← print_if (set FILTER_PORT) verbose
         (Ok (row "PORT (s or d)" (dec (port f) ++ mask (port_mask f)) ++ nl)) (null "PORT (s or d)");
  ps ← print_if (set 2) verbose (Ok (row "PORT_SRC" (dec (src_port f) ++ mask (src_port_mask f)) ++ nl)) (null "PORT_SRC");
  pd ← print_if (set 1) verbose (Ok (row "PORT_DST" (dec (dst_port f) ++ mask (dst_port_mask f)) ++ nl)) (null "PORT_DST");
  bpf ← match bpf_expr f with
        | Live e => Ok (row "BPF" (quote ++ e ++ quote) ++ nl)
        | Null => Ok (if verbose then tab ++ padr 14 (B "BPF") ++ B ":" ++ nl else [])
        | Freed => Fault
        end;
  Ok (B "FILTER {" ++ padl 48 2 (fmt_d (filter_id f)) ++ B "}" ++ nl ++
      row (if (stream_addr_type (dest f) =? STREAM_ADDR_CAPFILE)%Z then "DESTFILE" else "DESTADDRESS") d ++ nl ++
      row "CAPLEN" (fmt_d (filter_caplen f)) ++ nl ++ row "index" (fmt_d (index f)) ++ nl ++
      row "mode" ((if mode f =? FILTER_AND then B "AND" else B "OR") ++ B " (" ++ dec (mode f) ++ B ")") ++ nl ++
      mp ++ ci ++ vlan ++ et ++ es ++ ed ++ ipp ++ ips ++ ipd ++ po ++ ps ++ pd ++ bpf).

(** ** Lemmas *)

(** Loads that the margin behind the capture makes valid. *)
Ltac dloads := repeat fload.

Lemma name_lookup_sentinel table v def : Exists (fun e => snd e = None) table -> exists s, name_lookup table v def = Ok s.
Proof.
  induction table as [|[k [s|]] table IH]; intros H; cbn; [by inversion H|destruct (_ =? _); [eauto|]|eauto].
  apply IH. inversion H; [discriminate|done].
Qed.

Lemma arp_dump_Ok h p prefix :
  0 <= p -> caplen (cp h) <= blen (mem h) -> exists s, arp_dump h p prefix = Ok s.
Proof.
  intros Hp Hm. unfold arp_dump, sizeof_ethhdr. flimited. dloads.
  do 2 (match goal with |- context [name_lookup ?t ?v ?d] =>
          destruct (name_lookup_sentinel t v d) as [? ->]; [repeat ((left; reflexivity) || right)|] end;
        cbn [mbind res_bind]; dloads).
  cbn [mbind res_bind]. eauto.
Qed.

Lemma ospf_dump_Ok h p prefix :
  is_bytes (mem h) -> 0 <= p -> caplen (cp h) <= blen (mem h) ->
  (forall type, rd8 (mem h) (p + 1) = Ok type -> type <= 5) -> exists s, ospf_dump h p prefix = Ok s.
Proof.
  intros Hb Hp Hm Hd. unfold ospf_dump, sizeof_tcphdr. flimited. fload.
  destruct (rd8_in (mem h) (p + 1)) as [ty Ety]; [lia|]. rewrite Ety. cbn [mbind res_bind].
  pose proof (rd8_range _ _ _ Hb Ety). ints.
  destruct (ospf_type_name_Ok ty) as [s ->]; [split; [lia|auto]|]. cbn [mbind res_bind]. dloads. eauto.
Qed.

(** The size of the header covers the fields that its flags announce. *)
Lemma gtp_dump_Ok h p prefix size :
  0 <= p -> p + size <= blen (mem h) -> gtp_header_size (mem h) p = Ok size -> exists s, gtp_dump h p prefix = Ok s.
Proof.
  intros Hp Hm Hs. unfold gtp_dump, gtp_message_type_str, gtp_message_type. unfold gtp_header_size in Hs. inv_ok.
  rewrite Hv, Hv0. rewrite !bind_assoc. cbn [mbind res_bind]. destruct v; cbn [mbind res_bind].
  - destruct (Z.testbit v0 2); [discriminate|]. rewrite orb_false_r in Hs.
    assert (size = if Z.testbit v0 1 || Z.testbit v0 0 then 8 + 4 else 8) as -> by congruence. clear Hs.
    destruct (rd8_in (mem h) (p + 1)) as [mt ->]; [case_match; lia|]. cbn [mbind res_bind].
    destruct (Z.testbit v0 1), (Z.testbit v0 0); cbn [orb] in Hm; cbn [mbind res_bind]; dloads; cbn [mbind res_bind]; eauto.
  - injection Hs as <-. destruct (rd8_in (mem h) (p + 1)) as [mt ->]; [case_match; lia|]. cbn [mbind res_bind]. eauto.
  - injection Hs as <-. destruct (rd8_in (mem h) (p + 1)) as [mt ->]; [lia|]. cbn [mbind res_bind]. eauto.
Qed.

(** ** Claims *)

(** How far behind the captured data a dump may read: an IPv6 header is dumped
    in full after its first 20 bytes were found to be captured.  No other protocol
    reads behind the captured data. *)
Definition dump_margin (t : ptype) : Z := match t with PROTOCOL_IPV6 => 20 | _ => 0 end.

(** C38: The dump of every header that the walk of a packet delivers is written,
    without an abort, and reads no byte behind the captured data, IPv6 excepted,
    whose dump reads at most 20 bytes behind it; for all protocols but DNS, and for
    OSPF when its type is in the table. *)
Theorem header_dump_safe (stack : bytes) (h : header_chunk) (t : ptype) (p : Z) (prefix : bytes) :
  caplen (cp h) + dump_margin t <= blen (mem h) -> is_bytes (mem h) -> delivered h t p -> t <> PROTOCOL_DNS ->
  (t = PROTOCOL_OSPF -> forall type, rd8 (mem h) (p + 1) = Ok type -> type <= 5) ->
  exists text, header_dump stack h prefix = Ok text.
Proof.
  intros Hm Hb [Ht Hptr Hin Hk Hcomp] Hdns Hospf. unfold header_dump. rewrite Ht.
  destruct (dump_callback stack t) as [f|] eqn:Hf; [|eauto]. destruct (truncated h); [eauto|].
  specialize (Hcomp eq_refl). rewrite Hptr. unfold ptr_sanity.
  rewrite (proj2 (Z.ltb_ge p 0)), (proj2 (Z.ltb_ge (caplen (cp h)) p)) by lia. cbn [orb mbind res_bind].
  destruct t; try discriminate Hf; injection Hf as <-; try done; cbn in Hcomp; cbn [dump_margin] in Hm;
    try (by eexists).
  - apply arp_dump_Ok; lia.
  - unfold ethernet_dump, h_proto. dloads. eauto.
  - unfold gre_dump. dloads. eauto.
  - destruct Hcomp as (s & Hs & Hle). eapply gtp_dump_Ok; [..|done]; lia.
  - unfold icmp_dump. dloads. eauto.
  - unfold igmp_dump, sizeof_tcphdr. flimited. dloads. eauto.
  - unfold ipv4_dump. dloads. eauto.
  - unfold ipv6_dump. dloads. eauto.
  - unfold mpls_dump. dloads. eauto.
  - apply ospf_dump_Ok; lia || auto.
  - unfold ptpv2_dump, sizeof_ptpv2hdr. flimited. dloads. eauto.
  - unfold pw_dump. dloads. eauto.
  - unfold sctp_dump. flimited. dloads. eauto.
  - unfold tcp_dump, sizeof_tcphdr. flimited. dloads. eauto.
  - unfold udp_dump. dloads. eauto.
  - unfold vlan_dump. dloads. eauto.
Qed.

(** The IPv6 dump does read behind the captured data. *)
Theorem dump_margin_needed (stack prefix : bytes) :
  header_dump stack (ex_margin 19 PROTOCOL_IPV6 (replicate 20 0)) prefix = Fault.
Proof. vm_compute. reflexivity. Qed.

(** An IGMP message has eight bytes: without padding behind it its dump says that
    the capture was limited, whatever was captured. *)
Lemma igmp_dump_short h p prefix : caplen (cp h) = p + 8 -> igmp_dump h p prefix = Ok (limited_line prefix).
Proof.
  intros Hc. unfold igmp_dump, limited_caplen, sizeof_tcphdr.
  rewrite (proj2 (Z.ltb_lt (caplen (cp h)) (p + 20))) by lia. by rewrite orb_true_r.
Qed.

(** A filter can be printed when its two names are terminated, its destination
    can be printed and its expression has not been released. *)
Definition printable (f : filter) : Prop :=
  (exists s, arr_str (mampid f) = Ok s) /\ (exists s, arr_str (iface f) = Ok s) /\
  (exists s, stream_addr_ntoa (dest f) = Ok s) /\ bpf_expr f <> Freed.

Lemma print_if_Ok b verbose t o : (exists s, t = Ok s) -> (exists s, o = Ok s) -> exists s, print_if b verbose t o = Ok s.
Proof. intros [? ->] [? ->]. unfold print_if. repeat case_match; eauto. Qed.

(** A filter whose names are terminated, whose destination can be printed and
    whose expression has not been released is printed in full; the text starts
    with its number. *)
Theorem filter_print_Ok (f : filter) (verbose : bool) : printable f ->
  exists rest, filter_print f verbose = Ok (B "FILTER {" ++ padl 48 2 (fmt_d (filter_id f)) ++ B "}" ++ nl ++ rest).
Proof.
  intros ([s1 E1] & [s2 E2] & [s3 E3] & Hb). unfold filter_print. rewrite E1, E2, E3. cbn [mbind res_bind].
  do 12 (match goal with |- context [print_if ?b ?v ?t ?o] =>
           destruct (print_if_Ok b v t o) as [? ->]; [by eexists..|]; cbn [mbind res_bind] end).
  destruct (bpf_expr f); cbn [mbind res_bind]; done || (eexists; reflexivity).
Qed.

(** ** Witnesses *)
Definition ex_udp_header : header_chunk := ex_header PROTOCOL_UDP [0; 53; 0; 80; 0; 8; 0; 0].
Lemma header_dump_safe_witness : exists text, header_dump [] ex_udp_header (B "UDP ") = Ok text.
Proof.
  apply (header_dump_safe [] ex_udp_header PROTOCOL_UDP 0 (B "UDP ")).
  - vm_compute. discriminate.
  - vm_compute. repeat (constructor; [split; [discriminate|reflexivity]|]). constructor.
  - constructor; [reflexivity|reflexivity|split; vm_compute; discriminate|discriminate|vm_compute; discriminate].
  - discriminate.
  - discriminate.
Defined.

Lemma filter_print_Ok_witness : exists text, filter_print (filter_init <| filter_id := 7 |>) true = Ok text.
Proof.
  destruct (filter_print_Ok (filter_init <| filter_id := 7 |>) true) as [rest ->].
  - split_and!; [eexists; reflexivity..|discriminate].
  - eexists; reflexivity.
Defined.
