(* ===== verification/Tools.v ===== *)
(** * What the tools share (tools/)

    The tools read packets from streams and write capture files.  An input is an
    interface ([Input] with its laws); opened capture files implement it. *)

From S2P Require Import Prelude CLib Picotime Utils Address Packet Filter Stream StreamFile.

(** ** Inputs

    What the program uses of [stream_peek] and [stream_read]: the result code and
    the packet as it lies in the buffer of the stream. *)
Class Input (S : Type) := {
  peek : S -> res (S * (Z * option cap_header));
  next : S -> res (S * (Z * option cap_header));
}.

(** What ends the program early: the exit code. *)
Inductive outcome (A : Type) := Done (a : A) | Exit (code : Z).
Arguments Done {A} a.
Arguments Exit {A} code.

(** ** Opened files as inputs *)
Section Files.
Variable bpf_filter : list bpf_insn -> bytes -> Z -> Z -> Z.
Variable timeout : option timeval.

(** Enough for every byte of the buffer and of the file. *)
Definition input_fuel (sf : stream_file) : nat := S (length (buffer (base sf)) + 2 * length (content (file sf))).

Definition file_input : Input stream_file := {|
  peek sf :=
    '(st, f, _, r) ← stream_peek bpf_filter None (input_fuel sf) (base sf) (file sf) None;
    Ok (sf <| base := st |> <| file := f |>, r);
  next sf :=
    '(st, f, _, r) ← stream_read bpf_filter None (input_fuel sf) (base sf) (file sf) None timeout;
    Ok (sf <| base := st |> <| file := f |>, r);
|}.
End Files.

(** ** Streams are queues of packets

    What the merge needs to know of an input: it supplies a list of packets. *)
Class InputLaws (S : Type) {input : Input S} := {
  supplies : S -> list cap_header -> Prop;
  peek_end : forall s, supplies s [] -> exists s', peek s = Ok (s', (-1, None));
  peek_packet : forall s p ps, supplies s (p :: ps) ->
    exists s' cp, peek s = Ok (s', (0, Some cp)) /\ captured cp = p /\ supplies s' (p :: ps);
  next_packet : forall s p ps, supplies s (p :: ps) ->
    exists s' cp, next s = Ok (s', (0, Some cp)) /\ captured cp = p /\ supplies s' ps;
  next_end : forall s, supplies s [] -> exists s', next s = Ok (s', (-1, None));
  supplies_ok : forall s ps, supplies s ps -> Forall packet_ok ps;
}.

(** Queues themselves are inputs. *)
#[export] Instance queue_input : Input (list cap_header) := {|
  peek q := Ok (q, match q with [] => (-1, None) | p :: _ => (0, Some p) end);
  next q := Ok (match q with [] => (q, (-1, None)) | p :: q => (q, (0, Some p)) end);
|}.

(** ** Packets as they are written *)

(** Writing looks at the captured bytes only. *)
Lemma write_image dst cp : packet_ok (captured cp) ->
  stream_write dst (packet_image cp) (sizeof_cap_header + caplen cp) = stream_copy dst (captured cp).
Proof.
  intros Hp. unfold stream_copy, stream_write, stream_file_write. change (caplen (captured cp)) with (caplen cp).
  destruct (_ =? 0); [done|]. f_equal. destruct (ok_caplen _ Hp) as [Hc Hu]. cbn in Hc, Hu.
  assert (Hh : blen (cap_header_image cp) = 36) by (exact (blen_header _ Hp)).
  assert (Hle : caplen cp <= blen (payload cp)) by (unfold blen in *; rewrite length_take in Hc; lia).
  assert (Hi : forall d, caplen cp <= blen d -> slice (cap_header_image cp ++ d) 0 (sizeof_cap_header + caplen cp) =
    Ok (cap_header_image cp ++ take (Z.to_nat (caplen cp)) d)).
  { intros d Hd. rewrite slice_0_app by (rewrite ?Hh; unfold sizeof_cap_header; ints; lia). rewrite Hh. do 4 f_equal. unfold sizeof_cap_header. lia. }
  change (packet_image (captured cp)) with (cap_header_image cp ++ payload (captured cp)).
  change (packet_image cp) with (cap_header_image cp ++ payload cp).
  rewrite !Hi by (cbn; lia). cbn [payload captured field_set]. by rewrite take_idemp.
Qed.

Lemma captured_id p : packet_ok p -> captured p = p.
Proof. intros Hp. rewrite <- (captured_in_memory p [] Hp) at 2. unfold in_memory. destruct p. cbn. by rewrite app_nil_r. Qed.

(** ** Files *)
Section FileLaws.
Variable bpf_filter : list bpf_insn -> bytes -> Z -> Z -> Z.
Variable timeout : option timeval.

(** An opened file whose remaining packets are [ps], each with some data. *)
Record holds (sf : stream_file) (ps : list cap_header) : Prop := {
  holds_inv : stream_inv (base sf);
  holds_source : source_ok (file sf);
  holds_fits : Forall (fits (buffer_size (base sf))) ps;
  holds_data : Forall (fun p => caplen p <> 0) ps;
  holds_contents : exists tail, stuck (buffer_size (base sf)) tail /\ unread (base sf) ++ remaining (file sf) = contents ps tail;
}.

Lemma input_fuel_enough sf : stream_inv (base sf) ->
  blen (unread (base sf) ++ remaining (file sf)) + blen (remaining (file sf)) < Z.of_nat (input_fuel sf).
Proof.
  intros []. rewrite blen_app. unfold unread, remaining, file_laws, input_fuel, blen. rewrite length_take, !length_drop. lia.
Qed.

#[export, program] Instance file_input_laws : @InputLaws stream_file (file_input bpf_filter timeout) := {
  supplies := holds;
}.
Next Obligation.
  intros sf [Hi Hs _ _ (tail & Ht & E)]. pose proof (input_fuel_enough sf Hi) as Hf.
  destruct (peek_loop_nil bpf_filter (input_fuel sf) (base sf) (file sf) tail Hi Hs Ht E) as (st' & f' & H).
  { rewrite blen_app in Hf. pose proof (blen_nonneg (unread (base sf))). pose proof (blen_nonneg (remaining (file sf))). lia. }
  cbn [peek next file_input stream_peek stream_read]. rewrite H. cbn [mbind res_bind]. eauto.
Qed.
Next Obligation.
  intros sf p ps [Hi Hs Hfit Hd (tail & Ht & E)]. pose proof (input_fuel_enough sf Hi) as Hf.
  destruct (peek_loop_spec bpf_filter (input_fuel sf) (base sf) (file sf) p ps tail Hi Hs Hfit Ht E) as (st' & f' & rest & H & Hi' & Hs' & Hsz & E').
  { by apply Forall_inv in Hd. }
  { rewrite blen_app in Hf. pose proof (blen_nonneg (unread (base sf))). pose proof (blen_nonneg (remaining (file sf))). lia. }
  cbn [peek next file_input stream_peek stream_read]. rewrite H. cbn [mbind res_bind]. eexists _, _. split; [reflexivity|]. split.
  - apply captured_in_memory. by apply Forall_inv in Hfit as [? _].
  - constructor; cbn; rewrite ?Hsz; try done. by exists tail.
Qed.
Next Obligation.
  intros sf p ps [Hi Hs Hfit Hd (tail & Ht & E)]. pose proof (input_fuel_enough sf Hi) as Hf.
  destruct (read_loop_spec bpf_filter (input_fuel sf) (base sf) (file sf) None (p :: ps) tail timeout None (Some (p, ps)) Hi Hs Hfit Ht E)
    as (st' & f' & Hi' & Hs' & Hsz & rest & H & E'); [by constructor|by rewrite <- E|].
  cbn [peek next file_input stream_peek stream_read]. rewrite H. cbn [mbind res_bind]. eexists _, _. split; [reflexivity|]. split.
  - apply captured_in_memory. by apply Forall_inv in Hfit as [? _].
  - apply Forall_cons_1 in Hfit as [_ Hfit], Hd as [_ Hd]. constructor; cbn; rewrite ?Hsz; try done. by exists tail.
Qed.
Next Obligation.
  intros sf [Hi Hs _ _ (tail & Ht & E)]. pose proof (input_fuel_enough sf Hi) as Hf.
  destruct (read_loop_spec bpf_filter (input_fuel sf) (base sf) (file sf) None [] tail timeout None None Hi Hs ltac:(constructor) Ht E)
    as (st' & f' & _ & _ & _ & H); [constructor|by rewrite <- E|].
  cbn [peek next file_input stream_peek stream_read]. rewrite H. cbn [mbind res_bind]. eauto.
Qed.
Next Obligation. intros sf ps [_ _ Hfit _ _]. eapply Forall_impl; [|exact Hfit]. by intros p [? _]. Qed.
End FileLaws.

(** ** Counting

    [stream_get_stat(st)->read]: the packets that were read. *)
Class Counted (S : Type) := read_count : S -> Z.
Class CountedLaws (S : Type) {input : Input S} {laws : InputLaws S} {count : Counted S} :=
  count_next : forall s p ps s' cp, supplies s (p :: ps) -> next s = Ok (s', (0, Some cp)) -> read_count s' = u64 (read_count s + 1).

#[export] Instance file_count : Counted stream_file := fun sf => stat_read (stat (base sf)).
Lemma file_counted bpf_filter timeout : @CountedLaws stream_file (file_input bpf_filter timeout) (file_input_laws bpf_filter timeout) file_count.
Proof.
  intros sf p ps s' cp _ H. cbn [next file_input stream_read] in H.
  destruct (read_loop _ _ _ _ _ _) as [[[[st f] f'] [ret c]]| | |] eqn:E; try discriminate. cbn [mbind res_bind] in H.
  injection H as <- -> ->. apply read_loop_stat in E as [_ E]. by apply E.
Qed.

(** ** Outputs *)
Section Outputs.
Variable fopen : bytes -> FILE + Z.
Variable bpf_filter : list bpf_insn -> bytes -> Z -> Z -> Z.

(** The file [f] reads back as the comment and the packets. *)
Definition reads_back (f : FILE) (c : bytes) (ps : list cap_header) : Prop :=
  forall size fuel n, 36 <= size < 2147483648 -> Forall (fits size) ps ->
    2 * blen (contents ps []) < Z.of_nat fuel -> (length ps < n)%nat ->
    exists sf, stream_file_open fopen (Some (rewind f)) None size = Ok (Some sf, 0) /\ comment (base sf) = Some c /\
      drain bpf_filter n fuel (base sf) (file sf) = Ok (ps, -1).

Lemma reads_back_intro f c ps : blen c < 65536 -> at_end f ->
  content f = file_header_image (new_header (B "CONV") c) ++ c ++ contents ps [] -> reads_back f c ps.
Proof.
  intros Hc [He _] Hcont size fuel n Hs Hfit Hf Hn.
  destruct (reopen_ok fopen bpf_filter (B "CONV") c ps size fuel n f) as (sf & H1 & H2 & _ & H3); try done. by exists sf.
Qed.
End Outputs.

(** ** Decisions of filters *)

(** Filters have a state: the decisions on packets, in their order. *)
Inductive decided (bpf_filter : list bpf_insn -> bytes -> Z -> Z -> Z) : filter -> list cap_header -> list bool -> Prop :=
  | decided_nil f : decided bpf_filter f [] []
  | decided_cons f p ps f' b bs : decides bpf_filter (Some f) p (Some f') b -> decided bpf_filter f' ps bs ->
      decided bpf_filter f (p :: ps) (b :: bs).

(** The packets on one side of the decision. *)
Definition chosen (b : bool) (pbs : list (cap_header * bool)) : list cap_header :=
  omap (fun '(p, x) => if Bool.eqb x b then Some p else None) pbs.

Lemma in_memory_captured cp p : captured cp = p -> exists rest, cp = in_memory p rest.
Proof.
  intros <-. exists (drop (Z.to_nat (caplen cp)) (payload cp)). unfold in_memory, captured. destruct cp. cbn. by rewrite take_drop.
Qed.

Lemma chosen_cons b y l : chosen b (y :: l) = chosen b [y] ++ chosen b l.
Proof. destruct y as [p x]. cbn. by destruct (Bool.eqb x b). Qed.

(** The next packet a filter accepts, and the decisions behind it. *)
Lemma decided_selects bpf_filter f ps bs : decided bpf_filter f ps bs ->
  (exists f', selects bpf_filter (Some f) ps (Some f') None /\ chosen true (zip ps bs) = []) \/
  (exists f' p rest bs', selects bpf_filter (Some f) ps (Some f') (Some (p, rest)) /\ decided bpf_filter f' rest bs' /\
     chosen true (zip ps bs) = p :: chosen true (zip rest bs') /\ exists skipped, ps = skipped ++ p :: rest).
Proof.
  induction 1 as [f|f p ps f' b bs Hd Hds IH].
  - left. exists f. split; [constructor|done].
  - destruct b.
    + right. exists f', p, ps, bs. split_and!; [by constructor|done|done|by exists []].
    + destruct IH as [(f2 & Hs & Hn)|(f2 & q & rest & bs' & Hs & Hd' & Hc & [sk ->])].
      * left. exists f2. split; [by eapply selects_skip|done].
      * right. exists f2, q, rest, bs'. split_and!; [by eapply selects_skip|done|done|by exists (p :: sk)].
Qed.

(** ** Reading more memory

    A computation that succeeds on some bytes succeeds with the same result when
    more bytes follow: what is behind a captured packet does not matter then. *)
Definition extends {A} (x y : res A) : Prop := forall a, x = Ok a -> y = Ok a.

Lemma extends_refl {A} (x : res A) : extends x x.
Proof. by intros a. Qed.
Lemma extends_bind {A B} (x y : res A) (f g : A -> res B) :
  extends x y -> (forall a, extends (f a) (g a)) -> extends (x ≫= f) (y ≫= g).
Proof. intros H Hf b (a & Ha & Hb)%bind_Ok_inv. rewrite (H a Ha). by apply Hf. Qed.
Lemma extends_rd8 m r o : extends (rd8 m o) (rd8 (m ++ r) o).
Proof. intros a H. rewrite rd8_app_l; [done|]. apply rd8_inv in H. lia. Qed.
Lemma extends_be16 m r o : extends (be16 m o) (be16 (m ++ r) o).
Proof. intros a H. unfold be16. rewrite rd16_app_l; [done|]. apply be16_inv in H. lia. Qed.
Lemma extends_be32 m r o : extends (be32 m o) (be32 (m ++ r) o).
Proof.
  intros a H. unfold be32. rewrite rd32_app_l; [done|]. apply bind_Ok_inv in H as (v & H%rd32_inv & _). lia.
Qed.
Create HintDb extends discriminated.
#[export] Hint Resolve extends_refl extends_rd8 extends_be16 extends_be32 : extends.
Ltac extend_step :=
  match goal with
  | |- extends (_ ≫= _) (_ ≫= _) => apply extends_bind; [|intros]
  | |- extends _ _ => solve [auto with extends]
  | |- extends (if _ then _ else _) _ => case_match
  | |- extends (match _ with _ => _ end) _ => case_match
  end.

Lemma extends_ipv4_retry fuel fuel' m r cur proto : (fuel <= fuel')%nat ->
  extends (ipv4_retry fuel m cur proto) (ipv4_retry fuel' (m ++ r) cur proto).
Proof.
  revert fuel' cur proto. induction fuel as [|fuel IH]; intros fuel' cur proto Hf; [done|].
  destruct fuel' as [|fuel']; [lia|]. cbn. repeat extend_step. apply IH. lia.
Qed.
Lemma extends_find_ipv4 m r : extends (find_ipv4_header m 0) (find_ipv4_header (m ++ r) 0).
Proof.
  unfold find_ipv4_header, find_ipv4_header_int, h_proto, ip_hl. repeat extend_step.
  apply extends_ipv4_retry. rewrite length_app. lia.
Qed.
Lemma extends_find_udp m r ip : extends (find_udp_header m 0 0 ip true) (find_udp_header (m ++ r) 0 0 ip true).
Proof.
  unfold find_udp_header, find_tp_header, find_ipproto_header, ip_p, ip_hl, h_proto. repeat extend_step.
Qed.
#[export] Hint Resolve extends_find_ipv4 extends_find_udp : extends.
