(* ===== verification/Capmerge.v ===== *)
(** * capmerge (tools/capmerge.c): merging capture files

    The program merges capture files by time; with [--sort] it merges into memory
    and then sorts what it has written.  The merge is proved against an interface
    of inputs ([Input] with its laws), which opened capture files implement. *)

From Stdlib Require Import Sorting.Sorted Sorting.Permutation.
From S2P Require Import Prelude CLib Picotime Utils Address Packet Filter Stream StreamFile Tools.

(** ** Merging *)

(** [timepico cur = {-1, -1}] *)
Definition latest : timepico := {| tv_sec := 4294967295; tv_psec := 18446744073709551615 |}.

(** [st[i] = st[streams-1]; streams--] *)
Definition remove_stream {T : Type} (st : list T) (i : nat) : list T :=
  let streams := length st in
  take (streams - 1) (match st !! (streams - 1)%nat with Some l => <[i := l]> st | None => st end).

Section Merge.
Context {S : Type} {input : Input S}.

(** One look at every stream, from stream [i] on.  A stream that has ended is
    closed and replaced by the last one, which is not looked at any more in this
    round.  [n] bounds the number of streams. *)
Fixpoint peek_round (n : nat) (st : list S) (i : nat) (pkt : list (option cap_header))
    : res (list S * list (option cap_header)) :=
  match n with
  | O => Ok (st, pkt)
  | Datatypes.S n =>
      match st !! i with
      | None => Ok (st, pkt)
      | Some s =>
          '(s, (ret, cp)) ← peek s;
          let st := <[i := s]> st in
          if ret =? 0 then peek_round n st (Datatypes.S i) (pkt ++ [cp])
          else if ret =? EAGAIN then peek_round n st (Datatypes.S i) (pkt ++ [None])
          else peek_round n (remove_stream st i) (Datatypes.S i) (pkt ++ [None])
      end
  end.

(** The stream with the first of the packets, from stream [i] on. *)
Fixpoint find_oldest (streams : nat) (pkt : list (option cap_header)) (i : nat) (oldest : option nat) (cur : timepico)
    : option nat :=
  match streams with
  | O => oldest
  | Datatypes.S streams =>
      match pkt !! i with
      | Some (Some cp) =>
          if timecmp (ts cp) cur <? 0 then find_oldest streams pkt (Datatypes.S i) (Some i) (ts cp)
          else find_oldest streams pkt (Datatypes.S i) oldest cur
      | _ => find_oldest streams pkt (Datatypes.S i) oldest cur
      end
  end.

(** The packet is cut where its captured length exceeds its length.  It lies in
    front of the read position of its stream, where nothing is read any more. *)
Definition clip (cp : cap_header) : cap_header := cp <| caplen := Z.min (caplen cp) (len cp) |>.

(** The loop over all packets: the output and the number of packets. *)
Fixpoint merge_loop (fuel : nat) (st : list S) (dst : stream_file) (packets : Z) : res (outcome (stream_file * Z)) :=
  match fuel with
  | O => OutOfFuel
  | Datatypes.S fuel =>
      if decide (length st = O) then Ok (Done (dst, packets))
      else
        '(st, pkt) ← peek_round (length st) st 0 [];
        match find_oldest (length st) pkt 0 None latest with
        | None => merge_loop fuel st dst packets
        | Some oldest =>
            match st !! oldest with
            | None => Fault
            | Some s =>
                '(s, (_, cp)) ← next s;
                match cp : option cap_header with
                | None => Fault
                | Some cp =>
                    let cp := clip cp in
                    '(dst, ret) ← stream_write dst (packet_image cp) (sizeof_cap_header + caplen cp);
                    if negb (ret =? 0) then Ok (Exit 1)
                    else merge_loop fuel (<[oldest := s]> st) dst (u64 (packets + 1))
                end
            end
        end
  end.
End Merge.

(** ** Sorting

    The packets lie one behind the other in [m]; the length of one that has been
    written is set to zero. *)

(** The first packet that has not been written. *)
Fixpoint sort_begin (fuel : nat) (m : bytes) (begin fin : Z) : res Z :=
  match fuel with
  | O => OutOfFuel
  | S fuel =>
      l ← rd32 m (begin + 28);
      if 0 <? l then Ok begin
      else
        c ← rd32 m (begin + 32);
        let begin := begin + (c + sizeof_cap_header) in
        if begin <? fin then sort_begin fuel m begin fin else Ok begin
  end.

(** The packet with the smallest time. *)
Fixpoint find_smallest (fuel : nat) (m : bytes) (ptr fin : Z) (pkt : option Z) (cur : timepico) : res (option Z) :=
  match fuel with
  | O => OutOfFuel
  | S fuel =>
      if ptr <? fin then
        cp ← cap_at m ptr;
        let next := ptr + (caplen cp + sizeof_cap_header) in
        if (0 <? len cp) && (0 <? timecmp cur (ts cp)) then find_smallest fuel m next fin (Some ptr) (ts cp)
        else find_smallest fuel m next fin pkt cur
      else Ok pkt
  end.

(** Packets are copied until none is left; the result of the copy is not looked at. *)
Fixpoint sort_loop (fuel : nat) (m : bytes) (begin fin : Z) (dst : stream_file) (written : Z) : res (stream_file * Z) :=
  match fuel with
  | O => OutOfFuel
  | S fuel =>
      begin ← sort_begin (S (length m)) m begin fin;
      pkt ← find_smallest (S (length m)) m begin fin None latest;
      match (pkt : option Z) with
      | None => Ok (dst, written)
      | Some pkt =>
          cp ← cap_at m pkt;
          '(dst, _) ← stream_copy dst cp;
          m ← wr m (pkt + 28) (le32 0);
          sort_loop fuel m begin fin dst (u64 (written + 1))
      end
  end.

(** The memory of the stream that was merged into holds one more byte, zero. *)
Definition sort_merged (sorted : FILE) (dst : stream_file) : res (stream_file * Z) :=
  let m := content sorted ++ [0] in
  header_offset ← rd16 m 12;
  comment_size ← rd16 m 14;
  sort_loop (S (length m)) m (header_offset + comment_size) (blen (content sorted)) dst 0.

(** ** The program, after its options

    [output] is the name of the output; [inputs] are the opened files. *)
Section Main.
Context {S : Type} {input : Input S}.
Variable fopen : bytes -> FILE + Z.

Definition capmerge (fuel : nat) (sort : bool) (output comment_ : bytes) (inputs : list S) : res (outcome stream_file) :=
  '(dst, ret) ← (if sort then stream_file_create fopen (Some {| content := []; pos := 0; ferror := None |}) None (B "CONV") (Some comment_) 0
                 else stream_file_create fopen None (Some output) (B "CONV") (Some comment_) 0);
  match dst : option stream_file with
  | None => Ok (Exit 1)
  | Some dst =>
      if negb (ret =? 0) then Ok (Exit 1)
      else
        r ← merge_loop fuel inputs dst 0;
        match r with
        | Exit code => Ok (Exit code)
        | Done (merged, _) =>
            if negb sort then Ok (Done merged)
            else
              '(dst, ret) ← stream_file_create fopen None (Some output) (B "CONV") (Some comment_) 0;
              match dst : option stream_file with
              | None => Ok (Exit 1)
              | Some dst =>
                  if negb (ret =? 0) then Ok (Exit 1)
                  else '(dst, _) ← sort_merged (file merged) dst; Ok (Done dst)
              end
        end
  end.
End Main.

(** A packet in the output: cut to its length. *)
Definition cut (p : cap_header) : cap_header := captured (clip p).
Lemma cut_ok p : packet_ok p -> packet_ok (cut p).
Proof.
  intros [H1 H2 H3 H4 H5 [H6 H7]]. constructor; try done. cbn. assert (0 <= Z.min (caplen p) (len p)) by (ints; lia).
  split; [|ints; lia]. rewrite blen_take; lia.
Qed.
Lemma cut_captured cp : packet_ok (captured cp) -> captured (clip cp) = cut (captured cp).
Proof.
  intros Hp. destruct (ok_caplen _ Hp) as [_ Hu]. pose proof (ok_len _ Hp) as Hl. cbn in Hu, Hl.
  unfold cut, captured, clip. destruct cp as [n mp t l c d]. cbn in *. f_equal. rewrite take_take. f_equal. ints. lia.
Qed.
Lemma write_clip dst cp : packet_ok (captured cp) ->
  stream_write dst (packet_image (clip cp)) (sizeof_cap_header + caplen (clip cp)) = stream_copy dst (cut (captured cp)).
Proof. intros Hp. rewrite <- cut_captured by done. apply write_image. rewrite cut_captured by done. by apply cut_ok. Qed.
(** What is removed does not matter. *)
Lemma remove_insert {T} (l : list T) i x : remove_stream (<[i := x]> l) i = remove_stream l i.
Proof.
  unfold remove_stream. rewrite length_insert. destruct (decide (i = length l - 1)%nat) as [->|Hi].
  - destruct (decide (length l = O)) as [E|E]; [by apply nil_length_inv in E as ->|].
    destruct (lookup_lt_is_Some_2 l (length l - 1)) as [z Ez]; [lia|].
    rewrite list_lookup_insert_eq, Ez by lia. rewrite !take_insert_ge by lia. done.
  - rewrite list_lookup_insert_ne by done. destruct (l !! _) eqn:E; [by rewrite list_insert_insert_eq|].
    apply lookup_ge_None_1 in E. destruct l; [done|cbn in *; lia].
Qed.

Section Refine.
Context {S : Type} {input : Input S} {laws : InputLaws S}.

Lemma Forall2_remove (st : list S) (qs : list (list cap_header)) i :
  Forall2 supplies st qs -> Forall2 supplies (remove_stream st i) (remove_stream qs i).
Proof.
  intros H. unfold remove_stream. rewrite (Forall2_length H). apply Forall2_take.
  destruct (st !! (length qs - 1)%nat) as [l|] eqn:El.
  - destruct (Forall2_lookup_l _ _ _ _ _ H El) as (q & -> & Hq). by apply Forall2_insert.
  - rewrite (lookup_ge_None_2 qs); [done|]. apply lookup_ge_None_1 in El. pose proof (Forall2_length H). lia.
Qed.

(** The packets that were seen, without what follows them in memory. *)
Definition seen (a b : option cap_header) : Prop := fmap captured a = b.

Lemma peek_round_refines n st qs i pkt pkt' :
  Forall2 supplies st qs -> Forall2 seen pkt pkt' ->
  exists st' qs' r r', peek_round n st i pkt = Ok (st', r) /\ peek_round n qs i pkt' = Ok (qs', r') /\
    Forall2 supplies st' qs' /\ Forall2 seen r r'.
Proof.
  revert st qs i pkt pkt'. induction n as [|n IH]; intros st qs i pkt pkt' H Hp; cbn [peek_round]; [eauto 10|].
  destruct (st !! i) as [s|] eqn:Es.
  2: { rewrite (lookup_ge_None_2 qs); [eauto 10|]. apply lookup_ge_None_1 in Es. pose proof (Forall2_length H). lia. }
  destruct (Forall2_lookup_l _ _ _ _ _ H Es) as (q & Eq & Hs). rewrite Eq. destruct q as [|p q].
  - destruct (peek_end s Hs) as [s' ->]. cbn [peek queue_input mbind res_bind Z.eqb]. 
    rewrite !remove_insert. apply IH; [by apply Forall2_remove|]. apply Forall2_app; [done|by repeat constructor].
  - destruct (peek_packet s p q Hs) as (s' & cp & -> & Hc & Hs'). cbn [peek queue_input mbind res_bind Z.eqb].
    apply IH; [by apply Forall2_insert|]. apply Forall2_app; [done|]. repeat constructor. cbn. by rewrite <- Hc.
Qed.

Lemma find_oldest_refines n pkt pkt' i oldest cur :
  Forall2 seen pkt pkt' -> find_oldest n pkt i oldest cur = find_oldest n pkt' i oldest cur.
Proof.
  intros H. revert i oldest cur. induction n as [|n IH]; intros i oldest cur; [done|]. cbn [find_oldest].
  destruct (pkt !! i) as [a|] eqn:Ea.
  - destruct (Forall2_lookup_l _ _ _ _ _ H Ea) as (b & -> & <-). destruct a as [cp|]; [|apply IH]. cbn.
    by destruct (timecmp (ts cp) cur <? 0).
  - rewrite (lookup_ge_None_2 pkt'); [apply IH|]. apply lookup_ge_None_1 in Ea. pose proof (Forall2_length H). lia.
Qed.

(** The merge of the inputs is the merge of the queues that they supply. *)
Lemma merge_loop_refines fuel st qs dst packets :
  Forall2 supplies st qs -> merge_loop fuel st dst packets = merge_loop fuel qs dst packets.
Proof.
  revert st qs dst packets. induction fuel as [|fuel IH]; intros st qs dst packets H; [done|]. cbn [merge_loop].
  rewrite (Forall2_length H). destruct (decide (length qs = O)); [done|].
  destruct (peek_round_refines (length qs) st qs 0 [] []) as (st' & qs' & r & r' & -> & -> & H' & Hr); [done|constructor|].
  cbn [mbind res_bind]. rewrite (Forall2_length H'), (find_oldest_refines _ r r') by done.
  destruct (find_oldest _ r' _ _ _) as [o|]; [|by apply IH]. destruct (st' !! o) as [s|] eqn:Es.
  2: { rewrite (lookup_ge_None_2 qs'); [done|]. apply lookup_ge_None_1 in Es. pose proof (Forall2_length H'). lia. }
  destruct (Forall2_lookup_l _ _ _ _ _ H' Es) as (q & -> & Hs). destruct q as [|p q].
  - destruct (next_end s Hs) as [s' ->]. done.
  - destruct (next_packet s p q Hs) as (s' & cp & -> & Hc & Hs'). cbn [next queue_input mbind res_bind].
    pose proof (supplies_ok _ _ Hs) as Hok. apply Forall_inv in Hok. rewrite <- Hc in Hok. rewrite (write_clip dst cp Hok), Hc, write_clip by (by rewrite Hc in Hok; rewrite captured_id).
    rewrite captured_id by (by rewrite Hc in Hok).
    destruct (stream_copy dst _) as [[dst' ret]| | |]; try done. cbn [mbind res_bind].
    destruct (negb _); [done|]. by apply IH, Forall2_insert.
Qed.
End Refine.

(** ** Order of time *)
Definition time_le (a b : timepico) : Prop := timecmp a b <= 0.

Lemma timecmp_lt a b : timecmp a b < 0 <->
  tv_sec a < tv_sec b \/ tv_sec a = tv_sec b /\ tv_psec a < tv_psec b.
Proof. unfold timecmp. repeat (case_match; try lia). all: rewrite ?Z.ltb_lt, ?Z.ltb_ge in *; lia. Qed.
Lemma timecmp_le a b : time_le a b <-> ~ (timecmp b a < 0).
Proof. rewrite timecmp_lt. unfold time_le, timecmp. repeat case_match; rewrite ?Z.ltb_lt, ?Z.ltb_ge in *; lia. Qed.
Lemma timecmp_gt a b : 0 < timecmp a b <-> timecmp b a < 0.
Proof. rewrite timecmp_lt. unfold timecmp. repeat case_match; rewrite ?Z.ltb_lt, ?Z.ltb_ge in *; lia. Qed.

#[export] Instance time_le_preorder : PreOrder time_le.
Proof.
  split.
  - intros a. rewrite timecmp_le, timecmp_lt. lia.
  - intros a b c. rewrite !timecmp_le, !timecmp_lt. lia.
Qed.
Lemma time_lt_le a b : timecmp a b < 0 -> time_le a b.
Proof. unfold time_le. lia. Qed.
Lemma time_lt_trans a b c : timecmp a b < 0 -> time_le b c -> timecmp a c < 0.
Proof. rewrite timecmp_le, !timecmp_lt. lia. Qed.
Lemma time_le_lt_trans a b c : time_le a b -> timecmp b c < 0 -> timecmp a c < 0.
Proof. rewrite timecmp_le, !timecmp_lt. lia. Qed.

(** Packets in the order of their times. *)
Definition by_time (a b : cap_header) : Prop := time_le (ts a) (ts b).
Definition in_order (ps : list cap_header) : Prop := StronglySorted by_time ps.

(** ** Interleavings

    [interleave qs out]: [out] takes the elements of the queues one by one from
    their fronts, until all are empty. *)
Inductive interleave {A : Type} : list (list A) -> list A -> Prop :=
  | interleave_nil qs : Forall (eq []) qs -> interleave qs []
  | interleave_cons qs x q rest out : qs ≡ₚ (x :: q) :: rest -> interleave (q :: rest) out -> interleave qs (x :: out).

Lemma interleave_perm {A} (qs qs' : list (list A)) out : qs ≡ₚ qs' -> interleave qs out -> interleave qs' out.
Proof.
  intros Hp H. destruct H as [qs H|qs x q rest out Hq H].
  - constructor. by rewrite <- Hp.
  - apply (interleave_cons _ x q rest); [by rewrite <- Hp|done].
Qed.
Lemma interleave_empty {A} (qs : list (list A)) out : interleave qs out -> interleave ([] :: qs) out.
Proof.
  induction 1 as [qs H|qs x q rest out Hq H IH]; [constructor; by constructor|].
  apply (interleave_cons _ x q ([] :: rest)); [rewrite Hq; apply Permutation_swap|].
  eapply interleave_perm; [apply Permutation_swap|done].
Qed.
Lemma interleave_empties {A} k (qs : list (list A)) out : interleave qs out -> interleave (qs ++ replicate k []) out.
Proof.
  intros H. induction k as [|k IH]; cbn; [by rewrite app_nil_r|].
  eapply interleave_perm; [|apply interleave_empty, IH]. by rewrite Permutation_middle.
Qed.
Lemma concat_perm {A} (a b : list (list A)) : a ≡ₚ b -> concat a ≡ₚ concat b.
Proof. intros H. induction H; cbn; [done|by f_equiv|rewrite !(assoc_L (++)); f_equiv; apply Permutation_app_comm|by etrans]. Qed.
Lemma interleave_elements {A} (qs : list (list A)) out : interleave qs out -> out ≡ₚ concat qs.
Proof.
  induction 1 as [qs H|qs x q rest out Hq H IH].
  - induction H as [|q qs <- _ IH]; [done|]. done.
  - rewrite (concat_perm _ _ Hq). cbn. by rewrite IH.
Qed.
Lemma interleave_length {A} (qs : list (list A)) out : interleave qs out -> length out = length (concat qs).
Proof. intros H. by rewrite (interleave_elements qs out H). Qed.

(** A front of the queues is taken. *)
Lemma lookup_perm {A} (l : list A) i x y : l !! i = Some x -> exists rest, l ≡ₚ x :: rest /\ <[i := y]> l ≡ₚ y :: rest.
Proof.
  intros H. exists (take i l ++ drop (S i) l). split.
  - rewrite <- (take_drop_middle l i x H) at 1. by rewrite Permutation_middle.
  - rewrite insert_take_drop by (by eapply lookup_lt_Some). by rewrite Permutation_middle.
Qed.
Lemma remove_perm {A} (l : list A) i x : l !! i = Some x -> l ≡ₚ x :: remove_stream l i.
Proof.
  intros H. pose proof (lookup_lt_Some _ _ _ H) as Hi. unfold remove_stream.
  destruct (lookup_lt_is_Some_2 l (length l - 1)) as [z Ez]; [lia|]. rewrite Ez.
  destruct l as [|w l' _] using rev_ind; [done|].
  rewrite length_app in *. cbn in *. replace (length l' + 1 - 1)%nat with (length l') in * by lia.
  rewrite lookup_app_r, Nat.sub_diag in Ez by done. injection Ez as <-.
  destruct (decide (i = length l')) as [->|Hne].
  - rewrite lookup_app_r, Nat.sub_diag in H by done. injection H as <-.
    rewrite insert_app_r_alt, Nat.sub_diag by done. rewrite take_app_length. by rewrite Permutation_app_comm.
  - rewrite insert_app_l by lia. rewrite lookup_app_l in H by lia.
    rewrite (take_app_length' (<[i := w]> l')) by (by rewrite length_insert).
    destruct (lookup_perm l' i x w H) as (rest & H1 & H2). rewrite H2, Permutation_app_comm, H1. cbn. apply Permutation_swap.
Qed.
Lemma length_remove {A} (l : list A) i : length (remove_stream l i) = (length l - 1)%nat.
Proof. unfold remove_stream. destruct (l !! _); rewrite length_take, ?length_insert; lia. Qed.
Lemma remove_lookup {A} (l : list A) i j : (j < i)%nat -> (j < length l - 1)%nat -> remove_stream l i !! j = l !! j.
Proof.
  intros H1 H2. unfold remove_stream. rewrite lookup_take_lt by done. case_match; [|done]. by rewrite list_lookup_insert_ne by lia.
Qed.

(** ** The merge of queues *)

(** The packets of a round are the fronts of their queues. *)
Definition fronts (qs : list (list cap_header)) (pkt : list (option cap_header)) : Prop :=
  forall j p, (j < length qs)%nat -> pkt !! j = Some (Some p) -> exists q, qs !! j = Some (p :: q).

(** A round removes empty queues; where it removes none it sees a packet of every
    queue. *)
Lemma queue_round n qs i pkt :
  length pkt = i -> (length qs <= i + n)%nat -> (forall j, (j < i)%nat -> is_Some (pkt !! j ≫= id)) -> fronts qs pkt ->
  exists qs' pkt' k, peek_round n qs i pkt = Ok (qs', pkt') /\ qs ≡ₚ qs' ++ replicate k [] /\
    length qs = (length qs' + k)%nat /\ fronts qs' pkt' /\
    (k = O -> forall j, (j < length qs')%nat -> is_Some (pkt' !! j ≫= id)).
Proof.
  intros Hl Hn Hsome Hf.
  assert (G : forall n qs i pkt all, length pkt = i -> (length qs <= i + n)%nat ->
    (all = true -> forall j, (j < i)%nat -> is_Some (pkt !! j ≫= id)) -> fronts qs pkt ->
    exists qs' pkt' k, peek_round n qs i pkt = Ok (qs', pkt') /\ qs ≡ₚ qs' ++ replicate k [] /\
    length qs = (length qs' + k)%nat /\ fronts qs' pkt' /\
    (all = true -> k = O -> forall j, (j < length qs')%nat -> is_Some (pkt' !! j ≫= id))).
  { clear. induction n as [|n IH]; intros qs i pkt all Hl Hn Hsome Hf; cbn [peek_round].
    { exists qs, pkt, O. rewrite app_nil_r. split_and!; try done; try lia. intros Ha _ j Hj. apply Hsome; [done|lia]. }
    destruct (qs !! i) as [q|] eqn:Eq.
    2: { apply lookup_ge_None_1 in Eq. exists qs, pkt, O. rewrite app_nil_r. split_and!; try done; try lia.
         intros Ha _ j Hj. apply Hsome; [done|lia]. }
    pose proof (lookup_lt_Some _ _ _ Eq) as Hi. cbn [peek queue_input mbind res_bind]. rewrite list_insert_id by done.
    destruct q as [|p q]; cbn [Z.eqb].
    - destruct (IH (remove_stream qs i) (S i) (pkt ++ [None]) false) as (qs' & pkt' & k & -> & Hp & Hlen & Hf' & _).
      + rewrite length_app. cbn. lia.
      + rewrite length_remove. lia.
      + done.
      + intros j p Hj Hpk. rewrite length_remove in Hj. destruct (decide (j < i)%nat).
        * rewrite lookup_app_l in Hpk by lia. rewrite remove_lookup by lia. apply (Hf j p); [lia|done].
        * rewrite lookup_app_r in Hpk by lia. destruct (j - length pkt)%nat as [|]; discriminate.
      + exists qs', pkt', (S k). split_and!; try done.
        * rewrite (remove_perm qs i [] Eq), Hp. cbn. by rewrite Permutation_middle.
        * rewrite length_remove in Hlen. lia.
    - destruct (IH qs (S i) (pkt ++ [Some p]) all) as (qs' & pkt' & k & -> & Hp & Hlen & Hf' & Hk).
      + rewrite length_app. cbn. lia.
      + lia.
      + intros Ha j Hj. destruct (decide (j < i)%nat); [rewrite lookup_app_l by lia; by apply Hsome|].
        rewrite lookup_app_r by lia. replace (j - length pkt)%nat with O by lia. by eexists.
      + intros j p' Hj Hpk. destruct (decide (j < i)%nat).
        * rewrite lookup_app_l in Hpk by lia. by apply (Hf j p').
        * rewrite lookup_app_r in Hpk by lia. destruct (j - length pkt)%nat eqn:Ej; [|discriminate]. injection Hpk as <-.
          exists q. rewrite <- Eq. f_equal. lia.
      + by exists qs', pkt', k. }
  destruct (G n qs i pkt true) as (qs' & pkt' & k & H1 & H2 & H3 & H4 & H5); try done. exists qs', pkt', k. by auto 10.
Qed.

(** The stream that is chosen has the first of the packets. *)
Lemma find_oldest_spec n pkt i oldest cur :
  match find_oldest n pkt i oldest cur with
  | None => oldest = None /\ forall j p, (i <= j < i + n)%nat -> pkt !! j = Some (Some p) -> time_le cur (ts p)
  | Some o => (oldest = Some o /\ forall j p, (i <= j < i + n)%nat -> pkt !! j = Some (Some p) -> time_le cur (ts p)) \/
      exists p, (i <= o < i + n)%nat /\ pkt !! o = Some (Some p) /\ timecmp (ts p) cur < 0 /\
        forall j p', (i <= j < i + n)%nat -> pkt !! j = Some (Some p') -> time_le (ts p) (ts p')
  end.
Proof.
  revert i oldest cur. induction n as [|n IH]; intros i oldest cur; cbn [find_oldest].
  { destruct oldest; [left|]; (split; [done|intros; lia]). }
  assert (Hskip : forall oldest cur, (forall p, pkt !! i = Some (Some p) -> time_le cur (ts p)) ->
    match find_oldest n pkt (S i) oldest cur with
    | None => oldest = None /\ forall j p, (i <= j < i + S n)%nat -> pkt !! j = Some (Some p) -> time_le cur (ts p)
    | Some o => (oldest = Some o /\ forall j p, (i <= j < i + S n)%nat -> pkt !! j = Some (Some p) -> time_le cur (ts p)) \/
        exists p, (i <= o < i + S n)%nat /\ pkt !! o = Some (Some p) /\ timecmp (ts p) cur < 0 /\
          forall j p', (i <= j < i + S n)%nat -> pkt !! j = Some (Some p') -> time_le (ts p) (ts p')
    end).
  { intros old c Hi. specialize (IH (S i) old c).
    assert (Hext : forall c', time_le c' c ->
      (forall j p, (S i <= j < S i + n)%nat -> pkt !! j = Some (Some p) -> time_le c' (ts p)) ->
      forall j p, (i <= j < i + S n)%nat -> pkt !! j = Some (Some p) -> time_le c' (ts p)).
    { intros c' Hc H j p Hj Hp. destruct (decide (j = i)) as [->|]; [etrans; [exact Hc|by apply Hi]|apply (H j p); [lia|done]]. }
    destruct (find_oldest n pkt (S i) old c) as [o|].
    - destruct IH as [[H1 H2]|(p & Ho & Hp & Hc & Hmin)].
      + left. split; [done|]. by apply Hext.
      + right. exists p. split_and!; [lia|lia|done|done|]. apply Hext; [by apply time_lt_le|done].
    - destruct IH as [H1 H2]. split; [done|]. by apply Hext. }
  destruct (pkt !! i) as [[cp|]|] eqn:Ei; try (apply Hskip; intros p [=]).
  destruct (Z.ltb_spec (timecmp (ts cp) cur) 0) as [Hlt|Hge].
  - specialize (Hskip (Some i) (ts cp)). destruct (find_oldest n pkt (S i) (Some i) (ts cp)) as [o|].
    + right. destruct Hskip as [[[= <-] H2]|(p & Ho & Hp & Hc & Hmin)].
      { by intros p [= ->]. }
      { exists cp. split_and!; [lia|lia|done|done|done]. }
      { exists p. split_and!; [lia|lia|done| |done]. eapply time_lt_trans; [exact Hc|by apply time_lt_le]. }
    + destruct Hskip as [H1 _]; [by intros p [= ->]|discriminate].
  - apply Hskip. intros p [= <-]. apply timecmp_le. lia.
Qed.

(** Times before the last one that can be written down. *)
Definition early (p : cap_header) : Prop := timecmp (ts p) latest < 0.

Definition merge_fuel (qs : list (list cap_header)) : nat := S (length (concat qs) + length qs).

Lemma concat_empties {A} (qs : list (list A)) k : concat (qs ++ replicate k []) = concat qs.
Proof. rewrite concat_app. replace (concat (replicate k [])) with (@nil A) by (by induction k). by rewrite app_nil_r. Qed.

(** With one or two queues, a round that sees a packet sees one of every queue
    that is left. *)
Lemma small_round qs qs' pkt o :
  (length qs <= 2)%nat -> peek_round (length qs) qs 0 [] = Ok (qs', pkt) ->
  find_oldest (length qs') pkt 0 None latest = Some o -> forall j, (j < length qs')%nat -> exists p, pkt !! j = Some (Some p).
Proof.
  intros Hl E Ho. destruct qs as [|[|a qa] [|[|b qb] [|]]]; cbn in Hl; try lia; cbn in E; unfold remove_stream in E; cbn in E;
    injection E as <- <-; try discriminate Ho; cbn [length] in *; intros [|[|j]] Hj; try lia; by eexists.
Qed.

(** The first elements of the queues are not before [p]. *)
Definition heads_after (p : cap_header) (qs : list (list cap_header)) : Prop :=
  Forall (fun q => match q with y :: _ => by_time p y | [] => True end) qs.

Lemma heads_all_after p qs : Forall in_order qs -> heads_after p qs -> Forall (by_time p) (concat qs).
Proof.
  induction qs as [|q qs IH]; intros Ho Hh; [constructor|]. apply Forall_cons_1 in Ho as [H1 H2], Hh as [H3 H4].
  cbn. apply Forall_app. split; [|by apply IH]. destruct q as [|y q]; [constructor|]. apply StronglySorted_inv in H1 as [_ H1].
  constructor; [done|]. eapply Forall_impl; [|exact H1]. intros z Hz. unfold by_time in *. by etrans.
Qed.

(** A round that sees no packet has removed a queue; otherwise the front of a queue
    that is left is written. *)
Lemma merge_step qs :
  qs <> [] -> Forall (Forall early) qs ->
  exists qs' pkt k, peek_round (length qs) qs 0 [] = Ok (qs', pkt) /\ qs ≡ₚ qs' ++ replicate k [] /\
    length qs = (length qs' + k)%nat /\
    match find_oldest (length qs') pkt 0 None latest with
    | None => k <> O
    | Some o => exists p q rest, qs' !! o = Some (p :: q) /\ qs' ≡ₚ (p :: q) :: rest /\ <[o := q]> qs' ≡ₚ q :: rest /\
        ((length qs <= 2)%nat -> heads_after p qs')
    end.
Proof.
  intros Hne He. destruct (queue_round (length qs) qs 0 []) as (qs' & pkt & k & E & Hp & Hlen & Hf & Hk); [done|lia|intros; lia|done|].
  exists qs', pkt, k. split_and!; [done..|]. pose proof (find_oldest_spec (length qs') pkt 0 None latest) as Hs.
  destruct (find_oldest _ pkt _ _ _) as [o|] eqn:Eo.
  - destruct Hs as [[? _]|(p & Ho & Hpk & _ & Hmin)]; [done|]. destruct (Hf o p) as [q Hq]; [lia|done|].
    destruct (lookup_perm qs' o (p :: q) q Hq) as (rest & H1 & H2). exists p, q, rest. split_and!; [done..|].
    intros H2q. apply Forall_lookup. intros j r Hr. pose proof (lookup_lt_Some _ _ _ Hr) as Hj.
    destruct (small_round qs qs' pkt o H2q E Eo j Hj) as [y Hy]. destruct (Hf j y Hj Hy) as [r' Hr'].
    assert (r = y :: r') as -> by congruence. apply (Hmin j y); [lia|done].
  - intros ->. destruct Hs as [_ Hs]. destruct qs' as [|q0 qs']; [destruct qs; [done|cbn in Hlen; lia]|].
    destruct (Hk eq_refl 0%nat) as [p Hp0]; [cbn; lia|]. destruct (pkt !! 0%nat) as [[p'|]|] eqn:E0; try discriminate Hp0.
    destruct (Hf 0%nat p') as [q Hq]; [cbn; lia|done|]. injection Hq as ->.
    specialize (Hs 0%nat p'). apply timecmp_le in Hs; [|cbn; lia|done]. apply Hs.
    rewrite Hp in He. rewrite app_nil_r in He. apply Forall_inv, Forall_inv in He. exact He.
Qed.

(** The merge ends and writes an interleaving of its queues. *)
Lemma merge_queues fuel qs dst packets :
  (merge_fuel qs <= fuel)%nat -> Forall (Forall early) qs -> Forall (Forall packet_ok) qs -> at_end (file dst) ->
  exists dst' out n, merge_loop fuel qs dst packets = Ok (Done (dst', n)) /\ at_end (file dst') /\ interleave qs out /\
    content (file dst') = content (file dst) ++ contents (map cut out) [] /\
    ((length qs <= 2)%nat -> Forall in_order qs -> in_order out).
Proof.
  revert qs dst packets. induction fuel as [|fuel IH]; intros qs dst packets Hfuel He Hok Hend; unfold merge_fuel in *; [lia|].
  cbn [merge_loop]. destruct (decide (length qs = O)) as [E0|Hne].
  { apply nil_length_inv in E0 as ->. exists dst, [], packets. split_and!; try done; [by constructor|by rewrite app_nil_r|constructor]. }
  destruct (merge_step qs) as (qs' & pkt & k & -> & Hp & Hlen & Hs); [by intros ->|done|]. cbn [mbind res_bind].
  assert (Hc : length (concat qs') = length (concat qs)) by (rewrite <- (concat_empties qs' k); symmetry; apply Permutation_length, concat_perm, Hp).
  assert (He' : Forall (Forall early) qs') by (rewrite Hp in He; by apply Forall_app in He as [? _]).
  assert (Hok' : Forall (Forall packet_ok) qs') by (rewrite Hp in Hok; by apply Forall_app in Hok as [? _]).
  destruct (find_oldest _ pkt _ _ _) as [o|].
  - destruct Hs as (p & q & rest & Hq & Hrest & Hins & Hafter). rewrite Hq. cbn [next queue_input mbind res_bind].
    rewrite Hrest in He', Hok'. apply Forall_cons_1 in He' as [He1 He2], Hok' as [Hok1 Hok2].
    apply Forall_cons_1 in He1 as [_ He1], Hok1 as [Hp1 Hok1].
    rewrite write_clip by (by rewrite captured_id). rewrite captured_id by done.
    destruct (stream_copy_ok dst (cut p) (cut_ok p Hp1) Hend) as (dst1 & -> & Hend1 & Hc1). cbn [mbind res_bind Z.eqb negb].
    destruct (IH (<[o := q]> qs') dst1 (u64 (packets + 1))) as (dst2 & out & n & -> & Hend2 & Hil & Hc2 & Ho2); try done.
    + pose proof (Permutation_length Hins). pose proof (Permutation_length (concat_perm _ _ Hins)).
      pose proof (Permutation_length Hrest). pose proof (Permutation_length (concat_perm _ _ Hrest)). cbn in *. lia.
    + rewrite Hins. by constructor.
    + rewrite Hins. by constructor.
    + exists dst2, (p :: out), n. split_and!; try done.
      * eapply interleave_perm; [symmetry; exact Hp|]. apply interleave_empties. apply (interleave_cons _ p q rest); [done|].
        by eapply interleave_perm.
      * by rewrite Hc2, Hc1, map_cons, contents_cons, <- (assoc_L (++)).
      * intros H2 Ho. specialize (Hafter H2). rewrite Hp in Ho. apply Forall_app in Ho as [Ho _].
        pose proof (heads_all_after p qs' Ho Hafter) as Hall. rewrite Hrest in Ho. apply Forall_cons_1 in Ho as [Hpq Hor].
        apply StronglySorted_inv in Hpq as [Hq1 _]. constructor.
        -- apply Ho2; [rewrite length_insert; lia|]. rewrite Hins. by constructor.
        -- rewrite (interleave_elements _ _ Hil), (concat_perm _ _ Hins). rewrite (concat_perm _ _ Hrest) in Hall.
           by apply Forall_cons_1 in Hall as [_ Hall].
  - destruct (IH qs' dst packets) as (dst2 & out & n & -> & Hend2 & Hil & Hc2 & Ho2); try done; [lia|].
    exists dst2, out, n. split_and!; try done.
    + eapply interleave_perm; [symmetry; exact Hp|]. by apply interleave_empties.
    + intros H2 Ho. apply Ho2; [lia|]. rewrite Hp in Ho. by apply Forall_app in Ho as [? _].
Qed.

(** ** Sorting in memory *)

(** Packets that have not been written yet, and the mark of one that has. *)
Definition waiting (p : cap_header) : Prop := 0 < len p.
#[export] Instance waiting_dec p : Decision (waiting p) := decide (0 < len p).
Definition pending (qs : list cap_header) : list cap_header := base.filter waiting qs.
Definition mark (p : cap_header) : cap_header := p <| len := 0 |>.
#[export] Instance timepico_eq_dec : EqDecision timepico.
Proof. solve_decision. Defined.

Lemma contents_app a b : contents (a ++ b) [] = contents a [] ++ contents b [].
Proof. unfold contents. by rewrite map_app, concat_app, !app_nil_r. Qed.
Lemma contents_cons_nil p ps : contents (p :: ps) [] = packet_image p ++ contents ps [].
Proof. apply contents_cons. Qed.

Lemma length_contents ps : Forall packet_ok ps -> (length ps <= length (contents ps []))%nat.
Proof.
  induction 1 as [|p ps Hp _ IH]; [cbn; lia|]. rewrite contents_cons_nil, length_app.
  pose proof (blen_packet p Hp). destruct (ok_caplen _ Hp). unfold blen, sizeof_cap_header in *. cbn. ints. lia.
Qed.

Lemma mark_ok p : packet_ok p -> packet_ok (mark p).
Proof. intros []. by constructor. Qed.

(** The fields the loops look at. *)
Lemma fields_at pre p rest : packet_ok p ->
  rd32 (pre ++ packet_image p ++ rest) (blen pre + 28) = Ok (len p) /\
  rd32 (pre ++ packet_image p ++ rest) (blen pre + 32) = Ok (caplen p).
Proof.
  intros Hp. pose proof (cap_at_image pre p rest Hp) as E. unfold cap_at in E. inv_ok.
  pose proof (f_equal len E) as E1. pose proof (f_equal caplen E) as E2. cbn in E1, E2. split; congruence.
Qed.

Lemma mark_at pre p rest : packet_ok p ->
  wr (pre ++ packet_image p ++ rest) (blen pre + 28) (le32 0) = Ok (pre ++ packet_image (mark p) ++ rest).
Proof.
  intros Hp. unfold packet_image, cap_header_image. cbn [mark nic head_mampid ts len caplen payload field_set].
  rewrite <- !(assoc_L (++)).
  set (f := nic p ++ head_mampid p ++ le32 (tv_sec (ts p)) ++ le64 (tv_psec (ts p))).
  assert (Hf : blen f = 28) by (destruct Hp; unfold f; lens).
  assert (E : forall l, pre ++ nic p ++ head_mampid p ++ le32 (tv_sec (ts p)) ++ le64 (tv_psec (ts p)) ++ le32 l ++ le32 (caplen p) ++ payload p ++ rest
    = (pre ++ f) ++ le32 l ++ le32 (caplen p) ++ payload p ++ rest) by (intros; unfold f; by rewrite <- !(assoc_L (++))).
  rewrite !E. replace (blen pre + 28) with (blen (pre ++ f)) by lens. by apply wr_app.
Qed.

(** The search for the first packet that is waiting passes over those that are not. *)
Lemma sort_begin_ok fuel pre qs post :
  Forall packet_ok qs -> qs <> [] -> (length qs <= fuel)%nat ->
  exists a b, qs = a ++ b /\ pending a = [] /\
    sort_begin fuel (pre ++ contents qs [] ++ post) (blen pre) (blen pre + blen (contents qs [])) = Ok (blen (pre ++ contents a [])).
Proof.
  revert pre qs. induction fuel as [|fuel IH]; intros pre [|p qs] Hok Hne Hf; try done; cbn [length] in Hf; [lia|].
  apply Forall_cons_1 in Hok as [Hp Hok]. cbn [sort_begin]. rewrite contents_cons_nil, <- (assoc_L (++)).
  destruct (fields_at pre p (contents qs [] ++ post) Hp) as [-> ->]. cbn [mbind res_bind].
  destruct (Z.ltb_spec 0 (len p)) as [Hw|Hw].
  { exists [], (p :: qs). by rewrite app_nil_r. }
  pose proof (blen_packet p Hp) as Hl. replace (blen pre + (caplen p + sizeof_cap_header)) with (blen (pre ++ packet_image p)) by lens.
  replace (blen pre + blen (packet_image p ++ contents qs [])) with (blen (pre ++ packet_image p) + blen (contents qs [])) by lens.
  assert (Hm : forall a, pending a = [] -> pending (p :: a) = []).
  { intros a Ha. unfold pending in *. rewrite filter_cons_False; [done|]. unfold waiting. lia. }
  destruct qs as [|p' qs].
  - rewrite (proj2 (Z.ltb_ge _ _)) by (change (blen (contents [] [])) with 0; lia). exists [p], []. split; [done|]. split; [by apply Hm|].
    by rewrite contents_cons_nil, app_nil_r.
  - destruct (Z.ltb_spec (blen (pre ++ packet_image p)) (blen (pre ++ packet_image p) + blen (contents (p' :: qs) []))) as [_|Hge].
    2: { exfalso. apply Forall_inv in Hok. destruct (ok_caplen _ Hok).
         rewrite contents_cons_nil, (blen_app (packet_image p')), (blen_packet p' Hok) in Hge. pose proof (blen_nonneg (contents qs [])). unfold sizeof_cap_header in *. ints. lia. }
    rewrite (assoc_L (++) pre). destruct (IH (pre ++ packet_image p) (p' :: qs)) as (a & b & -> & Ha & ->); [done|done|cbn in *; lia|].
    exists (p :: a), b. split; [done|]. split; [by apply Hm|]. by rewrite contents_cons_nil, (assoc_L (++)).
Qed.

(** The first of the waiting packets with the smallest time is found. *)
Lemma find_smallest_ok fuel pre qs post pkt cur :
  Forall packet_ok qs -> (length qs < fuel)%nat ->
  exists r, find_smallest fuel (pre ++ contents qs [] ++ post) (blen pre) (blen pre + blen (contents qs [])) pkt cur = Ok r /\
    ((r = pkt /\ Forall (fun p => time_le cur (ts p)) (pending qs)) \/
     exists a x b, qs = a ++ x :: b /\ r = Some (blen (pre ++ contents a [])) /\ waiting x /\ timecmp (ts x) cur < 0 /\
       Forall (fun p => timecmp (ts x) (ts p) < 0) (pending a) /\ Forall (fun p => time_le (ts x) (ts p)) (pending b)).
Proof.
  revert pre qs pkt cur. induction fuel as [|fuel IH]; intros pre qs pkt cur Hok Hf; [lia|]. cbn [find_smallest].
  destruct qs as [|p qs].
  { rewrite (proj2 (Z.ltb_ge _ _)) by (change (blen (contents [] [])) with 0; lia). eexists. split; [reflexivity|]. left. by split; [|constructor]. }
  cbn [length] in Hf. apply Forall_cons_1 in Hok as [Hp Hok]. pose proof (blen_packet p Hp) as Hl.
  rewrite contents_cons_nil, <- (assoc_L (++)), cap_at_image by done. destruct (ok_caplen _ Hp) as [_ Hu].
  rewrite (proj2 (Z.ltb_lt _ _)) by (rewrite blen_app, Hl; pose proof (blen_nonneg (contents qs [])); unfold sizeof_cap_header; ints; lia).
  cbn [mbind res_bind]. change (caplen (in_memory p _)) with (caplen p). change (len (in_memory p _)) with (len p).
  change (ts (in_memory p _)) with (ts p).
  replace (blen pre + (caplen p + sizeof_cap_header)) with (blen (pre ++ packet_image p)) by lens.
  replace (blen pre + blen (packet_image p ++ contents qs [])) with (blen (pre ++ packet_image p) + blen (contents qs [])) by lens.
  rewrite (assoc_L (++) pre).
  destruct (Z.ltb_spec 0 (len p)) as [Hw|Hw]; [destruct (Z.ltb_spec 0 (timecmp cur (ts p))) as [Hlt|Hge]|]; cbn [andb].
  - apply timecmp_gt in Hlt.
    destruct (IH (pre ++ packet_image p) qs (Some (blen pre)) (ts p)) as (r & -> & [[-> Hall]|(a & x & b & -> & -> & Hx & Hc & Ha & Hb)]); [done|lia| |];
      (eexists; split; [reflexivity|]; right).
    + exists [], p, qs. cbn. rewrite app_nil_r. split_and!; try done.
    + exists (p :: a), x, b. rewrite contents_cons_nil, (assoc_L (++)). split_and!; try done.
      * eapply time_lt_trans; [exact Hc|by apply time_lt_le].
      * unfold pending. rewrite filter_cons_True by done. by constructor.
  - assert (Hcp : time_le cur (ts p)) by (unfold time_le; lia).
    destruct (IH (pre ++ packet_image p) qs pkt cur) as (r & -> & [[-> Hall]|(a & x & b & -> & -> & Hx & Hc & Ha & Hb)]); [done|lia| |];
      (eexists; split; [reflexivity|]); [left|right].
    + split; [done|]. unfold pending. rewrite filter_cons_True by done. by constructor.
    + exists (p :: a), x, b. rewrite contents_cons_nil, (assoc_L (++)). split_and!; try done.
      unfold pending. rewrite filter_cons_True by done. constructor; [by eapply time_lt_trans|done].
  - destruct (IH (pre ++ packet_image p) qs pkt cur) as (r & -> & [[-> Hall]|(a & x & b & -> & -> & Hx & Hc & Ha & Hb)]); [done|lia| |];
      (eexists; split; [reflexivity|]); [left|right].
    + split; [done|]. unfold pending. rewrite filter_cons_False; [done|unfold waiting; lia].
    + exists (p :: a), x, b. rewrite contents_cons_nil, (assoc_L (++)). split_and!; try done.
      unfold pending. rewrite filter_cons_False; [done|unfold waiting; lia].
Qed.

(** [out] is [ps] sorted by time, and packets with the same time stay in order. *)
Record sorted_of (ps out : list cap_header) : Prop := {
  sorted_elements : out ≡ₚ ps;
  sorted_order : in_order out;
  sorted_stable : forall t, base.filter (fun p => ts p = t) out = base.filter (fun p => ts p = t) ps;
}.

Lemma pending_app a b : pending (a ++ b) = pending a ++ pending b.
Proof. apply list.filter_app. Qed.

(** Taking out the first of the smallest keeps the rest sorted behind it. *)
Lemma sorted_cons a x b out :
  Forall (fun p => timecmp (ts x) (ts p) < 0) a -> Forall (fun p => time_le (ts x) (ts p)) b ->
  sorted_of (a ++ b) out -> sorted_of (a ++ x :: b) (x :: out).
Proof.
  intros Ha Hb [H1 H2 H3]. constructor.
  - by rewrite <- Permutation_middle, H1.
  - constructor; [done|]. rewrite H1. apply Forall_app. split; [|done]. eapply Forall_impl; [|exact Ha]. intros p. apply time_lt_le.
  - intros t. rewrite list.filter_app. specialize (H3 t). rewrite list.filter_app in H3. destruct (decide (ts x = t)) as [Hx|Hx].
    + rewrite !filter_cons_True, H3 by done. replace (base.filter (fun p => ts p = t) a) with (@nil cap_header); [done|].
      symmetry. clear H3 H1. induction a as [|y a IH]; [done|]. apply Forall_cons_1 in Ha as [Hy Ha].
      rewrite filter_cons_False; [by apply IH|]. intros <-. rewrite Hx in Hy. rewrite timecmp_lt in Hy. lia.
    + by rewrite !filter_cons_False, H3 by done.
Qed.

Lemma sort_loop_ok fuel pre qs post dst written :
  Forall packet_ok qs -> Forall early (pending qs) -> qs <> [] -> at_end (file dst) -> (length (pending qs) < fuel)%nat ->
  exists dst' n out,
    sort_loop fuel (pre ++ contents qs [] ++ post) (blen pre) (blen pre + blen (contents qs [])) dst written = Ok (dst', n) /\
    at_end (file dst') /\ content (file dst') = content (file dst) ++ contents out [] /\ sorted_of (pending qs) out.
Proof.
  revert pre qs dst written. induction fuel as [|fuel IH]; intros pre qs dst written Hok He Hne Hend Hf; [lia|]. cbn [sort_loop].
  set (m := pre ++ contents qs [] ++ post).
  assert (Hm : (length qs <= length m)%nat).
  { pose proof (length_contents qs Hok). unfold m. rewrite !length_app. lia. }
  remember (S (length m)) as N eqn:EN. assert (HN : (length qs < N)%nat) by lia. clear EN Hm. subst m.
  destruct (sort_begin_ok N pre qs post Hok Hne) as (a0 & b0 & -> & Ha0 & ->); [lia|].
  cbn [mbind res_bind]. rewrite pending_app, Ha0 in *. cbn [app] in *.
  assert (Em : forall b, pre ++ contents (a0 ++ b) [] ++ post = (pre ++ contents a0 []) ++ contents b [] ++ post)
    by (intros; rewrite contents_app; by rewrite <- !(assoc_L (++))).
  assert (Ef : forall b, blen pre + blen (contents (a0 ++ b) []) = blen (pre ++ contents a0 []) + blen (contents b []))
    by (intros; rewrite contents_app, !blen_app; lia).
  rewrite Em, Ef. set (pre' := pre ++ contents a0 []) in *. apply Forall_app in Hok as [_ Hok]. rewrite length_app in HN.
  destruct (find_smallest_ok N pre' b0 post None latest Hok) as (r & -> & Hr); [lia|]. cbn [mbind res_bind].
  destruct Hr as [[-> Hall]|(a & x & b & -> & -> & Hx & Hc & Ha & Hb)].
  - assert (Hnil : pending b0 = []).
    { destruct (pending b0) as [|p l]; [done|]. apply Forall_inv in Hall, He. apply timecmp_le in Hall. done. }
    exists dst, written, []. rewrite Hnil, app_nil_r. split_and!; try done. constructor; [done|constructor|done].
  - pose proof Hok as Hok'. apply Forall_app in Hok as [Hoka Hokx]. apply Forall_cons_1 in Hokx as [Hpx Hokb].
    assert (Ex : forall y, pre' ++ contents (a ++ y :: b) [] ++ post = (pre' ++ contents a []) ++ packet_image y ++ contents b [] ++ post).
    { intros. rewrite contents_app, contents_cons_nil. by rewrite <- !(assoc_L (++)). }
    rewrite Ex, cap_at_image by done. cbn [mbind res_bind].
    unfold stream_copy. change (caplen (in_memory x _)) with (caplen (in_memory x (contents b [] ++ post))).
    rewrite write_image by (by rewrite captured_in_memory). rewrite captured_in_memory by done.
    destruct (stream_copy_ok dst x Hpx Hend) as (dst1 & -> & Hend1 & Hc1). cbn [mbind res_bind].
    rewrite mark_at by done. cbn [mbind res_bind]. rewrite <- Ex.
    assert (Hlen : blen (contents (a ++ x :: b) []) = blen (contents (a ++ mark x :: b) [])).
    { rewrite !contents_app, !contents_cons_nil, !blen_app, (blen_packet x Hpx), (blen_packet _ (mark_ok x Hpx)). done. }
    rewrite Hlen. rewrite !pending_app in He, Hf |- *. unfold pending at 2 in He. unfold pending at 2 in Hf. unfold pending at 2.
    rewrite filter_cons_True in He, Hf |- * by done. fold (pending b) in *.
    assert (Hp' : pending (a ++ mark x :: b) = pending a ++ pending b).
    { by rewrite pending_app. }
    destruct (IH pre' (a ++ mark x :: b) dst1 (u64 (written + 1))) as (dst2 & n & out & -> & Hend2 & Hc2 & Hs).
    + apply Forall_app. split; [done|]. constructor; [by apply mark_ok|done].
    + rewrite Hp'. apply Forall_app in He as [He1 He2]. apply Forall_app. split; [done|]. by apply Forall_cons_1 in He2 as [_ ?].
    + by destruct a.
    + done.
    + rewrite Hp'. rewrite !length_app in *. cbn in Hf. lia.
    + exists dst2, n, (x :: out). split_and!; try done; [by rewrite Hc2, Hc1, contents_cons_nil, <- (assoc_L (++))|].
      apply sorted_cons; try done. by rewrite <- Hp'.
Qed.

Lemma pending_all ps : Forall waiting ps -> pending ps = ps.
Proof. induction 1 as [|p ps Hp _ IH]; [done|]. unfold pending in *. rewrite filter_cons_True by done. by rewrite IH. Qed.

(** The packets behind the header of a file in memory are sorted. *)
Lemma sort_merged_ok c ps f w :
  blen c < 65536 -> content f = file_header_image (new_header (B "CONV") c) ++ c ++ contents ps [] ->
  Forall packet_ok ps -> Forall waiting ps -> Forall early ps -> ps <> [] -> at_end (file w) ->
  exists dst n out, sort_merged f w = Ok (dst, n) /\ at_end (file dst) /\
    content (file dst) = content (file w) ++ contents out [] /\ sorted_of ps out.
Proof.
  intros Hc Hf Hok Hw He Hne Hend. set (pre := file_header_image (new_header (B "CONV") c) ++ c).
  assert (Em : content f ++ [0] = pre ++ contents ps [] ++ [0]) by (by rewrite Hf, <- !(assoc_L (++))).
  assert (Hpre : blen pre = 216 + blen c) by (unfold pre; rewrite blen_app, blen_file_header by apply new_header_ok; done).
  unfold sort_merged. rewrite Em. pose proof (blen_nonneg c). pose proof (length_contents ps Hok).
  assert (E12 : rd16 (pre ++ contents ps [] ++ [0]) 12 = Ok 216) by (unfold pre, file_header_image; by rewrite <- !(assoc_L (++))).
  assert (E14 : rd16 (pre ++ contents ps [] ++ [0]) 14 = Ok (blen c)).
  { unfold pre. rewrite <- (assoc_L (++)). rewrite rd16_app_l by (rewrite blen_file_header by apply new_header_ok; lia).
    unfold file_header_image. rewrite !(assoc_L (++)), <- (assoc_L (++) _ (le16 _)). cbn [comment_size new_header].
    rewrite u16_id by (ints; lia). apply rd16_at; [done|ints; lia]. }
  rewrite E12, E14. cbn [mbind res_bind]. rewrite <- Hpre.
  replace (blen (content f)) with (blen pre + blen (contents ps []))
    by (apply (f_equal blen) in Em; rewrite !blen_app in Em; lia).
  destruct (sort_loop_ok (S (length (pre ++ contents ps [] ++ [0]))) pre ps [0] w 0) as (dst & k & out & -> & Hs);
    rewrite ?pending_all by done; try done; [rewrite !length_app; lia|].
  rewrite pending_all in Hs by done. by exists dst, k, out.
Qed.

(** ** Claims *)
Section Claims.
Context {S : Type} {input : Input S} {laws : InputLaws S}.
Variable fopen : bytes -> FILE + Z.
Variable bpf_filter : list bpf_insn -> bytes -> Z -> Z -> Z.

(** What the inputs must satisfy: packets before the last time that can be written
    down, a fuel for every packet and every input, and an output that is empty. *)
Record mergeable (fuel : nat) (output c : bytes) (inputs : list S) (qs : list (list cap_header)) : Prop := {
  m_inputs : Forall2 supplies inputs qs;
  m_early : Forall (Forall early) qs;
  m_fuel : (merge_fuel qs <= fuel)%nat;
  m_output : fopen output = inl empty_file;
  m_comment : blen c < 65536;
}.

(** Merging the inputs behind a header. *)
Lemma merge_inputs fuel output c inputs qs dst :
  mergeable fuel output c inputs qs -> at_end (file dst) ->
  exists dst' out n, merge_loop fuel inputs dst 0 = Ok (Done (dst', n)) /\ at_end (file dst') /\ interleave qs out /\
    content (file dst') = content (file dst) ++ contents (map cut out) [] /\
    ((length qs <= 2)%nat -> Forall in_order qs -> in_order out).
Proof.
  intros [H1 H2 H3 _ _] Hend. rewrite (merge_loop_refines fuel inputs qs) by done. apply merge_queues; try done.
  clear - H1. induction H1; constructor; [by eapply supplies_ok|done].
Qed.

Lemma capmerge_file fuel output c inputs qs :
  mergeable fuel output c inputs qs ->
  exists dst out, capmerge fopen fuel false output c inputs = Ok (Done dst) /\ interleave qs out /\ at_end (file dst) /\
    content (file dst) = file_header_image (new_header (B "CONV") c) ++ c ++ contents (map cut out) [] /\
    ((length qs <= 2)%nat -> Forall in_order qs -> in_order out).
Proof.
  intros Hm. pose proof Hm as [_ _ _ Ho Hc].
  destruct (create_ok fopen None (Some output) (B "CONV") c 0 empty_file) as (w & Ew & Hend & Hcw); [done..|].
  unfold capmerge. rewrite Ew. cbn [mbind res_bind Z.eqb negb].
  destruct (merge_inputs fuel output c inputs qs w Hm Hend) as (dst & out & n & -> & Hend' & Hil & Hcont & Hord).
  cbn [mbind res_bind negb]. exists dst, out. split_and!; try done.
  by rewrite Hcont, Hcw, <- (assoc_L (++)).
Qed.


End Claims.

(** ** What goes wrong *)
Definition ex_open (_ : bytes) : FILE + Z := inl empty_file.
Definition ex_at (sec : Z) : cap_header := ex_pkt sec [1; 2].
(** The bytes of the output file, unless the program has exited. *)
Definition written (r : res (outcome stream_file)) : res (option bytes) :=
  r ≫= (fun o => Ok match o with Done dst => Some (content (file dst)) | Exit _ => None end).

(** With three inputs the order of time can be lost: when the first has ended,
    the last takes its place and is not looked at in that round, so that the packet
    of the second is written before an earlier one of the last. *)
Theorem capmerge_out_of_order :
  written (capmerge ex_open 10 false (B "out") [] [[]; [ex_at 2]; [ex_at 1]]) =
    Ok (Some (file_header_image (new_header (B "CONV") []) ++ contents [ex_at 2; ex_at 1] [])) /\
  ~ in_order [ex_at 2; ex_at 1].
Proof.
  split; [vm_compute; reflexivity|].
  intros [_ H]%StronglySorted_inv. apply Forall_inv in H. vm_compute in H. by apply H.
Qed.

(** Sorting without a packet reads a capture header behind the end of the memory. *)
Lemma capmerge_sort_nothing : capmerge ex_open 10 true (B "out") [] [[]] = Fault.
Proof. vm_compute. reflexivity. Qed.

(** A packet of length zero is merged but not sorted into the output. *)
Lemma capmerge_sort_drops :
  written (capmerge ex_open 10 true (B "out") [] [[(ex_at 1) <| len := 0 |>]; [ex_at 2]]) =
    Ok (Some (file_header_image (new_header (B "CONV") []) ++ contents [ex_at 2] [])).
Proof. vm_compute. reflexivity. Qed.

(** ** Witnesses *)
Definition ex_capfile (ps : list cap_header) : stream_file :=
  {| base := ex_stream; file := {| content := contents ps []; pos := 0; ferror := None |}; force_flush := false |}.
Definition ex_inputs : list stream_file := [ex_capfile [ex_at 1; ex_at 3]; ex_capfile [ex_at 2]].
Definition ex_queues : list (list cap_header) := [[ex_at 1; ex_at 3]; [ex_at 2]].

Lemma ex_holds ps : Forall (fun p => exists sec, p = ex_at sec /\ is_u32 sec) ps -> holds (ex_capfile ps) ps.
Proof.
  intros H. constructor.
  - apply stream_alloc_inv. lia.
  - done.
  - eapply Forall_impl; [|exact H]. intros p (sec & -> & Hs). split; [by apply ex_pkt_ok|vm_compute; discriminate].
  - eapply Forall_impl; [|exact H]. intros p (sec & -> & Hs). discriminate.
  - exists []. split; [by left|done].
Qed.
Lemma ex_mergeable : @mergeable _ (file_input no_bpf None) (file_input_laws no_bpf None) ex_open 6 (B "out") (B "hello") ex_inputs ex_queues.
Proof.
  constructor.
  - constructor; [|constructor; [|constructor]]; apply ex_holds; repeat constructor; by eexists.
  - repeat constructor; vm_compute; reflexivity.
  - vm_compute. lia.
  - done.
  - vm_compute. reflexivity.
Qed.


