(* ===== verification/CapmergeMain.v ===== *)
(** * capmerge: the command line (tools/capmerge.c)

    The options, the check of the output and the opening of the inputs in front of what
    [Capmerge] models. *)

From S2P Require Import Prelude CLib Picotime Utils Address Packet Filter Stream StreamFile StreamBuffer Interface StreamEthernet StreamUdp StreamApi Tools Capmerge.

Record merge_options := { mo_output : cptr; mo_comment : bytes; mo_sort : bool; mo_quiet : bool }.
#[export] Instance merge_options_rebuild : Rebuild merge_options := fun o =>
  {| mo_output := mo_output o; mo_comment := mo_comment o; mo_sort := mo_sort o; mo_quiet := mo_quiet o |}.

Section Main.
Variable e : env.
Variable strdup : bytes -> cptr.
Variable memstream : bool.   (** whether [open_memstream] succeeds *)

(** Options as [getopt_long] gives them. *)
Fixpoint merge_args (o : merge_options) (found : list (Z * cptr)) : res (outcome merge_options) :=
  match found with
  | [] => Ok (Done o)
  | (op, optarg) :: found =>
      if (op =? 0) || (op =? 63) then merge_args o found
      else if op =? 111 then merge_args (o <| mo_output := optarg |>) found
      else if op =? 99 then merge_args (o <| mo_comment := p_str optarg |>) found
      else if op =? 115 then merge_args (o <| mo_sort := memstream |>) found
      else if op =? 113 then merge_args (o <| mo_quiet := true |>) found
      else if op =? 104 then Ok (Exit 0)
      else Abort
  end.

(** The inputs are opened by name; the first that cannot be opened ends the program. *)
Fixpoint open_inputs (args : list cptr) : res (outcome (list stream_file)) :=
  match args with
  | [] => Ok (Done [])
  | arg :: args =>
      let '(a, _) := stream_addr_str strdup zero_addr arg 0 in
      '(st, ret, _) ← stream_open e a None 0;
      if negb (ret =? 0) then Ok (Exit 1)
      else match st : option stream_t with
           | Some (FileStream sf) =>
               r ← open_inputs args;
               Ok match r with Done sfs => Done (sf :: sfs) | Exit code => Exit code end
           | _ => Fault
           end
  end.

(** The output is created in front of the inputs; when either fails the exit code is 1. *)
Definition capmerge_main (bpf_filter : list bpf_insn -> bytes -> Z -> Z -> Z) (fuel : nat) (stdout_tty : bool) (dev_stdout : cptr) (default_comment : bytes)
    (found : list (Z * cptr)) (args : list cptr) : res (outcome stream_file) :=
  o ← merge_args {| mo_output := dev_stdout; mo_comment := default_comment; mo_sort := false; mo_quiet := false |} found;
  match o : outcome merge_options with
  | Exit code => Ok (Exit code)
  | Done o =>
      if bool_decide (p_str (mo_output o) = B "/dev/stdout") && stdout_tty then Ok (Exit 1)
      else
        inputs ← open_inputs args;
        match inputs : outcome (list stream_file) with
        | Exit code => Ok (Exit code)
        | Done inputs => @capmerge _ (file_input bpf_filter None) (e_fcreate e) fuel (mo_sort o) (p_str (mo_output o)) (mo_comment o) inputs
        end
  end.

(** ** The inputs *)

(** A capture file with the packets [ps], each with some data. *)
Definition names_file (arg : cptr) (ps : list cap_header) : Prop :=
  (exists f mid c, e_fopen e (p_str arg) = inl f /\ pos f = 0 /\ ferror f = None /\ blen c < 65536 /\
     content f = file_header_image (new_header mid c) ++ c ++ contents ps []) /\
  Forall (fits BUFSIZ) ps /\ Forall (fun p => caplen p <> 0) ps.

(** The opened files supply the packets of the named ones, in the same order. *)
Lemma open_inputs_ok bpf_filter args qs : Forall2 names_file args qs ->
  exists sfs, open_inputs args = Ok (Done sfs) /\ Forall2 (@supplies _ (file_input bpf_filter None) (file_input_laws bpf_filter None)) sfs qs.
Proof.
  induction 1 as [|arg ps args qs [(f & mid & c & Ho & Hp & He & Hc & Hcont) [Hfit Hd]] H IH]; [by exists []|]. cbn [open_inputs]. unfold stream_addr_str. cbv zeta.
  change (has_flag 0 STREAM_ADDR_DUPLICATE) with false. cbv iota.
  destruct (stream_open_file e arg None mid c (contents ps []) f) as (sf & Hopen & _ & [Hi Hsz _ _ Hu Hs Hb _]); try done.
  match goal with |- context [stream_open e ?a None 0] => replace (stream_open e a None 0) with (stream_open e (file_addr arg) None 0) by done end.
  rewrite Hopen. cbn [mbind res_bind Z.eqb negb]. destruct IH as (sfs & -> & IH). exists (sf :: sfs). split; [done|]. constructor; [|done].
  constructor; rewrite ?Hsz; try done. exists []. split; [by left|]. by rewrite Hu, Hb.
Qed.

(** The whole program is the merge of the packets of its arguments. *)
Lemma capmerge_main_opens bpf_filter fuel tty dev c0 found args o qs :
  merge_args {| mo_output := dev; mo_comment := c0; mo_sort := false; mo_quiet := false |} found = Ok (Done o) ->
  (p_str (mo_output o) = B "/dev/stdout" -> tty = false) -> Forall2 names_file args qs ->
  exists inputs, Forall2 (@supplies _ (file_input bpf_filter None) (file_input_laws bpf_filter None)) inputs qs /\
    capmerge_main bpf_filter fuel tty dev c0 found args =
      @capmerge _ (file_input bpf_filter None) (e_fcreate e) fuel (mo_sort o) (p_str (mo_output o)) (mo_comment o) inputs.
Proof.
  intros Ho Ht Ha. destruct (open_inputs_ok bpf_filter args qs Ha) as (sfs & Hs & Hq). exists sfs. split; [done|]. unfold capmerge_main. rewrite Ho. cbn [mbind res_bind].
  destruct (bool_decide_reflect (p_str (mo_output o) = B "/dev/stdout")) as [E|E]; [rewrite (Ht E)|]; cbn [andb]; by rewrite Hs.
Qed.

(** The output is not written to a terminal. *)
Lemma terminal_refused bpf_filter fuel dev c0 args : p_str dev = B "/dev/stdout" -> capmerge_main bpf_filter fuel true dev c0 [] args = Ok (Exit 1).
Proof. intros E. unfold capmerge_main. cbn [merge_args mbind res_bind mo_output]. by rewrite E. Qed.
End Main.

(** When [open_memstream] fails, [--sort] is ignored: nothing tells the user. *)
Lemma sort_without_memory o : merge_args false o [(115, mo_output o)] = Ok (Done (o <| mo_sort := false |>)).
Proof. reflexivity. Qed.
