(* ===== verification/Capfilter.v ===== *)
(** * capfilter (tools/capfilter.c): splitting a capture file

    The program copies the packets a filter accepts to one capture file and, when it
    is asked to, the others to a second one. *)

From S2P Require Import Prelude CLib Picotime Utils Address Packet Filter Stream StreamFile StreamBuffer Interface StreamEthernet StreamUdp StreamApi Tools.

(** ** Options *)
Record options := {
  src_filename : option cptr;
  dst_filename : option cptr;
  rej_filename : option cptr;
  invert : bool;
  max_read : Z;
  max_matched : Z;
}.
#[export] Instance options_rebuild : Rebuild options := fun o =>
  {| src_filename := src_filename o; dst_filename := dst_filename o; rej_filename := rej_filename o; invert := invert o;
     max_read := max_read o; max_matched := max_matched o |}.

Definition no_options : options :=
  {| src_filename := None; dst_filename := None; rej_filename := None; invert := false; max_read := 0; max_matched := 0 |}.

(** The options [getopt_long] found, as their letters with their arguments.  [Exit]
    after the help text. *)
Fixpoint parse_options (o : options) (found : list (Z * cptr)) : outcome options :=
  match found with
  | [] => Done o
  | (op, optarg) :: found =>
      if op =? 112 then parse_options (o <| max_read := u32 (atoi (p_str optarg)) |>) found
      else if op =? 109 then parse_options (o <| max_matched := u32 (atoi (p_str optarg)) |>) found
      else if op =? 111 then parse_options (o <| dst_filename := Some optarg |>) found
      else if op =? 105 then parse_options (o <| src_filename := Some optarg |>) found
      else if op =? 114 then parse_options (o <| rej_filename := Some optarg |>) found
      else if op =? 118 then parse_options (o <| invert := true |>) found
      else if op =? 104 then Exit 0
      else parse_options o found
  end.

(** Positional arguments, unless both names were given. *)
Definition positional (o : options) (args : list cptr) : options :=
  match src_filename o, dst_filename o with
  | Some _, Some _ => o
  | _, _ =>
      match args with
      | [src; dst] => o <| dst_filename := Some dst |> <| src_filename := Some src |>
      | [src] => o <| src_filename := Some src |>
      | _ => o
      end
  end.

(** ** The loop *)

(** [min] is a function of [int]; the header lies in front of the read position of the
    stream, where nothing is read any more. *)
Definition truncate (f : filter) (cp : cap_header) : cap_header :=
  if filter_caplen f =? 4294967295 then cp
  else cp <| caplen := u32 (Z.min (i32 (filter_caplen f)) (i32 (caplen cp))) |>.

Section Loop.
Context {S : Type} {input : Input S} {count : Counted S}.
Variable bpf_filter : list bpf_insn -> bytes -> Z -> Z -> Z.

(** The outputs, the number of packets that matched, and [ret]. *)
Record filtered := { out : stream_file; rejects : option stream_file; matched : Z; ret_code : Z }.

(** The packet is copied to its target, if it has one. *)
Definition copy_packet (dst : stream_file) (rej : option stream_file) (post_match : bool) (cp : cap_header)
    : res (stream_file * option stream_file * Z) :=
  if post_match then '(dst, ret) ← stream_copy dst cp; Ok (dst, rej, ret)
  else match rej with
       | Some r => '(r, ret) ← stream_copy r cp; Ok (dst, Some r, ret)
       | None => Ok (dst, None, 0)
       end.

Fixpoint filter_loop (fuel : nat) (o : options) (f : filter) (src : S) (dst : stream_file) (rej : option stream_file) (matched : Z)
    : res filtered :=
  match fuel with
  | O => OutOfFuel
  | Datatypes.S fuel =>
      '(src, (ret, cp)) ← next src;
      if ret =? EAGAIN then filter_loop fuel o f src dst rej matched
      else if negb (ret =? 0) then Ok {| out := dst; rejects := rej; matched := matched; ret_code := ret |}
      else
        match cp : option cap_header with
        | None => Fault
        | Some cp =>
            '(f, m) ← filter_match bpf_filter f (payload cp) cp;
            let post_match := if invert o then negb m else m in
            let matched := if post_match then u64 (matched + 1) else matched in
            let cp := truncate f cp in
            '(dst, rej, ret) ← copy_packet dst rej post_match cp;
            if ((0 <? max_read o) && (max_read o <=? read_count src)) || ((0 <? max_matched o) && (max_matched o <=? matched))
               || negb (ret =? 0)
            then Ok {| out := dst; rejects := rej; matched := matched; ret_code := ret |}
            else filter_loop fuel o f src dst rej matched
        end
  end.
End Loop.

(** ** The program, after its options *)
Section Main.
Variable bpf_filter : list bpf_insn -> bytes -> Z -> Z -> Z.
Variable e : env.
Variable stdin_tty stdout_tty : bool.
Variable dev_stdin dev_stdout : cptr.      (** "/dev/stdin" and "/dev/stdout" *)
Variable description : bytes.              (** "capfilter" VERSION " filtered stream" *)
Variable strdup : bytes -> cptr.

Definition read_timeout : timeval := {| tval_sec := 1; tval_usec := 0 |}.

(** The stream an address of a file names. *)
Definition as_capfile (r : opened_result) : res (option stream_file) :=
  let '(st, ret, _) := r in
  if negb (ret =? 0) then Ok None
  else match st with Some (FileStream sf) => Ok (Some sf) | _ => Fault end.
Definition open_capfile (name : cptr) : res (option stream_file) :=
  r ← stream_open e (fst (stream_addr_str strdup zero_addr name 0)) None 0; as_capfile r.
Definition create_capfile (name : cptr) : res (option stream_file) :=
  r ← stream_create e (fst (stream_addr_str strdup zero_addr name 0)) None (B "CONV") (Some description); as_capfile r.

Definition capfilter (fuel : nat) (o : options) (f : filter) : res (outcome (filtered * Z)) :=
  if bool_decide (src_filename o = None) && stdin_tty then Ok (Exit 1)
  else if bool_decide (dst_filename o = None) && stdout_tty then Ok (Exit 1)
  else
    src ← open_capfile (default dev_stdin (src_filename o));
    match src : option stream_file with
    | None => Ok (Exit 1)
    | Some src =>
        dst ← create_capfile (default dev_stdout (dst_filename o));
        match dst : option stream_file with
        | None => Ok (Exit 1)
        | Some dst =>
            rej ← match rej_filename o with
                  | None => Ok (Some None)
                  | Some name => rej ← create_capfile name; Ok (match rej with Some rej => Some (Some rej) | None => None end)
                  end;
            match rej : option (option stream_file) with
            | None => Ok (Exit 1)
            | Some rej =>
                r ← filter_loop (input := file_input bpf_filter (Some read_timeout)) bpf_filter fuel o f src dst rej 0;
                let code := if negb (ret_code r =? 0) && negb (ret_code r =? -1) then 1 else 0 in
                Ok (Done (r, code))
            end
        end
    end.
End Main.

(** The program behind the options of the filter, which were taken out of the argument
    vector: the options found and the other arguments. *)
Definition capfilter_main bpf_filter e stdin_tty stdout_tty dev_stdin dev_stdout description strdup fuel
    (f : filter) (found : list (Z * cptr)) (args : list cptr) : res (outcome (filtered * Z)) :=
  match parse_options no_options found with
  | Exit code => Ok (Exit code)
  | Done o => capfilter bpf_filter e stdin_tty stdout_tty dev_stdin dev_stdout description strdup fuel (positional o args) f
  end.

(** ** What the outputs should hold *)

(** A packet cut to the length the filter asks for. *)
Definition trunc (c : Z) (p : cap_header) : cap_header :=
  if c =? 4294967295 then p else captured (p <| caplen := Z.min c (caplen p) |>).

(** How many packets are looked at: up to the one that reaches a limit. *)
Definition reached (o : options) (read matched : Z) : bool :=
  ((0 <? max_read o) && (max_read o <=? read)) || ((0 <? max_matched o) && (max_matched o <=? matched)).
Fixpoint looked_at (o : options) (read matched : Z) (posts : list bool) : nat :=
  match posts with
  | [] => O
  | b :: posts =>
      let read := read + 1 in
      let matched := matched + Z.b2z b in
      if reached o read matched then 1%nat else S (looked_at o read matched posts)
  end.
Definition post (o : options) (bs : list bool) : list bool := map (xorb (invert o)) bs.

(** Without limits every packet is looked at; a limit on the packets read is the
    number of packets looked at. *)
Lemma looked_at_all o read matched posts : max_read o = 0 -> max_matched o = 0 -> looked_at o read matched posts = length posts.
Proof.
  intros Hr Hm. revert read matched. induction posts as [|b posts IH]; intros read matched; [done|]. cbn [looked_at].
  unfold reached. rewrite Hr, Hm. cbn. by rewrite IH.
Qed.
Lemma looked_at_read o read matched posts : max_matched o = 0 -> 0 <= read < max_read o ->
  looked_at o read matched posts = Nat.min (Z.to_nat (max_read o - read)) (length posts).
Proof.
  intros Hm. revert read matched. induction posts as [|b posts IH]; intros read matched Hr; [cbn; lia|]. cbn [looked_at].
  unfold reached. rewrite Hm. cbn [Z.ltb andb]. rewrite orb_false_r, (proj2 (Z.ltb_lt 0 (max_read o))) by lia. cbn [andb].
  destruct (Z.leb_spec (max_read o) (read + 1)); [cbn; lia|]. rewrite IH by lia. cbn. lia.
Qed.

(** ** Lemmas *)
Lemma filter_match_caplen bpf_filter f pkt h f' b : filter_match bpf_filter f pkt h = Ok (f', b) -> filter_caplen f' = filter_caplen f.
Proof.
  unfold filter_match. set (g := if first f then _ else f). assert (Hg : filter_caplen g = filter_caplen f) by (unfold g; by case_match).
  clearbody g. destruct (if index g =? 0 then _ else _) as [core| | |]; try discriminate. cbn [mbind res_bind].
  destruct (match bpf_prog g with Null => _ | _ => _ end) as [bm| | |]; try discriminate. cbn [mbind res_bind].
  intros H. injection H as <- _. rewrite <- Hg. repeat case_match; done.
Qed.

Definition caplen_limit (c : Z) : Prop := c = 4294967295 \/ 0 <= c < 2147483648.

Lemma trunc_ok c p : caplen_limit c -> packet_ok p -> packet_ok (trunc c p).
Proof.
  intros Hc Hp. unfold trunc. destruct (Z.eqb_spec c 4294967295); [done|]. destruct Hc as [?|Hc]; [done|]. destruct Hp as [H1 H2 H3 H4 H5 [H6 H7]].
  constructor; try done. cbn. assert (0 <= Z.min c (caplen p)) by (ints; lia). split; [|ints; lia]. rewrite blen_take; lia.
Qed.
Lemma truncate_captured f cp p : caplen_limit (filter_caplen f) -> captured cp = p -> packet_ok p -> caplen p < 2147483648 ->
  captured (truncate f cp) = trunc (filter_caplen f) p.
Proof.
  intros Hc <- Hp Hl. unfold truncate, trunc. destruct (Z.eqb_spec (filter_caplen f) 4294967295); [done|]. destruct Hc as [?|Hc]; [done|].
  destruct (ok_caplen _ Hp) as [_ Hu]. cbn in Hu, Hl. rewrite !i32_id by (ints; lia). rewrite u32_id by (ints; lia).
  unfold captured. destruct cp as [ni mp t l c' d]. cbn in *. f_equal. rewrite take_take. f_equal. lia.
Qed.

(** What a file gains. *)
Definition gains (before after : stream_file) (ps : list cap_header) : Prop :=
  at_end (file after) /\ content (file after) = content (file before) ++ contents ps [].
Definition gains_opt (before after : option stream_file) (ps : list cap_header) : Prop :=
  match before, after with Some b, Some a => gains b a ps | None, None => True | _, _ => False end.

Lemma gains_refl b : at_end (file b) -> gains b b [].
Proof. split; [done|]. by rewrite app_nil_r. Qed.
Lemma gains_cons a b c p ps : content (file b) = content (file a) ++ packet_image p -> gains b c ps -> gains a c (p :: ps).
Proof. intros Hb [He Hc]. split; [done|]. by rewrite Hc, Hb, contents_cons, <- (assoc_L (++)). Qed.

Lemma gains_opt_refl r : (forall f, r = Some f -> at_end (file f)) -> gains_opt r r [].
Proof. intros H. destruct r; [|done]. apply gains_refl. auto. Qed.
(** Copying a packet that lies in memory. *)
Lemma copy_packet_ok f cp p dst rej b :
  caplen_limit (filter_caplen f) -> captured cp = p -> packet_ok p -> caplen p < 2147483648 ->
  at_end (file dst) -> (forall r, rej = Some r -> at_end (file r)) ->
  exists dst' rej', copy_packet dst rej b (truncate f cp) = Ok (dst', rej', 0) /\ at_end (file dst') /\
    (forall r, rej' = Some r -> at_end (file r)) /\
    (forall d ps, gains dst' d ps -> gains dst d (chosen true [(trunc (filter_caplen f) p, b)] ++ ps)) /\
    (forall d ps, gains_opt rej' d ps -> gains_opt rej d (chosen false [(trunc (filter_caplen f) p, b)] ++ ps)).
Proof.
  intros Hc Hcp Hp Hl Hd Hr. pose proof (truncate_captured f cp p Hc Hcp Hp Hl) as Ht.
  set (q := trunc (filter_caplen f) p) in *. assert (Hq : packet_ok q) by (by apply trunc_ok).
  assert (Hcopy : forall s, at_end (file s) -> exists s', stream_copy s (truncate f cp) = Ok (s', 0) /\ at_end (file s') /\
    content (file s') = content (file s) ++ packet_image q).
  { intros s Hs. unfold stream_copy at 1. rewrite write_image, Ht by (by rewrite Ht). by apply stream_copy_ok. }
  unfold copy_packet. destruct b; cbn.
  - destruct (Hcopy dst Hd) as (d1 & -> & He & Hco). cbn [mbind res_bind]. exists d1, rej. split_and!; try done.
    intros d ps. by apply gains_cons.
  - destruct rej as [r|]; [|by exists dst, None].
    destruct (Hcopy r (Hr r eq_refl)) as (r1 & -> & He & Hco). cbn [mbind res_bind]. exists dst, (Some r1). split_and!; try done.
    + intros r2 [= <-]. done.
    + intros [d|] ps; [|done]. by apply gains_cons.
Qed.

Section LoopSpec.
Context {S : Type} {input : Input S} {laws : InputLaws S} {count : Counted S} {counted : CountedLaws S}.
Variable bpf_filter : list bpf_insn -> bytes -> Z -> Z -> Z.

(** The packets that were looked at, as they are written, with the decisions. *)
Definition split_of (o : options) (f : filter) (read matched : Z) (ps : list cap_header) (bs : list bool) : list (cap_header * bool) :=
  take (looked_at o read matched (post o bs)) (zip (map (trunc (filter_caplen f)) ps) (post o bs)).

Lemma filter_loop_ok fuel o f src dst rej matched_ ps bs :
  supplies src ps -> decided bpf_filter f ps bs -> (length ps < fuel)%nat -> Forall (fun p => caplen p < 2147483648) ps ->
  caplen_limit (filter_caplen f) -> at_end (file dst) -> (forall r, rej = Some r -> at_end (file r)) ->
  0 <= read_count src -> read_count src + Z.of_nat (length ps) < 18446744073709551616 ->
  0 <= matched_ -> matched_ + Z.of_nat (length ps) < 18446744073709551616 ->
  exists r, filter_loop bpf_filter fuel o f src dst rej matched_ = Ok r /\
    gains dst (out r) (chosen true (split_of o f (read_count src) matched_ ps bs)) /\
    gains_opt rej (rejects r) (chosen false (split_of o f (read_count src) matched_ ps bs)) /\
    matched r = matched_ + Z.of_nat (length (chosen true (split_of o f (read_count src) matched_ ps bs))) /\
    (ret_code r = 0 \/ ret_code r = -1).
Proof.
  revert f src dst rej matched_ ps bs. induction fuel as [|fuel IH]; intros f src dst rej m ps bs Hsup Hdec Hf Hcl Hc Hd Hr Hrc Hrb Hm Hmb; [lia|].
  cbn [filter_loop]. destruct Hdec as [f|f p ps f' b bs Hp Hdec].
  - destruct (next_end src Hsup) as [s' ->]. cbn [mbind res_bind]. change (-1 =? EAGAIN) with false. cbn [Z.eqb negb].
    eexists. split; [reflexivity|]. cbn. split_and!; [by apply gains_refl|by apply gains_opt_refl|lia|by right].
  - pose proof (supplies_ok _ _ Hsup) as Hok. apply Forall_cons_1 in Hok as [Hok _], Hcl as [Hclp Hcl].
    destruct (next_packet src p ps Hsup) as (s' & cp & Hn & Hcp & Hsup'). rewrite Hn. cbn [mbind res_bind]. change (0 =? EAGAIN) with false.
    cbn [Z.eqb negb]. pose proof (count_next _ _ _ _ _ Hsup Hn) as Hcount. cbn [length] in *. rewrite u64_id in Hcount by (ints; lia).
    destruct (in_memory_captured cp p Hcp) as [rest Hin]. specialize (Hp rest). rewrite <- Hin in Hp. unfold filter_status in Hp.
    destruct (filter_match bpf_filter f (payload cp) cp) as [[f1 b1]| | |] eqn:Efm; try discriminate. cbn [mbind res_bind] in *. injection Hp as -> ->.
    pose proof (filter_match_caplen _ _ _ _ _ _ Efm) as Hcf. rewrite <- Hcf in Hc.
    assert (Hpost : (if invert o then negb b else b) = xorb (invert o) b) by (by destruct (invert o), b). rewrite Hpost.
    set (x := xorb (invert o) b) in *.
    destruct (copy_packet_ok f' cp p dst rej x Hc Hcp Hok Hclp Hd Hr) as (dst' & rej' & -> & Hd' & Hr' & Hg & Hgr). cbn [mbind res_bind].
    assert (Hmx : (if x then u64 (m + 1) else m) = m + Z.b2z x) by (destruct x; cbn; [apply u64_id; ints|]; lia). rewrite Hmx, Hcount.
    assert (Hlen : forall q, Z.b2z x = Z.of_nat (length (chosen true [(q, x)]))) by (intros q; by destruct x).
    unfold split_of in *. cbn [post map looked_at]. fold x. fold (post o bs). cbn [negb Z.eqb]. rewrite orb_false_r.
    fold (reached o (read_count src + 1) (m + Z.b2z x)). rewrite <- Hcf. destruct (reached o _ _) eqn:Er; cbn [zip zip_with take].
    + eexists. split; [reflexivity|]. cbn [out rejects matched ret_code]. split_and!; [| |by rewrite <- Hlen|by left].
      * rewrite <- (app_nil_r (chosen true _)). by apply Hg, gains_refl.
      * rewrite <- (app_nil_r (chosen false _)). by apply Hgr, gains_opt_refl.
    + destruct (IH f' s' dst' rej' (m + Z.b2z x) ps bs) as (r & -> & H1 & H2 & H3 & H4); try done; try lia; [destruct x; cbn; lia..|].
      rewrite Hcount in H1, H2, H3. exists r. split; [done|]. rewrite (chosen_cons true _ (take _ _)), (chosen_cons false _ (take _ _)). split_and!; [by apply Hg|by apply Hgr| |done].
      rewrite H3, length_app, <- Z.add_assoc, (Hlen (trunc (filter_caplen f') p)). lia.
Qed.
End LoopSpec.

(** ** The program *)
Section Claims.
Variable bpf_filter : list bpf_insn -> bytes -> Z -> Z -> Z.
Variable e : env.
Variable stdin_tty stdout_tty : bool.
Variable dev_stdin dev_stdout : cptr.
Variable description : bytes.
Variable strdup : bytes -> cptr.

(** A capture file that holds the packets [ps]. *)
Record capture_file (f : FILE) (ps : list cap_header) : Prop := {
  cf_start : pos f = 0 /\ ferror f = None;
  cf_content : exists mpid c, blen c < 65536 /\ content f = file_header_image (new_header mpid c) ++ c ++ contents ps [];
  cf_fits : Forall (fits BUFSIZ) ps;
  cf_data : Forall (fun p => caplen p <> 0) ps;
}.

Lemma open_capfile_ok name f ps : e_fopen e (p_str name) = inl f -> capture_file f ps ->
  exists sf, open_capfile e strdup name = Ok (Some sf) /\ holds sf ps /\ read_count sf = 0.
Proof.
  intros Ho [[Hp He] (mpid & c & Hc & Hcont) Hfit Hdata].
  destruct (stream_open_file e name None mpid c (contents ps []) f) as (sf & E & _ & [Hi Hsz _ _ Hu Hs Hb [Hst _]]); try done.
  exists sf. split; [|split; [|done]].
  - unfold open_capfile. change (fst _) with (file_addr name). by rewrite E.
  - constructor; rewrite ?Hsz; try done. exists []. split; [by left|]. by rewrite Hu, Hb.
Qed.

Lemma create_capfile_ok name : e_fcreate e (p_str name) = inl empty_file ->
  exists w, create_capfile e description strdup name = Ok (Some w) /\ at_end (file w) /\
    content (file w) = file_header_image (new_header (B "CONV") description) ++ description.
Proof.
  intros Ho. destruct (stream_create_file e name None (B "CONV") description Ho) as (w & E & He & Hc). exists w. split; [|done].
  unfold create_capfile. change (fst _) with (file_addr name). by rewrite E.
Qed.

(** What the program is given: the input holds [ps] with the decisions [bs] of the
    filter on them, the outputs can be written. *)
Record job (fuel : nat) (o : options) (f : filter) (ps : list cap_header) (bs : list bool) : Prop := {
  job_input : exists file, e_fopen e (p_str (default dev_stdin (src_filename o))) = inl file /\ capture_file file ps;
  job_output : e_fcreate e (p_str (default dev_stdout (dst_filename o))) = inl empty_file;
  job_rejects : forall name, rej_filename o = Some name -> e_fcreate e (p_str name) = inl empty_file;
  job_tty : (src_filename o = None -> stdin_tty = false) /\ (dst_filename o = None -> stdout_tty = false);
  job_decided : decided bpf_filter f ps bs;
  job_caplen : caplen_limit (filter_caplen f);
  job_fuel : (length ps < fuel)%nat;
  job_length : Z.of_nat (length ps) < 18446744073709551616;
  job_description : blen description < 65536;
}.

(** A file the program has written, with the packets [ps]. *)
Definition written (f : FILE) (ps : list cap_header) : Prop :=
  at_end f /\ content f = file_header_image (new_header (B "CONV") description) ++ description ++ contents ps [].

Lemma capfilter_files fuel o f ps bs : job fuel o f ps bs ->
  let split := split_of o f 0 0 ps bs in
  exists r, capfilter bpf_filter e stdin_tty stdout_tty dev_stdin dev_stdout description strdup fuel o f = Ok (Done (r, 0)) /\
    written (file (out r)) (chosen true split) /\
    match rejects r with
    | Some rej => rej_filename o <> None /\ written (file rej) (chosen false split)
    | None => rej_filename o = None
    end /\
    matched r = Z.of_nat (length (chosen true split)).
Proof.
  intros [(inf & Hin & Hcap) Hout Hrej [Ht1 Ht2] Hdec Hcl Hf Hlen Hd]. cbn zeta. unfold capfilter.
  assert (E1 : bool_decide (src_filename o = None) && stdin_tty = false).
  { destruct (src_filename o); [done|]. rewrite Ht1 by done. apply andb_false_r. }
  assert (E2 : bool_decide (dst_filename o = None) && stdout_tty = false).
  { destruct (dst_filename o); [done|]. rewrite Ht2 by done. apply andb_false_r. }
  rewrite E1, E2. destruct (open_capfile_ok _ inf ps Hin Hcap) as (src & -> & Hh & Hrc). cbn [mbind res_bind].
  destruct (create_capfile_ok _ Hout) as (dst & -> & Hde & Hdc). cbn [mbind res_bind].
  assert (Hr : exists rej, match rej_filename o with
      | None => Ok (Some None)
      | Some name => rej ← create_capfile e description strdup name; Ok (match rej with Some rej => Some (Some rej) | None => None end)
      end = Ok (Some rej) /\
    match rej with
    | Some r => rej_filename o <> None /\ at_end (file r) /\ content (file r) = file_header_image (new_header (B "CONV") description) ++ description
    | None => rej_filename o = None
    end).
  { destruct (rej_filename o) as [name|]; [|by exists None]. destruct (create_capfile_ok name (Hrej _ eq_refl)) as (r & -> & Hre & Hrco).
    exists (Some r). by split. }
  destruct Hr as (rej & -> & Hrej'). cbn [mbind res_bind].
  destruct Hcap as [_ _ Hfit _].
  destruct (filter_loop_ok (laws := file_input_laws bpf_filter (Some read_timeout)) (counted := file_counted bpf_filter (Some read_timeout))
    bpf_filter fuel o f src dst rej 0 ps bs) as (r & E & H1 & H2 & H3 & H4); try done; rewrite ?Hrc; try lia.
  - eapply Forall_impl; [|exact Hfit]. intros p [_ Hs]. unfold sizeof_cap_header, BUFSIZ in Hs. cbn. lia.
  - intros r ->. by destruct Hrej' as (_ & ? & _).
  - rewrite E. cbn [mbind res_bind]. exists r. rewrite Hrc in H1, H2, H3. split.
    { destruct H4 as [-> | ->]; done. }
    split_and!; [| |done].
    + destruct H1 as [He Hc]. split; [done|]. by rewrite Hc, Hdc, <- (assoc_L (++)).
    + destruct rej as [rf|], (rejects r) as [rr|]; try done. destruct Hrej' as (Hne & _ & Hco), H2 as [He Hc]. split; [done|].
      split; [done|]. by rewrite Hc, Hco, <- (assoc_L (++)).
Qed.

(** C7: The program splits the input: the output file holds exactly the packets that
    the filter accepts (those that it rejects when inverted) among the packets up to
    the one that reaches a limit, the file of rejects the others, both in the order
    of the input and cut to the length the filter asks for; both read back as
    capture files, the number of matches is that of the packets written, and the exit
    code is zero. *)
Theorem capfilter_splits fuel o f ps bs : job fuel o f ps bs ->
  let split := split_of o f 0 0 ps bs in
  exists r, capfilter bpf_filter e stdin_tty stdout_tty dev_stdin dev_stdout description strdup fuel o f = Ok (Done (r, 0)) /\
    reads_back (e_fopen e) bpf_filter (file (out r)) description (chosen true split) /\
    match rejects r with
    | Some rej => rej_filename o <> None /\ reads_back (e_fopen e) bpf_filter (file rej) description (chosen false split)
    | None => rej_filename o = None
    end /\
    matched r = Z.of_nat (length (chosen true split)).
Proof.
  intros Hj. destruct (capfilter_files fuel o f ps bs Hj) as (r & E & [H1 H1'] & H2 & H3). pose proof (job_description _ _ _ _ _ Hj) as Hd.
  exists r. split; [done|]. split; [by apply reads_back_intro|]. split; [|done].
  destruct (rejects r) as [rej|]; [|done]. destruct H2 as [Hne [H2 H2']]. split; [done|]. by apply reads_back_intro.
Qed.
End Claims.

(** ** Witnesses *)

(** A program that accepts packets with other than two captured bytes, and a filter
    that cuts packets to two bytes. *)
Definition ex_bpf (_ : list bpf_insn) (_ : bytes) (_ caplen : Z) : Z := caplen - 2.
Definition ex_filter : filter := filter_init <| bpf_prog := Live [] |> <| filter_caplen := 2 |>.
Definition ex_input : FILE :=
  {| content := file_header_image (new_header (B "mp") (B "in")) ++ B "in" ++ contents ex_pkts []; pos := 0; ferror := None |}.
Definition ex_filter_env : env := {|
  e_fopen _ := inl ex_input; e_fcreate _ := inl empty_file; e_fp _ := ex_input; e_mkfifo _ := None; e_stat_error _ := None; e_sys := ex_system;
  e_raw_socket := None; e_raw_bind := None; e_eth_member _ := None; e_frames := []; e_udp_socket := None; e_udp_bind := ex_bind;
  e_udp_connect := ex_bind; e_udp_member := ex_join; e_path_mtu := ex_no_path; e_datagrams := [] |}.
Definition ex_name (s : bytes) : cptr := {| p_at := 4096; p_str := s |}.
Definition ex_options : options :=
  no_options <| src_filename := Some (ex_name (B "in")) |> <| dst_filename := Some (ex_name (B "out")) |> <| rej_filename := Some (ex_name (B "rej")) |>.

Lemma ex_job : job ex_bpf ex_filter_env true true (ex_name []) (ex_name []) (B "filtered") 3 ex_options ex_filter ex_pkts [true; false].
Proof.
  constructor; try done.
  - exists ex_input. split; [done|]. constructor; [done|by exists (B "mp"), (B "in")|by apply ex_fits|by repeat constructor].
  - eapply decided_cons; [intros rest; vm_compute; reflexivity|]. eapply decided_cons; [intros rest; vm_compute; reflexivity|]. constructor.
  - right. cbn. lia.
  - cbn. lia.
Qed.

Lemma capfilter_splits_witness : exists r,
  capfilter ex_bpf ex_filter_env true true (ex_name []) (ex_name []) (B "filtered") ex_strdup 3 ex_options ex_filter = Ok (Done (r, 0)) /\
  reads_back (e_fopen ex_filter_env) ex_bpf (file (out r)) (B "filtered") [trunc 2 (ex_pkt 1 [1; 2; 3])] /\ matched r = 1.
Proof.
  destruct (capfilter_splits ex_bpf ex_filter_env true true (ex_name []) (ex_name []) (B "filtered") ex_strdup 3 ex_options ex_filter ex_pkts [true; false] ex_job)
    as (r & H1 & H2 & _ & H3). exists r. split; [exact H1|]. split; [exact H2|exact H3].
Defined.

(** A length to cut to above 2^31 is negative for [min]: the packet is written with that
    length, from memory that is not its own. *)
Lemma capfilter_negative_caplen :
  copy_packet {| base := ex_stream; file := empty_file; force_flush := false |} None true (truncate (ex_filter <| filter_caplen := u32 (atoi (B "-2")) |>) (ex_pkt 1 [1; 2; 3])) = Fault.
Proof. vm_compute. reflexivity. Qed.

(** A name given with [-i] is replaced by a positional argument. *)
Lemma positional_replaces_input :
  src_filename (positional (no_options <| src_filename := Some (ex_name (B "a")) |>) [ex_name (B "b")]) = Some (ex_name (B "b")).
Proof. reflexivity. Qed.
