(* ===== verification/Pcap.v ===== *)
(** * Conversion from and to pcap (tools/pcap2cap.c, tools/cap2pcap.c)

    [pcap2cap] writes the packets libpcap delivers to a capture file, [cap2pcap] gives
    the packets of a stream to libpcap.  libpcap is a parameter: what it delivers and
    what it is given are lists of records. *)

From Stdlib Require Import QArith.
From S2P Require Import Prelude CLib Float Picotime Utils Address Packet Filter Stream StreamFile StreamBuffer Interface StreamEthernet StreamUdp Text StreamApi Tools Capfilter.

(** [struct pcap_pkthdr] and the bytes behind it. *)
Record pcap_record := { pc_sec : Z; pc_usec : Z; pc_len : Z; pc_caplen : Z; pc_data : bytes }.

(** ** pcap2cap *)

(** The capture header the program fills in; the default limit of the captured length. *)
Definition default_caplen : Z := 65535 - sizeof_cap_header.

(** [tv_usec * 1e6] is computed in double; [min] is a function of [int]. *)
Definition from_pcap (nic_ mampid_ : bytes) (limit : Z) (r : pcap_record) : cap_header := {|
  nic := nic_; head_mampid := mampid_;
  ts := {| tv_sec := u32 (pc_sec r); tv_psec := d_to_u64 (dmul (dbl (pc_usec r)) (inject_Z 1000000)) |};
  len := u32 (pc_len r);
  caplen := u32 (Z.min (i32 (pc_caplen r)) (i32 limit));
  payload := pc_data r |}.

(** The loop over the packets [pcap_next] delivers; a packet that cannot be written is
    reported and lost. *)
Fixpoint convert_loop (nic_ mampid_ : bytes) (limit : Z) (st : stream_file) (rs : list pcap_record) : res stream_file :=
  match rs with
  | [] => Ok st
  | r :: rs =>
      let cp := from_pcap nic_ mampid_ limit r in
      '(st, _) ← stream_write_separate st cp (payload cp) (caplen cp);
      convert_loop nic_ mampid_ limit st rs
  end.

(** Options: comment, interface, name of the measurement point, limit and output. *)
Record pcap2cap_options := {
  p_comment : bytes; p_nic : bytes; p_mampid : bytes; p_caplen : Z; p_dst : stream_addr;
}.
#[export] Instance pcap2cap_options_rebuild : Rebuild pcap2cap_options := fun o =>
  {| p_comment := p_comment o; p_nic := p_nic o; p_mampid := p_mampid o; p_caplen := p_caplen o; p_dst := p_dst o |}.

Section Pcap2cap.
Variable strdup : bytes -> cptr.

Fixpoint pcap2cap_parse (o : pcap2cap_options) (found : list (Z * cptr)) : outcome pcap2cap_options :=
  match found with
  | [] => Done o
  | (op, optarg) :: found =>
      if op =? 99 then pcap2cap_parse (o <| p_comment := p_str optarg |>) found
      else if op =? 109 then pcap2cap_parse (o <| p_mampid := strncpy (p_str optarg) 8 |>) found
      else if op =? 105 then pcap2cap_parse (o <| p_nic := take 7 (strncpy (p_str optarg) 8) ++ [0] |>) found
      else if op =? 108 then pcap2cap_parse (o <| p_caplen := u64 (atoi (p_str optarg)) |>) found
      else if op =? 111 then pcap2cap_parse (o <| p_dst := fst (stream_addr_str strdup (p_dst o) optarg 0) |>) found
      else if op =? 104 then Exit 0
      else pcap2cap_parse o found
  end.

(** Where the packets come from. *)
Inductive pcap_source := FromFile (name : bytes) | FromInterface (name : bytes).
Definition open_src (stdin_tty : bool) (nic_ : bytes) (args : list cptr) : res (option pcap_source) :=
  name ← arr_str nic_;
  let live := negb (bool_decide (name = B "CONV")) in
  Ok (match args with
      | [] => if negb stdin_tty then Some (FromFile (B "/dev/stdin")) else if live then Some (FromInterface name) else None
      | [file] => Some (FromFile (p_str file))
      | _ => None
      end).

Variable e : env.
Variable stdout_tty : bool.
Variable dev_stdout : cptr.

(** [cp->mampid] is used as a string. *)
Definition open_dst (o : pcap2cap_options) : res (option stream_t) :=
  if negb (stream_addr_is_set (p_dst o)) && stdout_tty then Ok None
  else
    let dst := if stream_addr_is_set (p_dst o) then p_dst o else fst (stream_addr_str strdup (p_dst o) dev_stdout 0) in
    nic_ ← arr_str (p_nic o);
    mpid ← arr_str (p_mampid o);
    '(st, ret, _) ← stream_create e dst (Some nic_) mpid (Some (p_comment o));
    Ok (if ret =? 0 then st else None).

(** [pcap_open] gives the packets of a source, if it can be opened.  The output is a
    capture file (for the other kinds see [StreamApi]). *)
Definition pcap2cap (stdin_tty : bool) (pcap_open : pcap_source -> option (list pcap_record)) (o : pcap2cap_options) (args : list cptr)
    : res (outcome stream_file) :=
  src ← open_src stdin_tty (p_nic o) args;
  dst ← open_dst o;
  match (src ≫= pcap_open), dst with
  | Some rs, Some (FileStream st) => st ← convert_loop (p_nic o) (p_mampid o) (p_caplen o) st rs; Ok (Done st)
  | Some _, Some _ => Fault
  | _, _ => Ok (Exit 1)
  end.
End Pcap2cap.

(** ** cap2pcap *)

(** [pcap_dump] writes the captured bytes of the packet. *)
Definition to_pcap (cp : cap_header) : pcap_record :=
  {| pc_sec := tv_sec (ts cp); pc_usec := tv_psec (ts cp) / 1000000; pc_len := len cp; pc_caplen := caplen cp;
     pc_data := take (Z.to_nat (caplen cp)) (payload cp) |}.

Section Cap2pcap.
Variable bpf_filter : list bpf_insn -> bytes -> Z -> Z -> Z.
Variable read_fuel : nat.

(** What is given to [pcap_dump], in order. *)
Fixpoint dump_loop (fuel : nat) (max_packets : Z) (st : stream_t) (f : option filter) : res (list pcap_record) :=
  match fuel with
  | O => OutOfFuel
  | S fuel =>
      '(st, f, (ret, cp)) ← stream_t_read bpf_filter read_fuel st f (Some {| tval_sec := 1; tval_usec := 0 |});
      if ret =? EAGAIN then dump_loop fuel max_packets st f
      else if negb (ret =? 0) then Ok []
      else match cp : option cap_header with
           | None => Fault
           | Some cp =>
               if (0 <? max_packets) && (max_packets <=? stat_matched (stream_get_stat st)) then Ok [to_pcap cp]
               else rs ← dump_loop fuel max_packets st f; Ok (to_pcap cp :: rs)
           end
  end.

(** The source is parsed once more than it is used, to report errors. *)
Definition cap2pcap (e : env) (strdup : bytes -> cptr) (stdin_tty : bool) (dev_stdin : Z) (dash : cptr)
    (can_dump : bool) (fuel : nat) (max_packets : Z) (name : option bytes) (f : filter) (args : list cptr)
    : res (outcome (list pcap_record)) :=
  ret ← match args with
        | arg :: _ => '(_, ret) ← stream_addr_aton strdup zero_addr arg STREAM_ADDR_GUESS 0; Ok ret
        | [] => Ok (if stdin_tty then EINVAL else 0)
        end;
  if negb (ret =? 0) then Ok (Exit 1)
  else
    '(st, ret, _) ← stream_from_getopt e strdup stdin_tty dev_stdin args name (Some dash) 0;
    if negb (ret =? 0) then Ok (Exit ret)
    else match st : option stream_t with
         | None => Fault
         | Some st =>
             _ ← stream_print_info st;
             if negb can_dump then Ok (Exit 1) else rs ← dump_loop fuel max_packets st (Some f); Ok (Done rs)
         end.

(** The options; those of the filter were taken out before. *)
Record cap2pcap_options := {
  d_out : option bytes;
  d_iface : option bytes;
  d_caplen : Z;
  d_linktype : Z;
  d_max : Z;
  d_quiet : bool;
}.
#[export] Instance cap2pcap_options_rebuild : Rebuild cap2pcap_options := fun o =>
  {| d_out := d_out o; d_iface := d_iface o; d_caplen := d_caplen o; d_linktype := d_linktype o; d_max := d_max o; d_quiet := d_quiet o |}.
Definition cap2pcap_defaults : cap2pcap_options :=
  {| d_out := None; d_iface := None; d_caplen := 9964; d_linktype := 1; d_max := 0; d_quiet := false |}.

Fixpoint cap2pcap_parse (o : cap2pcap_options) (found : list (Z * cptr)) : outcome cap2pcap_options :=
  match found with
  | [] => Done o
  | (op, optarg) :: found =>
      if op =? 111 then cap2pcap_parse (o <| d_out := Some (p_str optarg) |>) found
      else if op =? 105 then cap2pcap_parse (o <| d_iface := Some (p_str optarg) |>) found
      else if op =? 97 then cap2pcap_parse (o <| d_caplen := u64 (atoi (p_str optarg)) |>) found
      else if op =? 108 then cap2pcap_parse (o <| d_linktype := atoi (p_str optarg) |>) found
      else if op =? 112 then cap2pcap_parse (o <| d_max := u32 (atoi (p_str optarg)) |>) found
      else if op =? 113 then cap2pcap_parse (o <| d_quiet := true |>) found
      else if op =? 104 then Exit 0
      else cap2pcap_parse o found
  end.

(** [pcap_dump_open]: whether a file of that name, of that link type and snapshot length
    can be written.  The text on standard error is left out. *)
Definition cap2pcap_main (e : env) (strdup : bytes -> cptr) (stdin_tty stdout_tty : bool) (dev_stdin : Z) (dash : cptr)
    (pcap_dump_open : Z -> Z -> bytes -> bool) (fuel : nat) (f : filter) (found : list (Z * cptr)) (args : list cptr) : res (outcome (list pcap_record)) :=
  match cap2pcap_parse cap2pcap_defaults found with
  | Exit code => Ok (Exit code)
  | Done o =>
      let can_dump :=
        match d_out o with
        | Some name => pcap_dump_open (d_linktype o) (d_caplen o) name
        | None => if stdout_tty then false else pcap_dump_open (d_linktype o) (d_caplen o) (B "/dev/stdout")
        end in
      cap2pcap e strdup stdin_tty dev_stdin dash can_dump fuel (d_max o) (d_iface o) f args
  end.
End Cap2pcap.

(** ** Records and packets *)

(** A record as libpcap delivers it. *)
Record record_ok (r : pcap_record) : Prop := {
  r_sec : is_u32 (pc_sec r);
  r_usec : 0 <= pc_usec r < 1000000;
  r_len : is_u32 (pc_len r);
  r_caplen : 0 < pc_caplen r < 2147483648;
  r_data : blen (pc_data r) = pc_caplen r;
}.
Definition cut_record (limit : Z) (r : pcap_record) : pcap_record :=
  {| pc_sec := pc_sec r; pc_usec := pc_usec r; pc_len := pc_len r; pc_caplen := Z.min (pc_caplen r) limit;
     pc_data := take (Z.to_nat (Z.min (pc_caplen r) limit)) (pc_data r) |}.

(** The conversion of microseconds by way of doubles is exact. *)
Lemma pcap_time usec : 0 <= usec < 1000000 -> d_to_u64 (dmul (dbl usec) (inject_Z 1000000)) = usec * 1000000.
Proof.
  intros Hu. unfold d_to_u64, dmul. rewrite (dtrunc_int _ (usec * 1000000)).
  - apply u64_id. ints. lia.
  - apply round_int; [done| |lia]. rewrite dbl_int by lia. by rewrite <- inject_Z_mult.
Qed.

Section Convert.
Context (nic_ mampid_ : bytes) (limit : Z).
Hypothesis nic_len : blen nic_ = 8.
Hypothesis mampid_len : blen mampid_ = 8.
Hypothesis limit_range : 0 < limit < 2147483648.

Definition packet_of (r : pcap_record) : cap_header := captured (from_pcap nic_ mampid_ limit r).

Lemma packet_of_fields r : record_ok r ->
  ts (packet_of r) = {| tv_sec := pc_sec r; tv_psec := pc_usec r * 1000000 |} /\ len (packet_of r) = pc_len r /\
  caplen (packet_of r) = Z.min (pc_caplen r) limit /\ payload (packet_of r) = take (Z.to_nat (Z.min (pc_caplen r) limit)) (pc_data r).
Proof.
  intros [H1 H2 H3 H4 H5]. assert (Hc : caplen (from_pcap nic_ mampid_ limit r) = Z.min (pc_caplen r) limit).
  { cbn. rewrite !i32_id by lia. apply u32_id. ints. lia. }
  unfold packet_of. split_and!.
  - cbn. by rewrite pcap_time, u32_id.
  - cbn. by rewrite u32_id.
  - done.
  - unfold captured. cbn [payload field_set cap_header_rebuild]. rewrite Hc. done.
Qed.

Lemma packet_of_ok r : record_ok r -> packet_ok (packet_of r) /\ caplen (packet_of r) <> 0.
Proof.
  intros Hr. destruct (packet_of_fields r Hr) as (E1 & E2 & E3 & E4). destruct Hr as [H1 H2 H3 H4 H5].
  split; [|rewrite E3; lia]. constructor; try done; rewrite ?E1, ?E2, ?E3, ?E4; cbn; try done; [ints; lia|].
  split; [|ints; lia]. rewrite blen_take; lia.
Qed.

Lemma to_pcap_packet_of r : record_ok r -> to_pcap (packet_of r) = cut_record limit r.
Proof.
  intros Hr. destruct (packet_of_fields r Hr) as (E1 & E2 & E3 & E4). unfold to_pcap, cut_record. rewrite E1, E2, E3, E4. cbn.
  rewrite Z.div_mul by lia. f_equal. by rewrite take_take, Nat.min_id.
Qed.

(** A header and the data written separately are a packet. *)
Lemma write_separate_ok st cp : packet_ok (captured cp) -> caplen cp <> 0 -> at_end (file st) ->
  exists st', stream_write_separate st cp (payload cp) (caplen cp) = Ok (st', 0) /\ at_end (file st') /\
    content (file st') = content (file st) ++ packet_image (captured cp).
Proof.
  intros Hp Hc [He Hpos]. destruct (ok_caplen _ Hp) as [Hl Hu]. cbn in Hl, Hu. pose proof (blen_header _ Hp) as Hh.
  change (cap_header_image (captured cp)) with (cap_header_image cp) in Hh.
  assert (Hle : caplen cp <= blen (payload cp)) by (unfold blen in *; rewrite length_take in Hl; lia).
  unfold stream_write_separate, stream_file_write. rewrite (proj2 (Z.eqb_neq _ _)) by done.
  pose proof (slice_app [] (cap_header_image cp) [] 0 sizeof_cap_header) as E1. cbn in E1. rewrite app_nil_r in E1. rewrite E1 by done.
  cbn [mbind res_bind]. rewrite He. cbn [mbind res_bind Z.eqb negb].
  assert (E2 : slice (payload cp) 0 (caplen cp) = Ok (take (Z.to_nat (caplen cp)) (payload cp))).
  { unfold slice. rewrite !(proj2 (Z.ltb_ge _ _)) by (ints; lia). done. }
  rewrite E2. cbn [mbind res_bind file field_set]. rewrite fwrite_end by done. cbn [fst ferror]. eexists. split; [reflexivity|].
  cbn [file field_set]. rewrite fwrite_end by done. cbn [fst]. split; [by split|]. cbn [content]. by rewrite <- (assoc_L (++)).
Qed.

Lemma convert_loop_ok rs st : Forall record_ok rs -> at_end (file st) ->
  exists st', convert_loop nic_ mampid_ limit st rs = Ok st' /\ at_end (file st') /\
    content (file st') = content (file st) ++ contents (map packet_of rs) [].
Proof.
  revert st. induction rs as [|r rs IH]; intros st Hr He; cbn [convert_loop].
  - exists st. by rewrite app_nil_r.
  - apply Forall_cons_1 in Hr as [Hr Hrs]. destruct (packet_of_ok r Hr) as [Hp Hc].
    destruct (write_separate_ok st (from_pcap nic_ mampid_ limit r) Hp Hc He) as (st1 & -> & He1 & Hc1). cbn [mbind res_bind].
    destruct (IH st1 Hrs He1) as (st2 & -> & He2 & Hc2). exists st2. split_and!; [done..|].
    cbn [map]. by rewrite Hc2, Hc1, contents_cons, <- (assoc_L (++)).
Qed.
End Convert.

(** ** Dumping *)
Section Dump.
Variable bpf_filter : list bpf_insn -> bytes -> Z -> Z -> Z.
Variable read_fuel : nat.

(** All of a list, or at most [max] of it. *)
Definition limited {A : Type} (max : Z) (l : list A) : list A := if max =? 0 then l else take (Z.to_nat max) l.

Lemma to_pcap_memory p rest : packet_ok p -> to_pcap (in_memory p rest) = to_pcap p.
Proof.
  intros Hp. destruct (ok_caplen _ Hp) as [Hc _]. unfold to_pcap, in_memory. cbn. f_equal. unfold blen in Hc.
  rewrite take_app_le by lia. done.
Qed.
Lemma contents_suffix sk ps tail : blen (contents ps tail) <= blen (contents (sk ++ ps) tail).
Proof.
  unfold contents. rewrite map_app, concat_app, !blen_app. pose proof (blen_nonneg (concat (map packet_image sk))). lia.
Qed.

Lemma dump_loop_ok fuel max sf f ps bs tail :
  stream_inv (base sf) -> source_ok (file sf) -> Forall (fits (buffer_size (base sf))) ps -> stuck (buffer_size (base sf)) tail ->
  unread (base sf) ++ remaining (file sf) = contents ps tail -> decided bpf_filter f ps bs ->
  2 * blen (contents ps tail) < Z.of_nat read_fuel -> (length ps < fuel)%nat ->
  0 <= stat_matched (stat (base sf)) -> stat_matched (stat (base sf)) + Z.of_nat (length ps) < 18446744073709551616 ->
  (max = 0 \/ stat_matched (stat (base sf)) < max) ->
  dump_loop bpf_filter read_fuel fuel max (FileStream sf) (Some f) =
    Ok (map to_pcap (if max =? 0 then chosen true (zip ps bs)
                     else take (Z.to_nat (max - stat_matched (stat (base sf)))) (chosen true (zip ps bs)))).
Proof.
  revert sf f ps bs. induction fuel as [|fuel IH]; intros sf f ps bs Hi Hs Hfit Hst E Hdec Hrf Hf Hm Hmb Hmax; [lia|].
  cbn [dump_loop stream_t_read].
  assert (Hfuel : blen (contents ps tail) + blen (remaining (file sf)) < Z.of_nat read_fuel).
  { assert (blen (remaining (file sf)) <= blen (contents ps tail)); [|lia]. rewrite <- E, blen_app. pose proof (blen_nonneg (unread (base sf))). lia. }
  destruct (decided_selects _ _ _ _ Hdec) as [(f' & Hsel & Hch)|(f' & p & rest & bs' & Hsel & Hdec' & Hch & sk & ->)].
  - destruct (read_loop_spec bpf_filter read_fuel (base sf) (file sf) (Some f) ps tail (Some {| tval_sec := 1; tval_usec := 0 |}) _ _ Hi Hs Hfit Hst E Hsel Hfuel)
      as (st' & s' & _ & _ & _ & H). unfold stream_read. rewrite H. cbn [mbind res_bind]. change (-1 =? EAGAIN) with false. cbn [Z.eqb negb].
    rewrite Hch. destruct (max =? 0); [done|]. by rewrite take_nil.
  - destruct (read_loop_spec bpf_filter read_fuel (base sf) (file sf) (Some f) (sk ++ p :: rest) tail (Some {| tval_sec := 1; tval_usec := 0 |}) _ _ Hi Hs Hfit Hst E Hsel Hfuel)
      as (st' & s' & Hi' & Hs' & Hsz & rst & H & E'). unfold stream_read. rewrite H. cbn [mbind res_bind]. change (0 =? EAGAIN) with false. cbn [Z.eqb negb].
    apply read_loop_stat in H as [Hcount _]. rewrite length_app in Hf, Hmb. cbn [length] in Hf, Hmb. rewrite u64_id in Hcount by (ints; lia).
    apply Forall_app in Hfit as [_ Hfit]. apply Forall_cons_1 in Hfit as [[Hp _] Hfit].
    rewrite (to_pcap_memory p rst Hp), Hch. set (sf' := sf <| base := st' |> <| file := s' |>).
    change (stream_get_stat (FileStream sf')) with (stat st'). rewrite Hcount.
    assert (Hrf' : 2 * blen (contents rest tail) < Z.of_nat read_fuel).
    { assert (blen (contents rest tail) <= blen (contents (sk ++ p :: rest) tail)); [|lia].
      etrans; [|apply contents_suffix]. apply (contents_suffix [p]). }
    destruct (Z.eqb_spec max 0) as [->|Hne]; cbn [Z.ltb andb].
    + rewrite (IH sf' f' rest bs'); cbn [base file field_set sf']; rewrite ?Hsz, ?Hcount; try done; try lia.
    + destruct Hmax as [?|Hmax]; [done|]. rewrite (proj2 (Z.ltb_lt 0 max)) by lia. cbn [andb].
      destruct (Z.leb_spec max (stat_matched (stat (base sf)) + 1)) as [Hle|Hgt].
      * replace (max - stat_matched (stat (base sf))) with 1 by lia. done.
      * rewrite (IH sf' f' rest bs'); cbn [base file field_set sf']; rewrite ?Hsz, ?Hcount; try done; try lia.
        cbn [mbind res_bind].
        replace (Z.to_nat (max - stat_matched (stat (base sf)))) with (S (Z.to_nat (max - (stat_matched (stat (base sf)) + 1)))) by lia. done.
Qed.
End Dump.

(** ** The programs *)

(** A name with its prefix is parsed to the address of the file. *)
Lemma file_name_parsed strdup arg name : p_str arg = B "file://" ++ name -> (length name < 41)%nat -> Forall (fun c => c <> 0) name ->
  stream_addr_aton strdup zero_addr arg STREAM_ADDR_GUESS 0 = Ok (file_addr (skip7 arg), 0) /\ p_str (skip7 arg) = name.
Proof.
  intros Ha Hl Hn. split; [|by cbn; rewrite Ha].
  rewrite (aton_guess strdup zero_addr arg (B "file") name); [done|done| | |].
  - rewrite Ha, length_app. cbn. lia.
  - rewrite Ha. apply Forall_app. split; [repeat constructor; done|done].
  - by rewrite Ha.
Qed.

Lemma arr_str_zero s : existsb (Z.eqb 0) s = true -> exists t, arr_str s = Ok t.
Proof. intros H. unfold arr_str. rewrite H. eauto. Qed.

Lemma arr_str_length s t : arr_str s = Ok t -> (length t <= length s)%nat.
Proof. unfold arr_str. case_match; [|discriminate]. intros [= <-]. apply length_cstr. Qed.

(** Printing what is known of a file does not fail. *)
Lemma print_info_ok sf p mpid c body size :
  opened sf (new_header mpid c) c body size -> st_addr (base sf) = file_addr p -> (length mpid < 200)%nat ->
  exists text, stream_print_info (FileStream sf) = Ok text.
Proof.
  intros Hop Ha Hm. destruct Hop as [_ _ Hh Hc _ _ _ _]. unfold stream_print_info, stream_get_version, stream_get_mampid, stream_get_comment.
  cbn [base_of]. rewrite Ha, Hh, Hc. cbn [fh_mpid new_header].
  assert (Hz : existsb (Z.eqb 0) (strncpy mpid 200) = true).
  { rewrite strncpy_short by lia. rewrite existsb_app. destruct (200 - length mpid)%nat eqn:E; [lia|]. cbn. apply orb_true_r. }
  assert (Hl : 0 <= 0 < blen (strncpy mpid 200)) by (unfold blen; rewrite length_strncpy; lia).
  destruct (rd8_in _ 0 Hl) as [c0 ->]. destruct (arr_str_zero _ Hz) as [t Ht].
  destruct (arr_str_zero (c ++ [0])) as [t2 Ht2]; [rewrite existsb_app; apply orb_true_r|].
  cbn [mbind res_bind stream_addr_ntoa]. unfold fputs_printable. rewrite Ht, Ht2. destruct (c0 =? 0); cbn; eauto.
Qed.

Section Claims.
Variable bpf_filter : list bpf_insn -> bytes -> Z -> Z -> Z.
Variable e : env.
Variable strdup : bytes -> cptr.

(** A capture file that can be opened by its name, its comment and packets, and the
    decisions of the filter on them. *)
Record readable (arg : cptr) (mpid c : bytes) (ps : list cap_header) (f : filter) (bs : list bool) : Prop := {
  rd_name : exists name, p_str arg = B "file://" ++ name /\ (length name < 41)%nat /\ Forall (fun c => c <> 0) name /\
    exists file, e_fopen e name = inl file /\ pos file = 0 /\ ferror file = None /\
      content file = file_header_image (new_header mpid c) ++ c ++ contents ps [];
  rd_comment : blen c < 65536;
  rd_mpid : (length mpid < 200)%nat;
  rd_fits : Forall (fits BUFSIZ) ps;
  rd_decided : decided bpf_filter f ps bs;
  rd_length : Z.of_nat (length ps) < 18446744073709551616;
}.

(** The records are those of the packets the filter accepts, in order, at most as many as
    were asked for. *)
Lemma cap2pcap_records read_fuel fuel tty dev dash max iface_ f arg ps bs mpid c :
  readable arg mpid c ps f bs -> 0 <= max -> 2 * blen (contents ps []) < Z.of_nat read_fuel -> (length ps < fuel)%nat ->
  cap2pcap bpf_filter read_fuel e strdup tty dev dash true fuel max iface_ f [arg] =
    Ok (Done (map to_pcap (limited max (chosen true (zip ps bs))))).
Proof.
  intros [(name & Ha & Hl & Hn & file & Ho & Hp & He & Hcont) Hc Hm Hfit Hdec Hlen] Hmax Hrf Hf.
  destruct (file_name_parsed strdup arg name Ha Hl Hn) as [Hparse Hname].
  unfold cap2pcap. rewrite Hparse. cbn [mbind res_bind Z.eqb negb]. unfold stream_from_getopt.
  assert (Hdash : bool_decide (p_str arg = B "-") = false) by (apply bool_decide_eq_false; rewrite Ha; discriminate).
  rewrite Hdash. cbn [andb]. rewrite Hparse. cbn [mbind res_bind Z.eqb negb].
  change (stream_addr_type (file_addr (skip7 arg))) with STREAM_ADDR_CAPFILE. cbn [Z.eqb STREAM_ADDR_CAPFILE STREAM_ADDR_ETHERNET andb].
  destruct (stream_open_file e (skip7 arg) iface_ mpid c (contents ps []) file) as (sf & -> & Haddr & Hop); try done; [by rewrite Hname|].
  cbn [mbind res_bind Z.eqb negb tail]. destruct (print_info_ok sf _ mpid c _ _ Hop Haddr Hm) as [text ->]. cbn [mbind res_bind].
  destruct Hop as [Hi Hsz _ _ Hu Hs Hb [_ Hst]].
  rewrite (dump_loop_ok bpf_filter read_fuel fuel max sf f ps bs []); rewrite ?Hsz, ?Hst; try done; try lia; [|by left|by rewrite Hu, Hb].
  rewrite Z.sub_0_r. done.
Qed.

End Claims.

(** A filter without criteria accepts every packet. *)
Lemma decided_all bpf_filter f ps : index f = 0 -> bpf_prog f = Null -> decided bpf_filter f ps (replicate (length ps) true).
Proof.
  revert f. induction ps as [|p ps IH]; intros f Hi Hb; cbn [length replicate]; [constructor|].
  set (g := if first f then f <| frame_last_ts := ts p |> <| first := false |> else f).
  assert (Hg : index g = 0 /\ bpf_prog g = Null) by (unfold g; by destruct (first f)). destruct Hg as [Hgi Hgb].
  set (g2 := match frame_num g with node :: nx => if (0 <? upper node) && (upper node <? frame_counter g) then g <| frame_num := nx |> else g | [] => g end).
  assert (Hg2 : index g2 = 0 /\ bpf_prog g2 = Null) by (unfold g2; repeat case_match; done). destruct Hg2 as [Hg2i Hg2b].
  apply (decided_cons _ _ _ _ (g2 <| frame_counter := i32 (frame_counter g2 + 1) |> <| frame_last_ts := ts p |>)); [|by apply IH].
  intros rest. unfold filter_status, filter_match. change (ts (in_memory p rest)) with (ts p). fold g.
  rewrite Hgi, Hgb. done.
Qed.

Lemma chosen_all ps : chosen true (zip ps (replicate (length ps) true)) = ps.
Proof. induction ps as [|p ps IH]; [done|]. cbn. f_equal. exact IH. Qed.

(** ** There and back *)
Section RoundTrip.
Variable bpf_filter : list bpf_insn -> bytes -> Z -> Z -> Z.
Variable strdup : bytes -> cptr.

(** What is converted: records that fit the buffer of a reader, to a new file. *)
Record conversion (e : env) (stdin_tty : bool) (pcap_open : pcap_source -> option (list pcap_record)) (o : pcap2cap_options) (args : list cptr)
    (rs : list pcap_record) : Prop := {
  cv_source : exists src, open_src stdin_tty (p_nic o) args = Ok (Some src) /\ pcap_open src = Some rs;
  cv_records : Forall record_ok rs;
  cv_fits : Forall (fun r => Z.min (pc_caplen r) (p_caplen o) <= BUFSIZ - sizeof_cap_header) rs;
  cv_limit : 0 < p_caplen o < 2147483648;
  cv_names : blen (p_nic o) = 8 /\ (exists n, arr_str (p_nic o) = Ok n) /\ blen (p_mampid o) = 8 /\ (exists n, arr_str (p_mampid o) = Ok n);
  cv_comment : blen (p_comment o) < 65536;
  cv_output : exists p, p_dst o = file_addr p /\ stream_addr_is_set (p_dst o) = true /\ e_fcreate e (p_str p) = inl empty_file;
  cv_count : Z.of_nat (length rs) < 18446744073709551616;
}.

Lemma pcap2cap_ok e stdin_tty stdout_tty dev_stdout pcap_open o args rs : conversion e stdin_tty pcap_open o args rs ->
  exists st mpid, pcap2cap strdup e stdout_tty dev_stdout stdin_tty pcap_open o args = Ok (Done st) /\ arr_str (p_mampid o) = Ok mpid /\
    at_end (file st) /\ content (file st) = file_header_image (new_header mpid (p_comment o)) ++ p_comment o ++
      contents (map (packet_of (p_nic o) (p_mampid o) (p_caplen o)) rs) [].
Proof.
  intros [(src & Hsrc & Hopen) Hr _ Hl (Hn8 & [n Hn] & Hm8 & [mpid Hm]) _ (p & Hd & Hset & Ho) _].
  unfold pcap2cap, open_dst. rewrite Hsrc, Hset, Hn, Hm, Hd. cbn [negb andb mbind res_bind].
  destruct (stream_create_file e p (Some n) mpid (p_comment o) Ho) as (w & -> & He & Hc). cbn [mbind res_bind option_bind Z.eqb]. rewrite Hopen.
  destruct (convert_loop_ok (p_nic o) (p_mampid o) (p_caplen o) Hn8 Hm8 Hl rs w Hr He) as (st & -> & Hst & Hcont). cbn [mbind res_bind].
  exists st, mpid. split_and!; try done. by rewrite Hcont, Hc, <- (assoc_L (++)).
Qed.

End RoundTrip.

(** ** Witnesses *)
Definition ex_records : list pcap_record :=
  [ {| pc_sec := 1; pc_usec := 999999; pc_len := 60; pc_caplen := 3; pc_data := [1; 2; 3] |};
    {| pc_sec := 2; pc_usec := 7; pc_len := 60; pc_caplen := 2; pc_data := [4; 5] |} ].
Definition ex_out : cptr := {| p_at := 4097; p_str := B "out" |}.
Definition ex_pcap_options : pcap2cap_options :=
  {| p_comment := B "hello"; p_nic := strncpy (B "CONV") 8; p_mampid := strncpy (B "host") 8; p_caplen := default_caplen; p_dst := file_addr ex_out |}.
Definition ex_pcap_open (src : pcap_source) : option (list pcap_record) := match src with FromFile _ => Some ex_records | _ => None end.
Definition ex_pcap_args : list cptr := [ex_name (B "in.pcap")].

Lemma ex_conversion : conversion ex_filter_env true ex_pcap_open ex_pcap_options ex_pcap_args ex_records.
Proof.
  constructor; try done.
  - by eexists.
  - repeat constructor; done.
  - repeat constructor; done.
  - split_and!; [done|by eexists|done|by eexists].
  - by exists ex_out.
Qed.

(** The file that was written, and a system on which it is found. *)
Definition ex_converted : FILE :=
  match pcap2cap ex_strdup ex_filter_env true ex_out true ex_pcap_open ex_pcap_options ex_pcap_args with Ok (Done st) => file st | _ => empty_file end.
Definition ex_back_env : env := {|
  e_fopen _ := inl (rewind ex_converted); e_fcreate _ := inl empty_file; e_fp _ := empty_file; e_mkfifo _ := None; e_stat_error _ := None; e_sys := ex_system;
  e_raw_socket := None; e_raw_bind := None; e_eth_member _ := None; e_frames := []; e_udp_socket := None; e_udp_bind := ex_bind;
  e_udp_connect := ex_bind; e_udp_member := ex_join; e_path_mtu := ex_no_path; e_datagrams := [] |}.


(** The length of --caplen is only given to libpcap: packets are written whole. *)
Lemma cap2pcap_keeps_length bpf rf e strdup t1 t2 dev dash can fuel f out n args :
  cap2pcap_main bpf rf e strdup t1 t2 dev dash (fun _ _ => can) fuel f [(111, out); (97, n)] args =
  cap2pcap_main bpf rf e strdup t1 t2 dev dash (fun _ _ => can) fuel f [(111, out)] args.
Proof. reflexivity. Qed.

(** A record without captured bytes is not converted. *)
Lemma pcap2cap_empty_lost : content ex_converted =
  content (match convert_loop (p_nic ex_pcap_options) (p_mampid ex_pcap_options) default_caplen
             {| base := ex_stream; file := {| content := take 221 (content ex_converted); pos := 221; ferror := None |}; force_flush := false |}
             ({| pc_sec := 0; pc_usec := 0; pc_len := 60; pc_caplen := 0; pc_data := [] |} :: ex_records) with Ok st => file st | _ => empty_file end).
Proof. vm_compute. reflexivity. Qed.

(** A name of eight characters for the measurement point has no terminator, but is used
    as a string. *)
Lemma pcap2cap_long_mpid :
  open_dst ex_strdup ex_filter_env true ex_out (ex_pcap_options <| p_mampid := strncpy (B "measure1") 8 |>) = Fault.
Proof. vm_compute. reflexivity. Qed.
