(* ===== verification/Capinfo.v ===== *)
(** * capinfo (tools/capinfo.c): a summary of a capture file

    The program counts packets and bytes, in all and by measurement point, interface,
    location, network protocol and transport protocol, and prints a report on every file:
    a heading, an overview (its numbers are in [Overview]) and the protocols. *)

From stdpp Require Import gmap.
From S2P Require Import Prelude CLib Picotime Slist Packet Utils Address Filter Stream StreamFile StreamBuffer Interface StreamEthernet StreamUdp Text Overview StreamApi Marker Tools Capmerge Capfilter.

(** ** Data *)

Record count := { c_packets : Z; c_bytes : Z }.
Definition no_count : count := {| c_packets := 0; c_bytes := 0 |}.

(** Arrays of counters: an index that was never counted is not in the map. *)
Abbreviation counters := (gmap Z count).
Definition UINT16_MAX : Z := 65535.
Definition UINT8_MAX : Z := 255.

Record stats := {
  packets : Z;
  bytes_ : Z;
  byte_min : Z;
  byte_max : Z;
  s_first : timepico;
  s_last : timepico;
  marker_present : Z;
  transport : counters;
}.
#[export] Instance stats_rebuild : Rebuild stats := fun s =>
  {| packets := packets s; bytes_ := bytes_ s; byte_min := byte_min s; byte_max := byte_max s; s_first := s_first s;
     s_last := s_last s; marker_present := marker_present s; transport := transport s |}.

(** The variables of the program. *)
Record info := {
  global : stats;
  ipproto : counters;
  mpid : slist bytes stats;
  CI : slist bytes stats;
  location : slist bytes stats;
  mampid_buffer : bytes;      (** the static arrays of [get_mampid_list] and [get_CI_list] *)
  CI_buffer : bytes;
}.
#[export] Instance info_rebuild : Rebuild info := fun i =>
  {| global := global i; ipproto := ipproto i; mpid := mpid i; CI := CI i; location := location i;
     mampid_buffer := mampid_buffer i; CI_buffer := CI_buffer i |}.

(** ** Counting *)

(** The times are left as they are. *)
Definition reset_stats (s : stats) : stats :=
  s <| packets := 0 |> <| bytes_ := 0 |> <| byte_min := UINT16_MAX |> <| byte_max := 0 |> <| marker_present := 0 |> <| transport := ∅ |>.

(** [min] and [max] are functions of [unsigned int]. *)
Definition store_stats (s : stats) (cp : cap_header) : stats :=
  let s := s <| packets := u64 (packets s + 1) |> in
  let s := if packets s =? 1 then s <| s_first := ts cp |> else s in
  let s := s <| s_last := ts cp |> in
  let s := s <| bytes_ := u64 (bytes_ s + len cp) |> in
  let s := s <| byte_min := Z.min (u32 (byte_min s)) (len cp) |> in
  s <| byte_max := Z.max (u32 (byte_max s)) (len cp) |>.

(** An element of an array of [size] counters. *)
Definition bump (size : Z) (a : counters) (i len : Z) : res counters :=
  if (0 <=? i) && (i <? size) then
    let c := default no_count (a !! i) in
    Ok (<[i := {| c_packets := u64 (c_packets c + 1); c_bytes := u64 (c_bytes c + len) |}]> a)
  else Fault.

Definition reset (i : info) : info :=
  i <| global := reset_stats (global i) |> <| ipproto := ∅ |>
    <| mpid := slist_clear (mpid i) |> <| CI := slist_clear (CI i) |> <| location := slist_clear (location i) |>.

(** [snprintf] into 17 bytes. *)
Definition get_location (cp : cap_header) : bytes :=
  take 16 (cstr (take 8 (head_mampid cp)) ++ B ":" ++ cstr (take 8 (nic cp))).

Section Info.
Variable garbage : stats.     (** a slot that was not written yet *)

(** [key] is the string at the pointer; at most [maxlen] bytes of it are looked at. *)
Definition store_unique (l : slist bytes stats) (key : bytes) (maxlen : nat) : res (slist bytes stats * sptr) :=
  match slist_find (fun cur key => strncmp cur key maxlen) l key with
  | Some p => Ok (l, p)
  | None =>
      '(l, p) ← slist_put l (take maxlen key);
      l ← store l p (reset_stats garbage);
      Ok (l, p)
  end.
Definition store_in (l : slist bytes stats) (key : bytes) (maxlen : nat) (cp : cap_header) : res (slist bytes stats) :=
  '(l, p) ← store_unique l key maxlen;
  s ← deref l p;
  store l p (store_stats s cp).

Definition store_mampid (i : info) (cp : cap_header) : res info :=
  l ← store_in (mpid i) (cstr (take 8 (head_mampid cp))) 8 cp; Ok (i <| mpid := l |>).
Definition store_CI (i : info) (cp : cap_header) : res info :=
  l ← store_in (CI i) (cstr (take 8 (nic cp))) 8 cp; Ok (i <| CI := l |>).
Definition store_location (i : info) (cp : cap_header) : res info :=
  l ← store_in (location i) (get_location cp) 17 cp; Ok (i <| location := l |>).

(** The protocol in the IPv4 header, behind one VLAN tag too. *)
Definition ip_protocol (m : bytes) (h_proto : Z) : res (option Z) :=
  if h_proto =? 0x8100 then p ← rd8 m (18 + 9); Ok (Some p)
  else if h_proto =? 0x0800 then p ← rd8 m (14 + 9); Ok (Some p)
  else Ok None.

Definition parse_ethernetII (i : info) (cp : cap_header) (h_proto : Z) : res info :=
  t ← bump UINT16_MAX (transport (global i)) h_proto (len cp);
  let i := i <| global := (global i) <| transport := t |> |> in
  proto ← ip_protocol (payload cp) h_proto;
  match proto : option Z with
  | None => Ok i
  | Some p => a ← bump UINT8_MAX (ipproto i) p (len cp); Ok (i <| ipproto := a |>)
  end.

(** The first marker. *)
Definition note_marker (i : info) (cp : cap_header) : res info :=
  if marker_present (global i) =? 0
  then '(port, _) ← is_marker (payload cp) false 0; Ok (i <| global := (global i) <| marker_present := port |> |>)
  else Ok i.

(** One packet. *)
Definition show_packet (i : info) (cp : cap_header) : res info :=
  i ← note_marker i cp;
  let i := i <| global := store_stats (global i) cp |> in
  i ← store_mampid i cp;
  i ← store_CI i cp;
  i ← store_location i cp;
  h_proto ← be16 (payload cp) 12;
  if h_proto <=? 0x05DC then Ok i else parse_ethernetII i cp h_proto.

(** The loop over the packets; any result but 0 ends it. *)
Fixpoint show_loop {S : Type} {input : Input S} (fuel : nat) (i : info) (s : S) : res info :=
  match fuel with
  | O => OutOfFuel
  | Datatypes.S fuel =>
      '(s, (ret, cp)) ← next s;
      if negb (ret =? 0) then Ok i
      else match cp : option cap_header with
           | None => Fault
           | Some cp => i ← show_packet i cp; show_loop fuel i s
           end
  end.

(** ** The report *)

(** The text that [sprintf] leaves in [dst], an array of [room] bytes; without strings
    nothing is written and the array keeps what it had. *)
Fixpoint join_from (room : Z) (dst : bytes) (delimiter : bytes) (src : list bytes) : res bytes :=
  match src with
  | [] => Ok dst
  | s :: src =>
      let piece := delimiter ++ s in
      if room <? blen dst + blen piece + 1 then Fault else join_from room (dst ++ piece) delimiter src
  end.
Definition array_join (room : Z) (dst : bytes) (src : list bytes) (delimiter : bytes) : res bytes :=
  match src with
  | [] => Ok dst
  | s :: src => if room <? blen s + 1 then Fault else join_from room s delimiter src
  end.
Definition get_mampid_list (i : info) (delimiter : bytes) : res info :=
  b ← array_join 2048 (mampid_buffer i) (key (mpid i)) delimiter; Ok (i <| mampid_buffer := b |>).
Definition get_CI_list (i : info) (delimiter : bytes) : res info :=
  b ← array_join 2048 (CI_buffer i) (key (CI i)) delimiter; Ok (i <| CI_buffer := b |>).

Variable strftime : Z -> bytes -> bytes.       (** the text for a time in UTC and a format *)

Definition get_comment (comment_ : option bytes) : bytes := default (B "(unset)") (cstr <$> comment_).

(** The overview, and the variables with the names joined. *)
Definition overview_lines (g : stats) (names mampids comment_ first_str last_str sec_str byte_str rate_str : bytes) : bytes :=
  let marker_str := if marker_present g =? 0 then B "no" else B "present on port " ++ fmt_d (marker_present g) in
  let some n := if 0 <? packets g then i32 n else 0 in
  B "Overview" ++ nl ++ B "--------" ++ nl ++
  B "       CI: " ++ names ++ nl ++
  B "     mpid: " ++ mampids ++ nl ++
  B "  comment: " ++ comment_ ++ nl ++
  B " captured: " ++ first_str ++ B " to " ++ last_str ++ nl ++
  B "  markers: " ++ marker_str ++ nl ++
  B " duration: " ++ sec_str ++ B " (" ++ fmt_f1 (float_tenths (hseconds (timepico_sub (s_last g) (s_first g)))) ++ B " seconds)" ++ nl ++
  B "  packets: " ++ fmt_zd (packets g) ++ nl ++
  B "    bytes: " ++ byte_str ++ nl ++
  B " pkt size: min/avg/max = " ++ dec (some (byte_min g)) ++ B "/" ++ dec (some (bytes_ g / packets g)) ++ B "/" ++ dec (some (byte_max g)) ++ nl ++
  B " avg rate: " ++ rate_str ++ nl ++ nl.

Definition location_line (k : bytes) (s : stats) : bytes :=
  B "  location:" ++ k ++ B " " ++ fmt_f1 (float_tenths (hseconds (timepico_sub (s_last s) (s_first s)))) ++ B " seconds, " ++
  fmt_zd (packets s) ++ B " packets, " ++ fmt_zd (bytes_ s) ++ B " bytes" ++ nl.
(** The lines from the entry [i] on; [ks] are the keys from there on. *)
Fixpoint location_lines (l : slist bytes stats) (i : Z) (ks : list bytes) : res bytes :=
  match ks with
  | [] => Ok []
  | k :: ks => s ← deref l (slist_get l i); rest ← location_lines l (i + 1) ks; Ok (location_line k s ++ rest)
  end.

Definition print_overview (i : info) (comment_ : option bytes) : res (info * bytes) :=
  let g := global i in
  let hs := hseconds (timepico_sub (s_last g) (s_first g)) in
  first_str ← timepico_to_string_r strftime (s_first g) 128 (B "%F %T");
  last_str ← timepico_to_string_r strftime (s_last g) 128 (B "%F %T");
  byte_str ← format_bytes 128 (bytes_ g);
  rate_str ← format_rate 128 (bytes_ g) (hs / 10);
  let sec_str := format_seconds 128 (s_first g) (s_last g) in
  i ← get_CI_list i (B ", ");
  i ← get_mampid_list i (B ", ");
  locations ← location_lines (location i) 0 (key (location i));
  Ok (i, overview_lines g (CI_buffer i) (mampid_buffer i) (get_comment comment_) first_str last_str sec_str byte_str rate_str ++
         B "Locations" ++ nl ++ B "---------" ++ nl ++ locations ++ nl).

Variable getprotobynumber : Z -> option bytes.

Definition count_line (c : count) : bytes := dec (c_packets c) ++ B " packets, " ++ dec (c_bytes c) ++ B " bytes" ++ nl.
Definition network_line (i : Z) : bytes :=
  match ethertype_by_number i with
  | Some (name, _) => padl 32 9 name ++ B ": "
  | None => B "   0x" ++ padl 48 4 (HEX i) ++ B ": "
  end.
(** The protocols without a name are added up. *)
Fixpoint transport_lines (a : counters) (ks : list Z) (ipother : count) : bytes * count :=
  match ks with
  | [] => ([], ipother)
  | i :: ks =>
      let c := default no_count (a !! i) in
      if c_packets c =? 0 then transport_lines a ks ipother
      else match getprotobynumber i with
           | None => transport_lines a ks {| c_packets := u64 (c_packets ipother + c_packets c); c_bytes := u64 (c_bytes ipother + c_bytes c) |}
           | Some name => let '(out, other) := transport_lines a ks ipother in (padl 32 9 name ++ B ": " ++ count_line c ++ out, other)
           end
  end.
Definition print_distribution (i : info) : bytes :=
  let at_ k := default no_count (transport (global i) !! k) in
  B "Network protocols" ++ nl ++ B "-----------------" ++ nl ++
  concat (map (fun k => if c_packets (at_ k) =? 0 then [] else network_line k ++ count_line (at_ k)) (seqZ 0 UINT16_MAX)) ++
  nl ++ B "Transport protocols" ++ nl ++ B "-------------------" ++ nl ++
  (if (0 <? c_packets (at_ 0x0800)) || (0 <? c_packets (at_ 0x86dd)) then
     let '(out, other) := transport_lines (ipproto i) (seqZ 0 UINT8_MAX) no_count in
     out ++ (if 0 <? c_packets other then B "    other: " ++ count_line other else [])
   else []).

(** The heading and a line of the same length. *)
Definition heading (filename : bytes) (v : file_version) : bytes :=
  let title := filename ++ B ": caputils " ++ dec (major v) ++ B "." ++ dec (minor v) ++ B " stream" ++ nl in
  title ++ replicate (length title) 61 ++ nl ++ nl.

(** What the report is made of. *)
Record report := { r_info : info; r_heading : bytes; r_overview : bytes; r_distribution : bytes }.

Section Main.
Variable e : env.
Variable strdup : bytes -> cptr.
Variable bpf_filter : list bpf_insn -> bytes -> Z -> Z -> Z.
Variable fuel : nat.

Definition show_info (i : info) (filename : cptr) : res (info * option report * Z) :=
  let '(addr, _) := stream_addr_str strdup zero_addr filename 0 in
  '(st, ret, _) ← stream_open e addr None 0;
  if negb (ret =? 0) then Ok (i, None, ret)
  else match st : option stream_t with
       | Some (FileStream sf) =>
           i ← @show_loop stream_file (file_input bpf_filter None) fuel i sf;
           '(i, overview) ← print_overview i (stream_get_comment (FileStream sf));
           Ok (i, Some {| r_info := i; r_heading := heading (p_str filename) (stream_get_version (FileStream sf)); r_overview := overview;
                          r_distribution := print_distribution i |}, 0)
       | _ => Fault
       end.
Definition process (i : info) (filename : cptr) : res (info * option report * Z) := show_info (reset i) filename.

(** The reports in the order of the arguments, and the status. *)
Fixpoint visit (i : info) (status : Z) (args : list cptr) : res (list (option report) * Z) :=
  match args with
  | [] => Ok ([], status)
  | arg :: args =>
      '(i, r, ret) ← process i arg;
      '(rs, status) ← visit i (Z.lor status ret) args;
      Ok (r :: rs, status)
  end.

(** The static variables are zero; [sizeof(struct stats)] is 64 bytes and the counters. *)
Definition sizeof_stats : Z := 64 + 16 * UINT16_MAX.
Definition zero_stats : stats :=
  {| packets := 0; bytes_ := 0; byte_min := 0; byte_max := 0; s_first := mk_timepico 0 0; s_last := mk_timepico 0 0;
     marker_present := 0; transport := ∅ |}.
Definition initial_info : info :=
  {| global := zero_stats; ipproto := ∅; mpid := slist_init 8 sizeof_stats 80; CI := slist_init 8 sizeof_stats 80;
     location := slist_init 8 sizeof_stats 80; mampid_buffer := []; CI_buffer := [] |}.
Definition capinfo (stdin_tty : bool) (dev_stdin : cptr) (args : list cptr) : res (list (option report) * Z) :=
  '(rs, status) ← match args with
                  | [] => if stdin_tty then Ok ([], 0) else visit initial_info 0 [dev_stdin]
                  | _ => visit initial_info 0 args
                  end;
  Ok (rs, if status =? 0 then 0 else 1).
End Main.
End Info.

(** ** What a summary says *)
Definition total_len (ps : list cap_header) : Z := foldr (fun p n => len p + n) 0 ps.

(** The statistics of the packets [ps]. *)
Record summarises (s : stats) (ps : list cap_header) : Prop := {
  sm_packets : packets s = Z.of_nat (length ps);
  sm_bytes : bytes_ s = total_len ps;
  sm_min : byte_min s = foldr (fun p n => Z.min n (len p)) UINT16_MAX ps;
  sm_max : byte_max s = foldr (fun p n => Z.max n (len p)) 0 ps;
  sm_first : forall p, head ps = Some p -> s_first s = ts p;
  sm_last : forall p, list.last ps = Some p -> s_last s = ts p;
}.

Lemma total_len_app ps qs : total_len (ps ++ qs) = total_len ps + total_len qs.
Proof. induction ps as [|p ps IH]; cbn; [done|]. unfold total_len in *. lia. Qed.
Lemma total_len_bound ps : Forall packet_ok ps -> 0 <= total_len ps <= Z.of_nat (length ps) * 4294967295.
Proof. unfold total_len. induction 1 as [|p ps [] _ IH]; cbn -[Z.mul]; [lia|]. ints. lia. Qed.
Lemma foldr_min_app ps p : foldr (fun p n => Z.min n (len p)) UINT16_MAX (ps ++ [p]) =
  Z.min (foldr (fun p n => Z.min n (len p)) UINT16_MAX ps) (len p).
Proof. induction ps as [|q ps IH]; cbn; [done|]. rewrite IH. lia. Qed.
Lemma foldr_max_app ps p : foldr (fun p n => Z.max n (len p)) 0 (ps ++ [p]) =
  Z.max (foldr (fun p n => Z.max n (len p)) 0 ps) (len p).
Proof. induction ps as [|q ps IH]; cbn; [done|]. rewrite IH. lia. Qed.
Lemma foldr_min_range ps : Forall packet_ok ps -> is_u32 (foldr (fun p n => Z.min n (len p)) UINT16_MAX ps).
Proof. induction 1 as [|p ps [] _ IH]; cbn; ints; unfold UINT16_MAX in *; lia. Qed.
Lemma foldr_max_range ps : Forall packet_ok ps -> is_u32 (foldr (fun p n => Z.max n (len p)) 0 ps).
Proof. induction 1 as [|p ps [] _ IH]; cbn; ints; lia. Qed.

Lemma reset_summarises s : summarises (reset_stats s) [].
Proof. by constructor. Qed.

(** One more packet; only its length and its time are looked at. *)
Lemma store_stats_summarises s ps cp p : summarises s ps -> Forall packet_ok (ps ++ [p]) ->
  Z.of_nat (length ps) < 268435456 -> len cp = len p -> ts cp = ts p -> summarises (store_stats s cp) (ps ++ [p]).
Proof.
  intros [H1 H2 H3 H4 H5 H6] Hok Hn Hl Ht. pose proof Hok as [Hps Hp]%Forall_app. apply Forall_inv in Hp as [_ _ _ _ Hlen _].
  pose proof (total_len_bound _ Hok) as Hb. rewrite length_app in Hb. cbn [length] in Hb.
  pose proof (foldr_min_range _ Hps) as Hmin. pose proof (foldr_max_range _ Hps) as Hmax.
  assert (Hpk : u64 (packets s + 1) = Z.of_nat (length ps) + 1) by (rewrite H1; apply u64_id; ints; lia).
  constructor; unfold store_stats; cbn -[u64 u32 Z.add]; rewrite ?Hpk, ?Hl, ?Ht.
  - rewrite length_app. cbn. repeat case_match; cbn; lia.
  - rewrite total_len_app in *. cbn [total_len foldr] in *. repeat case_match; cbn -[u64]; rewrite H2, Z.add_0_r; apply u64_id; ints; lia.
  - rewrite foldr_min_app. repeat case_match; cbn -[u32]; rewrite H3, u32_id; done.
  - rewrite foldr_max_app. repeat case_match; cbn -[u32]; rewrite H4, u32_id; done.
  - intros q Hq. destruct ps as [|p0 ps]; cbn in *.
    + injection Hq as ->. done.
    + injection Hq as ->. rewrite (proj2 (Z.eqb_neq _ _)) by lia. cbn. by apply H5.
  - intros q Hq. rewrite last_snoc in Hq. injection Hq as ->. repeat case_match; done.
Qed.

(** Counters: packets and bytes of each class. *)
Definition tally (ps : list cap_header) : count := {| c_packets := Z.of_nat (length ps); c_bytes := total_len ps |}.
Definition counted (class : cap_header -> option Z) (a : counters) (ps : list cap_header) : Prop :=
  forall k, default no_count (a !! k) = tally (base.filter (fun p => class p = Some k) ps).

Lemma filter_ok {P : cap_header -> Prop} `{forall x, Decision (P x)} ps : Forall packet_ok ps -> Forall packet_ok (base.filter P ps).
Proof. intros Hok. apply list.Forall_forall. intros p [_ Hp]%list_elem_of_filter. by eapply list.Forall_forall in Hok. Qed.

Lemma counted_none class a ps p : counted class a ps -> class p = None -> counted class a (ps ++ [p]).
Proof. intros H Hc k. rewrite H, list.filter_app. f_equal. rewrite filter_cons_False by congruence. by rewrite app_nil_r. Qed.

Lemma counted_bump class size a ps p k : counted class a ps -> Forall packet_ok (ps ++ [p]) -> Z.of_nat (length ps) < 268435456 ->
  class p = Some k -> 0 <= k < size -> exists a', bump size a k (len p) = Ok a' /\ counted class a' (ps ++ [p]).
Proof.
  intros H Hok Hn Hc Hk. unfold bump. rewrite (proj2 (Z.leb_le _ _)), (proj2 (Z.ltb_lt _ _)) by lia. cbn [andb].
  eexists. split; [reflexivity|]. intros j. rewrite list.filter_app. destruct (decide (k = j)) as [<-|Hne].
  - rewrite lookup_insert_eq, H. cbn [default from_option]. rewrite filter_cons_True by done. cbn [base.filter list_filter].
    pose proof (filter_ok (P := fun p => class p = Some k) _ Hok) as Hf. rewrite list.filter_app, filter_cons_True in Hf by done. cbn [base.filter list_filter] in Hf.
    pose proof (total_len_bound _ Hf) as Hb. rewrite length_app in Hb. cbn [length] in Hb.
    pose proof (length_filter (fun p => class p = Some k) ps). unfold tally. cbn [c_packets c_bytes].
    rewrite length_app, total_len_app in *. cbn [total_len foldr length] in *. unfold id. f_equal; rewrite u64_id; ints; lia.
  - rewrite lookup_insert_ne by done. rewrite H. f_equal. rewrite filter_cons_False by congruence. by rewrite app_nil_r.
Qed.

(** A table has one entry for each key that occurs, with the statistics of its packets. *)
Record tab_wf (l : slist bytes stats) : Prop := {
  tw_wf : slist_wf l;
  tw_capacity : capacity l <= 536870912;
}.
Record tab_ok (kf : cap_header -> bytes) (l : slist bytes stats) (ps : list cap_header) : Prop := {
  t_wf : tab_wf l;
  t_size : size l <= Z.of_nat (length ps);
  t_unique : NoDup (key l);
  t_keys : forall k, k ∈ key l <-> exists p, p ∈ ps /\ kf p = k;
  t_stats : forall n k, key l !! n = Some k ->
    exists s, value l !! n = Some (Some s) /\ summarises s (base.filter (fun p => kf p = k) ps);
}.

Lemma tab_clear kf l : tab_wf l -> tab_ok kf (slist_clear l) [].
Proof.
  intros [Hwf Hc]. constructor; cbn.
  - constructor; [by apply slist_clear_wf|done].
  - lia.
  - constructor.
  - intros k. split; [by intros ?%elem_of_nil|]. by intros (p & ?%elem_of_nil & _).
  - done.
Qed.

Section Table.
Variable garbage : stats.
Variable kf : cap_header -> bytes.
Variable maxlen : nat.
(** Keys are strings that are compared as a whole. *)
Hypothesis kf_str : forall p, Forall (fun c => c <> 0) (kf p).
Hypothesis kf_length : forall p, (length (kf p) <= maxlen)%nat.

Lemma same_key p q : strncmp (kf p) (kf q) maxlen = 0 <-> kf p = kf q.
Proof. rewrite strncmp_zero by done. by rewrite !take_ge by done. Qed.

Lemma put_entry l ps p l1 s : tab_ok kf l ps -> kf p ∉ key l ->
  tab_wf l1 -> key l1 = key l ++ [kf p] -> value l1 = value l ++ [Some s] -> size l1 = size l + 1 ->
  summarises s [p] -> tab_ok kf l1 (ps ++ [p]).
Proof.
  intros [Hwf Hsz Hu Hk Hs] Hnew Hwf1 Hkey Hval Hsize Hsum.
  assert (Hnone : base.filter (fun q => kf q = kf p) ps = []).
  { destruct (base.filter _ ps) as [|q qs] eqn:E; [done|]. exfalso. apply Hnew, Hk.
    assert (Hq : q ∈ base.filter (fun q => kf q = kf p) ps) by (rewrite E; by left).
    apply list_elem_of_filter in Hq as [? ?]. by exists q. }
  destruct Hwf as [[Hlk Hlv _ _ _ _] _].
  constructor; rewrite ?Hkey, ?Hval, ?Hsize.
  - done.
  - rewrite length_app. cbn. lia.
  - apply list.NoDup_app. split_and!; [done| |apply NoDup_singleton]. by intros x Hx ->%list_elem_of_singleton.
  - intros k. rewrite elem_of_app, list_elem_of_singleton, Hk. split.
    + intros [(q & Hq & E)| ->]; [exists q|exists p]; (split; [apply elem_of_app|done]); [by left|right; by left].
    + intros (q & [Hq| ->%list_elem_of_singleton]%elem_of_app & E); [left; by exists q|by right].
  - intros n k [Hn|[Hn E]]%lookup_app_Some.
    + destruct (Hs n k Hn) as (s' & Hv & Hs'). exists s'. split; [by apply lookup_app_l_Some|].
      rewrite list.filter_app, filter_cons_False, app_nil_r; [done|]. intros <-. apply Hnew. by eapply list_elem_of_lookup_2.
    + assert (Hn0 : n = length (key l)).
      { apply lookup_lt_Some in E. cbn in E. lia. }
      subst n. rewrite Nat.sub_diag in E. injection E as <-. exists s.
      split; [by rewrite lookup_app_r, (ltac:(lia) : (length (key l) - length (value l))%nat = O) by lia|].
      rewrite list.filter_app, Hnone. cbn [app]. by rewrite filter_cons_True.
Qed.

Lemma update_entry l ps p n s : tab_ok kf l ps -> key l !! n = Some (kf p) -> (forall s0, value l !! n = Some (Some s0) ->
    summarises s0 (base.filter (fun q => kf q = kf p) ps) -> summarises s (base.filter (fun q => kf q = kf p) ps ++ [p])) ->
  tab_ok kf (l <| value := <[n := Some s]> (value l) |>) (ps ++ [p]).
Proof.
  intros [[Hwf Hcap] Hsz Hu Hk Hs] Hn Hsum. pose proof Hwf as [Hlk Hlv Hc Hp H32 He].
  constructor; cbn [key value size field_set].
  - constructor; [|done]. constructor; cbn; rewrite ?length_insert; done.
  - rewrite length_app. cbn. lia.
  - done.
  - intros k. rewrite Hk. split.
    + intros (q & Hq & E). exists q. split; [apply elem_of_app; by left|done].
    + intros (q & [Hq| ->%list_elem_of_singleton]%elem_of_app & <-); [by exists q|]. apply Hk. by eapply list_elem_of_lookup_2.
  - intros i k Hi. destruct (decide (n = i)) as [<-|Hne].
    + rewrite Hn in Hi. injection Hi as <-. destruct (Hs n _ Hn) as (s0 & Hv & Hs0). exists s.
      rewrite list_lookup_insert_eq by (by eapply lookup_lt_Some). split; [done|].
      rewrite list.filter_app, filter_cons_True by done. cbn [base.filter list_filter]. by eapply Hsum.
    + destruct (Hs i k Hi) as (s' & Hv & Hs'). exists s'. rewrite list_lookup_insert_ne by done. split; [done|].
      rewrite list.filter_app, filter_cons_False, app_nil_r; [done|]. intros <-. apply Hne. by eapply list.NoDup_lookup.
Qed.

(** A packet is added to the entry of its key, which is made when it is new. *)
Lemma store_in_ok l ps p cp : tab_ok kf l ps -> Forall packet_ok (ps ++ [p]) -> Z.of_nat (length ps) < 268435456 ->
  len cp = len p -> ts cp = ts p ->
  exists l', store_in garbage l (kf p) maxlen cp = Ok l' /\ tab_ok kf l' (ps ++ [p]).
Proof.
  intros Ht Hok Hn Hl Hts. pose proof Ht as [[Hwf Hcap] Hsz Hu Hk Hs]. pose proof Hwf as [Hlk Hlv Hc Hp H32 He].
  unfold store_in, store_unique, slist_find. destruct (find_from _ (key l) (kf p) 0) as [j|] eqn:Ef; cbn [fmap option_fmap option_map].
  - apply find_from_Some in Ef as (n & x & -> & Hx & Hcmp & _). rewrite Z.add_0_l.
    assert (x = kf p) as ->.
    { assert (Hxk : x ∈ key l) by (by eapply list_elem_of_lookup_2). apply Hk in Hxk as (q & _ & <-). by apply same_key. }
    destruct (Hs n _ Hx) as (s & Hv & Hsum). pose proof (lookup_lt_Some _ _ _ Hx). cbn [mbind res_bind]. unfold deref, store.
    rewrite slot_get by lia. cbn [mbind res_bind]. rewrite Nat2Z.id, Hv. cbn [mbind res_bind].
    eexists. split; [reflexivity|]. apply update_entry; [done|done|]. intros s0 Hv0 Hs0. rewrite Hv in Hv0. injection Hv0 as <-.
    apply store_stats_summarises; try done.
    + pose proof (filter_ok (P := fun q => kf q = kf p) _ Hok) as Hf. rewrite list.filter_app, filter_cons_True in Hf by done. done.
    + pose proof (length_filter (fun q => kf q = kf p) ps). lia.
  - assert (Hnew : kf p ∉ key l).
    { intros Hin. apply find_from_None in Ef. eapply list.Forall_forall in Ef; [|exact Hin]. by apply Ef, same_key. }
    rewrite take_ge by done. destruct (slist_put_spec l (kf p)) as (l1 & -> & Hwf1 & Hk1 & Hv1 & Hs1 & He1 & Hc1); [done|lia|].
    cbn [mbind res_bind]. unfold store, deref. pose proof Hwf1 as [Hlk1 Hlv1 _ _ _ _]. rewrite slot_get by lia. cbn [mbind res_bind].
    set (l2 := l1 <| value := _ |>). change (slist_get l1 (size l)) with (slist_get l2 (size l)).
    rewrite slot_get by (cbn; lia). cbn [mbind res_bind].
    assert (Hz : Z.to_nat (size l) = length (value l)) by lia. rewrite Hz.
    assert (Hv2 : value l2 = value l ++ [Some (reset_stats garbage)]).
    { cbn. rewrite Hv1, Hz. by rewrite insert_app_r_alt, Nat.sub_diag by lia. }
    rewrite Hv2, list_lookup_middle by done. cbn [mbind res_bind]. eexists. split; [reflexivity|].
    destruct Hwf1. eapply put_entry; [exact Ht|exact Hnew|..].
    + split; [|cbn; lia]. constructor; cbn; rewrite ?length_insert, ?length_app; cbn; lia.
    + done.
    + cbn. by rewrite insert_app_r_alt, Nat.sub_diag by lia.
    + done.
    + apply (store_stats_summarises _ []); try done. by apply Forall_app in Hok as [_ ?].
Qed.
End Table.

(** ** Keys of packets *)
Definition by_mampid (p : cap_header) : bytes := cstr (take 8 (head_mampid p)).
Definition by_nic (p : cap_header) : bytes := cstr (take 8 (nic p)).

Lemma by_mampid_str p : Forall (fun c => c <> 0) (by_mampid p).
Proof. apply cstr_nonzero. Qed.
Lemma by_mampid_length p : (length (by_mampid p) <= 8)%nat.
Proof. unfold by_mampid. pose proof (length_cstr (take 8 (head_mampid p))). rewrite length_take in *. lia. Qed.
Lemma by_nic_str p : Forall (fun c => c <> 0) (by_nic p).
Proof. apply cstr_nonzero. Qed.
Lemma by_nic_length p : (length (by_nic p) <= 8)%nat.
Proof. unfold by_nic. pose proof (length_cstr (take 8 (nic p))). rewrite length_take in *. lia. Qed.
Lemma get_location_str p : Forall (fun c => c <> 0) (get_location p).
Proof.
  apply Forall_take. apply Forall_app. split; [apply cstr_nonzero|]. apply Forall_app. split; [by repeat constructor|apply cstr_nonzero].
Qed.
Lemma get_location_length p : (length (get_location p) <= 17)%nat.
Proof. unfold get_location. rewrite length_take. lia. Qed.

(** ** Classes of packets

    What is read of the bytes of a packet: the port of a marker, the Ethernet type
    unless it is a length, the protocol in the IPv4 header. *)
Definition inspect (m : bytes) : res (Z * option Z * option Z) :=
  '(port, _) ← is_marker m false 0;
  t ← be16 m 12;
  if t <=? 0x05DC then Ok (port, None, None) else ip ← ip_protocol m t; Ok (port, Some t, ip).
Definition view (p : cap_header) : Z * option Z * option Z :=
  match inspect (payload p) with Ok v => v | _ => (0, None, None) end.
Definition marker_of (p : cap_header) : Z := fst (fst (view p)).
Definition ethertype_of (p : cap_header) : option Z := snd (fst (view p)).
Definition ipproto_of (p : cap_header) : option Z := snd (view p).
Definition first_marker (ps : list cap_header) : Z := fold_left (fun port p => if port =? 0 then marker_of p else port) ps 0.

(** The captured bytes are enough to classify the packet, and the arrays of counters have
    an element for it. *)
Record inspectable (p : cap_header) : Prop := {
  in_bytes : inspect (payload p) = Ok (view p);
  in_ethertype : ethertype_of p <> Some UINT16_MAX;
  in_ipproto : forall k, ipproto_of p = Some k -> 0 <= k < UINT8_MAX;
}.

Lemma extends_is_marker m r : extends (is_marker m false 0) (is_marker (m ++ r) false 0).
Proof. unfold is_marker. repeat extend_step. Qed.
Lemma extends_ip_protocol m r t : extends (ip_protocol m t) (ip_protocol (m ++ r) t).
Proof. unfold ip_protocol. repeat extend_step. Qed.
#[export] Hint Resolve extends_is_marker extends_ip_protocol : extends.

(** ** The loop *)
Record info_ok (i : info) (ps : list cap_header) : Prop := {
  i_global : summarises (global i) ps;
  i_marker : marker_present (global i) = first_marker ps;
  i_transport : counted ethertype_of (transport (global i)) ps;
  i_ipproto : counted ipproto_of (ipproto i) ps;
  i_mpid : tab_ok by_mampid (mpid i) ps;
  i_CI : tab_ok by_nic (CI i) ps;
  i_location : tab_ok get_location (location i) ps;
}.
Record tables_wf (i : info) : Prop := { tb_mpid : tab_wf (mpid i); tb_CI : tab_wf (CI i); tb_location : tab_wf (location i) }.

Lemma reset_ok i : tables_wf i -> info_ok (reset i) [].
Proof. intros []. constructor; try done; cbn; by apply tab_clear. Qed.
Lemma info_ok_tables i ps : info_ok i ps -> tables_wf i.
Proof. intros [_ _ _ _ [] [] []]. by constructor. Qed.

Section Loop.
Variable garbage : stats.

(** The protocols are counted last. *)
Record half_ok (i : info) (ps : list cap_header) (p : cap_header) : Prop := {
  h_global : summarises (global i) (ps ++ [p]);
  h_marker : marker_present (global i) = first_marker (ps ++ [p]);
  h_transport : counted ethertype_of (transport (global i)) ps;
  h_ipproto : counted ipproto_of (ipproto i) ps;
  h_mpid : tab_ok by_mampid (mpid i) (ps ++ [p]);
  h_CI : tab_ok by_nic (CI i) (ps ++ [p]);
  h_location : tab_ok get_location (location i) (ps ++ [p]);
}.
Definition same_text (i i' : info) : Prop := mampid_buffer i' = mampid_buffer i /\ CI_buffer i' = CI_buffer i.

Lemma view_cases p : inspectable p -> exists t, be16 (payload p) 12 = Ok t /\ is_u16 t /\
  (exists k, is_marker (payload p) false 0 = Ok (marker_of p, k)) /\
  (t <= 0x05DC /\ ethertype_of p = None /\ ipproto_of p = None \/
   0x05DC < t /\ ethertype_of p = Some t /\ ip_protocol (payload p) t = Ok (ipproto_of p)).
Proof.
  intros [Hin _ _]. unfold marker_of, ethertype_of, ipproto_of. unfold inspect in Hin.
  apply bind_Ok_inv in Hin as ([port k] & Hport & Hin). apply bind_Ok_inv in Hin as (t & Ht & Hin). exists t.
  pose proof (be16_range _ _ _ Ht). rewrite Ht, Hport. destruct (Z.leb_spec t 0x05DC); inv_ok; rewrite <- Hin; cbn [fst snd]; eauto 10.
Qed.

Lemma note_marker_ok i ps p rest : info_ok i ps -> inspectable p ->
  exists i', note_marker i (in_memory p rest) = Ok i' /\ marker_present (global i') = first_marker (ps ++ [p]) /\
    info_ok (i' <| global := (global i') <| marker_present := first_marker ps |> |>) ps /\ same_text i i'.
Proof.
  intros [Hg Hm Ht Hi Hmp Hci Hlo] Hin. destruct (view_cases p Hin) as (t & _ & _ & [k Hk] & _).
  apply (extends_is_marker _ rest) in Hk. unfold note_marker. change (payload (in_memory p rest)) with (payload p ++ rest). rewrite Hk.
  unfold first_marker. rewrite fold_left_app. fold (first_marker ps). cbn [fold_left]. rewrite <- Hm.
  destruct (marker_present (global i) =? 0) eqn:E; cbn [mbind res_bind]; (eexists; split; [reflexivity|]); (split; [done|]); (split; [|done]);
    constructor; try done; destruct Hg; by constructor.
Qed.

Lemma store_tables_ok i ps p rest : info_ok (i <| global := (global i) <| marker_present := first_marker ps |> |>) ps ->
  marker_present (global i) = first_marker (ps ++ [p]) -> Forall packet_ok (ps ++ [p]) -> Z.of_nat (length ps) < 268435456 ->
  exists i', (let i := i <| global := store_stats (global i) (in_memory p rest) |> in
    i ← store_mampid garbage i (in_memory p rest); i ← store_CI garbage i (in_memory p rest); store_location garbage i (in_memory p rest)) = Ok i' /\
    half_ok i' ps p /\ same_text i i'.
Proof.
  intros [Hg _ Ht Hi Hmp Hci Hlo] Hm Hok Hn. cbn in Ht, Hi, Hmp, Hci, Hlo.
  assert (Hs : summarises (global i) ps) by (destruct Hg; by constructor).
  apply (store_stats_summarises _ _ (in_memory p rest) p) in Hs; try done. unfold store_mampid, store_CI, store_location.
  change (cstr (take 8 (head_mampid (in_memory p rest)))) with (by_mampid p). change (cstr (take 8 (nic (in_memory p rest)))) with (by_nic p).
  change (get_location (in_memory p rest)) with (get_location p).
  destruct (store_in_ok garbage by_mampid 8 by_mampid_str by_mampid_length _ _ p (in_memory p rest) Hmp) as (l1 & Hl1 & Hmp1); try done.
  destruct (store_in_ok garbage by_nic 8 by_nic_str by_nic_length _ _ p (in_memory p rest) Hci) as (l2 & Hl2 & Hci1); try done.
  destruct (store_in_ok garbage get_location 17 get_location_str get_location_length _ _ p (in_memory p rest) Hlo) as (l3 & Hl3 & Hlo1); try done.
  cbn -[store_in store_stats]. rewrite Hl1. cbn -[store_in store_stats]. rewrite Hl2. cbn -[store_in store_stats]. rewrite Hl3.
  cbn -[store_in store_stats].
  eexists. split; [reflexivity|]. split; [|done]. constructor; try done; unfold store_stats; cbn; by case_match.
Qed.

Lemma count_protocols_ok i ps p rest : half_ok i ps p -> Forall packet_ok (ps ++ [p]) -> Z.of_nat (length ps) < 268435456 -> inspectable p ->
  exists i', (h_proto ← be16 (payload (in_memory p rest)) 12;
      if h_proto <=? 0x05DC then Ok i else parse_ethernetII i (in_memory p rest) h_proto) = Ok i' /\
    info_ok i' (ps ++ [p]) /\ same_text i i'.
Proof.
  intros [Hg Hm Ht Hi Hmp Hci Hlo] Hok Hn Hin. pose proof Hin as [_ Het Hip].
  destruct (view_cases p Hin) as (t & Htype & Htr & _ & Hcase). change (payload (in_memory p rest)) with (payload p ++ rest).
  rewrite (extends_be16 _ rest _ _ Htype). cbn [mbind res_bind].
  destruct Hcase as [(Hle & E1 & E2)|(Hle & E1 & E2)].
  - rewrite (proj2 (Z.leb_le _ _)) by lia. eexists. split; [reflexivity|]. split; [|done]. constructor; try done; by apply counted_none.
  - rewrite (proj2 (Z.leb_gt _ _)) by lia. unfold parse_ethernetII. change (len (in_memory p rest)) with (len p). change (payload (in_memory p rest)) with (payload p ++ rest).
    destruct (counted_bump ethertype_of UINT16_MAX _ ps p t Ht Hok Hn E1) as (a & -> & Ha).
    { rewrite E1 in Het. ints. unfold UINT16_MAX in *. assert (t <> 65535) by congruence. lia. }
    cbn [mbind res_bind]. rewrite (extends_ip_protocol _ rest _ _ E2). cbn [mbind res_bind].
    destruct (ipproto_of p) as [k|] eqn:Ek; cbn [mbind res_bind].
    + change (ipproto (i <| global := _ |>)) with (ipproto i).
      destruct (counted_bump ipproto_of UINT8_MAX _ ps p k Hi Hok Hn Ek) as (b & -> & Hb); [by apply Hip|]. cbn [mbind res_bind].
      eexists. split; [reflexivity|]. split; [|done]. constructor; try done. destruct Hg; by constructor.
    + eexists. split; [reflexivity|]. split; [|done]. constructor; try done; [destruct Hg; by constructor|by apply counted_none].
Qed.

Lemma show_packet_ok i ps p rest : info_ok i ps -> Forall packet_ok (ps ++ [p]) -> Z.of_nat (length ps) < 268435456 -> inspectable p ->
  exists i', show_packet garbage i (in_memory p rest) = Ok i' /\ info_ok i' (ps ++ [p]) /\ same_text i i'.
Proof.
  intros Hi Hok Hn Hin. destruct (note_marker_ok i ps p rest Hi Hin) as (i1 & H1 & Hm1 & Hi1 & Ht1).
  destruct (store_tables_ok i1 ps p rest Hi1 Hm1 Hok Hn) as (i2 & H2 & Hh & Ht2).
  destruct (count_protocols_ok i2 ps p rest Hh Hok Hn Hin) as (i3 & H3 & Hi3 & Ht3).
  exists i3. split_and!; [|done|destruct Ht1, Ht2, Ht3; split; congruence].
  unfold show_packet. rewrite H1. cbn [mbind res_bind]. cbv zeta in H2.
  apply bind_Ok_inv in H2 as (j1 & -> & (j2 & E2 & E3)%bind_Ok_inv). cbn [mbind res_bind]. rewrite E2. cbn [mbind res_bind]. rewrite E3. exact H3.
Qed.

(** The loop counts every packet of its input and ends with it. *)
Lemma show_loop_ok {S : Type} {input : Input S} {laws : InputLaws S} fuel i src ps qs :
  info_ok i ps -> supplies src qs -> (length qs < fuel)%nat -> Z.of_nat (length (ps ++ qs)) <= 268435456 ->
  Forall packet_ok ps -> Forall inspectable qs ->
  exists i', show_loop garbage fuel i src = Ok i' /\ info_ok i' (ps ++ qs) /\ same_text i i'.
Proof.
  revert i src ps qs. induction fuel as [|fuel IH]; intros i src ps qs Hi Hs Hf Hn Hok Hin; [lia|]. cbn [show_loop].
  destruct qs as [|q qs].
  - destruct (next_end src Hs) as [src' ->]. cbn [mbind res_bind Z.eqb negb]. exists i. by rewrite app_nil_r.
  - pose proof (supplies_ok _ _ Hs) as Hq%Forall_inv. destruct (next_packet src q qs Hs) as (src' & cp & -> & Hcp & Hs').
    cbn [mbind res_bind Z.eqb negb]. apply in_memory_captured in Hcp as [rest ->]. apply Forall_cons_1 in Hin as [Hin1 Hin].
    assert (Hok' : Forall packet_ok (ps ++ [q])) by (apply Forall_app; split; [done|by constructor]).
    rewrite length_app in Hn. cbn [length] in *.
    destruct (show_packet_ok i ps q rest Hi Hok') as (i1 & -> & Hi1 & Ht1); [lia|done|]. cbn [mbind res_bind].
    destruct (IH i1 src' (ps ++ [q]) qs) as (i2 & H2 & Hi2 & Ht2); try done; [lia|rewrite !length_app; cbn; lia|].
    exists i2. rewrite <- (assoc_L (++)) in Hi2. split_and!; [done|done|destruct Ht1, Ht2; split; congruence].
Qed.
End Loop.

(** ** Lists of names *)
Definition joined (ks : list bytes) : bytes :=
  match ks with [] => [] | k :: ks => k ++ concat (map (app (B ", ")) ks) end.

Lemma join_from_ok room dst d src : blen dst + blen (concat (map (app d) src)) < room ->
  join_from room dst d src = Ok (dst ++ concat (map (app d) src)).
Proof.
  revert dst. induction src as [|s src IH]; intros dst H; cbn [join_from map concat] in *; [by rewrite app_nil_r|].
  rewrite blen_app in H. pose proof (blen_nonneg (concat (map (app d) src))).
  rewrite (proj2 (Z.ltb_ge _ _)) by lia. rewrite IH by (rewrite blen_app; lia). by rewrite <- (assoc_L (++)).
Qed.

(** Names of at most 8 characters: 204 of them fit the array of 2048 bytes. *)
Lemma concat_names ks : Forall (fun k : bytes => (length k <= 8)%nat) ks -> blen (concat (map (app (B ", ")) ks)) <= 10 * Z.of_nat (length ks).
Proof.
  induction 1 as [|k ks Hk _ IH]; [done|]. cbn [map concat length]. rewrite !blen_app. change (blen (B ", ")) with 2. unfold blen in *. lia.
Qed.
Lemma array_join_names dst ks : Forall (fun k : bytes => (length k <= 8)%nat) ks -> (length ks <= 204)%nat -> ks <> [] ->
  array_join 2048 dst ks (B ", ") = Ok (joined ks).
Proof.
  intros Hk Hn Hne. destruct Hk as [|k ks Hk Hks]; [done|]. cbn [array_join joined length] in *.
  pose proof (concat_names ks Hks). rewrite (proj2 (Z.ltb_ge _ _)) by (unfold blen; lia).
  apply join_from_ok. unfold blen in *. lia.
Qed.

(** The distinct names among the packets. *)
Definition few (kf : cap_header -> bytes) (ps : list cap_header) : Prop := (length (remove_dups (map kf ps)) <= 204)%nat.

Lemma tab_few kf l ps : tab_ok kf l ps -> few kf ps -> (length (key l) <= 204)%nat.
Proof.
  intros [_ _ Hu Hk _] Hf. etransitivity; [|exact Hf]. apply submseteq_length, NoDup_submseteq; [done|].
  intros k (p & Hp & <-)%Hk. apply elem_of_remove_dups, list_elem_of_fmap. by exists p.
Qed.
Lemma tab_names kf l ps : (forall p, (length (kf p) <= 8)%nat) -> tab_ok kf l ps -> Forall (fun k : bytes => (length k <= 8)%nat) (key l).
Proof. intros H [_ _ _ Hk _]. apply list.Forall_forall. intros k (p & _ & <-)%Hk. apply H. Qed.
Lemma tab_empty kf l ps : tab_ok kf l ps -> key l = [] -> ps = [].
Proof. intros [_ _ _ Hk _] E. destruct ps as [|p ps]; [done|]. assert (Hp : kf p ∈ key l) by (apply Hk; exists p; by split; [left|]). rewrite E in Hp. by apply elem_of_nil in Hp. Qed.

Lemma names_ok kf l ps dst : (forall p, (length (kf p) <= 8)%nat) -> tab_ok kf l ps -> few kf ps ->
  exists b, array_join 2048 dst (key l) (B ", ") = Ok b /\ (ps <> [] -> b = joined (key l)) /\ (ps = [] -> b = dst).
Proof.
  intros Hl Ht Hf. pose proof (tab_few _ _ _ Ht Hf) as Hn. pose proof (tab_names _ _ _ Hl Ht) as Hk. destruct (decide (ps = [])) as [-> |Hne].
  - destruct Ht as [_ _ _ Hkeys _]. destruct (key l) as [|k ks]; [by exists dst|]. destruct (proj1 (Hkeys k)) as (p & Hp & _); [by left|]. by apply elem_of_nil in Hp.
  - exists (joined (key l)). split_and!; [|done..]. apply array_join_names; [done|done|]. intros E. by apply Hne, (tab_empty _ _ _ Ht).
Qed.

(** ** The overview *)

(** The locations with the statistics of their packets. *)
Definition located (ps : list cap_header) (k : bytes) (e : bytes * stats) : Prop := e.1 = k /\ summarises e.2 (base.filter (fun p => get_location p = k) ps).

Lemma location_lines_ok l ps pre ks : tab_ok get_location l ps -> key l = pre ++ ks ->
  exists es, location_lines l (Z.of_nat (length pre)) ks = Ok (concat (map (uncurry location_line) es)) /\ Forall2 (located ps) ks es.
Proof.
  intros Ht. revert pre. induction ks as [|k ks IH]; intros pre Hk; cbn [location_lines]; [by exists []; split; [|constructor]|].
  pose proof Ht as [[[Hlk Hlv _ _ _ He] _] _ _ _ Hs]. assert (Hn : key l !! length pre = Some k) by (rewrite Hk; by apply list_lookup_middle).
  destruct (Hs _ _ Hn) as (st & Hv & Hsum). unfold deref. rewrite slot_get; [|done|apply lookup_lt_Some in Hn; lia]. cbn [mbind res_bind].
  rewrite Nat2Z.id, Hv. cbn [mbind res_bind]. destruct (IH (pre ++ [k])) as (es & E & Hes); [by rewrite <- (assoc_L (++))|].
  rewrite length_app, Nat2Z.inj_add in E. change (Z.of_nat (length [k])) with 1 in E. rewrite E. cbn [mbind res_bind].
  exists ((k, st) :: es). split; [done|]. by constructor.
Qed.

(** What the numbers of bytes and the rate look like. *)
Definition bytes_shown (v : Z) (text : bytes) : Prop :=
  v < 1024 /\ text = dec v ++ B " (" ++ dec v ++ B " bytes)" \/
  exists k p n, byte_prefix !! Z.to_nat k = Some p /\ 0 < k /\ amount v k n /\ text = n ++ B " " ++ p ++ B " (" ++ dec v ++ B " bytes)".
Definition rate_shown (v seconds : Z) (text : bytes) : Prop :=
  exists k p n, rate_prefix !! Z.to_nat k = Some p /\ amount (v * 8 / Z.max 1 seconds) k n /\ text = n ++ B " " ++ p.

Section OverviewText.
Variable strftime : Z -> bytes -> bytes.
Hypothesis strftime_fits : forall t, blen (strftime t (B "%F %T")) < 128.

Definition overview_of (i : info) (ps : list cap_header) (comment_ : option bytes) (text : bytes) : Prop :=
  exists byte_str rate_str es, let g := global i in
    bytes_shown (total_len ps) byte_str /\ rate_shown (total_len ps) (hseconds (timepico_sub (s_last g) (s_first g)) / 10) rate_str /\
    Forall2 (located ps) (key (location i)) es /\
    text = overview_lines g (CI_buffer i) (mampid_buffer i) (get_comment comment_) (strftime (tv_sec (s_first g)) (B "%F %T"))
             (strftime (tv_sec (s_last g)) (B "%F %T")) (format_seconds 128 (s_first g) (s_last g)) byte_str rate_str ++
           B "Locations" ++ nl ++ B "---------" ++ nl ++ concat (map (uncurry location_line) es) ++ nl.

Lemma print_overview_ok i ps c : info_ok i ps -> Forall packet_ok ps -> Z.of_nat (length ps) <= 268435456 -> few by_mampid ps -> few by_nic ps ->
  exists i' text, print_overview strftime i c = Ok (i', text) /\ info_ok i' ps /\ overview_of i' ps c text /\
    (ps <> [] -> mampid_buffer i' = joined (key (mpid i')) /\ CI_buffer i' = joined (key (CI i'))).
Proof.
  intros Hi Hok Hn Hm Hci. pose proof Hi as [[Hpk Hby _ _ _ _] _ _ _ G5 G6 G7]. pose proof (total_len_bound _ Hok) as Hb. unfold print_overview.
  unfold timepico_to_string_r. rewrite !(proj2 (Z.ltb_lt _ _)) by apply strftime_fits. cbn [mbind res_bind]. rewrite Hby.
  assert (Hbs : exists bs, format_bytes 128 (total_len ps) = Ok bs /\ bytes_shown (total_len ps) bs).
  { destruct (format_bytes_ok (total_len ps)) as [[Hs ->]|(k & p & t & Hp & Hk & Ha & ->)]; [lia|eexists; split; [reflexivity|by left]|].
    eexists. split; [reflexivity|]. right. by exists k, p, t. }
  destruct Hbs as (bs & -> & Hbs). cbn [mbind res_bind]. set (hs := hseconds _).
  destruct (format_rate_ok (total_len ps) (hs / 10)) as (k & p & t & Hp & Ha & ->); [lia|apply Z.div_pos; [apply hseconds_nonneg|lia]|].
  cbn [mbind res_bind]. unfold get_CI_list, get_mampid_list.
  destruct (names_ok by_nic _ ps (CI_buffer i) by_nic_length G6 Hci) as (b1 & -> & Hb1 & _). cbn [mbind res_bind].
  set (i1 := i <| CI_buffer := b1 |>). change (mpid i1) with (mpid i).
  destruct (names_ok by_mampid _ ps (mampid_buffer i1) by_mampid_length G5 Hm) as (b2 & -> & Hb2 & _). cbn [mbind res_bind].
  set (i2 := i1 <| mampid_buffer := b2 |>). change (location i2) with (location i).
  destruct (location_lines_ok (location i) ps [] (key (location i)) G7 eq_refl) as (es & E & Hes). change (Z.of_nat (length [])) with 0 in E. rewrite E. cbn [mbind res_bind].
  eexists i2, _. split; [reflexivity|]. split; [by destruct Hi|]. split.
  - exists bs, (t ++ B " " ++ p), es. split_and!; [done|by exists k, p, t|done|reflexivity].
  - intros Hne. split; [by apply Hb2|by apply Hb1].
Qed.
End OverviewText.

(** ** The program *)
Section Program.
Variable garbage : stats.
Variable strftime : Z -> bytes -> bytes.
Hypothesis strftime_fits : forall t, blen (strftime t (B "%F %T")) < 128.
Variable getprotobynumber : Z -> option bytes.
Variable e : env.
Variable strdup : bytes -> cptr.
Variable bpf_filter : list bpf_insn -> bytes -> Z -> Z -> Z.
Variable fuel : nat.

(** A capture file that can be opened and counted, with its comment. *)
Record capture (arg : cptr) (c : bytes) (ps : list cap_header) : Prop := {
  ca_file : exists f mid, e_fopen e (p_str arg) = inl f /\ pos f = 0 /\ ferror f = None /\ blen c < 65536 /\
    content f = file_header_image (new_header mid c) ++ c ++ contents ps [];
  ca_fits : Forall (fits BUFSIZ) ps;
  ca_data : Forall (fun p => caplen p <> 0) ps;
  ca_inspect : Forall inspectable ps;
  ca_length : Z.of_nat (length ps) <= 268435456 /\ (length ps < fuel)%nat;
  ca_names : few by_mampid ps /\ few by_nic ps;
}.

(** What the report on a file says: the statistics of all packets, of every measurement
    point, interface and location, of every protocol, and the names that occur; the
    heading and the overview. *)
Record reported (r : report) (name c : bytes) (ps : list cap_header) : Prop := {
  re_info : info_ok (r_info r) ps;
  re_mampid : ps <> [] -> mampid_buffer (r_info r) = joined (key (mpid (r_info r)));
  re_CI : ps <> [] -> CI_buffer (r_info r) = joined (key (CI (r_info r)));
  re_heading : r_heading r = heading name {| major := VERSION_MAJOR; minor := VERSION_MINOR |};
  re_overview : overview_of strftime (r_info r) ps (Some c) (r_overview r);
  re_distribution : r_distribution r = print_distribution getprotobynumber (r_info r);
}.

Lemma process_ok i arg c ps : tables_wf i -> capture arg c ps ->
  exists r, process garbage strftime getprotobynumber e strdup bpf_filter fuel i arg = Ok (r_info r, Some r, 0) /\ reported r (p_str arg) c ps.
Proof.
  intros Hw [(f & mid & Ho & Hp & He & Hc & Hcont) Hfit Hd Hin [Hn Hf] [Hm Hci]]. unfold process, show_info, stream_addr_str. cbv zeta.
  change (has_flag 0 STREAM_ADDR_DUPLICATE) with false. cbv iota.
  destruct (stream_open_file e arg None mid c (contents ps []) f) as (sf & H & _ & Hop); try done.
  match goal with |- context [stream_open e ?a None 0] => replace (stream_open e a None 0) with (stream_open e (file_addr arg) None 0) by done end.
  rewrite H. cbn [mbind res_bind Z.eqb negb].
  destruct Hop as [Hi Hsz HFH Hcm Hu Hs Hb _].
  assert (Hsup : @supplies _ (file_input bpf_filter None) (file_input_laws bpf_filter None) sf ps).
  { constructor; rewrite ?Hsz; try done. exists []. split; [by left|]. by rewrite Hu, Hb. }
  destruct (@show_loop_ok garbage _ (file_input bpf_filter None) (file_input_laws bpf_filter None) fuel (reset i) sf [] ps) as (i1 & -> & Hi1 & _); try done.
  { by apply reset_ok. }
  cbn [mbind res_bind app] in *.
  destruct (print_overview_ok strftime strftime_fits i1 ps (stream_get_comment (FileStream sf)) Hi1) as (i2 & text & -> & Hi2 & Hov & Hnames); try done.
  { eapply List.Forall_impl; [|exact Hfit]. by intros ? []. }
  cbn [mbind res_bind]. eexists {| r_info := i2; r_heading := _; r_overview := text; r_distribution := _ |}. split; [reflexivity|].
  unfold stream_get_comment in Hov. cbn [base_of] in Hov. rewrite Hcm in Hov.
  constructor; cbn [r_info r_heading r_overview r_distribution]; [done|intros Hne; by apply Hnames..| |done|done].
  unfold stream_get_version. cbn [base_of]. by rewrite HFH.
Qed.

(** What the program finds behind an argument: a name, a comment and packets, or a file that
    cannot be opened. *)
Inductive target (arg : cptr) : option (bytes * bytes * list cap_header) -> Prop :=
  | target_file c ps : capture arg c ps -> target arg (Some (p_str arg, c, ps))
  | target_missing code : e_fopen e (p_str arg) = inr code -> code <> 0 -> target arg None.
Definition answers (r : option report) (o : option (bytes * bytes * list cap_header)) : Prop :=
  match r, o with
  | Some r, Some (name, c, ps) => reported r name c ps
  | None, None => True
  | _, _ => False
  end.

Lemma process_missing i arg code : e_fopen e (p_str arg) = inr code -> code <> 0 ->
  process garbage strftime getprotobynumber e strdup bpf_filter fuel i arg = Ok (reset i, None, code).
Proof.
  intros Ho Hc. unfold process, show_info, stream_addr_str. cbv zeta. change (has_flag 0 STREAM_ADDR_DUPLICATE) with false. cbv iota.
  match goal with |- context [stream_open e ?a None 0] => replace (stream_open e a None 0) with (stream_open e (file_addr arg) None 0) by done end.
  assert (E : stream_open e (file_addr arg) None 0 = Ok (None, code, [])).
  { unfold stream_open. change (stream_addr_type (file_addr arg)) with STREAM_ADDR_CAPFILE. change (stream_addr_have_flag (file_addr arg) STREAM_ADDR_LOCAL) with true.
    cbn [Z.eqb Pos.eqb STREAM_ADDR_CAPFILE STREAM_ADDR_TCP STREAM_ADDR_ETHERNET STREAM_ADDR_FIFO file_addr local_filename addr mbind res_bind].
    unfold stream_file_open, open_file. rewrite Ho. cbn -[Z.eqb]. by rewrite (proj2 (Z.eqb_neq _ _) Hc). }
  rewrite E. cbn [mbind res_bind]. by rewrite (proj2 (Z.eqb_neq _ _) Hc).
Qed.

Lemma reset_tables i : tables_wf i -> tables_wf (reset i).
Proof. intros H. by eapply info_ok_tables, reset_ok. Qed.

Lemma visit_ok args os i status : tables_wf i -> Forall2 target args os ->
  exists rs st, visit garbage strftime getprotobynumber e strdup bpf_filter fuel i status args = Ok (rs, st) /\ Forall2 answers rs os /\
    (st = 0 <-> status = 0 /\ Forall is_Some os).
Proof.
  intros Hi H. revert i status Hi. induction H as [|arg o args os Ht H IH]; intros i status Hi; cbn [visit].
  - exists [], status. split_and!; [done|constructor|]. split; [by split|by intros [? _]].
  - destruct Ht as [c ps Hc|code Ho Hne].
    + destruct (process_ok i arg c ps Hi Hc) as (r & -> & Hr). cbn [mbind res_bind].
      destruct (IH (r_info r) (Z.lor status 0)) as (rs & st & -> & Hrs & Hst); [by eapply info_ok_tables, re_info|].
      exists (Some r :: rs), st. split_and!; [done|by constructor|]. rewrite Z.lor_0_r in Hst. split.
      * intros [-> Hs]%Hst. split; [done|]. by constructor.
      * intros [-> [_ Hs]%Forall_cons_1]. by apply Hst.
    + rewrite (process_missing i arg code Ho Hne). cbn [mbind res_bind].
      destruct (IH (reset i) (Z.lor status code)) as (rs & st & -> & Hrs & Hst); [by apply reset_tables|].
      exists (None :: rs), st. split_and!; [done|by constructor|]. split.
      * intros [[_ E]%Z.lor_eq_0_iff _]%Hst. done.
      * intros [_ [[? ?] _]%Forall_cons_1]. discriminate.
Qed.

Lemma initial_tables : tables_wf initial_info.
Proof. constructor; (split; [apply slist_init_wf; unfold sizeof_stats, UINT16_MAX; lia|cbn; lia]). Qed.


(** C11: The overview of a capture file whose first and last packet are in the order of time and
    less than 429496729 seconds apart: the first and the last time, the number of packets, the
    bytes and the sizes are those of the packets; the duration is that between the first and
    the last packet in tenths of a second, rounded down (up when less than 25 nanoseconds are
    missing), also as hours, minutes and seconds, and below 2^20 seconds the rounding of the
    [float] is not seen; the amount of bytes and the rate (bits over whole seconds) have the
    right prefix and one right decimal; there is a line for every location with its packets
    and bytes. *)
Theorem capinfo_overview dev_stdin arg c ps p0 pl : capture arg c ps -> head ps = Some p0 -> list.last ps = Some pl ->
  norm (ts p0) -> norm (ts pl) -> 0 <= val (ts pl) - val (ts p0) < 429496729 * PICO ->
  exists r t byte_str rate_str es, let g := global (r_info r) in
    capinfo garbage strftime getprotobynumber e strdup bpf_filter fuel false dev_stdin [arg] = Ok ([Some r], 0) /\
    summarises g ps /\ marker_present g = first_marker ps /\
    tenths_of (val (ts pl) - val (ts p0)) t /\ hseconds (timepico_sub (s_last g) (s_first g)) = t /\
    (t < 10485760 -> fmt_f1 (float_tenths t) = decimal t) /\
    bytes_shown (total_len ps) byte_str /\ rate_shown (total_len ps) (t / 10) rate_str /\
    Forall2 (located ps) (key (location (r_info r))) es /\
    r_overview r = overview_lines g (joined (key (CI (r_info r)))) (joined (key (mpid (r_info r)))) (cstr c)
      (strftime (tv_sec (ts p0)) (B "%F %T")) (strftime (tv_sec (ts pl)) (B "%F %T")) (clock t) byte_str rate_str ++
      B "Locations" ++ nl ++ B "---------" ++ nl ++ concat (map (uncurry location_line) es) ++ nl.
Proof.
  intros Hc H0 Hl N0 Nl Hd. destruct (process_ok initial_info arg c ps initial_tables Hc) as (r & E & [Hi Hm Hci _ Hov _]).
  destruct Hov as (bs & rs & es & Hbs & Hrs & Hes & Htext). pose proof Hi as [Hg Hmk _ _ _ _ _].
  pose proof (sm_first _ _ Hg _ H0) as Ef. pose proof (sm_last _ _ Hg _ Hl) as El.
  assert (Hne : ps <> []) by (by intros ->). rewrite Ef, El in *. rewrite (Hm Hne), (Hci Hne) in Htext.
  destruct (duration_ok (ts p0) (ts pl) N0 Nl Hd) as [Ht Hr]. set (t := hseconds _) in *.
  rewrite (format_seconds_clock (ts p0) (ts pl)) in Htext by lia. fold t in Htext.
  exists r, t, bs, rs, es. cbn zeta. rewrite Ef, El.
  split; [unfold capinfo; cbn [visit]; by rewrite E|]. do 4 (split; [done|]). split; [intros Hlt; apply fmt_tenths; lia|].
  do 3 (split; [done|]). exact Htext.
Qed.
End Program.

(** ** Witnesses *)
Definition ex_frame (data : bytes) : bytes := ex_macs ++ data.
Definition ex_traffic : list cap_header :=
  [ex_pkt 1 (ex_frame (wr16be 0x0800 ++ ex_udp_ip ++ wr16be MARKERPORT ++ wr16be 4000 ++ [0; 40; 0; 0] ++ marker_image ex_marker));
   ex_pkt 2 (ex_frame (wr16be 0x0806 ++ [0; 1]))].
Definition ex_traffic_file : FILE :=
  {| content := file_header_image (new_header (B "mp") (B "in")) ++ B "in" ++ contents ex_traffic []; pos := 0; ferror := None |}.
Definition ex_info_env : env := {|
  e_fopen n := if bool_decide (n = B "a.cap") then inl ex_traffic_file else inr ENOENT;
  e_fcreate _ := inl empty_file; e_fp _ := ex_input; e_mkfifo _ := None; e_stat_error _ := None; e_sys := ex_system;
  e_raw_socket := None; e_raw_bind := None; e_eth_member _ := None; e_frames := []; e_udp_socket := None; e_udp_bind := ex_bind;
  e_udp_connect := ex_bind; e_udp_member := ex_join; e_path_mtu := ex_no_path; e_datagrams := [] |}.
Definition ex_strftime (t : Z) (fmt : bytes) : bytes := dec t.
Lemma ex_strftime_fits t : blen (ex_strftime t (B "%F %T")) < 128.
Proof. unfold ex_strftime, blen. pose proof (length_dec t). lia. Qed.
Definition ex_protocols (n : Z) : option bytes := if n =? 17 then Some (B "udp") else None.

Lemma ex_capture : capture ex_info_env 3 (ex_name (B "a.cap")) (B "in") ex_traffic.
Proof.
  assert (Hok : forall p, p ∈ ex_traffic -> fits BUFSIZ p /\ caplen p <> 0 /\ inspectable p).
  { intros p [-> |[-> |[]%elem_of_nil]%elem_of_cons]%elem_of_cons; (split_and!; [split; [by apply ex_pkt_ok|by vm_compute]|by vm_compute|]);
      (constructor; [vm_compute; reflexivity|by vm_compute|]); intros k [= <-]; by vm_compute. }
  constructor; try (apply list.Forall_forall; intros p Hp; by destruct (Hok p Hp) as (? & ? & ?)).
  - by exists ex_traffic_file, (B "mp").
  - cbn. lia.
  - split; vm_compute; lia.
Qed.


Lemma capinfo_overview_witness : exists r t, capinfo zero_stats ex_strftime ex_protocols ex_info_env ex_strdup no_bpf 3 false (ex_name []) [ex_name (B "a.cap")] = Ok ([Some r], 0) /\
  tenths_of PICO t /\ bytes_ (global (r_info r)) = 120.
Proof.
  destruct (capinfo_overview zero_stats ex_strftime ex_strftime_fits ex_protocols ex_info_env ex_strdup no_bpf 3 (ex_name []) (ex_name (B "a.cap")) (B "in") ex_traffic
    (ex_pkt 1 (ex_frame (wr16be 0x0800 ++ ex_udp_ip ++ wr16be MARKERPORT ++ wr16be 4000 ++ [0; 40; 0; 0] ++ marker_image ex_marker)))
    (ex_pkt 2 (ex_frame (wr16be 0x0806 ++ [0; 1]))) ex_capture eq_refl eq_refl) as (r & t & bs & rs & es & E & Hg & _ & Ht & _).
  - vm_compute. repeat split; discriminate.
  - vm_compute. repeat split; discriminate.
  - vm_compute. split; [discriminate|reflexivity].
  - exists r, t. split; [exact E|]. split; [exact Ht|]. rewrite (sm_bytes _ _ Hg). reflexivity.
Defined.

(** ** Behaviour at the limits *)

(** The arrays of counters have 65535 and 255 elements: the last Ethernet type and the last
    protocol have none. *)
Lemma capinfo_last_ethertype :
  show_packet zero_stats (reset initial_info) (ex_pkt 1 (ex_frame (wr16be 0xffff ++ replicate 30 0))) = Fault.
Proof. vm_compute. reflexivity. Qed.
Lemma capinfo_last_protocol :
  show_packet zero_stats (reset initial_info) (ex_pkt 1 (ex_frame (wr16be 0x0800 ++ [69; 0; 0; 60; 0; 0; 0; 0; 64; 255; 0; 0; 10; 0; 0; 1; 10; 0; 0; 2]))) = Fault.
Proof. vm_compute. reflexivity. Qed.

(** The protocol is read from the IPv4 header without a look at the captured length. *)
Lemma capinfo_short_packet :
  parse_ethernetII (reset initial_info) (ex_pkt 1 (ex_frame (wr16be 0x0800))) 0x0800 = Fault.
Proof. vm_compute. reflexivity. Qed.

(** Two locations with names of 8 characters that differ in the last one are not told apart. *)
Lemma get_location_cut (p q : cap_header) :
  head_mampid p = B "mpoint01" -> head_mampid q = B "mpoint01" -> nic p = B "ethernt0" -> nic q = B "ethernt1" ->
  get_location p = get_location q.
Proof. intros H1 H2 H3 H4. unfold get_location. rewrite H1, H2, H3, H4. vm_compute. reflexivity. Qed.

(** Without packets the names of the file before are shown. *)
Lemma capinfo_stale_names (i : info) :
  get_mampid_list ((reset i) <| mampid_buffer := B "mp1" |>) (B ", ") = Ok ((reset i) <| mampid_buffer := B "mp1" |>).
Proof. reflexivity. Qed.

(** The times are not reset: without packets those of the file before are shown. *)
Lemma capinfo_stale_times (i : info) : s_first (global (reset i)) = s_first (global i) /\ s_last (global (reset i)) = s_last (global i).
Proof. done. Qed.

(** 205 names of 8 characters do not fit the array they are joined in. *)
Lemma capinfo_many_names (dst : bytes) : array_join 2048 dst (replicate 205 (replicate 8 65)) (B ", ") = Fault.
Proof. vm_compute. reflexivity. Qed.
