(* ===== verification/Pipelines.v ===== *)
(** * Programs that are used together

    The help text of capinfo asks to filter a trace with capfilter first: the report is
    then on the packets the filter accepts.  The report on a merged trace is on the packets of
    all inputs. *)

From stdpp Require Import gmap.
From S2P Require Import Prelude CLib Picotime Slist Packet Utils Address Filter Stream StreamFile StreamBuffer Interface StreamEthernet StreamUdp Text Overview StreamApi Marker Tools Capmerge Capfilter Capinfo.

(** ** What is written can be read by the next program *)
Lemma trunc_fits size c p : caplen_limit c -> fits size p -> fits size (trunc c p).
Proof.
  intros Hc [Hp Hs]. split; [by apply trunc_ok|]. unfold trunc. destruct (c =? 4294967295); [done|]. cbn. lia.
Qed.

Lemma chosen_fits size b o f read matched ps bs : caplen_limit (filter_caplen f) -> Forall (fits size) ps ->
  Forall (fits size) (chosen b (split_of o f read matched ps bs)).
Proof.
  intros Hc Hps. apply list.Forall_forall. intros p Hp. unfold chosen in Hp. apply list_elem_of_omap in Hp as ([q x] & Hq & E).
  destruct (Bool.eqb x b); [|discriminate]. injection E as ->. unfold split_of in Hq. apply elem_of_take in Hq as (n & Hq & _).
  apply lookup_zip_with_Some in Hq as (p0 & x0 & [= -> ->] & Hp & _). rewrite list_lookup_fmap in Hp. destruct (ps !! n) as [p1|] eqn:E1; [|discriminate].
  injection Hp as <-. apply trunc_fits; [done|]. by eapply Forall_lookup_1.
Qed.

(** Packets whose statistics capinfo can take. *)
Record countable (fuel : nat) (ps : list cap_header) : Prop := {
  co_data : Forall (fun p => caplen p <> 0) ps;
  co_inspect : Forall inspectable ps;
  co_length : Z.of_nat (length ps) <= 268435456 /\ (length ps < fuel)%nat;
  co_names : few by_mampid ps /\ few by_nic ps;
}.

Lemma written_capture e fuel arg c f ps : e_fopen e (p_str arg) = inl (rewind f) -> blen c < 65536 -> written c f ps -> Forall (fits BUFSIZ) ps ->
  countable fuel ps -> capture e fuel arg c ps.
Proof.
  intros Ho Hc [He Hcont] Hfit []. constructor; try done. exists (rewind f), (B "CONV"). split; [done|]. split; [done|]. split; [by destruct He|]. by split.
Qed.

(** C10: A filtered trace has the statistics of the accepted packets: capinfo on the file that
    capfilter wrote reports exactly on the packets the filter accepts (rejects, when inverted),
    cut to the length the filter asks for and up to the limits of the command line, under the
    comment capfilter gave the file; no packet that was rejected counts anywhere. *)
Theorem capfilter_capinfo bpf e stdin_tty stdout_tty dev_stdin dev_stdout description strdup fuel o f ps bs :
  job bpf e stdin_tty stdout_tty dev_stdin dev_stdout description fuel o f ps bs ->
  let accepted := chosen true (split_of o f 0 0 ps bs) in
  exists r, capfilter bpf e stdin_tty stdout_tty dev_stdin dev_stdout description strdup fuel o f = Ok (Done (r, 0)) /\
    forall garbage strftime protocols e' strdup' bpf' fuel' dev arg,
      (forall t, blen (strftime t (B "%F %T")) < 128) -> e_fopen e' (p_str arg) = inl (rewind (file (out r))) -> countable fuel' accepted ->
      exists report, capinfo garbage strftime protocols e' strdup' bpf' fuel' false dev [arg] = Ok ([Some report], 0) /\
        reported strftime protocols report (p_str arg) description accepted /\
        packets (global (r_info report)) = matched r.
Proof.
  intros Hj. destruct (capfilter_files _ _ _ _ _ _ _ strdup _ _ _ _ _ Hj) as (r & E & Hw & _ & Hm). cbn zeta in *. set (acc := chosen true _) in *.
  exists r. split; [done|]. intros garbage strftime protocols e' strdup' bpf' fuel' dev arg Hst Ho Hco.
  assert (Hcap : capture e' fuel' arg description acc).
  { eapply written_capture; [done|by eapply job_description|done| |done]. destruct (job_input _ _ _ _ _ _ _ _ _ _ _ _ Hj) as (inf & _ & Hcf).
    apply chosen_fits; [by eapply job_caplen|by apply cf_fits in Hcf]. }
  destruct (process_ok garbage strftime Hst protocols e' strdup' bpf' fuel' initial_info arg description acc initial_tables Hcap) as (rep & Ep & Hrep).
  exists rep. split; [unfold capinfo; cbn [visit]; by rewrite Ep|]. split; [done|]. by rewrite Hm, (sm_packets _ _ (i_global _ _ (re_info _ _ _ _ _ _ Hrep))).
Qed.

(** Merged traces: the numbers of packets and bytes are the sums of those of the inputs. *)
Lemma total_len_perm ps qs : ps ≡ₚ qs -> total_len ps = total_len qs.
Proof. unfold total_len. induction 1; cbn; lia. Qed.
Lemma total_len_cut ps : total_len (map cut ps) = total_len ps.
Proof. unfold total_len. induction ps as [|p ps IH]; [done|]. cbn in *. by rewrite IH. Qed.
Lemma total_len_concat qs : total_len (concat qs) = foldr (fun q n => total_len q + n) 0 qs.
Proof. induction qs as [|q qs IH]; [done|]. cbn [concat foldr]. by rewrite total_len_app, IH. Qed.

Lemma capmerge_capinfo {S : Type} {input : Input S} {laws : InputLaws S} fopen fuel output c inputs qs :
  mergeable fopen fuel output c inputs qs ->
  exists dst out, capmerge fopen fuel false output c inputs = Ok (Done dst) /\ interleave qs out /\
    forall garbage strftime protocols e' strdup' bpf' fuel' dev arg,
      (forall t, blen (strftime t (B "%F %T")) < 128) -> e_fopen e' (p_str arg) = inl (rewind (file dst)) ->
      Forall (fits BUFSIZ) (map cut out) -> countable fuel' (map cut out) ->
      exists report, capinfo garbage strftime protocols e' strdup' bpf' fuel' false dev [arg] = Ok ([Some report], 0) /\
        reported strftime protocols report (p_str arg) c (map cut out) /\
        packets (global (r_info report)) = Z.of_nat (length (concat qs)) /\
        bytes_ (global (r_info report)) = foldr (fun q n => total_len q + n) 0 qs.
Proof.
  intros Hm. destruct (capmerge_file _ _ _ _ _ _ Hm) as (dst & out & E & Hil & Hend & Hcont & _). exists dst, out. split; [done|]. split; [done|].
  intros garbage strftime protocols e' strdup' bpf' fuel' dev arg Hst Ho Hfit Hco.
  assert (Hcap : capture e' fuel' arg c (map cut out)) by (eapply written_capture; [done|by destruct Hm|by split|done|done]).
  destruct (process_ok garbage strftime Hst protocols e' strdup' bpf' fuel' initial_info arg c _ initial_tables Hcap) as (rep & Ep & Hrep).
  exists rep. split; [unfold capinfo; cbn [visit]; by rewrite Ep|]. split; [done|]. destruct (i_global _ _ (re_info _ _ _ _ _ _ Hrep)) as [Hp Hb _ _ _ _].
  pose proof (interleave_elements _ _ Hil) as Hperm. rewrite Hp, Hb, length_map, total_len_cut, (total_len_perm _ _ Hperm), total_len_concat. split; [by rewrite Hperm|done].
Qed.

(** ** Witnesses *)

(** A program of the packet filter that accepts what is longer than 20 bytes. *)
Definition ex_long (_ : list bpf_insn) (_ : bytes) (_ caplen : Z) : Z := Z.max 0 (caplen - 20).
Definition ex_long_filter : filter := filter_init <| bpf_prog := Live [] |>.
Definition ex_pipe : options := no_options <| src_filename := Some (ex_name (B "a.cap")) |> <| dst_filename := Some (ex_name (B "b.cap")) |>.

Definition ex_reopened (f : FILE) : env := {|
  e_fopen _ := inl (rewind f); e_fcreate _ := inl empty_file; e_fp _ := f; e_mkfifo _ := None; e_stat_error _ := None; e_sys := ex_system;
  e_raw_socket := None; e_raw_bind := None; e_eth_member _ := None; e_frames := []; e_udp_socket := None; e_udp_bind := ex_bind;
  e_udp_connect := ex_bind; e_udp_member := ex_join; e_path_mtu := ex_no_path; e_datagrams := [] |}.

Lemma ex_traffic_ok : Forall (fits BUFSIZ) ex_traffic /\ Forall (fun p => caplen p <> 0) ex_traffic /\ Forall inspectable ex_traffic.
Proof. destruct ex_capture as [_ H1 H2 H3 _ _]. done. Qed.

Lemma ex_pipe_job : job ex_long ex_info_env true true (ex_name []) (ex_name []) (B "long") 3 ex_pipe ex_long_filter ex_traffic [true; false].
Proof.
  destruct ex_traffic_ok as (Hf & Hd & _). constructor; try done.
  - exists ex_traffic_file. split; [done|]. constructor; [done|by exists (B "mp"), (B "in")|done|done].
  - eapply decided_cons; [intros rest; vm_compute; reflexivity|]. eapply decided_cons; [intros rest; vm_compute; reflexivity|]. constructor.
  - by left.
  - cbn. lia.
Qed.

Lemma capfilter_capinfo_witness : exists r,
  capfilter ex_long ex_info_env true true (ex_name []) (ex_name []) (B "long") ex_strdup 3 ex_pipe ex_long_filter = Ok (Done (r, 0)) /\ matched r = 1.
Proof.
  destruct (capfilter_capinfo ex_long ex_info_env true true (ex_name []) (ex_name []) (B "long") ex_strdup 3 ex_pipe ex_long_filter ex_traffic [true; false] ex_pipe_job)
    as (r & E & H). exists r. split; [exact E|].
  destruct (H zero_stats ex_strftime ex_protocols (ex_reopened (file (out r))) ex_strdup no_bpf 3%nat (ex_name []) (ex_name (B "b.cap")) ex_strftime_fits eq_refl) as (rep & _ & [[[Hp _ _ _ _ _] _ _ _ _ _ _] _ _ _ _ _] & Hm).
  - change (chosen true _) with (take 1 ex_traffic). destruct ex_traffic_ok as (_ & Hd & Hi). constructor; [by apply Forall_take..| |split; vm_compute; lia]. cbn. lia.
  - rewrite <- Hm, Hp. reflexivity.
Defined.
