(* ===== verification/Capdump.v ===== *)
(** * capdump (tools/capdump.c): recording streams to files

    Packets are written to an output file; a marker packet closes it and opens the next
    one, whose name is made from the marker.  Markers arrive in the stream, on a UDP
    socket or over TCP; a terminating marker ends the recording when all sources have
    sent one or some time has passed.  Signals and the TCP thread are events between the
    statements of the main loop.  The outputs are capture files (for the other kinds of
    streams see [StreamApi]). *)

From S2P Require Import Prelude CLib Picotime Utils Address Packet Filter Stream StreamFile StreamBuffer Interface StreamEthernet StreamUdp Text StreamApi Marker Tools Capmerge Capfilter Pcap.

(** ** Options and state *)
Inductive MarkerMode := MARKER_INCREMENT | MARKER_OVERWRITE | MARKER_APPEND.
#[export] Instance MarkerMode_eq_dec : EqDecision MarkerMode.
Proof. solve_decision. Defined.

Definition BUFSIZE : Z := 1500.
Definition PROGRESS_REPORT_DELAY : Z := 60.

(** What the options set, the name of the host, and the number of source streams. *)
Record config := {
  marker_port : Z;            (** [marker] *)
  marker_comment : bool;
  marker_format : bytes;
  marker_mode : MarkerMode;
  marker_key : Z;
  marker_quit : bool;
  dump_comment : bytes;       (** [comment] *)
  fmt_basename : option bytes;
  fmt_extension : option bytes;
  use_listen : bool;
  portno : Z;
  progress : Z;
  max_packets : Z;
  dump_mpid : bytes;          (** [mpid] *)
  src_stream_count : Z;
}.
#[export] Instance config_rebuild : Rebuild config := fun c =>
  {| marker_port := marker_port c; marker_comment := marker_comment c; marker_format := marker_format c; marker_mode := marker_mode c;
     marker_key := marker_key c; marker_quit := marker_quit c; dump_comment := dump_comment c; fmt_basename := fmt_basename c;
     fmt_extension := fmt_extension c; use_listen := use_listen c; portno := portno c; progress := progress c;
     max_packets := max_packets c; dump_mpid := dump_mpid c; src_stream_count := src_stream_count c |}.

(** [struct packet]: the capture header, the headers in front of the marker, the marker. *)
Record dummy := { cap : cap_header; inner : bytes; mark_inner : bytes }.

(** The variables that change while recording.  [closed] are the files that were finished,
    [names] the files that exist, [datagrams] what waits at the UDP socket. *)
Record dump := {
  keep_running : bool;
  dst : option stream_file;
  output : stream_addr;
  marker_terminate : Z;
  marker_terminate_TO : Z;
  signal_count : Z;
  last_read : Z;              (** [last] in [progress_report] *)
  suffix : Z;                 (** in [generate_filename] *)
  closed : list stream_file;
  names : list bytes;
  datagrams : list bytes;
  relaying : bool;            (** the TCP thread runs *)
}.
#[export] Instance dump_rebuild : Rebuild dump := fun d =>
  {| keep_running := keep_running d; dst := dst d; output := output d; marker_terminate := marker_terminate d;
     marker_terminate_TO := marker_terminate_TO d; signal_count := signal_count d; last_read := last_read d; suffix := suffix d;
     closed := closed d; names := names d; datagrams := datagrams d; relaying := relaying d |}.

(** ** Names of files *)
Definition parse_marker_mode (str : bytes) : MarkerMode :=
  let ch := tolower (hd0 str) in
  if ch =? 105 then MARKER_INCREMENT
  else if ch =? 111 then MARKER_OVERWRITE
  else if ch =? 97 then MARKER_APPEND
  else MARKER_INCREMENT.

(** [%*d] and [%0*d] *)
Definition fmt_width (zeropad : bool) (width : nat) (n : Z) : bytes :=
  let n := i32 n in
  if zeropad then (if n <? 0 then 45 :: padl 48 (width - 1) (dec (- n)) else padl 48 width (dec n))
  else padl 32 width (dec n).

(** The digits behind a percent sign, at most four of them in an array of four. *)
Fixpoint field_width (src : bytes) (w : bytes) : res (bytes * bytes) :=
  match src with
  | c :: rest =>
      if isdigit c then (if (length w =? 4)%nat then Abort else field_width rest (w ++ [c]))
      else Ok (w, src)
  | [] => Ok (w, [])
  end.
(** [atoi(w)]: four digits leave no room for the terminator. *)
Definition width_of (w : bytes) : res nat := if (length w <? 4)%nat then Ok (Z.to_nat (atoi w)) else Fault.

Definition specifier (c : config) (m : marker) (zeropad : bool) (width : nat) (s : Z) : res bytes :=
  if s =? 101 then Ok (fmt_s (fmt_extension c))
  else if s =? 102 then Ok (fmt_s (fmt_basename c))
  else if s =? 115 then Ok (fmt_width zeropad width (seq_num m))
  else if s =? 107 then Ok (fmt_width zeropad width (key_id m))
  else if s =? 114 then Ok (fmt_width zeropad width (run_id m))
  else if s =? 120 then Ok (fmt_width zeropad width (exp_id m))
  else Abort.

(** [dst] is what has been written to the array of 1024 bytes. *)
Definition NAMESIZE : Z := 1024.
Fixpoint expand (fuel : nat) (c : config) (m : marker) (src dst : bytes) : res bytes :=
  match fuel with
  | O => OutOfFuel
  | S fuel =>
      match src with
      | [] => if blen dst <? NAMESIZE then Ok dst else Fault
      | ch :: src =>
          if ch =? 37 then
            '(w, src) ← field_width src [];
            let zeropad := hd0 w =? 48 in
            width ← width_of w;
            match src with
            | [] => Abort
            | s :: src =>
                piece ← specifier c m zeropad width s;
                if blen dst + blen piece <? NAMESIZE then expand fuel c m src (dst ++ piece) else Fault
            end
          else if blen dst <? NAMESIZE then expand fuel c m src (dst ++ [ch])
          else Fault
      end
  end.

(** The search for a name that does not exist; [stem] is what was made from the format.
    A name that stat() cannot look at is taken as well. *)
Fixpoint unused_name (stat_error : bytes -> option Z) (fuel : nat) (names : list bytes) (stem name : bytes) (suffix : Z) : res (bytes * Z) :=
  match fuel with
  | O => OutOfFuel
  | S fuel =>
      if bool_decide (stat_error name = None) && bool_decide (name ∈ names) then
        let left := Z.to_nat (NAMESIZE - blen stem) in
        unused_name stat_error fuel names stem (stem ++ take (left - 1) (B "." ++ fmt_d suffix)) (u32 (suffix + 1))
      else Ok (name, suffix)
  end.

Definition generate_filename (stat_error : bytes -> option Z) (c : config) (d : dump) (fmt : bytes) (m : marker) : res (bytes * dump) :=
  stem ← expand (S (length fmt)) c m fmt [];
  if bool_decide (marker_mode c = MARKER_INCREMENT) then
    '(name, n) ← unused_name stat_error (S (length (names d))) (names d) stem stem (suffix d);
    Ok (name, d <| suffix := n |>)
  else Ok (stem, d).

Section Dump.
Variable e : env.
Variable strdup : bytes -> cptr.
Variable c : config.
(** [marker->comment], which [is_marker] does not set. *)
Variable stack_comment : bytes.

(** ** Signals *)

(** The text of the report is not modelled. *)
Definition progress_report (d : dump) (read : Z) : dump := d <| last_read := read |>.

(** The output is finished; its address becomes an empty name. *)
Definition finish (d : dump) : dump :=
  match dst d with
  | None => d
  | Some w => d <| output := fst (stream_addr_str strdup (output d) {| p_at := 0; p_str := [] |} STREAM_ADDR_LOCAL) |>
                <| closed := closed d ++ [w] |> <| dst := None |>
  end.

Definition handle_terminate_signal (d : dump) : dump :=
  if (src_stream_count c <=? marker_terminate d) || (src_stream_count c <=? marker_terminate_TO d) then
    let d := finish d in
    if marker_quit c then d <| keep_running := false |>
    else d <| marker_terminate := 0 |> <| marker_terminate_TO := 0 |>
  else d <| marker_terminate_TO := marker_terminate_TO d + 1 |>.

Definition my_signalhandler (d : dump) (read : Z) : dump :=
  let d := if 0 <? progress c then
             let d' := d <| signal_count := signal_count d + 1 |> in
             if signal_count d mod PROGRESS_REPORT_DELAY =? 0 then progress_report d' read else d'
           else d in
  if negb (marker_terminate d =? 0) then handle_terminate_signal d else d.

(** SIGINT and SIGTERM *)
Definition sig_handler (d : dump) : res dump := if negb (keep_running d) then Abort else Ok (d <| keep_running := false |>).

(** ** Markers *)

Definition validate_key (m : marker) : bool := negb (negb (negb (marker_key c =? 0) && (key_id m =? marker_key c))).

(** The name of the output is compared in one mode only. *)
Definition is_current (d : dump) (filename : bytes) : res bool :=
  if bool_decide (marker_mode c = MARKER_APPEND)
  then current ← local_filename (output d); Ok (bool_decide (filename = current))
  else Ok false.

(** A file that is created exists from then on. *)
Definition open_next (d : dump) (m : marker) : res (dump * Z) :=
  '(filename, d) ← generate_filename (e_stat_error e) c d (marker_format c) m;
  same ← is_current d filename;
  if (same : bool) then (match dst d with Some _ => Ok (d, 0) | None => Fault end)
  else
    let d := match dst d with Some w => d <| closed := closed d ++ [w] |> <| dst := None |> | None => d end in
    let d := d <| output := fst (stream_addr_str strdup (stream_addr_reset (output d)) {| p_at := 1; p_str := filename |} STREAM_ADDR_DUPLICATE) |> in
    '(st, ret, _) ← stream_create e (output d) None (dump_mpid c) (Some (if marker_comment c then stack_comment else dump_comment c));
    if negb (ret =? 0) then Ok (d <| dst := match st : option stream_t with Some (FileStream w) => Some w | _ => None end |>, 1)
    else match st : option stream_t with
         | Some (FileStream w) => Ok (d <| dst := Some w |> <| names := filename :: names d |>, 0)
         | _ => Fault
         end.

Definition handle_marker (d : dump) (m : marker) : res (dump * Z) :=
  if negb (validate_key m) then Ok (d, 0)
  else
    name ← local_filename (output d);
    if bool_decide (name = B "/dev/stdout") then Ok (d, 1)
    else if has_flag (marker_flags m) MARKER_TERMINATE then Ok (d <| marker_terminate := marker_terminate d + 1 |>, 0)
    else
      '(d, ret) ← open_next d m;
      Ok (d, if negb (ret =? 0) then 1 else 0).

Definition handle_marker_caphead (d : dump) (cp : cap_header) : res (dump * Z) :=
  if marker_port c =? 0 then Ok (d, 0)
  else
    '(r, m) ← is_marker (payload cp) true (marker_port c);
    match m with
    | Some m => if r =? 0 then Ok (d, 0) else handle_marker d m
    | None => Ok (d, 0)
    end.
Definition handle_marker_server (d : dump) (data : bytes) : res (dump * Z) :=
  if marker_port c =? 0 then Ok (d, 0)
  else
    '(r, m) ← is_marker_udp data true (marker_port c);
    match m with
    | Some m => if r =? 0 then Ok (d, 0) else handle_marker d m
    | None => Ok (d, 0)
    end.

Definition write_packet (d : dump) (cp : cap_header) : res (dump * Z) :=
  match dst d with
  | None => Ok (d, 0)
  | Some w =>
      let cp := cp <| caplen := if caplen cp <? len cp then caplen cp else len cp |> in
      '(w, ret) ← stream_copy w cp;
      Ok (d <| dst := Some w |>, ret)
  end.

(** ** Markers from the network *)
Definition sizeof_marker : Z := 96.

(** The headers that are put in front of a marker: the fields that are not assigned have
    whatever the memory held, [junk]. *)
Definition setup_udp (junk : Z -> Z) : dummy :=
  let junks o n := map junk (seqZ o n) in
  let size := 14 + 20 + 8 + sizeof_marker in
  {| cap := {| nic := B "c0" ++ junks 0 6; head_mampid := strncpy (B "control") 8; ts := mk_timepico 0 0; len := size; caplen := size; payload := [] |};
     inner := junks 36 12 ++ wr16be 0x0800 ++
              [69] ++ junks 51 1 ++ le16 (20 + 8 + sizeof_marker) ++ le16 (htonl 12345) ++ junks 56 2 ++ junks 58 1 ++ [17] ++ junks 60 2 ++
              [127; 0; 0; 1] ++ [127; 0; 0; 1] ++
              wr16be MARKERPORT ++ wr16be (u16 (portno c)) ++ le16 (8 + sizeof_marker) ++ junks 76 2;
     mark_inner := junks 78 32 ++ replicate 64 0 |}.

(** The packet of the TCP thread gets the same fields. *)
Definition setup_tcp (junk : Z -> Z) : dummy := setup_udp junk.

(** [memcpy(&packet->mark_inner, &buf, n)]: the marker is the end of the allocation. *)
Definition fill_marker (p : dummy) (data : bytes) : res dummy :=
  if sizeof_marker <? blen data then Fault
  else Ok {| cap := cap p; inner := inner p; mark_inner := data ++ drop (length data) (mark_inner p) |}.
Definition dummy_packet (p : dummy) (now : timepico) : cap_header := (cap p) <| ts := now |> <| payload := inner p ++ mark_inner p |>.

(** What is common to both ways: the marker is handled and a packet with it is written. *)
Definition relay (d : dump) (p : dummy) (buf data : bytes) (now : timepico) : res (dump * dummy * Z) :=
  '(d, ret) ← handle_marker_server d buf;
  if negb (ret =? 0) then Ok (d, p, 1)
  else
    p ← fill_marker p data;
    '(d, ret) ← write_packet d (dummy_packet p now);
    Ok (d, p, if negb (ret =? 0) then 1 else 0).

(** FIONREAD gives the size of the first datagram, which stays when it is too short. *)
Definition handle_udp (d : dump) (p : dummy) (now : timepico) : res (dump * dummy * Z) :=
  if negb (use_listen c) then Ok (d, p, 0)
  else match datagrams d with
       | [] => Ok (d, p, 0)
       | g :: gs =>
           if blen g <? sizeof_marker then Ok (d, p, 0)
           else
             let data := take (Z.to_nat BUFSIZE) g in
             relay (d <| datagrams := gs |>) p data data now
       end.

(** One connection of the TCP thread: its static buffer keeps older bytes behind the
    message.  An error ends the thread. *)
Definition tcprelay (d : dump) (p : dummy) (buf message : bytes) (now : timepico) : res (dump * dummy * bytes) :=
  let data := take (Z.to_nat BUFSIZE) message in
  let buf := data ++ drop (length data) buf in
  '(d, p, ret) ← relay d p buf data now;
  Ok (if ret =? 0 then d else d <| relaying := false |>, p, buf).

(** ** The main loop *)

(** What happens between the statements of the loop. *)
Inductive event :=
  | Alarm
  | Interrupt
  | Connection (message : bytes) (now : timepico)
  | Arrival (datagram : bytes).

(** Static data of the handlers: the two packets and the buffer of the TCP thread. *)
Record scratch := { udp_dummy : dummy; tcp_packet : dummy; tcp_buf : bytes }.

Definition on_event (read : Z) (d : dump) (x : scratch) (ev : event) : res (dump * scratch) :=
  match ev with
  | Alarm => Ok (my_signalhandler d read, x)
  | Interrupt => d ← sig_handler d; Ok (d, x)
  | Connection message now =>
      if use_listen c && relaying d then
        '(d, p, buf) ← tcprelay d (tcp_packet x) (tcp_buf x) message now;
        Ok (d, {| udp_dummy := udp_dummy x; tcp_packet := p; tcp_buf := buf |})
      else Ok (d, x)
  | Arrival g => Ok (d <| datagrams := datagrams d ++ [g] |>, x)
  end.
Fixpoint on_events (read : Z) (d : dump) (x : scratch) (evs : list event) : res (dump * scratch) :=
  match evs with
  | [] => Ok (d, x)
  | ev :: evs => '(d, x) ← on_event read d x ev; on_events read d x evs
  end.

(** The events of one round: before the UDP socket is looked at (at the time [t_now]), and
    while the program waits for a packet. *)
Record turn := { t_before : list event; t_now : timepico; t_waiting : list event }.

(** One round: the new state and whether the loop goes on. *)
Definition round {S : Type} (next : S -> res (S * (Z * option cap_header))) (read_count : S -> Z) (t : turn) (d : dump) (x : scratch) (src : S) : res (dump * scratch * S * bool * Z) :=
  '(d, x) ← on_events (read_count src) d x (t_before t);
  '(d, p, ret) ← handle_udp d (udp_dummy x) (t_now t);
  let x := {| udp_dummy := p; tcp_packet := tcp_packet x; tcp_buf := tcp_buf x |} in
  if negb (ret =? 0) then Ok (d, x, src, false, 0)
  else
    '(d, x) ← on_events (read_count src) d x (t_waiting t);
    '(src, (ret, cp)) ← next src;
    if ret =? EAGAIN then Ok (d, x, src, true, 0)
    else if (ret =? EINTR) && keep_running d then Ok (d, x, src, true, 0)
    else if 0 <? ret then Ok (d, x, src, false, 0)
    else if ret =? -1 then Ok (d, x, src, false, 0)
    else if negb (ret =? 0) then Abort
    else match cp : option cap_header with
         | None => Fault
         | Some cp =>
             '(d, ret) ← handle_marker_caphead d cp;
             if negb (ret =? 0) then Ok (d, x, src, false, 0)
             else
               '(d, ret) ← write_packet d cp;
               if negb (ret =? 0) then Ok (d, x, src, false, 0)
               else Ok (d, x, src, negb ((0 <? max_packets c) && (max_packets c <=? read_count src)), 1)
         end.

(** The final state and the number of packets that were written. *)
Fixpoint record_loop {S : Type} (next : S -> res (S * (Z * option cap_header))) (read_count : S -> Z) (fuel : nat) (ts : nat -> turn) (n : nat) (d : dump) (x : scratch) (src : S)
    (written_packets : Z) : res (dump * Z) :=
  match fuel with
  | O => OutOfFuel
  | Datatypes.S fuel =>
      if negb (keep_running d) then Ok (d, written_packets)
      else
        '(d, x, src, more, w) ← round next read_count (ts n) d x src;
        let written_packets := u64 (written_packets + w) in
        if more : bool then record_loop next read_count fuel ts (Datatypes.S n) d x src written_packets else Ok (d, written_packets)
  end.
End Dump.

(** ** The command line *)

(** The name without its extension, and the extension: both are split at the first dot. *)
Fixpoint split_dot (s : bytes) : bytes * bytes :=
  match s with
  | [] => ([], [])
  | ch :: s => if ch =? 46 then ([], s) else let '(a, b) := split_dot s in (ch :: a, b)
  end.

Record arguments := { a_config : config; a_output : stream_addr; a_iface : option bytes; a_bufsize : Z }.
#[export] Instance arguments_rebuild : Rebuild arguments := fun a =>
  {| a_config := a_config a; a_output := a_output a; a_iface := a_iface a; a_bufsize := a_bufsize a |}.

Section Main.
Variable e : env.
Variable strdup : bytes -> cptr.
Variable can_dup : Z -> bool.      (** [dup] works on the descriptor *)

(** The result of parsing the address is not looked at. *)
Definition set_destination (a : arguments) (str : cptr) : res arguments :=
  '(addr, _) ← stream_addr_aton strdup (stream_addr_reset (a_output a)) str STREAM_ADDR_GUESS 0;
  let '(b, x) := split_dot (p_str str) in
  Ok (a <| a_output := addr |> <| a_config := (a_config a) <| fmt_basename := Some b |> <| fmt_extension := Some x |> |>).

(** [optarg] of an option; without one it is a null pointer. *)
Definition required (o : option cptr) : res bytes := match o with Some p => Ok (p_str p) | None => Fault end.

Fixpoint parse_options (a : arguments) (found : list (Z * option cptr)) : res (outcome arguments) :=
  match found with
  | [] => Ok (Done a)
  | (op, optarg) :: found =>
      let set f := parse_options (a <| a_config := f (a_config a) |>) found in
      if (op =? 0) || (op =? 63) then parse_options a found
      else if op =? 111 then match optarg with Some p => a ← set_destination a p; parse_options a found | None => Fault end
      else if op =? 112 then s ← required optarg; set (fun k => k <| max_packets := u32 (atoi s) |>)
      else if op =? 99 then s ← required optarg; set (fun k => k <| dump_comment := s |>)
      else if op =? 98 then s ← required optarg; parse_options (a <| a_bufsize := u64 (atoi s) |>) found
      else if op =? 105 then s ← required optarg; parse_options (a <| a_iface := Some s |>) found
      else if op =? 109 then s ← required optarg; set (fun k => k <| marker_port := atoi s |>)
      else if op =? 102 then s ← required optarg; set (fun k => k <| marker_format := s |>)
      else if op =? 77 then s ← required optarg; set (fun k => k <| marker_mode := parse_marker_mode s |>)
      else if op =? 75 then s ← required optarg; set (fun k => k <| marker_key := u32 (atoi s) |>)
      else if op =? 80 then s ← required optarg; set (fun k => k <| portno := atoi s |>)
      else if op =? 76 then set (fun k => k <| use_listen := true |>)
      else if op =? 67 then set (fun k => k <| marker_comment := true |>)
      else if op =? 81 then set (fun k => k <| marker_quit := true |>)
      else if op =? 115 then
        match optarg with
        | None => set (fun k => k <| progress := 2 |>)
        | Some p => let fd := atoi (p_str p) in if can_dup fd then set (fun k => k <| progress := fd |>) else Ok (Exit 1)
        end
      else if op =? 104 then Ok (Exit 0)
      else Abort
  end.

(** The output: what [-o] gave, standard output when it is redirected, or the last argument. *)
Definition choose_output (stdout_tty : bool) (dev_stdout : cptr) (a : arguments) (args : list cptr) : res (outcome (arguments * list cptr)) :=
  let a := if negb (stream_addr_is_set (a_output a) || stdout_tty)
           then a <| a_output := fst (stream_addr_str strdup (a_output a) dev_stdout 0) |> else a in
  if stream_addr_is_set (a_output a) then Ok (Done (a, args))
  else match list.last args with
       | Some arg => a ← set_destination a arg; Ok (Done (a, removelast args))
       | None => Ok (Exit 0)
       end.

(** The next packet of a stream of any kind. *)
Definition stream_t_next (bpf_filter : list bpf_insn -> bytes -> Z -> Z -> Z) (read_fuel : nat) (st : stream_t) : res (stream_t * (Z * option cap_header)) :=
  '(st, _, r) ← stream_t_read bpf_filter read_fuel st None None; Ok (st, r).
Definition stream_t_count (st : stream_t) : Z := stat_read (stream_get_stat st).

Definition initial_dump (w : stream_file) (a : stream_addr) (names : list bytes) : dump :=
  {| keep_running := true; dst := Some w; output := a; marker_terminate := 0; marker_terminate_TO := 0; signal_count := 0; last_read := 0;
     suffix := 1; closed := []; names := names; datagrams := []; relaying := true |}.

(** The files that were written, in the order in which they were finished. *)
Definition results (d : dump) : list stream_file := closed d ++ option_list (dst d).

Definition capdump (bpf_filter : list bpf_insn -> bytes -> Z -> Z -> Z) (read_fuel fuel : nat) (stdin_tty stdout_tty : bool) (dev_stdin : Z)
    (dev_stdout dash : cptr) (hostname stack_comment : bytes) (junk : Z -> Z) (exist : list bytes) (turns : nat -> turn)
    (a : arguments) (args : list cptr) : res (outcome (list stream_file * Z)) :=
  r ← choose_output stdout_tty dev_stdout a args;
  match r : outcome (arguments * list cptr) with
  | Exit code => Ok (Exit code)
  | Done (a, args) =>
      '(src, ret, _) ← stream_from_getopt e strdup stdin_tty dev_stdin args (a_iface a) (Some dash) (a_bufsize a);
      if negb (ret =? 0) then Ok (Exit 1)
      else
        let c := (a_config a) <| dump_mpid := hostname |> in
        '(st, ret, _) ← stream_create e (a_output a) None (dump_mpid c) (Some (dump_comment c));
        if negb (ret =? 0) then Ok (Exit 1)
        else match src : option stream_t, st : option stream_t with
             | Some src, Some (FileStream w) =>
                 let c := c <| src_stream_count := stream_num_address src |> in
                 name ← local_filename (a_output a);
                 let d := initial_dump w (a_output a) (name :: exist) in
                 let x := {| udp_dummy := setup_udp c junk; tcp_packet := setup_tcp c junk; tcp_buf := replicate (Z.to_nat BUFSIZE) 0 |} in
                 '(d, n) ← record_loop e strdup c stack_comment (stream_t_next bpf_filter read_fuel) stream_t_count fuel turns 0 d x src 0;
                 Ok (Done (results d, n))
             | _, _ => Fault
             end
  end.
End Main.

(** ** Free names *)
Lemma dec_inj a b : 0 <= a < 2147483648 -> 0 <= b < 2147483648 -> dec a = dec b -> a = b.
Proof. intros Ha Hb E. rewrite <- (atoi_dec a), <- (atoi_dec b) by done. by rewrite E. Qed.

(** The names that are tried: the stem, then the stem with one number after the other. *)
Definition candidate (stem : bytes) (s : Z) (i : nat) : bytes :=
  match i with O => stem | S i => stem ++ B "." ++ dec (s + Z.of_nat i) end.

Lemma candidate_inj stem s i j : 0 <= s -> s + Z.of_nat i < 2147483648 -> s + Z.of_nat j < 2147483648 ->
  candidate stem s i = candidate stem s j -> i = j.
Proof.
  intros Hs Hi Hj. destruct i as [|i], j as [|j]; cbn [candidate]; [done| | |].
  - intros E. apply (f_equal length) in E. rewrite !length_app in E. cbn in E. lia.
  - intros E. apply (f_equal length) in E. rewrite !length_app in E. cbn in E. lia.
  - intros E%app_inv_head. injection E as E. apply dec_inj in E; lia.
Qed.

(** Different names cannot all exist. *)
Lemma tried_bound stem s ns i : 0 <= s -> s + Z.of_nat i <= 2147483648 -> (forall j, (j < i)%nat -> candidate stem s j ∈ ns) -> (i <= length ns)%nat.
Proof.
  intros Hs Hi Ht. assert (Hd : NoDup (map (candidate stem s) (seq 0 i))).
  { apply NoDup_fmap_2_strong; [|apply NoDup_seq]. intros x y Hx%elem_of_seq Hy%elem_of_seq. apply candidate_inj; lia. }
  apply (NoDup_submseteq _ ns) in Hd; [apply submseteq_length in Hd; by rewrite length_map, length_seq in Hd|].
  intros x (j & -> & Hj%elem_of_seq)%list_elem_of_fmap. apply Ht. lia.
Qed.

Lemma unused_from stat_error stem s ns fuel i : (forall n, stat_error n = None) -> 0 <= s -> s + Z.of_nat (length ns) < 2147483647 -> blen stem <= 1000 ->
  (fuel + i = S (length ns))%nat -> (forall j, (j < i)%nat -> candidate stem s j ∈ ns) ->
  exists k, (i <= k <= length ns)%nat /\ unused_name stat_error fuel ns stem (candidate stem s i) (s + Z.of_nat i) = Ok (candidate stem s k, s + Z.of_nat k) /\
    candidate stem s k ∉ ns.
Proof.
  intros Hstat Hs Hn Hl. revert i. induction fuel as [|fuel IH]; intros i Hf Ht.
  - exfalso. apply tried_bound in Ht; lia.
  - cbn [unused_name]. rewrite (bool_decide_eq_true_2 (stat_error _ = None)) by done. cbn [andb]. case_bool_decide as Hin; [|exists i; split; [lia|done]].
    assert (Ht' : forall j, (j < S i)%nat -> candidate stem s j ∈ ns).
    { intros j Hj. destruct (decide (j = i)) as [-> |]; [done|]. apply Ht. lia. }
    pose proof (tried_bound stem s ns (S i) Hs ltac:(lia) Ht') as Hi.
    destruct (IH (S i)) as (k & Hk & Hu & Hfree); [lia|done|].
    exists k. split; [lia|]. split; [|done]. rewrite <- Hu. f_equal.
    + cbn [candidate]. f_equal. unfold fmt_d. rewrite i32_id by (ints; lia). apply take_ge.
      rewrite length_app. pose proof (length_dec (s + Z.of_nat i)). unfold NAMESIZE. cbn [length B]. unfold blen in *. cbn. lia.
    + rewrite u32_id by (ints; lia). lia.
Qed.

(** A name that does not exist is found within the steps the loop is given, as long as the
    numbers do not run out. *)
Lemma unused_name_ok stat_error stem s ns : (forall n, stat_error n = None) -> 0 <= s -> s + Z.of_nat (length ns) < 2147483647 -> blen stem <= 1000 ->
  exists k, (k <= length ns)%nat /\ unused_name stat_error (S (length ns)) ns stem stem s = Ok (candidate stem s k, s + Z.of_nat k) /\ candidate stem s k ∉ ns.
Proof.
  intros Hstat Hs Hn Hl. destruct (unused_from stat_error stem s ns (S (length ns)) 0 Hstat Hs Hn Hl) as (k & Hk & Hu & Hf); [lia|lia|].
  exists k. rewrite Z.add_0_r in Hu. split; [lia|done].
Qed.

(** ** Splitting at markers *)
Lemma stream_copy_base st p st' r : stream_copy st p = Ok (st', r) -> base st' = base st.
Proof.
  unfold stream_copy, stream_write, stream_file_write. destruct (_ =? 0); [by intros [= <- <-]|]. intros H. inv_ok. case_match; inv_ok; by injection H as <- <-.
Qed.

Lemma extends_rd64 m r o : extends (rd64 m o) (rd64 (m ++ r) o).
Proof.
  intros a H. rewrite rd64_app_l; [done|]. apply bind_Ok_inv in H as (v & _ & (v' & H%rd32_inv & _)%bind_Ok_inv). lia.
Qed.
#[export] Hint Resolve extends_rd64 : extends.
Lemma extends_marker m r port : extends (is_marker m true port) (is_marker (m ++ r) true port).
Proof. unfold is_marker, marker_fields. repeat extend_step. Qed.

Section Split.
Variable e : env.
Variable strdup : bytes -> cptr.
Variable c : config.
Variable stack_comment : bytes.

(** The marker a packet is, if its key is the one that is looked for. *)
Definition marker_of (p : cap_header) : option marker :=
  match is_marker (payload p) true (marker_port c) with
  | Ok (r, Some m) => if (r =? 0) || negb (validate_key c m) then None else Some m
  | _ => None
  end.

(** The packets in front of the first marker, and every marker with its packets. *)
Fixpoint segments (ps : list cap_header) : list cap_header * list (marker * list cap_header) :=
  match ps with
  | [] => ([], [])
  | p :: ps =>
      let '(seg, rest) := segments ps in
      match marker_of p with
      | None => (p :: seg, rest)
      | Some m => ([], (m, p :: seg) :: rest)
      end
  end.

(** A marker that does not terminate, with a name that can be made. *)
Record usable (m : marker) : Prop := {
  us_flag : has_flag (marker_flags m) MARKER_TERMINATE = false;
  us_name : exists stem, expand (S (length (marker_format c))) c m (marker_format c) [] = Ok stem /\ blen stem <= 1000 /\ stem <> B "/dev/stdout";
}.
Record fine (p : cap_header) : Prop := {
  fi_packet : packet_ok p;
  fi_bytes : exists v, is_marker (payload p) true (marker_port c) = Ok v;
  fi_marker : forall m, marker_of p = Some m -> usable m;
}.

(** The address of a file that was opened for a marker. *)
Definition dup_addr (name : bytes) : stream_addr :=
  {| addr := ULocal (strdup name); _type := htons STREAM_ADDR_CAPFILE; _flags := htons (Z.lor STREAM_ADDR_LOCAL STREAM_ADDR_DUPLICATE) |}.

(** Recording to one file after the other, without signals that end it: markers are
    looked for on a port and by a key, and stat() can look at the names. *)
Record recording : Prop := {
  rc_port : marker_port c <> 0;
  rc_key : marker_key c <> 0;
  rc_stat : forall name, e_stat_error e name = None;
  rc_mode : marker_mode c <> MARKER_APPEND;
  rc_comment : marker_comment c = false;
  rc_all : max_packets c = 0;
  rc_local : use_listen c = false;
  rc_create : forall name, e_fcreate e name = inl empty_file;
  rc_strdup : forall s, p_str (strdup s) = s;
}.

Lemma create_dup name : recording ->
  exists w, stream_create e (dup_addr name) None (dump_mpid c) (Some (dump_comment c)) = Ok (Some (FileStream w), 0, []) /\ at_end (file w) /\
    content (file w) = file_header_image (new_header (dump_mpid c) (dump_comment c)) ++ dump_comment c /\ st_addr (base w) = dup_addr name.
Proof.
  intros [_ _ _ _ _ _ _ Hc Hs].
  destruct (create_ok (e_fcreate e) None (Some name) (dump_mpid c) (dump_comment c) 17 empty_file) as (w & Ew & Hend & Hcw); [by cbn; rewrite Hc|done..|].
  exists (w <| base := (base w) <| st_addr := dup_addr name |> |>). split_and!; [|done..].
  transitivity (r ← as_file (stream_file_create (e_fcreate e) None (Some (p_str (strdup name))) (dump_mpid c) (Some (dump_comment c)) 17); Ok (keep_addr (dup_addr name) r)); [done|].
  by rewrite Hs, Ew.
Qed.

(** The name of the file of a marker: what the format gives, with a number behind it in the
    mode that keeps older files. *)
Definition named (m : marker) (name : bytes) : Prop :=
  exists stem, expand (S (length (marker_format c))) c m (marker_format c) [] = Ok stem /\
    (name = stem \/ marker_mode c = MARKER_INCREMENT /\ exists n, 0 <= n /\ name = stem ++ B "." ++ dec n).

Lemma generate_ok d m : (forall n, e_stat_error e n = None) -> usable m -> marker_mode c <> MARKER_APPEND -> 0 <= suffix d -> suffix d + Z.of_nat (length (names d)) < 2147483647 ->
  exists name n, generate_filename (e_stat_error e) c d (marker_format c) m = Ok (name, d <| suffix := n |>) /\ suffix d <= n <= suffix d + Z.of_nat (length (names d)) /\
    named m name /\ name <> B "/dev/stdout" /\ (marker_mode c = MARKER_INCREMENT -> name ∉ names d).
Proof.
  intros Hstat [_ (stem & Hx & Hl & Hne)] Hm Hs Hb. unfold generate_filename. rewrite Hx. cbn [mbind res_bind].
  case_bool_decide as Hi.
  - destruct (unused_name_ok (e_stat_error e) stem (suffix d) (names d) Hstat Hs Hb Hl) as (k & Hk & -> & Hf). cbn [mbind res_bind].
    eexists _, _. split; [reflexivity|]. split; [lia|]. split_and!; [|destruct k as [|k]; [done|]|done].
    + exists stem. split; [done|]. destruct k as [|k]; [by left|right]. split; [done|]. eexists. split; [|reflexivity]. lia.
    + cbn [candidate]. intros E. apply (f_equal (fun l => 46 ∈ l)) in E. assert (H : 46 ∈ B "/dev/stdout").
      { rewrite <- E. apply elem_of_app. right. by left. }
      revert H. vm_compute. intros H. by repeat (apply elem_of_cons in H as [?|H]; [discriminate|]); apply elem_of_nil in H.
  - eexists _, (suffix d). split; [by destruct d|]. split; [lia|]. split_and!; [exists stem; by split; [|left]|done|done].
Qed.

(** The state between two packets. *)
Record ready (d : dump) (w : stream_file) : Prop := {
  rd_running : keep_running d = true;
  rd_dst : dst d = Some w;
  rd_end : at_end (file w);
  rd_output : exists name, local_filename (output d) = Ok name /\ name <> B "/dev/stdout";
  rd_terminate : marker_terminate d = 0;
  rd_suffix : 0 <= suffix d;
}.
(** What a step leaves alone. *)
Definition same_files (d d' : dump) : Prop :=
  keep_running d' = keep_running d /\ dst d' = dst d /\ output d' = output d /\ marker_terminate d' = marker_terminate d /\ suffix d' = suffix d /\
  closed d' = closed d /\ names d' = names d.
Lemma ready_same d d' w : same_files d d' -> ready d w -> ready d' w.
Proof. intros (E1 & E2 & E3 & E4 & E5 & E6 & E7) []. by constructor; rewrite ?E1, ?E2, ?E3, ?E4, ?E5. Qed.

(** A marker opens the next file, and finishes the current one. *)
Lemma handle_marker_ok d w m : recording -> ready d w -> validate_key c m = true -> usable m -> suffix d + Z.of_nat (length (names d)) < 2147483647 ->
  exists d' w' name, handle_marker e strdup c stack_comment d m = Ok (d', 0) /\ ready d' w' /\ closed d' = closed d ++ [w] /\ names d' = name :: names d /\
    suffix d <= suffix d' <= suffix d + Z.of_nat (length (names d)) /\ named m name /\ (marker_mode c = MARKER_INCREMENT -> name ∉ names d) /\
    content (file w') = file_header_image (new_header (dump_mpid c) (dump_comment c)) ++ dump_comment c /\ st_addr (base w') = dup_addr name.
Proof.
  intros Hrec [Hr Hd He (cur & Hcur & Hne) Ht Hs] Hkey Hu Hb. pose proof Hrec as [_ _ _ Hmode Hcom _ _ _ Hdup]. unfold handle_marker. rewrite Hkey, Hcur. cbn [negb mbind res_bind].
  rewrite bool_decide_eq_false_2 by done. rewrite (us_flag _ Hu). unfold open_next.
  destruct (generate_ok d m (rc_stat Hrec) Hu Hmode Hs Hb) as (name & n & -> & Hn & Hname & Hstd & Hfree). cbn [mbind res_bind].
  unfold is_current. rewrite bool_decide_eq_false_2 by done. cbn [mbind res_bind]. change (dst (d <| suffix := n |>)) with (dst d). rewrite Hd, Hcom.
  match goal with |- context [stream_create e ?a _ _ _] => change a with (dup_addr name) end.
  destruct (create_dup name Hrec) as (w' & -> & Hend & Hcont & Haddr). cbn [mbind res_bind Z.eqb negb].
  eexists _, w', name. split; [reflexivity|]. split_and!; try done; cbn; try lia.
  constructor; try done; cbn; [|lia]. exists name. split; [|done].
  change (Ok (p_str (strdup name)) = Ok name). by rewrite Hdup.
Qed.

Lemma write_ok d w p rest : ready d w -> packet_ok p ->
  exists d' w', write_packet d (in_memory p rest) = Ok (d', 0) /\ ready d' w' /\ closed d' = closed d /\ names d' = names d /\ suffix d' = suffix d /\
    content (file w') = content (file w) ++ packet_image (cut p) /\ st_addr (base w') = st_addr (base w).
Proof.
  intros [Hr Hd He Ho Ht Hs] Hp. unfold write_packet. rewrite Hd.
  assert (Hc : (in_memory p rest) <| caplen := if caplen (in_memory p rest) <? len (in_memory p rest) then caplen (in_memory p rest) else len (in_memory p rest) |>
    = clip (in_memory p rest)).
  { unfold clip. f_equal. destruct (Z.ltb_spec (caplen (in_memory p rest)) (len (in_memory p rest))); [rewrite Z.min_l|rewrite Z.min_r]; [done|lia|done|lia]. }
  cbv zeta. rewrite Hc. unfold stream_copy at 1. rewrite write_clip by (by rewrite captured_in_memory). rewrite captured_in_memory by done.
  destruct (stream_copy_ok w (cut p) (cut_ok _ Hp) He) as (w' & E & He' & Hcont). rewrite E. cbn [mbind res_bind].
  eexists _, w'. split; [reflexivity|]. split_and!; try done; by rewrite (stream_copy_base _ _ _ _ E).
Qed.

(** Alarms and arrivals do nothing while no terminating marker was seen. *)
Lemma quiet_events read d x evs : use_listen c = false -> marker_terminate d = 0 -> Forall (fun ev => ev <> Interrupt) evs ->
  exists d', on_events e strdup c stack_comment read d x evs = Ok (d', x) /\ same_files d d'.
Proof.
  intros Hl. revert d. induction evs as [|ev evs IH]; intros d Ht Hq; cbn [on_events]; [by exists d|].
  apply Forall_cons_1 in Hq as [Hev Hq].
  assert (H1 : exists d1, on_event e strdup c stack_comment read d x ev = Ok (d1, x) /\ same_files d d1).
  { destruct ev; cbn [on_event]; [|done|rewrite Hl; by exists d|by eexists].
    eexists. split; [reflexivity|]. unfold my_signalhandler.
    unfold same_files. destruct (0 <? progress c); [destruct (signal_count d mod PROGRESS_REPORT_DELAY =? 0)|]; cbn; rewrite Ht; by cbn. }
  destruct H1 as (d1 & -> & Hd1). cbn [mbind res_bind]. destruct (IH d1) as (d2 & -> & Hd2); [|done|].
  { destruct Hd1 as (_ & _ & _ & E & _). by rewrite E. }
  exists d2. split; [done|]. destruct Hd1 as (?&?&?&?&?&?&?), Hd2 as (?&?&?&?&?&?&?). repeat split; congruence.
Qed.

Lemma caphead_ok d w p rest : recording -> ready d w -> fine p -> suffix d + Z.of_nat (length (names d)) < 2147483647 ->
  match marker_of p with
  | None => handle_marker_caphead e strdup c stack_comment d (in_memory p rest) = Ok (d, 0)
  | Some m => exists d' w' name, handle_marker_caphead e strdup c stack_comment d (in_memory p rest) = Ok (d', 0) /\ ready d' w' /\
      closed d' = closed d ++ [w] /\ names d' = name :: names d /\
      suffix d <= suffix d' <= suffix d + Z.of_nat (length (names d)) /\ named m name /\ (marker_mode c = MARKER_INCREMENT -> name ∉ names d) /\
      content (file w') = file_header_image (new_header (dump_mpid c) (dump_comment c)) ++ dump_comment c /\ st_addr (base w') = dup_addr name
  end.
Proof.
  intros Hrec Hd [Hp [v Hv] Hm] Hb. pose proof Hrec as [Hport _ _ _ _ _ _ _ _].
  assert (E : handle_marker_caphead e strdup c stack_comment d (in_memory p rest) =
    match v with (r, Some m) => if r =? 0 then Ok (d, 0) else handle_marker e strdup c stack_comment d m | _ => Ok (d, 0) end).
  { unfold handle_marker_caphead. rewrite (proj2 (Z.eqb_neq _ _) Hport). change (payload (in_memory p rest)) with (payload p ++ rest).
    rewrite (extends_marker _ rest _ _ Hv). by destruct v as [r [m|]]. }
  rewrite E. unfold marker_of in *. rewrite Hv in *. destruct v as [r [m|]]; [|done]. destruct (r =? 0); [done|]. cbn [orb] in *.
  destruct (validate_key c m) eqn:Ek; cbn [negb] in *.
  - apply handle_marker_ok; try done. by apply Hm.
  - unfold handle_marker. by rewrite Ek.
Qed.

(** What one packet does to the files. *)
Definition advanced (d : dump) (w : stream_file) (p : cap_header) (d' : dump) (w' : stream_file) : Prop :=
  ready d' w' /\ suffix d' <= suffix d + Z.of_nat (length (names d)) /\
  match marker_of p with
  | None => closed d' = closed d /\ names d' = names d /\ content (file w') = content (file w) ++ packet_image (cut p) /\ st_addr (base w') = st_addr (base w)
  | Some m => exists name, closed d' = closed d ++ [w] /\ names d' = name :: names d /\ named m name /\
      (marker_mode c = MARKER_INCREMENT -> name ∉ names d) /\ st_addr (base w') = dup_addr name /\
      content (file w') = file_header_image (new_header (dump_mpid c) (dump_comment c)) ++ dump_comment c ++ packet_image (cut p)
  end.

Lemma packet_ok_advances d w p rest : recording -> ready d w -> fine p -> suffix d + Z.of_nat (length (names d)) < 2147483647 ->
  exists d1 d' w', handle_marker_caphead e strdup c stack_comment d (in_memory p rest) = Ok (d1, 0) /\
    write_packet d1 (in_memory p rest) = Ok (d', 0) /\ advanced d w p d' w'.
Proof.
  intros Hrec Hd Hp Hb. pose proof (caphead_ok d w p rest Hrec Hd Hp Hb) as H. unfold advanced. destruct (marker_of p) as [m|].
  - destruct H as (d1 & w1 & name & -> & Hr1 & Hc1 & Hn1 & Hs1 & Hname & Hfree & Hcont & Haddr).
    destruct (write_ok d1 w1 p rest Hr1 (fi_packet _ Hp)) as (d2 & w2 & Hw & Hr2 & Hc2 & Hn2 & Hs2 & Hcont2 & Haddr2).
    exists d1, d2, w2. split_and!; [done..|lia|]. exists name. split_and!; [congruence|congruence|done|done|congruence|]. by rewrite Hcont2, Hcont, <- !(assoc_L (++)).
  - destruct (write_ok d w p rest Hd (fi_packet _ Hp)) as (d2 & w2 & Hw & Hr2 & Hc2 & Hn2 & Hs2 & Hcont2 & Haddr2).
    exists d, d2, w2. split_and!; try done. lia.
Qed.

(** What is needed of an input: [gives s ps] says that its packets are [ps]. *)
Section Input.
Context {S : Type} (next : S -> res (S * (Z * option cap_header))) (read_count : S -> Z) (gives : S -> list cap_header -> Prop).
Hypothesis gives_packet : forall s p ps, gives s (p :: ps) -> exists s' cp, next s = Ok (s', (0, Some cp)) /\ captured cp = p /\ gives s' ps.
Hypothesis gives_end : forall s, gives s [] -> exists s', next s = Ok (s', (-1, None)).

Definition undisturbed (t : turn) : Prop := Forall (fun ev => ev <> Interrupt) (t_before t) /\ Forall (fun ev => ev <> Interrupt) (t_waiting t).

Lemma round_ok t d x src w p ps : recording -> ready d w -> fine p -> suffix d + Z.of_nat (length (names d)) < 2147483647 -> undisturbed t ->
  gives src (p :: ps) ->
  exists d' w' src', round e strdup c stack_comment next read_count t d x src = Ok (d', x, src', true, 1) /\ gives src' ps /\ advanced d w p d' w'.
Proof.
  intros Hrec Hd Hp Hb [Hq1 Hq2] Hs. pose proof Hrec as [_ _ _ _ _ Hall Hl _ _]. unfold round.
  destruct (quiet_events (read_count src) d x _ Hl (rd_terminate _ _ Hd) Hq1) as (d1 & -> & H1). cbn [mbind res_bind].
  pose proof (ready_same _ _ _ H1 Hd) as Hd1. unfold handle_udp. rewrite Hl. cbn [negb mbind res_bind Z.eqb]. destruct x as [ud tp tb]. cbn [udp_dummy tcp_packet tcp_buf].
  destruct (quiet_events (read_count src) d1 {| udp_dummy := ud; tcp_packet := tp; tcp_buf := tb |} _ Hl (rd_terminate _ _ Hd1) Hq2) as (d2 & -> & H2). cbn [mbind res_bind].
  pose proof (ready_same _ _ _ H2 Hd1) as Hd2. destruct (gives_packet src p ps Hs) as (src' & cp & -> & Hcp & Hs'). cbn [mbind res_bind].
  apply in_memory_captured in Hcp as [rest ->]. cbn [Z.eqb EAGAIN EINTR andb Z.ltb Z.compare negb].
  destruct H1 as (_ & E2 & E3 & E4 & E5 & E6 & E7), H2 as (_ & F2 & F3 & F4 & F5 & F6 & F7).
  destruct (packet_ok_advances d2 w p rest Hrec Hd2 Hp) as (d3 & d4 & w4 & -> & Hw & Ha); [congruence|]. cbn [mbind res_bind Z.eqb negb].
  rewrite Hw. cbn [mbind res_bind Z.eqb negb]. rewrite Hall. exists d4, w4, src'. split_and!; [done|done|].
  unfold advanced in *. by rewrite F5, F6, F7, E5, E6, E7 in Ha.
Qed.

Lemma round_end t d x src w : recording -> ready d w -> undisturbed t -> gives src [] ->
  exists d' x' src', round e strdup c stack_comment next read_count t d x src = Ok (d', x', src', false, 0) /\ same_files d d'.
Proof.
  intros Hrec Hd [Hq1 Hq2] Hs. pose proof Hrec as [_ _ _ _ _ Hall Hl _ _]. unfold round.
  destruct (quiet_events (read_count src) d x _ Hl (rd_terminate _ _ Hd) Hq1) as (d1 & -> & H1). cbn [mbind res_bind].
  pose proof (ready_same _ _ _ H1 Hd) as Hd1. unfold handle_udp. rewrite Hl. cbn [negb mbind res_bind Z.eqb].
  match goal with |- context [on_events _ _ _ _ _ d1 ?x' _] => destruct (quiet_events (read_count src) d1 x' _ Hl (rd_terminate _ _ Hd1) Hq2) as (d2 & -> & H2) end.
  cbn [mbind res_bind]. destruct (gives_end src Hs) as [src' ->]. cbn [mbind res_bind Z.eqb EAGAIN EINTR andb Z.ltb Z.compare negb].
  eexists _, _, _. split; [reflexivity|]. destruct H1 as (?&?&?&?&?&?&?), H2 as (?&?&?&?&?&?&?). repeat split; congruence.
Qed.

(** The file of a marker has the marker and the packets up to the next one. *)
Definition written (s : marker * list cap_header) (w : stream_file) : Prop :=
  content (file w) = file_header_image (new_header (dump_mpid c) (dump_comment c)) ++ dump_comment c ++ contents (map cut (snd s)) [] /\
  exists name, named (fst s) name /\ st_addr (base w) = dup_addr name.
Definition file_name (w : stream_file) : bytes := match local_filename (st_addr (base w)) with Ok n => n | _ => [] end.

Lemma record_ok fuel ts n d x src ps w k : recording -> (forall i, undisturbed (ts i)) -> ready d w -> Forall fine ps -> gives src ps ->
  (length ps < fuel)%nat -> suffix d + Z.of_nat (length ps) * Z.of_nat (length (names d) + length ps) < 2147483647 -> is_u64 k ->
  exists d' w' ws, record_loop e strdup c stack_comment next read_count fuel ts n d x src k = Ok (d', u64 (k + Z.of_nat (length ps))) /\
    results d' = closed d ++ w' :: ws /\ content (file w') = content (file w) ++ contents (map cut (fst (segments ps))) [] /\
    st_addr (base w') = st_addr (base w) /\ Forall2 written (snd (segments ps)) ws /\ names d' = rev (map file_name ws) ++ names d /\
    (marker_mode c = MARKER_INCREMENT -> NoDup (map file_name ws) /\ Forall (fun w => file_name w ∉ names d) ws).
Proof.
  intros Hrec Hts. revert n d x src ps w k. induction fuel as [|fuel IH]; intros n d x src ps w k Hd Hf Hs Hfu Hb Hk; [lia|].
  cbn [record_loop]. rewrite (rd_running _ _ Hd). cbn [negb]. destruct ps as [|p ps].
  - destruct (round_end (ts n) d x src w Hrec Hd (Hts n) Hs) as (d1 & x1 & src1 & -> & E). cbn [mbind res_bind]. 
    exists d1, w, []. pose proof (ready_same _ _ _ E Hd) as Hd1. destruct E as (_ & E2 & _ & _ & _ & E6 & E7).
    cbn [length segments fst snd map]. rewrite !Z.add_0_r, !u64_id by (ints; lia). split_and!; try done.
    + unfold results. by rewrite E6, (rd_dst _ _ Hd1).
    + cbn. by rewrite app_nil_r.
    + intros _. split; constructor.
  - apply Forall_cons_1 in Hf as [Hp Hf]. cbn [length] in Hb, Hfu.
    destruct (round_ok (ts n) d x src w p ps Hrec Hd Hp ltac:(nia) (Hts n) Hs) as (d1 & w1 & src1 & -> & Hs1 & Hd1 & Hsf & Hadv). cbn [mbind res_bind].
    assert (Hlen : (length (names d1) <= Datatypes.S (length (names d)))%nat).
    { destruct (marker_of p); [destruct Hadv as (? & _ & -> & _)|destruct Hadv as (_ & -> & _)]; cbn; lia. }
    destruct (IH (Datatypes.S n) d1 x src1 ps w1 (u64 (k + 1)) Hd1 Hf Hs1) as (d2 & w2 & ws & -> & Hres & Hcont & Haddr & Hws & Hnames & Hnd);
      [lia|nia|apply u64_range|].
    assert (Hcount : u64 (u64 (k + 1) + Z.of_nat (length ps)) = u64 (k + Z.of_nat (length (p :: ps)))).
    { unfold u64. rewrite Zplus_mod_idemp_l. f_equal. cbn [length]. lia. }
    rewrite Hcount. cbn [segments]. destruct (segments ps) as [seg rest]. cbn [fst snd] in *. destruct (marker_of p) as [m|].
    + destruct Hadv as (name & Hc1 & Hn1 & Hname & Hfree & Ha1 & Hcont1). exists d2, w, (w2 :: ws).
      assert (Hfn : file_name w2 = name) by (unfold file_name; rewrite Haddr, Ha1; cbn; by rewrite (rc_strdup Hrec)).
      split_and!; try done.
      * by rewrite Hres, Hc1, <- (assoc_L (++)).
      * cbn. by rewrite app_nil_r.
      * constructor; [|done]. split; [|exists name; by rewrite Haddr].
        rewrite Hcont, Hcont1, <- !(assoc_L (++)). cbn [snd map]. by rewrite contents_cons.
      * rewrite Hnames, Hn1. cbn [map rev]. rewrite <- (assoc_L (++)). by rewrite Hfn.
      * intros Hi. destruct (Hnd Hi) as [Hn2 Hout]. rewrite Hn1 in Hout. cbn [map]. rewrite Hfn. split.
        -- apply NoDup_cons_2; [|done]. intros (w3 & E3 & Hw3)%list_elem_of_fmap. rewrite list.Forall_forall in Hout.
           apply (Hout w3 Hw3). rewrite <- E3. by left.
        -- constructor; [rewrite Hfn; auto|]. eapply Forall_impl; [|exact Hout]. cbv beta. intros w3 H3 H4. apply H3. by right.
    + destruct Hadv as (Hc1 & Hn1 & Hcont1 & Ha1). exists d2, w2, ws. split_and!; [done|congruence| |congruence|done|congruence|].
      * rewrite Hcont, Hcont1, <- (assoc_L (++)). cbn [fst map]. by rewrite contents_cons.
      * intros Hi. by rewrite Hn1 in Hnd; auto.
Qed.
End Input.
End Split.

(** No packet is lost and none is moved. *)
Lemma segments_all c ps : fst (segments c ps) ++ concat (map snd (snd (segments c ps))) = ps.
Proof.
  induction ps as [|p ps IH]; [done|]. cbn [segments]. destruct (segments c ps) as [seg rest]. cbn [fst snd] in *.
  destruct (marker_of c p); cbn [fst snd map concat app]; f_equal; exact IH.
Qed.

(** ** From the command line *)
Lemma open_addresses fopen fp name size sf ret : stream_file_open fopen fp name size = Ok (Some sf, ret) -> num_addresses (base sf) = 1.
Proof.
  unfold stream_file_open. destruct (open_file fopen fp name) as [f|]; [|discriminate]. intros H. inv_ok. destruct v as [f1 [h|]]; inv_ok; [|by injection H as <- <-].
  destruct v as [f2 er]. destruct (fread _ _) as [f3 c0]. repeat (case_match; inv_ok); by injection H as <- <-.
Qed.

Lemma file_addresses e p name size sf : stream_open e (file_addr p) name size = Ok (Some (FileStream sf), 0, []) -> num_addresses (base sf) = 1.
Proof.
  intros H. assert (E : stream_open e (file_addr p) name size = (r ← as_file (stream_file_open (e_fopen e) None (Some (p_str p)) size); Ok (keep_addr (file_addr p) r))) by done.
  rewrite E in H. unfold as_file in H. destruct (stream_file_open _ _ _ _) as [[o r]| | |] eqn:Eo; try discriminate. cbn [mbind res_bind] in H.
  destruct o as [sf0|]; cbn in H; [|by destruct (r =? 0)]. apply open_addresses in Eo. injection H as H ->. cbn in H. injection H as <-. done.
Qed.

Section Program.
Variable e : env.
Variable strdup : bytes -> cptr.
Variable bpf_filter : list bpf_insn -> bytes -> Z -> Z -> Z.
Variable read_fuel : nat.

(** A file that was opened as a stream. *)
Definition file_gives (st : stream_t) (ps : list cap_header) : Prop :=
  exists sf, st = FileStream sf /\ stream_inv (base sf) /\ source_ok (file sf) /\ Forall (fits (buffer_size (base sf))) ps /\
    unread (base sf) ++ remaining (file sf) = contents ps [] /\ 2 * blen (contents ps []) < Z.of_nat read_fuel.

Lemma file_gives_fuel sf ps : unread (base sf) ++ remaining (file sf) = contents ps [] -> 2 * blen (contents ps []) < Z.of_nat read_fuel ->
  blen (contents ps []) + blen (remaining (file sf)) < Z.of_nat read_fuel.
Proof.
  intros E H. assert (blen (remaining (file sf)) <= blen (contents ps [])); [|lia]. rewrite <- E, blen_app. pose proof (blen_nonneg (unread (base sf))). lia.
Qed.

Lemma file_gives_read timeout st p ps : file_gives st (p :: ps) ->
  exists st' cp, stream_t_read bpf_filter read_fuel st None timeout = Ok (st', None, (0, Some cp)) /\ captured cp = p /\ file_gives st' ps /\
    stat_matched (stream_get_stat st') = u64 (stat_matched (stream_get_stat st) + 1).
Proof.
  intros (sf & -> & Hi & Hs & Hfit & E & Hf). cbn [stream_t_read stream_read].
  destruct (read_loop_spec bpf_filter read_fuel (base sf) (file sf) None (p :: ps) [] timeout None (Some (p, ps)) Hi Hs Hfit)
    as (st' & f' & Hi' & Hs' & Hsz & rest & H & E'); [by left|done|by constructor|by apply file_gives_fuel|].
  unfold stream_read. rewrite H. cbn [mbind res_bind]. apply Forall_cons_1 in Hfit as [[Hp _] Hfit].
  eexists _, _. split; [reflexivity|]. split; [by apply captured_in_memory|]. split; [|by apply read_loop_stat in H as [? _]].
  eexists. split; [reflexivity|]. cbn -[contents blen Z.mul source_ok]. rewrite Hsz.
  pose proof (contents_suffix [p] ps []) as Hle. cbn [app] in Hle. do 4 (split; [done|]). lia.
Qed.
Lemma file_gives_stop timeout st : file_gives st [] -> exists st', stream_t_read bpf_filter read_fuel st None timeout = Ok (st', None, (-1, None)).
Proof.
  intros (sf & -> & Hi & Hs & Hfit & E & Hf). cbn [stream_t_read stream_read].
  destruct (read_loop_spec bpf_filter read_fuel (base sf) (file sf) None [] [] timeout None None Hi Hs Hfit)
    as (st' & f' & _ & _ & _ & H); [by left|done|constructor|by apply file_gives_fuel|].
  unfold stream_read. rewrite H. cbn [mbind res_bind]. eauto.
Qed.
Lemma file_gives_packet st p ps : file_gives st (p :: ps) ->
  exists st' cp, stream_t_next bpf_filter read_fuel st = Ok (st', (0, Some cp)) /\ captured cp = p /\ file_gives st' ps.
Proof. intros (st' & cp & H & Hc & Hg & _)%(file_gives_read None). unfold stream_t_next. rewrite H. cbn [mbind res_bind]. eauto 6. Qed.
Lemma file_gives_end st : file_gives st [] -> exists st', stream_t_next bpf_filter read_fuel st = Ok (st', (-1, None)).
Proof. intros (st' & H)%(file_gives_stop None). unfold stream_t_next. rewrite H. cbn [mbind res_bind]. eauto. Qed.

(** The configuration while recording from one file. *)
Definition running (a : arguments) (hostname : bytes) : config := (a_config a) <| dump_mpid := hostname |> <| src_stream_count := 1 |>.

(** The source is a capture file, the output another one. *)
Record dump_job (a : arguments) (arg out : cptr) (hostname : bytes) (exist : list bytes) (ps : list cap_header) : Prop := {
  dj_source : exists name f mid cm, p_str arg = B "file://" ++ name /\ (length name < 41)%nat /\ Forall (fun c => c <> 0) name /\
    e_fopen e name = inl f /\ pos f = 0 /\ ferror f = None /\ blen cm < 65536 /\ content f = file_header_image (new_header mid cm) ++ cm ++ contents ps [];
  dj_buffer : a_bufsize a = 0;
  dj_output : a_output a = file_addr out /\ stream_addr_is_set (a_output a) = true /\ p_str out <> B "/dev/stdout";
  dj_recording : recording e strdup (running a hostname);
  dj_fine : Forall (fine (running a hostname)) ps;
  dj_fits : Forall (fits BUFSIZ) ps;
  dj_names : 1 + Z.of_nat (length ps) * Z.of_nat (1 + length exist + length ps) < 2147483647;
}.

End Program.

(** ** The end of a recording *)
Section Terminate.
Variable e : env.
Variable strdup : bytes -> cptr.
Variable c : config.
Variable stack_comment : bytes.

(** The files after the recording has stopped, and before. *)
Definition stopped (d d' : dump) : Prop :=
  dst d' = None /\ closed d' = closed d ++ option_list (dst d) /\ keep_running d' = keep_running d && negb (marker_quit c) /\ names d' = names d.
Definition unchanged (d d' : dump) : Prop :=
  dst d' = dst d /\ closed d' = closed d /\ keep_running d' = keep_running d /\ names d' = names d.

Lemma unchanged_trans d1 d2 d3 : unchanged d1 d2 -> unchanged d2 d3 -> unchanged d1 d3.
Proof. intros (?&?&?&?) (?&?&?&?). repeat split; congruence. Qed.

(** What an alarm does: the progress report does not matter. *)
Lemma alarm_cases d read : exists d0, unchanged d d0 /\ marker_terminate d0 = marker_terminate d /\ marker_terminate_TO d0 = marker_terminate_TO d /\
  my_signalhandler strdup c d read = if marker_terminate d =? 0 then d0 else handle_terminate_signal strdup c d0.
Proof.
  unfold my_signalhandler. set (d0 := if 0 <? progress c then _ else d). exists d0.
  assert (H : unchanged d d0 /\ marker_terminate d0 = marker_terminate d /\ marker_terminate_TO d0 = marker_terminate_TO d).
  { unfold d0. destruct (0 <? progress c); [|done]. destruct (signal_count d mod PROGRESS_REPORT_DELAY =? 0); done. }
  destruct H as (H1 & H2 & H3). split_and!; [done..|]. cbv zeta. fold d0. rewrite H2. destruct (marker_terminate d =? 0); reflexivity.
Qed.

Definition reached (d : dump) : Prop := src_stream_count c <= marker_terminate d \/ src_stream_count c <= marker_terminate_TO d.

Lemma alarm_fires d read : marker_terminate d <> 0 -> reached d ->
  let d' := my_signalhandler strdup c d read in
  stopped d d' /\ (if marker_quit c then marker_terminate d' <> 0 /\ reached d' else marker_terminate d' = 0).
Proof.
  intros Hm Hr. destruct (alarm_cases d read) as (d0 & (E1 & E2 & E3 & E4) & F1 & F2 & E). cbv zeta. rewrite E, (proj2 (Z.eqb_neq _ _) Hm). unfold handle_terminate_signal.
  assert (Hc : (src_stream_count c <=? marker_terminate d0) || (src_stream_count c <=? marker_terminate_TO d0) = true).
  { apply orb_true_iff. rewrite !Z.leb_le, F1, F2. exact Hr. }
  rewrite Hc. unfold stopped, reached, finish. rewrite <- E1, <- E2, <- E3, <- E4.
  destruct (dst d0) eqn:Ed, (marker_quit c); cbn; rewrite ?andb_true_r, ?andb_false_r, ?app_nil_r, ?F1, ?F2; try done.
Qed.

Lemma alarm_waits d read : marker_terminate d <> 0 -> ~ reached d ->
  let d' := my_signalhandler strdup c d read in
  unchanged d d' /\ marker_terminate d' = marker_terminate d /\ marker_terminate_TO d' = marker_terminate_TO d + 1.
Proof.
  intros Hm Hr. destruct (alarm_cases d read) as (d0 & Hu & F1 & F2 & E). cbv zeta. rewrite E, (proj2 (Z.eqb_neq _ _) Hm). unfold handle_terminate_signal.
  assert (Hc : (src_stream_count c <=? marker_terminate d0) || (src_stream_count c <=? marker_terminate_TO d0) = false).
  { apply orb_false_iff. rewrite !Z.leb_gt, F1, F2. unfold reached in Hr. lia. }
  rewrite Hc. destruct Hu as (?&?&?&?). cbn. rewrite F1, F2. done.
Qed.

Lemma alarm_after d read : dst d = None -> (if marker_quit c then marker_terminate d <> 0 /\ reached d /\ keep_running d = false else marker_terminate d = 0) ->
  let d' := my_signalhandler strdup c d read in
  unchanged d d' /\ (if marker_quit c then marker_terminate d' <> 0 /\ reached d' /\ keep_running d' = false else marker_terminate d' = 0).
Proof.
  intros Hd Hm. cbv zeta. destruct (marker_quit c) eqn:Eq.
  - destruct Hm as (Hm & Hr & Hk). destruct (alarm_fires d read Hm Hr) as [(S1 & S2 & S3 & S4) F]. rewrite Eq in *. destruct F as [F1 F2].
    rewrite Hd, app_nil_r, Hk in *. cbn in *. unfold unchanged. rewrite Hd, Hk. split_and!; done.
  - destruct (alarm_cases d read) as (d0 & Hu & F1 & F2 & E). rewrite E, Hm in *. cbn. split; [done|]. by rewrite F1.
Qed.

Lemma alarms_after read d x n : dst d = None -> (if marker_quit c then marker_terminate d <> 0 /\ reached d /\ keep_running d = false else marker_terminate d = 0) ->
  exists d', on_events e strdup c stack_comment read d x (replicate n Alarm) = Ok (d', x) /\ unchanged d d'.
Proof.
  revert d. induction n as [|n IH]; intros d Hd Hm; cbn [replicate on_events on_event mbind res_bind]; [by exists d|].
  destruct (alarm_after d read Hd Hm) as [Hu Hm']. destruct (IH (my_signalhandler strdup c d read) ltac:(destruct Hu as (-> & _); exact Hd) Hm') as (d' & H & Hu').
  exists d'. split; [exact H|]. by eapply unchanged_trans.
Qed.

Lemma alarms_count read d x n : marker_terminate d <> 0 -> keep_running d = true ->
  exists d', on_events e strdup c stack_comment read d x (replicate n Alarm) = Ok (d', x) /\
    (if decide (n <> O /\ (src_stream_count c <= marker_terminate d \/ src_stream_count c < marker_terminate_TO d + Z.of_nat n)) then stopped d d' else unchanged d d').
Proof.
  revert d. induction n as [|n IH]; intros d Hm Hk.
  { exists d. split; [done|]. rewrite decide_False by (by intros [? _]). done. }
  cbn [replicate on_events on_event mbind res_bind]. set (d1 := my_signalhandler strdup c d read).
  destruct (decide (src_stream_count c <= marker_terminate d \/ src_stream_count c <= marker_terminate_TO d)) as [Hr|Hr].
  - destruct (alarm_fires d read Hm Hr) as [(S1 & S2 & S3 & S4) Hq]. fold d1 in S1, S2, S3, S4, Hq.
    destruct (alarms_after read d1 x n S1) as (d' & H & (U1 & U2 & U3 & U4)).
    { destruct (marker_quit c); [|done]. destruct Hq. rewrite S3, Hk. done. }
    exists d'. split; [exact H|]. rewrite decide_True by (split; [done|lia]). unfold stopped. rewrite U1, U2, U3, U4. done.
  - destruct (alarm_waits d read Hm Hr) as (Hu & Hm' & Ht). fold d1 in Hu, Hm', Ht. pose proof Hu as (U1 & U2 & U3 & U4).
    destruct (IH d1) as (d' & H & Hd'); [by rewrite Hm'|by rewrite U3|]. exists d'. split; [exact H|]. rewrite Hm', Ht in Hd'.
    destruct (decide (n <> O /\ _)) as [Hy|Hn]; [rewrite decide_True by (split; [done|lia])|rewrite decide_False by (intros [_ ?]; apply Hn; split; lia)].
    + unfold stopped in *. by rewrite U1, U2, U3, U4 in Hd'.
    + by eapply unchanged_trans.
Qed.

(** A terminating marker ends the recording within one more alarm than there are
    sources, or at the next alarm when all sources have sent one, and not before: the
    output is then finished, packets that arrive are not written any more, and the
    program leaves its loop if it was told to quit. *)
Theorem capdump_terminates (read : Z) (d : dump) (x : scratch) (n : nat) :
  0 < marker_terminate d -> marker_terminate_TO d = 0 -> keep_running d = true ->
  exists d', on_events e strdup c stack_comment read d x (replicate n Alarm) = Ok (d', x) /\
    (if decide (n <> O /\ (src_stream_count c <= marker_terminate d \/ src_stream_count c < Z.of_nat n)) then
       stopped d d' /\ (forall cp, write_packet d' cp = Ok (d', 0)) /\
       (marker_quit c = true -> forall (S : Type) (next : S -> res (S * (Z * option cap_header))) count fuel ts i x' src k,
          record_loop e strdup c stack_comment next count (Datatypes.S fuel) ts i d' x' src k = Ok (d', k))
     else unchanged d d').
Proof.
  intros Hm Ht Hk. destruct (alarms_count read d x n ltac:(lia) Hk) as (d' & H & Hd'). exists d'. split; [exact H|]. rewrite Ht, Z.add_0_l in Hd'.
  destruct (decide _) as [Hy|Hn]; [|done]. split; [done|]. destruct Hd' as (S1 & S2 & S3 & _). split.
  - intros cp. unfold write_packet. by rewrite S1.
  - intros Hq S next count fuel ts i x' src k. cbn [record_loop]. by rewrite S3, Hq, andb_false_r.
Qed.
End Terminate.

(** ** Relayed markers *)

(** The packet that is written for a marker from the network is recognised as this marker
    when the file is read. *)
Lemma relayed_marker c junk data m now p : marker_port c <> 0 -> marker_port c = portno c -> is_u16 (portno c) ->
  is_marker_udp data true (marker_port c) = Ok (1, Some m) -> fill_marker (setup_udp c junk) data = Ok p ->
  is_marker (payload (dummy_packet p now)) true (marker_port c) = Ok (portno c, Some m).
Proof.
  intros Hz Hport Hp Hm Hf. unfold fill_marker in Hf. destruct (_ <? _); [discriminate|]. injection Hf as <-.
  unfold is_marker_udp in Hm. inv_ok. destruct (v =? MARKER_MAGIC) eqn:Ev; cbn [negb] in Hm; [|discriminate]. inv_ok. injection Hm as <-.
  change (payload (dummy_packet _ now)) with (inner (setup_udp c junk) ++ data ++ drop (length data) (mark_inner (setup_udp c junk))).
  set (tl := data ++ _). set (j := fun o n => map junk (seqZ o n)).
  set (hdr := [69] ++ j 51 1 ++ le16 124 ++ le16 (htonl 12345) ++ j 56 2 ++ j 58 1 ++ [17] ++ j 60 2 ++ [127; 0; 0; 1] ++ [127; 0; 0; 1]).
  assert (E : inner (setup_udp c junk) ++ tl = (j 36 12 ++ tags [] ETHERTYPE_IP ++ hdr) ++ wr16be MARKERPORT ++ wr16be (portno c) ++ le16 104 ++ j 76 2 ++ tl).
  { unfold setup_udp. cbn [inner]. rewrite (u16_id (portno c)) by done. reflexivity. }
  destruct (find_udp_frame (j 36 12) [] hdr MARKERPORT (portno c) (le16 104 ++ j 76 2 ++ tl) 31744) as (ip & pl & Hip & Hudp); try done.
  { cbn. lia. }
  unfold is_marker. rewrite E, Hip. cbn [mbind res_bind]. rewrite Hudp. cbn [mbind res_bind]. rewrite Z.eqb_refl, <- Hport, Z.eqb_refl. cbn [andb orb negb].
  set (pre := j 36 12 ++ _) in *. set (front := pre ++ wr16be MARKERPORT ++ wr16be (marker_port c) ++ le16 104 ++ j 76 2).
  assert (Ef : pre ++ wr16be MARKERPORT ++ wr16be (marker_port c) ++ le16 104 ++ j 76 2 ++ tl = front ++ tl) by (unfold front; by rewrite <- !(assoc_L (++))).
  assert (Hb : blen pre + 8 = blen front + 0) by reflexivity.
  rewrite Ef, Hb, be32_app_r by lia. replace (blen front + 0 - blen front) with 0 by lia.
  rewrite (extends_be32 data _ 0 _ Hv : be32 tl 0 = Ok v). cbn [mbind res_bind]. rewrite Ev. cbn [negb]. rewrite marker_fields_shift by lia.
  assert (Hx : marker_fields tl 0 = Ok v0).
  { revert Hv0. generalize v0. change (extends (marker_fields data 0) (marker_fields tl 0)). unfold marker_fields, tl. repeat extend_step. }
  by rewrite Hx.
Qed.

(** ** Behaviour at the limits *)

(** Without a key every marker is ignored, although the help text promises the contrary. *)
Lemma no_key_no_marker e strdup c stack_comment d m : marker_key c = 0 -> handle_marker e strdup c stack_comment d m = Ok (d, 0).
Proof. intros H. unfold handle_marker, validate_key. by rewrite H. Qed.

(** A datagram that is too short for a marker is never taken from the socket, and no marker
    behind it is seen. *)
Lemma short_datagram_blocks e strdup c stack_comment d p now g gs :
  datagrams d = g :: gs -> blen g < sizeof_marker -> handle_udp e strdup c stack_comment d p now = Ok (d, p, 0).
Proof. intros H Hl. unfold handle_udp. rewrite H, (proj2 (Z.ltb_lt _ _) Hl). by destruct (negb _). Qed.

(** A message longer than a marker is copied over the end of the packet. *)
Lemma long_message_overflows p data : sizeof_marker < blen data -> fill_marker p data = Fault.
Proof. intros H. unfold fill_marker. by rewrite (proj2 (Z.ltb_lt _ _) H). Qed.

(** The first dot of a path is taken for the start of the extension. *)
Lemma split_dot_path : split_dot (B "./trace/out.cap") = ([], B "/trace/out.cap").
Proof. reflexivity. Qed.

(** [--key] without a value *)
Lemma key_without_value strdup can_dup a found : parse_options strdup can_dup a ((75, None) :: found) = Fault.
Proof. reflexivity. Qed.

(** ** Witnesses *)
Definition ex_split : marker :=
  {| magic := MARKER_MAGIC; marker_version := 2; marker_flags := 0; reserved := 0; exp_id := 17; run_id := 3; key_id := 1; seq_num := 5; timestamp := 0 |}.
Definition ex_stream_packets : list cap_header :=
  [ex_pkt 1 (ex_macs ++ wr16be 0x0806 ++ [0; 1]);
   ex_pkt 2 (ipv4_frame ex_macs [] (ex_udp_ip ++ wr16be MARKERPORT ++ wr16be 4000 ++ [0; 40; 0; 0] ++ marker_image ex_split));
   ex_pkt 3 (ex_macs ++ wr16be 0x0806 ++ [0; 2])].
Definition ex_dump_input : FILE :=
  {| content := file_header_image (new_header (B "mp") (B "in")) ++ B "in" ++ contents ex_stream_packets []; pos := 0; ferror := None |}.
Definition ex_dump_env : env := {|
  e_fopen _ := inl ex_dump_input; e_fcreate _ := inl empty_file; e_fp _ := ex_input; e_mkfifo _ := None; e_stat_error _ := None; e_sys := ex_system;
  e_raw_socket := None; e_raw_bind := None; e_eth_member _ := None; e_frames := []; e_udp_socket := None; e_udp_bind := ex_bind;
  e_udp_connect := ex_bind; e_udp_member := ex_join; e_path_mtu := ex_no_path; e_datagrams := [] |}.
Definition ex_config : config :=
  {| marker_port := 4000; marker_comment := false; marker_format := B "%f-%x-%03s.%e"; marker_mode := MARKER_INCREMENT; marker_key := 1; marker_quit := true;
     dump_comment := B "capdump"; fmt_basename := Some (B "out"); fmt_extension := Some (B "cap"); use_listen := false; portno := 4000; progress := -1;
     max_packets := 0; dump_mpid := []; src_stream_count := 0 |}.
Definition ex_dump_args : arguments := {| a_config := ex_config; a_output := file_addr ex_out; a_iface := None; a_bufsize := 0 |}.
Definition ex_turn (_ : nat) : turn := {| t_before := [Alarm]; t_now := mk_timepico 0 0; t_waiting := [Alarm; Alarm] |}.
Definition ex_file_arg : cptr := ex_name (B "file://a.cap").

Lemma ex_fine : Forall (fine (running ex_dump_args (B "host"))) ex_stream_packets.
Proof.
  apply list.Forall_forall. intros p [-> |[-> |[-> |[]%elem_of_nil]%elem_of_cons]%elem_of_cons]%elem_of_cons;
    (constructor; [by apply ex_pkt_ok|eexists; vm_compute; reflexivity|]); intros m Hm; vm_compute in Hm; try discriminate.
  injection Hm as <-. constructor; [reflexivity|]. eexists. split; [vm_compute; reflexivity|]. split; vm_compute; discriminate.
Qed.
Lemma ex_dump_job : dump_job ex_dump_env ex_strdup ex_dump_args ex_file_arg ex_out (B "host") [B "out-17-005.cap"] ex_stream_packets.
Proof.
  constructor; try done.
  - exists (B "a.cap"), ex_dump_input, (B "mp"), (B "in"). split_and!; try done; [cbn; lia|by repeat constructor].
  - apply ex_fine.
  - apply list.Forall_forall. intros p [-> |[-> |[-> |[]%elem_of_nil]%elem_of_cons]%elem_of_cons]%elem_of_cons; (split; [by apply ex_pkt_ok|by vm_compute]).
Qed.


Definition ex_waiting : dump := (initial_dump (ex_capfile []) (file_addr ex_out) []) <| marker_terminate := 1 |>.
Definition ex_scratch : scratch :=
  let p := setup_udp ex_config (fun _ => 0) in {| udp_dummy := p; tcp_packet := p; tcp_buf := replicate 1500 0 |}.
Lemma capdump_terminates_witness : exists d',
  on_events ex_dump_env ex_strdup (ex_config <| src_stream_count := 2 |>) [] 7 ex_waiting ex_scratch (replicate 3 Alarm) = Ok (d', ex_scratch) /\
  dst d' = None /\ keep_running d' = false.
Proof.
  destruct (capdump_terminates ex_dump_env ex_strdup (ex_config <| src_stream_count := 2 |>) [] 7 ex_waiting ex_scratch 3) as (d' & H & Hd');
    [reflexivity|reflexivity|reflexivity|].
  exists d'. split; [exact H|]. clear H. rewrite decide_True in Hd' by (split; [discriminate|right; reflexivity]).
  destruct Hd' as ((S1 & _ & S3 & _) & _). split; [exact S1|exact S3].
Defined.
