(* ===== verification/Capreport.v ===== *)
(** * Messages of capdump (tools/capdump.c)

    What capdump writes about markers, progress and signals.  The texts of dates are
    arguments: [strftime] of [localtime] belongs to the C library. *)

From Stdlib Require Import QArith.
From S2P Require Import Prelude CLib Float Picotime Slist Packet Utils Address Filter Stream StreamFile StreamBuffer Interface StreamEthernet StreamUdp Text Overview StreamApi Marker Tools Capdump.
Local Open Scope Z_scope.

(** ** The flags of a marker

    The letters are written to a static array of 12 bytes; there is a letter for the first
    flag only, the others are zero.  Nothing ends the string. *)
Definition flag_letters : bytes := [84; 0; 0; 0; 0; 0; 0; 0].
Definition set_flags (flags : Z) : bytes := omap (fun i => if Z.testbit flags (Z.of_nat i) then flag_letters !! i else None) (seq 0 8).
Definition marker_flags_text (buf : bytes) (flags : Z) : res (bytes * bytes) :=
  if flags =? 0 then Ok (buf, B "(not set)")
  else buf ← wr buf 0 (B "[" ++ set_flags flags ++ B "]"); text ← arr_str buf; Ok (buf, text).

Definition marker_report (program_name timestr timestamp_ buf : bytes) (m : marker) : res (bytes * bytes) :=
  '(buf, flags) ← marker_flags_text buf (marker_flags m);
  Ok (buf, program_name ++ B ": [" ++ timestr ++ B "] marker v" ++ fmt_d (marker_version m) ++ B " found" ++ nl ++
           tab ++ B "data: exp=" ++ fmt_d (exp_id m) ++ B " run=" ++ fmt_d (run_id m) ++ B " key=" ++ fmt_d (key_id m) ++ B " seq=" ++ fmt_d (seq_num m) ++ nl ++
           tab ++ B "flags: " ++ flags ++ B " [0x" ++ padl 48 2 (hex (marker_flags m)) ++ B "]" ++ nl ++
           tab ++ B "timestamp: " ++ timestamp_ ++ nl).

(** ** Progress

    [snprintf] into 1024 bytes; [write] is given the length of the whole text.  Digits are not
    grouped in the C locale. *)
Definition progress_text (program_name timestr : bytes) (read last : Z) : bytes :=
  let delta := u64 (read - last) in
  let pps := delta / PROGRESS_REPORT_DELAY in
  let rate := flt (u64 (delta * 8) / PROGRESS_REPORT_DELAY / 1024 / 1024) in
  program_name ++ B ": [" ++ timestr ++ B "] progress report: " ++ dec read ++ B " packets read (" ++ dec delta ++ B " new, " ++ dec pps ++
  B "pkt/s, avg bitrate " ++ fmt_f1 rate ++ B "Mpbs)." ++ nl.
Definition write_progress (text : bytes) : res bytes := if 1024 <? blen text then Fault else Ok (take 1023 text ++ (if blen text =? 1024 then [0] else [])).

(** ** Signals *)
Definition signal_name (signum : Z) : bytes := if signum =? 2 then B "SIGINT" else if signum =? 15 then B "SIGTERM" else B "unknown signal".
(** The text, and the new state or the call of abort. *)
Definition signal_report (program_name timestr : bytes) (signum : Z) (d : dump) : bytes * res dump :=
  (([13] ++ program_name ++ B ": [" ++ timestr ++ B "] Got " ++ signal_name signum ++
    (if keep_running d then B ", terminating gracefully." else B " again, aborting.") ++ nl), sig_handler d).

(** ** Facts *)
Lemma omap_length {A C} (g : A -> option C) l : (length (omap g l) <= length l)%nat.
Proof. induction l as [|x l IH]; [done|]. cbn. case_match; cbn in *; lia. Qed.
Lemma set_flags_length flags : (length (set_flags flags) <= 8)%nat.
Proof. apply omap_length. Qed.

(** The array is large enough, and its last bytes stay zero: the text always ends. *)
Lemma flags_safe buf flags : blen buf = 12 -> drop 10 buf = [0; 0] ->
  exists buf' text, marker_flags_text buf flags = Ok (buf', text) /\ blen buf' = 12 /\ drop 10 buf' = [0; 0].
Proof.
  intros Hl Hz. unfold marker_flags_text. destruct (flags =? 0); [by eexists _, _|]. set (piece := B "[" ++ set_flags flags ++ B "]").
  assert (Hp : (length piece <= 10)%nat) by (unfold piece; rewrite !length_app; pose proof (set_flags_length flags); change (length (B "[")) with 1%nat; change (length (B "]")) with 1%nat; lia).
  assert (Hb : length buf = 12%nat) by (unfold blen in Hl; lia).
  pose proof (wr_mid [] (take (length piece) buf) (drop (length piece) buf) 0 piece eq_refl) as Hw. cbn [app] in Hw.
  rewrite take_drop in Hw. rewrite Hw by (rewrite length_take; lia). cbn [mbind res_bind]. set (buf' := piece ++ _).
  assert (Hd : drop 10 buf' = [0; 0]) by (unfold buf'; rewrite drop_app_ge, drop_drop by lia; rewrite <- Hz; f_equal; lia).
  assert (Hs : arr_str buf' = Ok (cstr buf')).
  { unfold arr_str. rewrite <- (take_drop 10 buf') at 1. rewrite existsb_app, Hd. by rewrite orb_true_r. }
  rewrite Hs. cbn [mbind res_bind]. eexists _, _. split; [reflexivity|]. split; [|done]. unfold buf', blen. rewrite length_app, length_drop. lia.
Qed.

(** The first text is right; what a longer text left in the array is shown behind a shorter one, and a
    flag without a letter ends the text. *)
Lemma flags_first : marker_flags_text (replicate 12 0) 1 = Ok (B "[T]" ++ replicate 9 0, B "[T]").
Proof. by vm_compute. Qed.
Lemma flags_stale : ('(buf, _) ← marker_flags_text (replicate 12 0) 3; marker_flags_text buf 1) = Ok (B "[T]]" ++ replicate 8 0, B "[T]]").
Proof. by vm_compute. Qed.
Lemma flags_unknown : marker_flags_text (replicate 12 0) 2 = Ok ([91; 0; 93] ++ replicate 9 0, B "[").
Proof. by vm_compute. Qed.

(** The rate is computed from the number of packets: a million packets in a minute are shown as 0.0. *)
Lemma progress_rate : progress_text (B "capdump") (B "now") 1000000 0 =
  B "capdump: [now] progress report: 1000000 packets read (1000000 new, 16666pkt/s, avg bitrate 0.0Mpbs)." ++ nl.
Proof. by vm_compute. Qed.
