(* ===== verification/Capmarker.v ===== *)
(** * capmarker (tools/capmarker.c): sending markers

    The program fills in a marker from its options and sends it to every address, over
    UDP or TCP.  The results of the socket calls are parameters; what is sent is a list
    of messages. *)

From S2P Require Import Prelude CLib Packet Filter Tools Address Picotime Stream StreamFile StreamApi Capmerge Pcap Capdump Marker.

Inductive sendmode := MODE_UDP | MODE_TCP | MODE_ETH.

(** The static variable [marker], its comment and the mode. *)
Record sender := { s_marker : marker; s_comment : bytes; s_mode : sendmode }.
#[export] Instance sender_rebuild : Rebuild sender := fun s => {| s_marker := s_marker s; s_comment := s_comment s; s_mode := s_mode s |}.
#[export] Instance marker_rebuild : Rebuild marker := fun m =>
  {| magic := magic m; marker_version := marker_version m; marker_flags := marker_flags m; reserved := reserved m; exp_id := exp_id m;
     run_id := run_id m; key_id := key_id m; seq_num := seq_num m; timestamp := timestamp m |}.

(** [time] is the result of [time(NULL)]; the timestamp is in network order from the start. *)
Definition reset_marker (time : Z) : sender :=
  {| s_marker := {| magic := MARKER_MAGIC; marker_version := 1; marker_flags := 0; reserved := 0; exp_id := 0; run_id := 0; key_id := 0; seq_num := 0;
                    timestamp := _int_htobe64 (u64 time) |};
     s_comment := replicate 64 0; s_mode := MODE_UDP |}.

(** Options as [getopt_long] gives them. *)
Fixpoint marker_options (s : sender) (found : list (Z * bytes)) : res (outcome sender) :=
  match found with
  | [] => Ok (Done s)
  | (op, optarg) :: found =>
      let n := u32 (atoi optarg) in
      let set f := marker_options (s <| s_marker := f (s_marker s) |>) found in
      if (op =? 0) || (op =? 63) then marker_options s found
      else if op =? 101 then (if n =? 0 then Ok (Exit 1) else set (fun m => m <| exp_id := n |>))
      else if op =? 114 then (if n =? 0 then Ok (Exit 1) else set (fun m => m <| run_id := n |>))
      else if op =? 107 then set (fun m => m <| key_id := n |>)
      else if op =? 115 then set (fun m => m <| seq_num := n |>)
      else if op =? 99 then marker_options (s <| s_comment := strncpy optarg 63 ++ drop 63 (s_comment s) |>) found
      else if op =? 117 then marker_options (s <| s_mode := MODE_UDP |>) found
      else if op =? 116 then marker_options (s <| s_mode := MODE_TCP |>) found
      else if op =? 120 then marker_options (s <| s_mode := MODE_ETH |>) found
      else if op =? 84 then set (fun m => m <| marker_flags := Z.lor (marker_flags m) MARKER_TERMINATE |>)
      else if op =? 104 then Ok (Exit 0)
      else Abort
  end.

Definition network_order (m : marker) : marker :=
  m <| magic := htonl (magic m) |> <| reserved := htons (reserved m) |> <| exp_id := htonl (exp_id m) |> <| run_id := htonl (run_id m) |>
    <| key_id := htonl (key_id m) |> <| seq_num := htonl (seq_num m) |>.

(** The memory of [struct marker]. *)
Definition struct_marker (m : marker) (comment : bytes) : bytes :=
  le32 (magic m) ++ le8 (marker_version m) ++ le8 (marker_flags m) ++ le16 (reserved m) ++ le32 (exp_id m) ++ le32 (run_id m) ++
  le32 (key_id m) ++ le32 (seq_num m) ++ le64 (timestamp m) ++ comment.

(** [strtok(arg, ":")] and [strtok(NULL, "")]: what [arg] is then, and what follows. *)
Fixpoint colons (s : bytes) : bytes * bytes :=
  match s with
  | c :: s' => if c =? 58 then let '(a, b) := colons s' in (c :: a, b) else ([], s)
  | [] => ([], [])
  end.
Fixpoint until_colon (s : bytes) : bytes * bytes :=
  match s with
  | [] => ([], [])
  | c :: s => if c =? 58 then ([], s) else let '(a, b) := until_colon s in (c :: a, b)
  end.
Definition split_address (arg : bytes) : bytes * option bytes :=
  let '(lead, s) := colons arg in
  let '(tok, rest) := until_colon s in
  (lead ++ tok, match rest with [] => None | _ => Some rest end).

(** What goes to the network: the protocol, address and port in network order, the data. *)
Record message := { m_tcp : bool; m_ip : Z; m_port : Z; m_data : bytes }.

Section Send.
(** Whether the calls for the [i]th address all succeed: [socket], [setsockopt], [bind], for TCP
    [connect], and [sendto]. *)
Variable can_send : nat -> bool.
(** [ip_addr] before it is assigned. *)
Variable stack_ip : Z.

Definition send_udp (i : nat) (data : bytes) (dst port : Z) : list message :=
  if can_send i then [{| m_tcp := false; m_ip := dst; m_port := port; m_data := data |}] else [].
Definition send_tcp (i : nat) (data : bytes) (dst port : Z) : list message :=
  if can_send i then [{| m_tcp := true; m_ip := dst; m_port := port; m_data := data |}] else [].

(** The loop over the addresses: the messages and the exit code. *)
Fixpoint send_all (mode : sendmode) (i : nat) (data : bytes) (args : list bytes) : list message * Z :=
  match args with
  | [] => ([], 0)
  | arg :: args =>
      match mode with
      | MODE_ETH => send_all mode (S i) data args
      | _ =>
          let '(name, rest) := split_address arg in
          match rest with
          | None => ([], 1)
          | Some rest =>
              let ip := match inet_aton name with Some a => a | None => stack_ip end in
              let port := htons (u16 (atoi rest)) in
              let sent := match mode with MODE_TCP => send_tcp i data ip port | _ => send_udp i data ip port end in
              let '(more, code) := send_all mode (S i) data args in
              (sent ++ more, code)
          end
      end
  end.

Definition capmarker (time : Z) (found : list (Z * bytes)) (args : list bytes) : res (list message * Z) :=
  s ← marker_options (reset_marker time) found;
  match s : outcome sender with
  | Exit code => Ok ([], code)
  | Done s =>
      let m := network_order (s_marker s) in
      match args with
      | [] => Ok ([], 1)
      | _ => Ok (send_all (s_mode s) 0 (struct_marker m (s_comment s)) args)
      end
  end.
End Send.

(** ** What the command line asks for *)

(** The argument of the last option [op]. *)
Fixpoint given (op : Z) (found : list (Z * bytes)) : option bytes :=
  match found with
  | [] => None
  | (o, v) :: found => match given op found with Some w => Some w | None => if o =? op then Some v else None end
  end.
Definition number (op : Z) (d : Z) (found : list (Z * bytes)) : Z := match given op found with Some v => u32 (atoi v) | None => d end.

(** The last of the three modes, which have no argument. *)
Fixpoint mode_of (d : sendmode) (found : list (Z * bytes)) : sendmode :=
  match found with
  | [] => d
  | (o, _) :: found => mode_of (if o =? 117 then MODE_UDP else if o =? 116 then MODE_TCP else if o =? 120 then MODE_ETH else d) found
  end.

(** Options that do not end the program. *)
Definition accepted (x : Z * bytes) : Prop :=
  fst x ∈ [0; 63; 107; 115; 99; 117; 116; 120; 84] \/ (fst x = 101 \/ fst x = 114) /\ u32 (atoi (snd x)) <> 0.

(** The marker, and its comment, as they are asked for. *)
Definition requested (time : Z) (found : list (Z * bytes)) : marker :=
  {| magic := MARKER_MAGIC; marker_version := 1; marker_flags := match given 84 found with Some _ => MARKER_TERMINATE | None => 0 end; reserved := 0;
     exp_id := number 101 0 found; run_id := number 114 0 found; key_id := number 107 0 found; seq_num := number 115 0 found; timestamp := u64 time |}.
Definition comment_of (found : list (Z * bytes)) : bytes := match given 99 found with Some v => strncpy v 63 ++ [0] | None => replicate 64 0 end.

(** From the state [s] on: what the options make of it. *)
Definition adjusted (s : sender) (found : list (Z * bytes)) : sender :=
  let m := s_marker s in
  {| s_marker := {| magic := magic m; marker_version := marker_version m;
                    marker_flags := match given 84 found with Some _ => Z.lor (marker_flags m) MARKER_TERMINATE | None => marker_flags m end;
                    reserved := reserved m; exp_id := number 101 (exp_id m) found; run_id := number 114 (run_id m) found;
                    key_id := number 107 (key_id m) found; seq_num := number 115 (seq_num m) found; timestamp := timestamp m |};
     s_comment := match given 99 found with Some v => strncpy v 63 ++ drop 63 (s_comment s) | None => s_comment s end;
     s_mode := mode_of (s_mode s) found |}.

Lemma marker_options_ok s found : Forall accepted found -> marker_options s found = Ok (Done (adjusted s found)).
Proof.
  revert s. induction found as [|[op v] found IH]; intros s Hf; [by destruct s as [[] ? ?]|].
  apply list.Forall_cons in Hf as [Ha Hf]. unfold accepted in Ha. cbn [fst snd] in Ha.
  assert (Hop : (op ∈ [0; 63; 107; 115; 99; 117; 116; 120; 84]) \/ ((op = 101 \/ op = 114) /\ (u32 (atoi v) =? 0) = false))
    by (destruct Ha as [?|[? ?]]; [by left|right; split; [done|by apply Z.eqb_neq]]).
  clear Ha. rewrite !elem_of_cons, elem_of_nil in Hop.
  assert (Hd : forall d, drop 63 (strncpy v 63 ++ d) = d) by (intros d; by rewrite drop_app_length' by (by rewrite length_strncpy)).
  destruct s as [[mg ve fl rs ex ru ke sq ti] cm md].
  destruct Hop as [Hop|[Hop Hn]]; repeat destruct Hop as [->|Hop]; try subst op; try contradiction; cbn [marker_options Z.eqb Pos.eqb orb];
    rewrite ?Hn, IH by done; unfold adjusted, number; cbn [given mode_of Z.eqb Pos.eqb s_marker s_comment s_mode].
  all: cbn [s_marker s_comment s_mode magic marker_version marker_flags reserved exp_id run_id key_id seq_num timestamp].
  all: destruct (given 101 found), (given 114 found), (given 107 found), (given 115 found), (given 99 found), (given 84 found); try reflexivity.
  all: do 3 f_equal; try reflexivity; try exact (f_equal (app _) (Hd _)).
  all: f_equal; exact (eq_sym (Z.lor_assoc fl MARKER_TERMINATE MARKER_TERMINATE)).
Qed.

(** ** What is sent *)

Lemma image_of time found : struct_marker (network_order (s_marker (adjusted (reset_marker time) found))) (s_comment (adjusted (reset_marker time) found))
  = marker_image (requested time found) ++ comment_of found.
Proof. unfold struct_marker, marker_image, comment_of. rewrite <- !(assoc_L (++)). reflexivity. Qed.

Lemma number_range op d found : is_u32 d -> is_u32 (number op d found).
Proof. unfold number. destruct (given op found); [intros _; apply u32_range|done]. Qed.

Lemma requested_ok time found : marker_ok (requested time found).
Proof.
  constructor; cbn [requested magic marker_version marker_flags reserved exp_id run_id key_id seq_num timestamp];
    first [done | apply number_range; done | apply u64_range | by destruct (given 84 found) | ints; lia].
Qed.

Lemma length_comment_of found : length (comment_of found) = 64%nat.
Proof. unfold comment_of. destruct (given 99 found); [rewrite length_app, length_strncpy|]; reflexivity. Qed.

(** The addresses of the command line. *)
Definition address (d : Z * Z) : bytes := inet_ntoa (fst d) ++ B ":" ++ dec (snd d).
Definition address_ok (d : Z * Z) : Prop := is_u32 (fst d) /\ is_u16 (snd d).

Lemma until_colon_app a b : Forall (fun c => c <> 58) a -> until_colon (a ++ 58 :: b) = (a, b).
Proof.
  induction a as [|c a IH]; [done|]. intros [Hc Ha]%list.Forall_cons. cbn [app until_colon].
  apply Z.eqb_neq in Hc. by rewrite Hc, IH.
Qed.

Lemma split_address_ok d : address_ok d -> split_address (address d) = (inet_ntoa (fst d), Some (dec (snd d))).
Proof.
  intros [Hi Hp]. unfold split_address, address. change (B ":") with [58]. cbn [app].
  pose proof (inet_ntoa_plain _ Hi) as Hpl.
  assert (Hc : colons (inet_ntoa (fst d) ++ 58 :: dec (snd d)) = ([], inet_ntoa (fst d) ++ 58 :: dec (snd d))).
  { destruct (inet_ntoa (fst d)) as [|c l] eqn:E.
    - exfalso. unfold inet_ntoa in E. apply app_eq_nil in E as [E _]. revert E. apply dec_nonempty, Z.mod_pos_bound. done.
    - apply list.Forall_cons in Hpl as [[Hc _] _]. apply Z.eqb_neq in Hc. cbn [app colons]. by rewrite Hc. }
  rewrite Hc, until_colon_app by (eapply Forall_impl; [|exact Hpl]; cbn; tauto).
  destruct (dec (snd d)) eqn:E; [|done]. exfalso. revert E. apply dec_nonempty. ints; lia.
Qed.

Definition is_tcp (mode : sendmode) : bool := match mode with MODE_TCP => true | _ => false end.

(** One message for each address the network accepts, in the order of the addresses. *)
Definition delivered (can_send : nat -> bool) (tcp : bool) (data : bytes) (dests : list (Z * Z)) : list message :=
  concat (imap (fun i d => if can_send i then [{| m_tcp := tcp; m_ip := fst d; m_port := htons (snd d); m_data := data |}] else []) dests).

Lemma delivered_cons can_send tcp data i d dests : delivered (fun j => can_send (i + j)%nat) tcp data (d :: dests) =
  (if can_send i then [{| m_tcp := tcp; m_ip := fst d; m_port := htons (snd d); m_data := data |}] else []) ++ delivered (fun j => can_send (S i + j)%nat) tcp data dests.
Proof.
  unfold delivered. rewrite imap_cons. cbn [concat]. rewrite Nat.add_0_r. f_equal. f_equal.
  apply imap_ext. intros j x _. cbn. by rewrite Nat.add_succ_r.
Qed.

Lemma send_all_ok can_send stack_ip mode i data dests : mode <> MODE_ETH -> Forall address_ok dests ->
  send_all can_send stack_ip mode i data (map address dests) = (delivered (fun j => can_send (i + j)%nat) (is_tcp mode) data dests, 0).
Proof.
  intros Hm Hd. revert i. induction Hd as [|d dests Ha Hd IH]; intros i; [done|]. cbn [map send_all].
  rewrite split_address_ok, IH, inet_aton_ntoa, atoi_dec, u16_id by (apply Ha || destruct Ha; ints; lia).
  by rewrite delivered_cons; destruct mode.
Qed.

(** A packet whose captured length is its length is appended to the output as it is. *)
Lemma write_packet_whole d cp w : dst d = Some w -> at_end (file w) -> packet_ok cp -> len cp = caplen cp ->
  exists w', write_packet d cp = Ok (d <| dst := Some w' |>, 0) /\ content (file w') = content (file w) ++ packet_image cp.
Proof.
  intros Hd He Hp Hl. unfold write_packet. rewrite Hd, Hl, Z.ltb_irrefl.
  replace (cp <| caplen := caplen cp |>) with cp by (by destruct cp).
  destruct (stream_copy_ok w cp Hp He) as (w' & -> & _ & Hc). exists w'. split; [done|exact Hc].
Qed.

(** The packet a recorder makes for a message of the size of a marker. *)
Lemma dummy_packet_ok c junk data now : blen data = sizeof_marker -> is_u32 (tv_sec now) -> is_u64 (tv_psec now) ->
  let s := setup_udp c junk in
  packet_ok (dummy_packet {| cap := cap s; inner := inner s; mark_inner := data |} now).
Proof.
  intros Hl Hs Hp s. constructor; try done.
  change (caplen _) with 138. change (payload _) with (inner s ++ data). rewrite blen_app, Hl. split; [reflexivity|by split].
Qed.


(** ** Behaviour at the limits *)

(** The long option [--key] has the value of a letter that the program does not handle: it aborts. *)
Lemma long_key_aborts can_send stack_ip time v found args : capmarker can_send stack_ip time ((108, v) :: found) args = Abort.
Proof. reflexivity. Qed.

(** A host that is not a numeric address is not refused: the marker is sent to whatever the
    variable for the address held. *)
Lemma bad_host_sent can_send stack_ip data : can_send 0%nat = true ->
  send_all can_send stack_ip MODE_UDP 0 data [B "localhost:2065"] = ([{| m_tcp := false; m_ip := stack_ip; m_port := htons 2065; m_data := data |}], 0).
Proof. intros H. cbn -[htons]. unfold send_udp. rewrite H. reflexivity. Qed.

(** Ethernet is offered by the help text; nothing is sent and the program succeeds. *)
Lemma ethernet_sends_nothing can_send stack_ip i data args : send_all can_send stack_ip MODE_ETH i data args = ([], 0).
Proof. revert i. induction args as [|a args IH]; intros i; [done|apply IH]. Qed.

(** An address without a port ends the program after the markers before it were sent. *)
Lemma missing_port_stops can_send stack_ip mode data dests rest : mode <> MODE_ETH -> Forall address_ok dests ->
  send_all can_send stack_ip mode 0 data (map address dests ++ B "10.0.0.1" :: rest) = (delivered can_send (is_tcp mode) data dests, 1).
Proof.
  intros Hm Hd. change can_send with (fun j => can_send (0 + j)%nat) at 2. generalize 0%nat.
  induction Hd as [|d dests Ha Hd IH]; intros i; [by destruct mode|]. cbn [map app send_all].
  rewrite split_address_ok, IH, inet_aton_ntoa, atoi_dec, u16_id by (apply Ha || destruct Ha; ints; lia).
  by rewrite delivered_cons; destruct mode.
Qed.

Definition ex_options : list (Z * bytes) := [(101, B "17"); (107, B "5"); (101, B "18"); (99, B "start"); (84, [])].
Definition ex_dests : list (Z * Z) := [(16777226, 4000); (33554442, 2065)].

(** A recorder that listens, and looks for markers with the key 5 on the same port. *)
Definition ex_listening : config := ex_config <| use_listen := true |> <| marker_key := 5 |>.
Definition ex_recorder : dump := initial_dump (ex_capfile []) (file_addr ex_out) [].

