(* ===== verification/Capshow.v ===== *)
(** * capshow (tools/capshow.c), and the options it shares with capwalk

    One line is printed for each packet that matches a filter.  What is printed is a list of
    texts. *)

From S2P Require Import Prelude CLib Picotime Slist Utils Address Packet Filter CreateFilter Protocols ConnectionId ConnectionReopen Text Dns Format Dump Interface Stream StreamFile StreamBuffer StreamEthernet StreamUdp StreamApi Tools Capmerge Capfilter Pcap Capdump.

Definition FORMAT_DATE_STR : Z := 1.
Definition FORMAT_DATE_UTC : Z := 0.
Definition FORMAT_DATE_LOCALTIME : Z := 2.
Definition FORMAT_HEADER : Z := 16.
Definition ARGUMENT_VERSION : Z := 256.

(** ** Options, which both programs share *)
Record show_options := { o_flags : Z; o_max_packets : Z; o_max_matched : Z; o_iface : option bytes; o_timeout : timeval }.
#[export] Instance show_options_rebuild : Rebuild show_options := fun o =>
  {| o_flags := o_flags o; o_max_packets := o_max_packets o; o_max_matched := o_max_matched o; o_iface := o_iface o; o_timeout := o_timeout o |}.

Definition default_options : show_options :=
  {| o_flags := FORMAT_REL_TIMESTAMP; o_max_packets := 0; o_max_matched := 0; o_iface := None; o_timeout := {| tval_sec := 1; tval_usec := 0 |} |}.

(** [flags &= ~m] on a 32-bit unsigned integer. *)
Definition clear_flags (flags m : Z) : Z := Z.land flags (4294967295 - m).

(** Options as [getopt_long] gives them; [version] tells whether [--version] exists.  An option
    that is not handled is reported and skipped. *)
Fixpoint read_options (version : bool) (o : show_options) (found : list (Z * bytes)) : outcome show_options :=
  match found with
  | [] => Done o
  | (op, optarg) :: found =>
      let next o := read_options version o found in
      let flag m := next (o <| o_flags := Z.lor (o_flags o) m |>) in
      if (49 <=? op) && (op <=? 52) then
        next (o <| o_flags := Z.lor (clear_flags (o_flags o) (Z.shiftl 7 FORMAT_LAYER_BIT)) (u32 (Z.shiftl (op - 48) FORMAT_LAYER_BIT)) |>)
      else if op =? 100 then flag (Z.lor FORMAT_DATE_STR FORMAT_DATE_UTC)
      else if op =? 68 then flag (Z.lor FORMAT_DATE_STR FORMAT_DATE_LOCALTIME)
      else if op =? 97 then next (o <| o_flags := clear_flags (o_flags o) FORMAT_REL_TIMESTAMP |>)
      else if op =? 114 then flag FORMAT_REL_TIMESTAMP
      else if op =? 72 then flag FORMAT_HEADER
      else if op =? 112 then next (o <| o_max_packets := u32 (atoi optarg) |>)
      else if op =? 99 then next (o <| o_max_matched := u32 (atoi optarg) |>)
      else if op =? 116 then
        let tmp := atoi optarg in next (o <| o_timeout := {| tval_sec := Z.quot tmp 1000; tval_usec := Z.rem tmp 1000 * 1000 |} |>)
      else if op =? 120 then flag FORMAT_HEXDUMP
      else if op =? 105 then next (o <| o_iface := Some optarg |>)
      else if version && (op =? ARGUMENT_VERSION) then Exit 0
      else if op =? 104 then Exit 0
      else next o
  end.

(** ** Interrupts: the second one ends the program *)
Definition handle_sigint (keep_running : bool) : res bool := if negb keep_running then Abort else Ok false.
Fixpoint interrupts (n : nat) (keep_running : bool) : res bool :=
  match n with O => Ok keep_running | S n => k ← handle_sigint keep_running; interrupts n k end.

(** ** capshow *)
Record shown := { sh_lines : list bytes; sh_read : Z; sh_matched : Z; sh_ret : Z }.
Definition add_lines (t : list bytes) (r : shown) : shown :=
  {| sh_lines := t ++ sh_lines r; sh_read := sh_read r; sh_matched := sh_matched r; sh_ret := sh_ret r |}.

Section Capshow.
Variable bpf_filter : list bpf_insn -> bytes -> Z -> Z -> Z.
Variable date zone : bool -> Z -> bytes.
Variable stack : bytes.          (** what the name buffer of the DNS printer holds *)
Variable sigints : nat -> nat.   (** the interrupts in front of each round *)

(** A source of packets with its counters [stat->read] and [stat->matched]. *)
Context {T : Type}.
Variable next : T -> res (T * (Z * option cap_header)).
Variable count_read count_matched : T -> Z.

(** One packet: its connection is identified first, whether it matches or not. *)
Definition show_one (fm : format) (db : conn_db) (f : filter) (cp : cap_header) : res (format * conn_db * filter * list bytes) :=
  '(db, _) ← connection_id db cp;
  '(f, hit) ← filter_match bpf_filter f (payload cp) cp;
  if (hit : bool) then '(fm, db, text) ← format_pkg date zone stack fm db cp; Ok (fm, db, f, [text])
  else Ok (format_ignore fm cp, db, f, []).

Fixpoint show_loop (fuel n : nat) (o : show_options) (keep_running : bool) (fm : format) (db : conn_db) (f : filter) (matched ret : Z) (s : T) : res shown :=
  match fuel with
  | O => OutOfFuel
  | S fuel =>
      let finish s ret matched := Ok {| sh_lines := []; sh_read := count_read s; sh_matched := matched; sh_ret := ret |} in
      keep_running ← interrupts (sigints n) keep_running;
      if negb keep_running then finish s ret matched
      else
        '(s, (ret, cp)) ← next s;
        if ret =? EAGAIN then show_loop fuel (S n) o keep_running fm db f matched ret s
        else if negb (ret =? 0) then finish s ret matched
        else match cp with
             | None => Fault
             | Some cp =>
                 '(fm, db, f, text) ← show_one fm db f cp;
                 let matched := matched + Z.of_nat (length text) in
                 rest ← (if (0 <? o_max_packets o) && (o_max_packets o <=? count_matched s) then finish s ret matched
                         else if (0 <? o_max_matched o) && (o_max_matched o <=? matched) then finish s ret matched
                         else show_loop fuel (S n) o keep_running fm db f matched ret s);
                 Ok (add_lines text rest)
             end
  end.
End Capshow.

(** The whole program: [f] is the result of [filter_from_argv], which took its options out of the
    command line. *)
Section Main.
Variable e : env.
Variable strdup : bytes -> cptr.
Variable bpf_filter : list bpf_insn -> bytes -> Z -> Z -> Z.
Variable read_fuel : nat.
Variable date zone : bool -> Z -> bytes.
Variable sigints : nat -> nat.
Variable stdin_tty : bool.
Variable dev_stdin : Z.
Variable dash : cptr.

Definition read_with (o : show_options) (st : stream_t) : res (stream_t * (Z * option cap_header)) :=
  '(st, _, r) ← stream_t_read bpf_filter read_fuel st None (Some (o_timeout o)); Ok (st, r).

Definition capshow (stack : bytes) (stack_format : format) (fuel : nat) (f : option filter) (found : list (Z * bytes)) (args : list cptr) : res (outcome shown) :=
  match f with
  | None => Ok (Exit 0)
  | Some f =>
      match read_options true default_options found with
      | Exit code => Ok (Exit code)
      | Done o =>
          '(st, ret, _) ← stream_from_getopt e strdup stdin_tty dev_stdin args (o_iface o) (Some dash) 0;
          if negb (ret =? 0) then Ok (Exit ret)
          else match st : option stream_t with
               | None => Fault
               | Some st =>
                   _ ← stream_print_info st;
                   r ← show_loop bpf_filter date zone stack sigints (read_with o) (fun st => stat_read (stream_get_stat st)) (fun st => stat_matched (stream_get_stat st))
                         fuel 0 o true (format_setup stack_format (o_flags o)) initial_db f 0 0 st;
                   Ok (Done r)
               end
      end
  end.
End Main.

(** ** What capshow shows *)
Section Shows.
Variable bpf_filter : list bpf_insn -> bytes -> Z -> Z -> Z.
Variable date zone : bool -> Z -> bytes.
Variable stack : bytes.
Context {T : Type}.
Variable next : T -> res (T * (Z * option cap_header)).
Variable count_read count_matched : T -> Z.

(** The packets a source delivers until it ends, in [k] calls; some calls time out. *)
Inductive reads : nat -> T -> list cap_header -> Prop :=
  | reads_end s s' ret cp : next s = Ok (s', (ret, cp)) -> ret <> 0 -> ret <> EAGAIN -> reads 1 s []
  | reads_timeout k s s' cp cps : next s = Ok (s', (EAGAIN, cp)) -> count_matched s' = count_matched s -> reads k s' cps -> reads (S k) s cps
  | reads_packet k s s' cp cps : next s = Ok (s', (0, Some cp)) -> count_matched s' = count_matched s + 1 -> reads k s' cps -> reads (S k) s (cp :: cps).

(** The decisions of a filter on the packets. *)
Fixpoint verdicts (f : filter) (cps : list cap_header) : res (list bool) :=
  match cps with
  | [] => Ok []
  | cp :: cps => '(f, b) ← filter_match bpf_filter f (payload cp) cp; bs ← verdicts f cps; Ok (b :: bs)
  end.

(** The lines for all packets. *)
Definition lines_of (fm : format) (db : conn_db) (cps : list cap_header) : res (list bytes) :=
  '(_, _, texts) ← format_run date zone stack fm db (map (pair true) cps); Ok texts.

(** How many packets are looked at: up to the limit of packets [P], and up to the one that
    reaches the limit of matches [M]. *)
Fixpoint processed (P M : option nat) (bs : list bool) : nat :=
  match bs with
  | [] => 0
  | b :: bs =>
      let M := if b then option_map Nat.pred M else M in
      S (if bool_decide (P = Some 1%nat) || bool_decide (M = Some 0%nat) then 0 else processed (option_map Nat.pred P) M bs)
  end.
Definition limit (n : Z) : option nat := if 0 <? n then Some (Z.to_nat n) else None.

Definition pick (bs : list bool) (texts : list bytes) : list bytes := omap (fun '(t, b) => if (b : bool) then Some t else None) (zip texts bs).

(** The fields of the TCP header that the identification looks at are in memory. *)
Definition readable (cp : cap_header) : Prop := exists o, opening_seq (payload cp) = Ok o.

(** The formatter asks for the identifier once more. *)
Lemma format_pkg_again fm db db1 cp i r : connection_id db cp = Ok (db1, i) -> connection_id db1 cp = Ok (db1, i) ->
  format_pkg date zone stack fm db cp = Ok r -> format_pkg date zone stack fm db1 cp = Ok r /\ snd (fst r) = db1 /\ fst (fst r) = format_ignore fm cp.
Proof.
  intros H1 H2 H. destruct r as [[fm' db'] text]. pose proof (format_pkg_state _ _ _ _ _ _ _ _ _ H) as ->.
  unfold format_pkg, print_pkt in *. rewrite H1 in H. rewrite H2. cbn [mbind res_bind] in *. split; [done|]. inv_ok.
  destruct v1. inv_ok. injection H as <- <-. split; [|done]. cbn. congruence.
Qed.

Lemma show_one_ok fm db f f' b cp fm' db' text :
  db_ok db -> db_counter db < 100000000 -> readable cp -> filter_match bpf_filter f (payload cp) cp = Ok (f', b) ->
  format_pkg date zone stack fm db cp = Ok (fm', db', text) ->
  show_one bpf_filter date zone stack fm db f cp = Ok (fm', db', f', if b then [text] else []) /\ db_ok db' /\ db_counter db' <= db_counter db + 1.
Proof.
  intros Hdb Hc [o Ho] Hf H.
  assert (Hid : exists db1 i, connection_id db cp = Ok (db1, i)).
  { unfold format_pkg in H. do 2 apply bind_Ok_inv in H as (? & _ & H). apply bind_Ok_inv in H as (? & H & _).
    unfold print_pkt in H. apply bind_Ok_inv in H as ([db1 i] & H & _). eauto. }
  destruct Hid as (db1 & i & Hid). destruct (connection_id_settled db cp o db1 i Hdb Hc Ho Hid) as (Hag & Hdb1 & Hc1).
  destruct (format_pkg_again fm db db1 cp i _ Hid Hag H) as (Hp & Hd & Hs). cbn in Hd, Hs. subst fm' db'.
  unfold show_one. rewrite Hid. cbn [mbind res_bind]. rewrite Hf. cbn [mbind res_bind]. destruct b; [rewrite Hp; cbn [mbind res_bind]|]; split_and!; try done; lia.
Qed.

(** What is left of a limit. *)
Definition remaining (max have : Z) : option nat := if 0 <? max then Some (Z.to_nat (max - have)) else None.

Lemma remaining_next max have : (0 < max -> have < max) -> option_map Nat.pred (remaining max have) = remaining max (have + 1).
Proof. unfold remaining. intros H. destruct (Z.ltb_spec 0 max); [|done]. cbn. f_equal. lia. Qed.
Lemma remaining_last max have : (0 < max -> have < max) -> (0 <? max) && (max <=? have + 1) = bool_decide (remaining max have = Some 1%nat).
Proof.
  unfold remaining. intros H. destruct (Z.ltb_spec 0 max); [|done]. cbn [andb]. apply eq_true_iff_eq.
  rewrite Z.leb_le, bool_decide_eq_true. specialize (H ltac:(lia)). split; [intros; f_equal; lia|intros [= ?]; lia].
Qed.
Lemma remaining_none max have : (0 <? max) && (max <=? have) = bool_decide (remaining max have = Some 0%nat).
Proof.
  unfold remaining. destruct (Z.ltb_spec 0 max); [|done]. cbn [andb]. apply eq_true_iff_eq.
  rewrite Z.leb_le, bool_decide_eq_true. split; [intros; f_equal; lia|intros [= ?]; lia].
Qed.

Lemma verdicts_cons f cp cps bs : verdicts f (cp :: cps) = Ok bs ->
  exists f' b bs', filter_match bpf_filter f (payload cp) cp = Ok (f', b) /\ verdicts f' cps = Ok bs' /\ bs = b :: bs'.
Proof.
  cbn [verdicts]. intros H. apply bind_Ok_inv in H as ([f' b] & H1 & H). apply bind_Ok_inv in H as (bs' & H2 & H). injection H as <-. eauto 6.
Qed.
Lemma lines_of_cons fm db cp cps texts : lines_of fm db (cp :: cps) = Ok texts ->
  exists fm' db' text rest, format_pkg date zone stack fm db cp = Ok (fm', db', text) /\ lines_of fm' db' cps = Ok rest /\ texts = text :: rest.
Proof.
  unfold lines_of. cbn [map format_run]. intros H. apply bind_Ok_inv in H as ([[? ?] t] & H & E). injection E as <-.
  apply bind_Ok_inv in H as ([[fm' db'] text] & H1 & H). apply bind_Ok_inv in H as ([[? ?] rest] & H2 & H). injection H as <- <- <-.
  exists fm', db', text, rest. split_and!; try done. by rewrite H2.
Qed.

Lemma pick_cons b bs t ts : pick (b :: bs) (t :: ts) = (if b then [t] else []) ++ pick bs ts.
Proof. unfold pick. cbn. by destruct b. Qed.

Lemma show_lines_ok sigints o k s cps : reads k s cps -> (forall i, sigints i = 0%nat) ->
  forall fuel n fm db f matched ret bs texts, (k <= fuel)%nat -> db_ok db -> db_counter db + Z.of_nat (length cps) <= 100000000 -> Forall readable cps ->
  verdicts f cps = Ok bs -> lines_of fm db cps = Ok texts ->
  (0 < o_max_packets o -> count_matched s < o_max_packets o) -> (0 < o_max_matched o -> matched < o_max_matched o) ->
  let N := processed (remaining (o_max_packets o) (count_matched s)) (remaining (o_max_matched o) matched) bs in
  let out := pick (take N bs) (take N texts) in
  exists rd rt, show_loop bpf_filter date zone stack sigints next count_read count_matched fuel n o true fm db f matched ret s =
    Ok {| sh_lines := out; sh_read := rd; sh_matched := matched + Z.of_nat (length out); sh_ret := rt |}.
Proof.
  intros Hr Hsig. induction Hr as [s s' ret' cp Hn H0 Ha|k s s' cp cps Hn Hc Hr IH|k s s' cp cps Hn Hc Hr IH];
    intros fuel n fm db f matched ret bs texts Hk Hdb Hcnt Hread Hv Hl Hp Hm N out;
    (destruct fuel as [|fuel]; [lia|]); cbn [show_loop]; rewrite Hsig; cbn [interrupts mbind res_bind negb]; rewrite Hn; cbn [mbind res_bind].
  - rewrite (proj2 (Z.eqb_neq _ _) H0), (proj2 (Z.eqb_neq _ _) Ha). cbn [negb]. injection Hv as <-. unfold lines_of in Hl. cbn in Hl. injection Hl as <-.
    cbn. rewrite Z.add_0_r. eauto.
  - rewrite Z.eqb_refl. subst out N. rewrite <- Hc in *. apply IH; try done. lia.
  - change (0 =? EAGAIN) with false. cbn [Z.eqb negb].
    apply verdicts_cons in Hv as (f' & b & bs' & Hf & Hv & ->). apply lines_of_cons in Hl as (fm' & db' & text & rest & Hfm & Hl & ->).
    apply list.Forall_cons in Hread as [Hre Hread]. cbn [length] in Hcnt.
    destruct (show_one_ok fm db f f' b cp fm' db' text Hdb ltac:(lia) Hre Hf Hfm) as (-> & Hdb' & Hc'). cbn [mbind res_bind].
    subst out N. cbn [processed take]. rewrite pick_cons, length_app, Hc, remaining_last by done.
    set (matched' := matched + Z.of_nat (length (if b then [text] else []))). rewrite remaining_none.
    assert (EM : (if b then option_map Nat.pred (remaining (o_max_matched o) matched) else remaining (o_max_matched o) matched) = remaining (o_max_matched o) matched').
    { unfold matched'. destruct b; cbn [length]; [by apply remaining_next|by rewrite Z.add_0_r]. }
    rewrite EM. pose proof (remaining_last (o_max_packets o) (count_matched s) Hp) as EP. pose proof (remaining_none (o_max_matched o) matched') as EM'.
    destruct (bool_decide (remaining (o_max_packets o) (count_matched s) = Some 1%nat)); [|destruct (bool_decide (remaining _ matched' = _))]; cbn [orb].
    1, 2: cbn [mbind res_bind]; unfold add_lines; cbn [sh_lines sh_read sh_matched sh_ret take]; change (pick [] []) with (@nil bytes); do 2 eexists; rewrite !app_nil_r, Nat.add_0_r; reflexivity.
    rewrite remaining_next by done. rewrite <- Hc.
    destruct (IH fuel (S n) fm' db' f' matched' 0 bs' rest) as (rd & rt & ->); try done; try lia.
    cbn [mbind res_bind]. exists rd, rt. unfold add_lines. cbn [sh_lines sh_read sh_matched sh_ret]. do 2 f_equal. unfold matched'. lia.
Qed.
End Shows.

(** ** The limits *)
Lemma processed_all bs : processed None None bs = length bs.
Proof. induction bs as [|b bs IH]; [done|]. cbn -[bool_decide]. destruct b; cbn; by rewrite IH. Qed.
Lemma processed_packets p bs : processed (Some (S p)) None bs = Nat.min (S p) (length bs).
Proof.
  revert p. induction bs as [|b bs IH]; intros p; [cbn; lia|]. cbn [processed length]. replace (if b then option_map Nat.pred None else None) with (@None nat) by (by destruct b).
  destruct p as [|p]; [done|]. rewrite (bool_decide_eq_false_2 (Some (S (S p)) = Some 1%nat)), (bool_decide_eq_false_2 (None = Some 0%nat)) by congruence.
  cbn [orb option_map Nat.pred]. rewrite IH. lia.
Qed.
(** Matches in front of the limit: all that the packets have, or as many as asked for and the last
    packet that was looked at is the last of them. *)
Lemma processed_matches m bs : length (pick (take (processed None (Some (S m)) bs) bs) (repeat [] (processed None (Some (S m)) bs))) =
  Nat.min (S m) (length (List.filter (fun b : bool => b) bs)).
Proof.
  revert m. induction bs as [|b bs IH]; intros m; [done|]. cbn [processed option_map Nat.pred]. destruct b; cbn [take repeat]; rewrite pick_cons, length_app; cbn [List.filter length].
  - destruct m as [|m]; [rewrite (bool_decide_eq_true_2 (Some 0%nat = Some 0%nat)) by done; rewrite orb_true_r; cbn; lia|].
    rewrite (bool_decide_eq_false_2 (Some (S m) = Some 0%nat)), (bool_decide_eq_false_2 (None = Some 1%nat)) by congruence. cbn [orb length]. rewrite IH. lia.
  - rewrite (bool_decide_eq_false_2 (Some (S m) = Some 0%nat)), (bool_decide_eq_false_2 (None = Some 1%nat)) by congruence. cbn [orb]. rewrite IH. done.
Qed.

(** ** Packets in the buffer of a stream *)

Lemma extends_rd32 m r o : extends (rd32 m o) (rd32 (m ++ r) o).
Proof. intros a H. rewrite rd32_app_l; [done|]. apply rd32_inv in H. lia. Qed.
#[local] Hint Resolve extends_rd32 : extends.
Lemma extends_find_tp proto m r pkt ether ip ports : extends (find_tp_header proto m pkt ether ip ports) (find_tp_header proto (m ++ r) pkt ether ip ports).
Proof. unfold find_tp_header, find_ipproto_header, ip_p, ip_hl, h_proto. repeat extend_step. Qed.
#[local] Hint Resolve extends_find_tp : extends.

Lemma extends_opening m r : extends (opening_seq m) (opening_seq (m ++ r)).
Proof. unfold opening_seq, find_tcp, tcp_syn, tcp_ack, tcp_seq, find_tcp_header. repeat extend_step. Qed.
Lemma extends_initial m r : extends (initial_seq m) (initial_seq (m ++ r)).
Proof. unfold initial_seq, find_tcp, tcp_seq, find_tcp_header. repeat extend_step. Qed.
#[local] Hint Resolve extends_opening extends_initial : extends.
Lemma extends_search c p rest e0 e1 : extends (connection_id_search c p e0 e1) (connection_id_search c (in_memory p rest) e0 e1).
Proof.
  unfold connection_id_search, connection_id_tcp_syn, new_state. change (payload (in_memory p rest)) with (payload p ++ rest).
  repeat extend_step.
Qed.
#[local] Hint Resolve extends_search : extends.
Lemma extends_connection_id db p rest : extends (connection_id db p) (connection_id db (in_memory p rest)).
Proof.
  unfold connection_id, ipv4_connection_id, ipv4_bucket_select, ip_src_addr, ip_dst_addr, find_tcp_header, find_udp_header.
  change (payload (in_memory p rest)) with (payload p ++ rest). repeat extend_step.
Qed.
#[local] Hint Resolve extends_connection_id : extends.

Lemma extends_arr_str m r : extends (arr_str m) (arr_str (m ++ r)).
Proof.
  intros t. unfold arr_str. destruct (existsb (Z.eqb 0) m) eqn:E; [|discriminate]. rewrite existsb_app, E. cbn [orb]. intros [= <-]. f_equal.
  induction m as [|c m IH]; [done|]. cbn [existsb] in E. cbn. destruct (Z.eqb_spec 0 c) as [<-|Hc]; [done|].
  rewrite (proj2 (Z.eqb_neq c 0)) by congruence. f_equal. by apply IH.
Qed.
Lemma extends_fputs m r max : extends (fputs_printable m max) (fputs_printable (m ++ r) max).
Proof. apply extends_bind; [apply extends_arr_str|intros; apply extends_refl]. Qed.

Section Lines.
Variable bpf_filter : list bpf_insn -> bytes -> Z -> Z -> Z.
Variable date zone : bool -> Z -> bytes.
Variable stack : bytes.

(** The lines for packets, each with its number, relative time and connection among all of
    them, whatever follows a packet in memory. *)
Inductive described : format -> conn_db -> list cap_header -> list bytes -> Prop :=
  | described_nil fm db : described fm db [] []
  | described_cons fm db p ps fm' db' text texts : (forall rest, format_pkg date zone stack fm db (in_memory p rest) = Ok (fm', db', text)) ->
      described fm' db' ps texts -> described fm db (p :: ps) (text :: texts).

Lemma described_lines fm db cps texts : described fm db (map captured cps) texts -> lines_of date zone stack fm db cps = Ok texts.
Proof.
  intros H. remember (map captured cps) as ps eqn:E. revert cps E. induction H as [fm db|fm db p ps fm' db' text texts Hp H IH]; intros [|cp cps] [=]; [done|].
  unfold lines_of. cbn [map format_run]. destruct (in_memory_captured cp p) as [rest ->]; [done|]. rewrite Hp. cbn [mbind res_bind].
  specialize (IH cps ltac:(done)). unfold lines_of in IH. apply bind_Ok_inv in IH as ([[? ?] ts] & -> & [= ->]). done.
Qed.

Lemma decided_verdicts f cps bs : decided bpf_filter f (map captured cps) bs -> verdicts bpf_filter f cps = Ok bs.
Proof.
  intros H. remember (map captured cps) as ps eqn:E. revert cps E. induction H as [f|f p ps f' b bs Hp H IH]; intros [|cp cps] [=]; [done|].
  cbn [verdicts]. destruct (in_memory_captured cp p) as [rest ->]; [done|]. specialize (Hp rest). cbn [filter_status] in Hp.
  apply bind_Ok_inv in Hp as ([f1 b1] & -> & [= -> ->]). cbn [mbind res_bind]. by rewrite (IH cps).
Qed.

Lemma readable_captured cps : Forall readable (map captured cps) -> Forall readable cps.
Proof.
  rewrite Forall_map. apply Forall_impl. intros cp [o H]. exists o. revert H. destruct (in_memory_captured cp (captured cp) eq_refl) as [rest E].
  rewrite E at 2. apply extends_opening.
Qed.

(** Without the headers ([-1]) a line depends on the captured bytes only. *)
Lemma format_dpmi fm db p r rest : (8 <= length (nic p))%nat -> format_flags fm < FORMAT_LAYER_LINK -> has_flag (format_flags fm) FORMAT_HEXDUMP = false ->
  format_pkg date zone stack fm db p = Ok r -> format_pkg date zone stack fm db (in_memory p rest) = Ok r.
Proof.
  intros Hn Hf Hh. revert r. change (extends (format_pkg date zone stack fm db p) (format_pkg date zone stack fm db (in_memory p rest))).
  assert (E : cap_image (in_memory p rest) = cap_image p ++ rest) by (unfold cap_image; cbn; by rewrite <- !(assoc_L (++))).
  assert (H8 : (8 <= length (cap_image p))%nat) by (unfold cap_image; rewrite length_app; lia).
  unfold format_pkg. cbv zeta. rewrite E, drop_app_le by done. apply extends_bind; [apply extends_fputs|intros iface]. apply extends_bind; [apply extends_fputs|intros mp].
  change (note_first (fm <| pktcount := _ |>) (in_memory p rest)) with (note_first (fm <| pktcount := u64 (pktcount fm + 1) |>) p).
  set (st := note_first _ p). assert (Ef : format_flags st = format_flags fm) by (unfold st, note_first; by destruct (format_first _)).
  apply extends_bind; [|intros [db' text]; apply extends_refl]. unfold print_pkt. rewrite Ef, Hh, (proj2 (Z.leb_gt _ _) Hf), !andb_false_r.
  apply extends_bind; [apply extends_connection_id|intros [db' id]; apply extends_refl].
Qed.
End Lines.

(** ** The whole program on a capture file *)
Section Program.
Variable e : env.
Variable strdup : bytes -> cptr.
Variable bpf_filter : list bpf_insn -> bytes -> Z -> Z -> Z.
Variable read_fuel : nat.
Variable date zone : bool -> Z -> bytes.

Abbreviation count st := (stat_matched (stream_get_stat st)).

Lemma file_reads o st ps : file_gives read_fuel st ps -> 0 <= count st -> count st + Z.of_nat (length ps) < 18446744073709551616 ->
  exists cps, reads (read_with bpf_filter read_fuel o) (fun st => count st) (S (length ps)) st cps /\ map captured cps = ps.
Proof.
  revert st. induction ps as [|p ps IH]; intros st Hg H0 Hl; cbn [length] in *.
  - destruct (file_gives_stop bpf_filter read_fuel (Some (o_timeout o)) st Hg) as (st' & H). exists []. split; [|done].
    eapply (reads_end _ _ st st' (-1) None); [unfold read_with; by rewrite H|done|done].
  - destruct (file_gives_read bpf_filter read_fuel (Some (o_timeout o)) st p ps Hg) as (st' & cp & H & <- & Hg' & Hc).
    rewrite u64_id in Hc by (ints; lia). destruct (IH st' Hg') as (cps & Hr & <-); [lia|lia|].
    exists (cp :: cps). split; [|done]. eapply (reads_packet _ _ _ st st'); [unfold read_with; by rewrite H|done|done].
Qed.

(** A capture file with the packets [ps]. *)
Record showable (arg : cptr) (ps : list cap_header) : Prop := {
  sw_file : exists name f mid cm, p_str arg = B "file://" ++ name /\ (length name < 41)%nat /\ Forall (fun c => c <> 0) name /\
    e_fopen e name = inl f /\ pos f = 0 /\ ferror f = None /\ blen cm < 65536 /\ (length mid < 200)%nat /\
    content f = file_header_image (new_header mid cm) ++ cm ++ contents ps [];
  sw_fits : Forall (fits BUFSIZ) ps;
  sw_fuel : 2 * blen (contents ps []) < Z.of_nat read_fuel;
  sw_length : Z.of_nat (length ps) <= 100000000;
}.

(** C15: What [capshow] prints for a packet does not depend on the filter: its number, its time
    relative to the first packet and its connection are those it has among all packets of
    the file.  The lines are the ones for the packets the filter accepts, in order, among
    those that are looked at (all, without [-p] and [-c]). *)
Theorem capshow_selects tin dev dash sigints stack fm0 fuel arg ps found o f bs texts :
  showable arg ps -> (length ps < fuel)%nat -> (forall i, sigints i = 0%nat) -> read_options true default_options found = Done o ->
  Forall readable ps -> decided bpf_filter f ps bs -> described date zone stack (format_setup fm0 (o_flags o)) initial_db ps texts ->
  let n := processed (limit (o_max_packets o)) (limit (o_max_matched o)) bs in
  exists r, capshow e strdup bpf_filter read_fuel date zone sigints tin dev dash stack fm0 fuel (Some f) found [arg] = Ok (Done r) /\
    sh_lines r = pick (take n bs) (take n texts) /\ sh_matched r = Z.of_nat (length (sh_lines r)).
Proof.
  intros [(name & fl & mid & cm & Ha & Hl & Hnz & Ho & Hp & He & Hcm & Hmid & Hcont) Hfit Hrf Hlen] Hf Hsig Hopt Hread Hv Hlines n.
  destruct (file_name_parsed strdup arg name Ha Hl Hnz) as [Hparse Hname].
  destruct (stream_open_file e (skip7 arg) (o_iface o) mid cm (contents ps []) fl) as (sf & Hopen & Haddr & Hop); try done; [by rewrite Hname|].
  destruct (print_info_ok sf _ mid cm _ _ Hop Haddr Hmid) as [text Htext]. destruct Hop as [Hi Hsz _ _ Hu Hs Hb [_ Hst]].
  assert (Hc0 : count (FileStream sf) = 0) by exact Hst.
  destruct (file_reads o (FileStream sf) ps) as (cps & Hr & <-); [|lia|lia|].
  { exists sf. rewrite Hsz, Hu, Hb. by split_and!. }
  rewrite length_map in *. unfold capshow. rewrite Hopt. unfold stream_from_getopt.
  rewrite (bool_decide_eq_false_2 (p_str arg = B "-")) by (rewrite Ha; discriminate). cbn [andb]. rewrite Hparse. cbn [mbind res_bind Z.eqb negb].
  change (stream_addr_type (file_addr (skip7 arg))) with STREAM_ADDR_CAPFILE. cbn [Z.eqb STREAM_ADDR_CAPFILE STREAM_ADDR_ETHERNET andb].
  rewrite Hopen. cbn [mbind res_bind Z.eqb negb tail]. rewrite Htext. cbn [mbind res_bind].
  destruct (show_lines_ok bpf_filter date zone stack (read_with bpf_filter read_fuel o) (fun st => stat_read (stream_get_stat st)) (fun st => count st) sigints o _ _ _ Hr Hsig
    fuel 0 (format_setup fm0 (o_flags o)) initial_db f 0 0 bs texts) as (rd & rt & ->); try done.
  - apply db_ok_initial.
  - by apply readable_captured.
  - by apply decided_verdicts.
  - by apply described_lines.
  - intros H. lia.
  - cbn [mbind res_bind]. eexists. split; [reflexivity|]. rewrite Hc0.
    unfold remaining. rewrite !Z.sub_0_r. split; [reflexivity|]. cbn [sh_lines sh_matched]. lia.
Qed.
End Program.

(** ** Witness: the second of three connections is filtered out *)
Definition ex_show_packets : list cap_header :=
  [ConnectionId.tcp_packet 1 2 1000 80 SYN 7; (ex_cap (payload (ConnectionId.tcp_packet 1 3 1000 80 SYN 8) ++ [98])); ConnectionId.tcp_packet 1 2 1001 80 SYN 9].
Definition ex_show_file : FILE :=
  {| content := file_header_image (new_header (B "mp") (B "in")) ++ B "in" ++ contents ex_show_packets []; pos := 0; ferror := None |}.
Definition ex_show_env : env := {|
  e_fopen _ := inl ex_show_file; e_fcreate _ := inl empty_file; e_fp _ := ex_input; e_mkfifo _ := None; e_stat_error _ := None; e_sys := ex_system;
  e_raw_socket := None; e_raw_bind := None; e_eth_member _ := None; e_frames := []; e_udp_socket := None; e_udp_bind := ex_bind;
  e_udp_connect := ex_bind; e_udp_member := ex_join; e_path_mtu := ex_no_path; e_datagrams := [] |}.
Definition ex_show_bpf (_ : list bpf_insn) (_ : bytes) (_ caplen : Z) : Z := caplen - 56.
Definition ex_text (_ : bool) (_ : Z) : bytes := [].

Lemma ex_showable : showable ex_show_env 1000 ex_file_arg ex_show_packets.
Proof.
  constructor; [| |vm_compute; reflexivity|vm_compute; discriminate].
  - exists (B "a.cap"), ex_show_file, (B "mp"), (B "in"). split_and!; try done; [cbn; lia|by repeat constructor|cbn; lia].
  - apply list.Forall_forall. intros p [-> |[-> |[-> |[]%elem_of_nil]%elem_of_cons]%elem_of_cons]%elem_of_cons; (split; [|by vm_compute]);
      (constructor; [reflexivity|reflexivity|..|split; [reflexivity|]]); vm_compute; by split.
Qed.

Lemma capshow_selects_witness : exists r,
  capshow ex_show_env ex_strdup ex_show_bpf 1000 ex_text ex_text (fun _ => 0%nat) true 0 ex_out [] ex_format 4
    (Some (filter_init <| bpf_prog := Live [] |>)) [(49, [])] [ex_file_arg] = Ok (Done r) /\
  sh_lines r = [B "[   1]:d00:mp01:0.000000000000:LINK(  55):CAPLEN(  55):ID(   1)" ++ nl; B "[   3]:d00:mp01:0.000000000000:LINK(  55):CAPLEN(  55):ID(   3)" ++ nl].
Proof.
  destruct (capshow_selects ex_show_env ex_strdup ex_show_bpf 1000 ex_text ex_text true 0 ex_out (fun _ => 0%nat) [] ex_format 4 ex_file_arg ex_show_packets
    [(49, [])] (default_options <| o_flags := Z.lor FORMAT_REL_TIMESTAMP 536870912 |>) (filter_init <| bpf_prog := Live [] |>) [true; false; true]
    [B "[   1]:d00:mp01:0.000000000000:LINK(  55):CAPLEN(  55):ID(   1)" ++ nl; B "[   2]:d00:mp01:0.000000000000:LINK(  56):CAPLEN(  56):ID(   2)" ++ nl;
     B "[   3]:d00:mp01:0.000000000000:LINK(  55):CAPLEN(  55):ID(   3)" ++ nl]) as (r & H & Hl & _).
  - exact ex_showable.
  - cbn. lia.
  - reflexivity.
  - reflexivity.
  - repeat constructor; eexists; vm_compute; reflexivity.
  - do 3 (eapply decided_cons; [intros rest; vm_compute; reflexivity|]). constructor.
  - do 3 (eapply described_cons; [intros rest; apply format_dpmi; [cbn; lia|vm_compute; reflexivity|vm_compute; reflexivity|vm_compute; reflexivity]|]). constructor.
  - exists r. split; [exact H|exact Hl].
Defined.
