(* ===== verification/Capwalk.v ===== *)
(** * capwalk and ifstat (tools/capwalk.c, tools/ifstat.c)

    [capwalk] prints all headers of each packet, [ifstat] what is known of an interface. *)

From S2P Require Import Prelude CLib Picotime Slist Utils Address Packet Filter CreateFilter Protocols ConnectionId Text Dns Format Dump Interface Stream StreamFile StreamBuffer StreamEthernet StreamUdp StreamApi Tools Capmerge Capfilter Pcap Capdump Capshow.

(** ** capwalk *)
Definition toupper (c : Z) : Z := if (97 <=? c) && (c <=? 122) then c - 32 else c.

(** The text is made in a static array of 4096 bytes. *)
Definition ucfirst (str : bytes) : bytes := match str with [] => [] | c :: s => take 4095 (toupper c :: s) end.

Section Capwalk.
Variable utc : Z -> bytes.       (** [strftime] of [gmtime] with the format of the program *)
Variable stack : bytes.          (** what the name buffer of the DNS printer holds *)

(** The loop over the headers of a packet: a title and a dump for each. *)
Fixpoint dump_headers (fuel : nat) (h : header_chunk) : res bytes :=
  match fuel with
  | O => OutOfFuel
  | S fuel =>
      '(h, more) ← header_walk h;
      if negb more then Ok []
      else
        text ← match protocol h with
               | None => Ok (B "Unknown protocol" ++ nl)
               | Some _ =>
                   pr ← current h;
                   match ptr h with
                   | None => Fault
                   | Some p =>
                       dump ← header_dump stack h (B "    ");
                       Ok (B "  " ++ ucfirst (pr_name pr) ++ B " @ " ++ dec p ++ nl ++ dump)
                   end
               end;
        rest ← dump_headers fuel h;
        Ok (text ++ rest)
  end.

(** [stream_stat->read] is printed as a signed number. *)
Definition packet_title (read : Z) : bytes := B "Packet " ++ dec (if read <? 9223372036854775808 then read else read - 18446744073709551616) ++ nl.
Definition dpmi_lines (cp : cap_header) : bytes :=
  B "  DPMI" ++ nl ++
  B "    MAMPid:             " ++ cstr (take 8 (head_mampid cp)) ++ nl ++
  B "    Iface:              " ++ cstr (take 8 (nic cp)) ++ nl ++
  B "    Timestamp:          " ++ utc (tv_sec (ts cp)) ++ nl ++
  B "    Length:             " ++ fmt_d (len cp) ++ nl ++
  B "    Capture length:     " ++ fmt_d (caplen cp) ++ nl.

Definition handle_packet (read : Z) (cp : cap_header) : res (bytes * Z) :=
  headers ← dump_headers (S (S (S (Z.to_nat (caplen cp))))) (header_init cp);
  Ok (packet_title read ++ dpmi_lines cp ++ headers, 0).

Section Loop.
Variable sigints : nat -> nat.
Context {T : Type}.
Variable read : T -> option filter -> option timeval -> res (T * option filter * (Z * option cap_header)).
Variable count_read : T -> Z.

(** [while ( keep_running && stream_read_cb(...) == 0 );] *)
Fixpoint walk_loop (fuel n : nat) (keep_running : bool) (timeout : timeval) (f : filter) (s : T) : res (list bytes) :=
  match fuel with
  | O => OutOfFuel
  | S fuel =>
      keep_running ← interrupts (sigints n) keep_running;
      if negb keep_running then Ok []
      else
        '(s, f, (text, ret)) ← stream_read_cb read [] (fun s cp => '(text, r) ← handle_packet (count_read s) cp; Ok ([text], r)) s (Some f) (Some timeout);
        match f with
        | None => Fault
        | Some f => if ret =? 0 then rest ← walk_loop fuel (S n) keep_running timeout f s; Ok (text ++ rest) else Ok text
        end
  end.
End Loop.
End Capwalk.

Definition capwalk (e : env) (strdup : bytes -> cptr) (bpf_filter : list bpf_insn -> bytes -> Z -> Z -> Z) (read_fuel : nat)
    (utc : Z -> bytes) (stack : bytes) (sigints : nat -> nat) (stdin_tty : bool) (dev_stdin : Z) (dash : cptr)
    (fuel : nat) (f : option filter) (found : list (Z * bytes)) (args : list cptr) : res (outcome (list bytes)) :=
  match f with
  | None => Ok (Exit 0)
  | Some f =>
      match read_options false default_options found with
      | Exit code => Ok (Exit code)
      | Done o =>
          '(st, ret, _) ← stream_from_getopt e strdup stdin_tty dev_stdin args (o_iface o) (Some dash) 0;
          if negb (ret =? 0) then Ok (Exit ret)
          else match st : option stream_t with
               | None => Fault
               | Some st =>
                   r ← walk_loop utc stack sigints (fun st f tv => stream_t_read bpf_filter read_fuel st f tv) (fun st => stat_read (stream_get_stat st))
                         fuel 0 true (o_timeout o) f st;
                   Ok (Done r)
               end
      end
  end.

(** ** ifstat *)
Definition bool_text (x : bool) : bytes := if x then B "yes" else B "no".
Definition ifstat (sys : system) (args : list bytes) : res (bytes * Z) :=
  match args with
  | [] => Ok ([], 1)
  | name :: _ =>
      r ← iface_get sys name;
      match r with
      | inr _ => Ok ([], 1)
      | inl i =>
          n ← arr_str (if_name i);
          Ok (B "     if_name: " ++ n ++ nl ++ B "   if_hwaddr: " ++ hexdump_address (if_hwaddr i) ++ nl ++
              B "    if_index: " ++ fmt_d (if_index i) ++ nl ++ B "      if_mtu: " ++ fmt_d (iface_mtu i) ++ nl ++
              B "       if_up: " ++ bool_text (if_up i) ++ nl ++ B " if_loopback: " ++ bool_text (if_is_loopback i) ++ nl ++
              B "if_multicast: " ++ bool_text (if_multicast i) ++ nl, 0)
      end
  end.

(** ** What capwalk prints of a packet *)

(** The title of a header: the name of its protocol and its offset. *)
Definition title (x : option ptype * option Z) : bytes :=
  match x with
  | (Some t, Some p) => B "  " ++ ucfirst (match protocol_get t with Some pr => pr_name pr | None => [] end) ++ B " @ " ++ dec p ++ nl
  | _ => B "Unknown protocol" ++ nl
  end.

(** Every header of the walk is printed once, in the order of the packet. *)
Lemma dump_headers_walk stack fuel h text : dump_headers stack fuel h = Ok text ->
  exists l dumps, walk fuel h = Ok l /\ length dumps = length l /\ text = concat (zip_with (fun x d => title x ++ d) l dumps).
Proof.
  revert h text. induction fuel as [|fuel IH]; intros h text; [discriminate|]. cbn [dump_headers walk]. intros H.
  apply bind_Ok_inv in H as ([h1 more] & -> & H). cbn [mbind res_bind]. destruct more; cbn [negb] in H; [|injection H as <-; by exists [], []].
  apply bind_Ok_inv in H as (t & Ht & H). apply bind_Ok_inv in H as (rest & Hr & H). injection H as <-.
  destruct (IH h1 rest Hr) as (l & dumps & -> & Hl & ->). cbn [mbind res_bind].
  assert (Hd : exists d, t = title (protocol h1, ptr h1) ++ d).
  { unfold title. destruct (protocol h1) as [ty|] eqn:Ep; [|exists []; rewrite app_nil_r; congruence].
    unfold current in Ht. rewrite Ep in Ht. destruct (protocol_get ty) as [pr|]; [|discriminate]. cbn [mbind res_bind] in Ht.
    destruct (ptr h1) as [p|]; [|discriminate]. apply bind_Ok_inv in Ht as (d & _ & [= <-]). exists d. by rewrite <- !(assoc_L (++)). }
  destruct Hd as [d ->]. exists ((protocol h1, ptr h1) :: l), (d :: dumps). split_and!; [done|cbn; lia|done].
Qed.

Lemma handle_packet_headers utc stack read cp text r : handle_packet utc stack read cp = Ok (text, r) ->
  r = 0 /\ exists l dumps, walk_packet cp = Ok l /\ length dumps = length l /\
    text = packet_title read ++ dpmi_lines utc cp ++ concat (zip_with (fun x d => title x ++ d) l dumps).
Proof.
  unfold handle_packet. intros H. apply bind_Ok_inv in H as (t & Ht & [= <- <-]). split; [done|].
  destruct (dump_headers_walk _ _ _ _ Ht) as (l & dumps & Hw & Hl & ->). by exists l, dumps.
Qed.

(** ** The loop *)
Section Loop.
Variable utc : Z -> bytes.
Variable stack : bytes.
Context {T : Type}.
Variable read : T -> option filter -> option timeval -> res (T * option filter * (Z * option cap_header)).
Variable count_read : T -> Z.
Variable timeout : timeval.

(** The packets that [k] calls deliver, each with the counter of the stream, until the stream ends. *)
Inductive delivers : nat -> T -> filter -> list (Z * cap_header) -> Prop :=
  | delivers_end s f s' f' ret cp : read s (Some f) (Some timeout) = Ok (s', Some f', (ret, cp)) -> ret <> 0 -> ret <> EAGAIN -> delivers 1 s f []
  | delivers_timeout k s f s' f' cp l : read s (Some f) (Some timeout) = Ok (s', Some f', (EAGAIN, cp)) -> delivers k s' f' l -> delivers (S k) s f l
  | delivers_packet k s f s' f' cp l : read s (Some f) (Some timeout) = Ok (s', Some f', (0, Some cp)) -> delivers k s' f' l ->
      delivers (S k) s f ((count_read s', cp) :: l).

(** Without interrupts the program prints one text for each of them and ends with the stream. *)
Lemma walk_loop_ok sigints k s f l texts : delivers k s f l -> (forall i, sigints i = 0%nat) ->
  Forall2 (fun x t => handle_packet utc stack (fst x) (snd x) = Ok (t, 0)) l texts ->
  forall fuel n, (k <= fuel)%nat -> walk_loop utc stack sigints read count_read fuel n true timeout f s = Ok texts.
Proof.
  intros Hd Hs. revert texts. induction Hd as [s f s' f' ret cp Hn H0 Ha|k s f s' f' cp l Hn Hd IH|k s f s' f' cp l Hn Hd IH];
    intros texts Ht fuel n Hk; (destruct fuel as [|fuel]; [lia|]); cbn [walk_loop]; rewrite Hs; cbn [interrupts mbind res_bind negb];
    unfold stream_read_cb; cbv zeta; change (default _ (Some timeout)) with timeout; rewrite Hn; cbn [mbind res_bind].
  - apply Forall2_nil_inv_l in Ht as ->. rewrite (proj2 (Z.eqb_neq _ _) Ha), (proj2 (Z.eqb_neq _ _) H0). cbn [negb].
    destruct ((ret =? -1) || (ret =? EINTR)); cbn [mbind res_bind]; by rewrite (proj2 (Z.eqb_neq _ _) H0).
  - rewrite Z.eqb_refl. cbn [mbind res_bind Z.eqb]. by rewrite (IH texts Ht) by lia.
  - apply Forall2_cons_inv_l in Ht as (t & ts & Ht & Hts & ->). cbn [fst snd] in Ht. change (0 =? EAGAIN) with false. change ((0 =? -1) || (0 =? EINTR)) with false.
    cbn [Z.eqb negb]. rewrite Ht. cbn [mbind res_bind Z.eqb]. by rewrite (IH ts Hts) by lia.
Qed.
End Loop.

(** ** Behaviour at the limits *)

(** The limits [-p] and [-c] are read but have no effect, although the help text describes them. *)
Lemma capwalk_ignores_limits e strdup bpf rf utc stack sig tty dev dash fuel f op v found args : op = 112 \/ op = 99 ->
  capwalk e strdup bpf rf utc stack sig tty dev dash fuel f ((op, v) :: found) args =
  capwalk e strdup bpf rf utc stack sig tty dev dash fuel f found args.
Proof.
  intros Hop. destruct f as [f|]; [|done].
  assert (G : forall o o', o_iface o = o_iface o' -> o_timeout o = o_timeout o' ->
    match read_options false o found, read_options false o' found with
    | Done a, Done b => o_iface a = o_iface b /\ o_timeout a = o_timeout b
    | Exit a, Exit b => a = b
    | _, _ => False
    end).
  { clear. induction found as [|[p w] found IH]; intros o o' E1 E2; cbn [read_options]; [done|].
    repeat (match goal with |- match (if ?b then _ else _) with Done _ => _ | Exit _ => _ end => destruct b end; [first [apply IH; cbn; congruence | done]|]).
    by apply IH. }
  unfold capwalk. assert (E : read_options false default_options ((op, v) :: found) = read_options false
    (if op =? 112 then default_options <| o_max_packets := u32 (atoi v) |> else default_options <| o_max_matched := u32 (atoi v) |>) found)
    by (destruct Hop as [-> | ->]; reflexivity).
  rewrite E. specialize (G (if op =? 112 then default_options <| o_max_packets := u32 (atoi v) |> else default_options <| o_max_matched := u32 (atoi v) |>) default_options).
  destruct (read_options false (if op =? 112 then _ else _) found) as [a|a], (read_options false default_options found) as [b|b];
    specialize (G ltac:(by destruct (op =? 112)) ltac:(by destruct (op =? 112))); [by destruct G as [-> ->]|done|done|by subst].
Qed.

(** ** Interfaces *)

(** Without an argument, or when the interface is not known, the exit code is 1. *)
Lemma ifstat_unknown sys name args code : iface_get sys name = Ok (inr code) -> ifstat sys (name :: args) = Ok ([], 1).
Proof. intros H. cbn. by rewrite H. Qed.
(** A name that fits with its terminator is printed as it was given. *)
Lemma ifstat_name sys name args text : ifstat sys (name :: args) = Ok (text, 0) -> blen name < IFNAMSIZ -> Forall (fun c => c <> 0) name ->
  exists rest, text = B "     if_name: " ++ name ++ nl ++ rest.
Proof.
  unfold ifstat. intros H Hn Hz. apply bind_Ok_inv in H as (r & Hr & H). destruct r as [i|]; [|discriminate]. apply bind_Ok_inv in H as (n & Hs & [= <-]).
  assert (Ei : if_name i = interface_name name).
  { unfold iface_get in Hr. repeat (case_match; try discriminate Hr). by injection Hr as <-. }
  destruct (interface_name_short name Hn) as (k & E & _). rewrite Ei, E in Hs. cbn [replicate] in Hs. rewrite arr_str_nul in Hs by done.
  injection Hs as <-. eexists. reflexivity.
Qed.
